(* ===== verification/_CoqProject ===== *)
-Q . S2P
Prelude.v
GoHeap.v
DeepCopy.v
KubeObjects.v
Types.v
ClusterApi.v
Server.v
K8sUtil.v
Pods.v
FakeCluster.v
Samples.v
Generator.v
PodExec.v
NodeOperations.v
StorageUpsize.v
StatefulSets.v
ClusterPods.v
Status.v
Decommission.v
PodOperations.v
ScaleDown.v
ChangeChecks.v
Reconcile.v
Disruption.v
RackScaleDown.v
StorageGrows.v
GeneratedSets.v
BackupTypes.v
Sidecar.v
FakeSidecar.v
Backup.v
Restore.v
Liveness.v
MultiCasskop.v
MultiConverges.v
Startup.v
