(* ===== verification/Prelude.v ===== *)
(** * CassKop: a verification of the operators

    CassKop is a Kubernetes operator for Cassandra clusters.  A [CassandraCluster]
    resource describes data centres and racks; for each rack the operator keeps one
    statefulset.  A reconcile loop reads the resource, refuses changes that may not
    happen, goes through the racks in their order, computes for each rack its phase
    and the action to take, runs operations on pods, generates the statefulset and
    writes it and the status back.  Two more controllers run backups and restores
    through a side car next to each Cassandra node, and a second operator,
    MultiCassKop, keeps the [CassandraCluster] resources of several Kubernetes
    clusters.  This library models these loops with everything they call, from the
    Go sources under src/, and proves what makes them safe for the data.

    ** The files

    - [Prelude] (this file): record updates [r <| f := v |>], Go's tests, panics
      ([outcome]), strings, and lemmas on lists and integers.
    - [GoHeap], [DeepCopy] (api/v2/zz_generated.deepcopy.go and that of multi-casskop):
      a heap of Go cells, and over it every generated deep copy of the resources.
    - [KubeObjects], [Types]: the Kubernetes objects and the resource, as records
      with the fields the operator reads or writes (src/api/v2).
    - [ClusterApi]: the methods of the resource (cassandracluster_types.go): names
      of racks, node counts, seeds, defaults, the list of racks in the status.
    - [Server]: requests to the outside world, the class [ApiServer] of worlds that
      answer them, the state [Env] the code shares (fields of the reconciler, the
      status of the loop, the global variables, the goroutines started), the monad
      [M W] of state and panics, and the logic [wp], [keeps], [safe],
      [total] to reason about it.
    - [K8sUtil] (pkg/k8s/util.go, pkg/util/util.go), [Pods] (pod.go, cassandrapod/,
      the API clients), [NodeOperations] (node_operations.go: Jolokia).
    - [Generator] (generator.go): the statefulset of a rack with its containers,
      volumes, claims, environment and node configuration, the services and the
      disruption budget.
    - [PodExec] (pkg/k8s/client_util.go): a second client, and commands on pods.
    - [StorageUpsize] (storageupsize/, storage_upsize_adapter.go): the seven steps
      that grow the volumes of a rack.
    - [StatefulSets] (statefulset.go, poddisruptionbudget.go, deploy_cassandra.go):
      what of a generated statefulset goes out, and the disruption budget.  The
      generator is the class [StatefulSetGenerator] here, and [GeneratedSets] gives
      its instance from [Generator] and composes the theorems of both.
    - [ClusterPods] (CheckPodsState, hasJoiningNodes, addPodOperationLabels).
    - [Status] (cassandra_status.go): the phase and the actions of a rack.
    - [Decommission], [PodOperations] (pod_operation.go): the state machine of a
      scale down, and cleanup, rebuild, upgradesstables and remove on pods.
    - [ChangeChecks] (reconcile.go, CheckNonAllowedChanges): refused changes.
    - [Reconcile] (reconcile.go, cassandracluster_controller.go): the loop.
    - [Disruption]: the loop over the racks while a pod is missing.
    - [RackScaleDown]: the decommission and the loop put together, on a rack that is to
      lose a node.
    - [BackupTypes] (api/v2: backrest.go, cassandrabackup_types.go,
      cassandrarestore_types.go): the resources of backups and restores.
    - [Sidecar] (pkg/backrest, pkg/cassandrabackup, controllers/common,
      pkg/errorfactory): the client of the side car, and the world [BackupServer],
      requests [BReq] and state [BEnv] of the backup and restore controllers.
    - [Backup] (controllers/cassandrabackup): the loop, the scheduler and the
      goroutine that follows a backup.
    - [Restore] (controllers/cassandrarestore): the loop of a restore.
    - [ScaleDown], [StorageGrows], [Liveness], [MultiConverges]: what was begun comes to
      its end when the world cooperates: a decommission, a storage upsize, restores and
      backups, the resources of several Kubernetes clusters.
    - [MultiCasskop] (multi-casskop/controllers): the loop over the clusters.
    - [Startup] (main.go, multi-casskop/main.go, NewController): the start of the two
      operators, as programs over the calls into the runtime libraries.
    - [FakeCluster], [Samples], [FakeSidecar]: in-memory servers and codecs on which
      the theorems about arbitrary worlds are instantiated and whole loops are run
      ([Reconcile.cluster_comes_up] and [GeneratedSets.generated_cluster_comes_up]
      bring up a cluster of two racks from nothing, [Restore.restore_completes]
      follows a restore to its end).

    ** How the code is represented

    A function without effects is a function; one that can panic returns an
    [outcome]; one that talks to the outside or changes shared objects is a program
    in [M W], [BM W] or [MM W], which are instances of [GoM].  The status map holds
    pointers in Go, and every access goes through the key: an assignment through a
    pointer is an update of the entry, and a missing entry is a nil dereference, a
    panic.  [rcc.cc], the copy of the status a loop works on, the stored statefulset
    and budget, [needUpdate], the channel of finished operations and the list of
    goroutines are fields of [Env].  Backups live in a heap of [BEnv], because the
    closures of the cron client and the goroutines keep the address of the object a
    loop read.  Every request and its answer is kept in a log, in order; safety
    theorems speak about that log and hold for every world, also one that fails,
    races or lies.  int32 replica counts and bandwidths wrap ([wrap32]); float64
    arithmetic is that of [SpecFloat] for the progress of an operation, and the
    rounding of an int64 for the heap.

    Third-party code is a class: [QuantityLib] (with the laws [QuantityLaws] where a
    theorem compares sizes and [QuantityConstants] for the sizes in the code),
    [StsCodec], [ConfigCodec] and [BackupCodec] (JSON, annotations, zip), [PatchLib]
    (comparison of statefulsets), [SliceDiff] and [TopologyDiff] (r3labs/diff),
    [GabsLib] (JSON trees), [AnnotatorLib], [CronLib] (robfig/cron), [IcarusLib] and
    [ErrorDecoder] (decoding of answers), [MultiLib] (mergo, semantic equality),
    [ExternalTypes] (layout and deep copies of Kubernetes' own types), [ClientGo].
    The classes [...Laws] state what their documentation promises.  The order in
    which Go ranges over a map is the class [MapOrder].

    ** What the theorems show

    - Scaling: an update moves the replicas by one ([sts_scaled_one_by_one]); the
      statefulset of a rack that scales down is released only when its node is out of
      the ring ([scale_down_after_leaving_ring]), one node at a time
      ([decommission_one_node]), and a claim is deleted only when its pod is gone
      ([claim_deleted_after_pod_gone]); [decommission_state_machine] gives the states
      of the code.  [statefulset_waits_for_node] carries this through the work on a
      rack: with the action ScaleDown planned or ongoing, a decommission that is not
      done and the next operation not unlocked no statefulset is written before the
      node is out, unless a reading of the statefulset failed.  Before the scale down
      is planned there is no such guard: [shrunk_with_new_image] and
      [shrunk_within_delay] are runs that shrink a rack and ask no node to leave;
      [finalizing_keeps_statefulset] is why a lost update is not made up for.
    - One change at a time: [one_action_at_a_time] within a rack,
      [one_rack_at_a_time] and [at_most_one_statefulset_changed] within a loop,
      [multi_run_writes] over Kubernetes clusters; [next_action_is_planned] and
      [action_end_justified] say which action starts and when it may be declared
      over; [rack_step_frame] that nothing else changes.
    - Phases: [rack_phase_follows_replicas], [cluster_phase_follows_racks].
    - Generation: [generator_total] (it returns, and when it fails),
      [generator_deterministic], [cassandra_mounts_declared],
      [removeDuplicate_reference], [selectors_match_pods], [user_config_kept],
      [heap_bounds], [seed_list_roundtrip]; [rack_written_from_resource] carries them
      to what is sent to the API server.
    - Updates of a statefulset keep seeds, storage and labels
      ([sts_seeds_kept], [sts_storage_and_labels_kept]), and the loop over the racks
      waits out a disruption but for a storage upsize
      ([disruption_holds_statefulsets]); seed lists are released together
      ([seed_list_released_together], [seed_list_released_when_configured]).
    - Storage: [upsize_requests_safe], [upsize_done_justified],
      [upsize_snapshot_roundtrip], [revert_storage_spec], [capacity_never_shrinks].
    - Refusals: [dc_deleted_only_when_empty], [scale_to_zero_needs_no_data],
      [rename_refused]; [removed_last_dc1_unchecked] and [second_dc_unchecked] are
      changes that get past them.
    - Pods: [operations_started_on_request], [no_operation_while_joining],
      [operation_reports_once], [finalize_moves_pod], [finalize_takes_half],
      [pod_deleted_only_on_cross_ip], [GetLastPod_highest].
    - Backups: [backup_started_checked], [scheduler_refines] and
      [scheduler_consistent] (entries and cron jobs implement one map, over every
      interleaving of runs, goroutines and jobs), [backup_goroutine_reports],
      [invalid_schedule_stays]; [entities_normalised], [bandwidth_read] and
      [progress_within_one] on the texts exchanged with the side car.
    - Restores: [restore_run_steps] (a step relation, each step with the answers of
      the run it rests on) and [restore_launched_once] over sequences of runs.
    - Ends, for worlds that cooperate (the assumption is a record of what each request is
      answered with, and an instance shows that it can hold): [decommission_comes_to_an_end],
      [upsize_comes_to_an_end], [restore_comes_to_an_end] (the number of loops, each due
      after the last), [backup_comes_to_an_end] (the whole trace of the goroutine),
      [multi_converges] (the number of runs, after which nothing is written).  What the
      resource itself must be is a hypothesis of its own ([upsize_wanted],
      [attainable]); a rolling restart asked for through MultiCassKop never comes to its
      end ([rolling_restart_blocks]).
    - Memory: [deep_copies_independent] (a deep copy is equal to the original and
      shares nothing with it), on which every value semantics in the other files
      rests; [deep_copy_object].
    - Start: [casskop_starts_in_order], [multi_starts_in_order] (what is called in
      which order, and the exit code of each failure), [resync_period_ignored];
      [exec_guarded], [exec_refused_on_racks], [init_client_source] for commands.
    - The resource: round trip of rack names, node counts, seeds, rack lists, the
      name of a removed data centre, merged seed lists.

    ** Bounds and fuel

    Polling loops run the number of rounds their timeout allows: five readings of a
    statefulset's revision, thirty of a claim being deleted, twenty of the budget.
    Three loops of the source have no bound, the finalisation of an operation, the
    monitor of one and the ticker of a backup; they take fuel, report whether they
    ended, and the theorems that need an end say so.  The loop over the channel of
    finished operations takes one element per round, so its length is enough;
    [addSeeds] places at most three seeds; a duration has at most as many numbers as
    characters.  A theorem about a program holds of all its runs that do not panic;
    where the code can be shown to return, the theorem says so.

    ** What is not modelled

    Log messages and the texts of events and wrapped errors; the calendar behind
    label time stamps (a time is a number of nanoseconds); the interleaving of
    goroutines with the cluster loop (a goroutine is recorded as a task and
    [run_task] runs it on its own) and, for backups, interleavings finer than whole
    runs; the deferred update of a status when a loop panics; what the runtime library does with a registered controller or watch
    (queues, caches, retries); the scheme builders (groupversion_info.go); the
    constants of pkg/common/operations, which nothing uses; and the doubles of tests
    (mock_client.go, the stubs, controllers/common/testutils.go). *)
From Stdlib Require Export Ascii.
From stdpp Require Export base gmap strings list list_numbers sorting pretty fin_maps.

(** ** Record update

    [r <| f := v |>] is Go's assignment [r.f = v] seen functionally, and
    [r <| f ::= g |>] is [r.f = g(r.f)].  The updater of a projection is
    computed from the eta expansion of the record, declared once per record as
    an instance of [Eta]. *)
Class Eta (R : Type) := eta : R → R.
Class Updater {R T : Type} (proj : R → T) := updater : (T → T) → R → R.

Ltac solve_updater :=
  match goal with
  | |- @Updater ?R ?T ?proj =>
      let body := constr:(@eta R _) in
      let body := eval hnf in body in
      match eval pattern proj in body with
      | ?ctx _ => exact (λ (g : T → T) (r : R), ctx (λ x, g (proj x)) r)
      end
  end.

#[export] Hint Extern 0 (Updater _) => solve_updater : typeclass_instances.

Definition upd {R T} (proj : R → T) {U : Updater proj} (g : T → T) (r : R) : R := U g r.

Declare Scope go_scope.
Delimit Scope go_scope with go.
Notation "r <| f ::= g |>" := (upd f g r)
  (at level 1, f at next level, left associativity) : go_scope.
Notation "r <| f := v |>" := (upd f (λ _, v) r)
  (at level 1, f at next level, v at level 200, left associativity) : go_scope.
Open Scope go_scope.


(** ** Decidable tests

    Go's [==] on comparable values.  [bool_decide] keeps the proposition in
    sight, so that [case_bool_decide] recovers it in proofs. *)
Notation "a == b" := (bool_decide (a = b)) (at level 70, no associativity) : go_scope.
Notation "a != b" := (negb (bool_decide (a = b))) (at level 70, no associativity) : go_scope.

(** ** Panics

    A Go function either returns or panics (nil dereference, index out of
    range).  [outcome] is the result of such a function. *)
Inductive outcome (A : Type) : Type :=
| Ret (a : A)
| Panic.
Arguments Ret {A} _.
Arguments Panic {A}.

#[export] Instance outcome_ret : MRet outcome := λ A, Ret.
#[export] Instance outcome_bind : MBind outcome := λ A B f m,
  match m with Ret a => f a | Panic => Panic end.
#[export] Instance outcome_eq_dec {A} `{EqDecision A} : EqDecision (outcome A).
Proof. solve_decision. Defined.

(** [o]: the value behind a pointer, with the nil dereference as a panic. *)
Definition deref {A} (o : option A) : outcome A :=
  match o with Some a => Ret a | None => Panic end.

(** [l[i]] with Go's bounds check; a negative index panics as well. *)
Definition index {A} (l : list A) (i : Z) : outcome A :=
  if bool_decide (i < 0)%Z then Panic else deref (l !! Z.to_nat i).

Definition returns {A} (P : A → Prop) (m : outcome A) : Prop :=
  match m with Ret a => P a | Panic => False end.

(** ** State and panic

    Code that mutates a shared object or talks to the API server is a
    computation [S → outcome (A * S)]. *)
Definition GoM (S A : Type) : Type := S → outcome (A * S).

#[export] Instance GoM_ret {S} : MRet (GoM S) := λ A a s, Ret (a, s).
#[export] Instance GoM_bind {S} : MBind (GoM S) := λ A B f m s,
  match m s with Ret (a, s') => f a s' | Panic => Panic end.

Section gom.
Context {S : Type}.

Definition get : GoM S S := λ s, Ret (s, s).
Definition put (s : S) : GoM S unit := λ _, Ret (tt, s).
Definition gets {A} (f : S → A) : GoM S A := λ s, Ret (f s, s).
Definition modify (f : S → S) : GoM S unit := λ s, Ret (tt, f s).
Definition panic {A} : GoM S A := λ _, Panic.
Definition lift {A} (o : outcome A) : GoM S A := λ s,
  match o with Ret a => Ret (a, s) | Panic => Panic end.

(** [for _, x := range l { body }] where the body may return early with
    [Some r]; [None] goes on to the next element. *)
Fixpoint range_return {A R} (l : list A) (body : A → GoM S (option R)) : GoM S (option R) :=
  match l with
  | [] => mret None
  | x :: l => r ← body x; match r with Some v => mret (Some v) | None => range_return l body end
  end.

Fixpoint range_do {A} (l : list A) (body : A → GoM S unit) : GoM S unit :=
  match l with
  | [] => mret tt
  | x :: l => _ ← body x; range_do l body
  end.

(** Partial-correctness-free specification: from [s] the computation
    returns, and its result and final state satisfy [Q]. *)
Definition run_spec {A} (m : GoM S A) (s : S) (Q : A → S → Prop) : Prop :=
  returns (λ '(a, s'), Q a s') (m s).
End gom.

(** The same early-return loop for pure code. *)
Fixpoint find_map {A B} (f : A → option B) (l : list A) : option B :=
  match l with
  | [] => None
  | x :: l => match f x with Some b => Some b | None => find_map f l end
  end.

(** ** Nilable slices

    Where the source distinguishes [nil] from an empty slice, a slice is an
    [option (list A)]; [elems] is what [range] sees. *)
Definition elems {A} (s : option (list A)) : list A := default [] s.

(** ** Ranges over maps

    [for k, v := range m] visits every entry once, in an order the language does not
    fix. *)
Class MapOrder := {
  map_range : ∀ {A : Type}, gmap string A → list (string * A);
  map_range_perm : ∀ {A : Type} (m : gmap string A), map_range m ≡ₚ map_to_list m;
}.

(** ** Machine integers *)
Definition wrap32 (z : Z) : Z := ((z + 2 ^ 31) `mod` 2 ^ 32 - 2 ^ 31)%Z.
Definition int32_range (z : Z) : Prop := (- 2 ^ 31 ≤ z < 2 ^ 31)%Z.
Definition max_int64 : Z := (2 ^ 63 - 1)%Z.

(** ** Strings *)
Definition chars : string → list ascii := String.list_ascii_of_string.
Definition of_chars : list ascii → string := String.string_of_list_ascii.

(** Characters as code points, for the ranges of the regular expressions. *)
Definition code (c : ascii) : N := Ascii.N_of_ascii c.
Definition in_range (lo hi : N) (c : ascii) : bool := ((lo <=? code c) && (code c <=? hi))%N.
Definition is_lower (c : ascii) : bool := in_range 97 122 c.
Definition is_digit (c : ascii) : bool := in_range 48 57 c.
Definition is_dash (c : ascii) : bool := (code c =? 45)%N.

(** [strings.Split(s, sep)] for a one-character separator. *)
Fixpoint split_chars (sep : ascii) (l : list ascii) : list (list ascii) :=
  match l with
  | [] => [[]]
  | c :: l =>
      if bool_decide (c = sep) then [] :: split_chars sep l
      else match split_chars sep l with
           | [] => [[c]]
           | w :: ws => (c :: w) :: ws
           end
  end.
Definition Split (s : string) (sep : ascii) : list string :=
  of_chars <$> split_chars sep (chars s).

(** [strings.Join]. *)
Fixpoint Join (l : list string) (sep : string) : string :=
  match l with
  | [] => ""
  | [s] => s
  | s :: l => s +:+ sep +:+ Join l sep
  end.

(** [strings.ToUpper], on ASCII letters *)
Definition to_upper (c : ascii) : ascii := if is_lower c then Ascii.ascii_of_N (code c - 32) else c.
Definition ToUpper (s : string) : string := of_chars (to_upper <$> chars s).

(** [strings.HasPrefix]. *)
Definition HasPrefix (s pre : string) : bool := String.prefix pre s.

(** [strings.Contains]: some suffix of [s] starts with [sub]. *)
Fixpoint Contains_sub (sub s : string) : bool :=
  String.prefix sub s || match s with EmptyString => false | String _ s => Contains_sub sub s end.

(** [%d] and [strconv.Itoa]. *)
Definition Itoa (z : Z) : string := pretty z.

(** The value of a digit string, most significant digit first. *)
Definition digits_value (l : list ascii) : Z :=
  foldl (λ acc c, 10 * acc + Z.of_N (code c - 48))%Z 0%Z l.

(** [strconv.Atoi] on a string of digits, its error ignored: the empty string
    gives 0 and an out-of-range number saturates. *)
Definition Atoi_digits (l : list ascii) : Z := Z.min max_int64 (digits_value l).

(** ** Automation

    [go_cases] splits on the tests and matches of the code under scrutiny and
    closes the branches that the hypotheses exclude; [casskop] collects the
    lemmas that discharge routine side conditions. *)
Create HintDb casskop.

Ltac go_step :=
  match goal with
  | |- context [bool_decide ?P] => case_bool_decide
  | H : context [bool_decide ?P] |- _ => case_bool_decide
  | H : (?a && ?b) = true |- _ => apply andb_true_iff in H as [? ?]
  | H : (?a || ?b) = false |- _ => apply orb_false_iff in H as [? ?]
  | H : negb _ = true |- _ => apply negb_true_iff in H
  | H : negb _ = false |- _ => apply negb_false_iff in H
  end.

Ltac go_cases := repeat (first [go_step | case_match]; simplify_eq/=).
Ltac go_solve := go_cases; eauto with casskop; try done.

(** Inverts an equation [m s = Ret (a, s')] where [m] is a chain of binds, one
    bind at a time. *)
Ltac bind_inv H :=
  match type of H with
  | context [match ?m with Ret _ => _ | Panic => Panic end] =>
      let E := fresh "E" in destruct m as [[? ?]|] eqn:E; [simpl in H|discriminate H]
  end.

(** ** Lemmas on outcomes and loops *)
Lemma returns_ret {A} (P : A → Prop) a : P a → returns P (Ret a).
Proof. done. Qed.

Lemma returns_mono {A} (P Q : A → Prop) m :
  (∀ a, P a → Q a) → returns P m → returns Q m.
Proof. destruct m; simpl; auto. Qed.

Lemma index_spec {A} (l : list A) i a :
  index l i = Ret a ↔ (0 ≤ i)%Z ∧ l !! Z.to_nat i = Some a.
Proof.
  unfold index, deref. case_bool_decide; [split; [done|lia]|].
  destruct (l !! Z.to_nat i); split; intros; destruct_and?; simplify_eq; auto with lia.
Qed.

Lemma index_panic {A} (l : list A) i :
  index l i = Panic ↔ (i < 0 ∨ Z.of_nat (length l) ≤ i)%Z.
Proof.
  unfold index, deref. case_bool_decide; [tauto|].
  destruct (l !! Z.to_nat i) eqn:E.
  - apply lookup_lt_Some in E. split; [done|lia].
  - apply lookup_ge_None in E. split; [lia|done].
Qed.

Lemma find_map_Some {A B} (f : A → option B) l b :
  find_map f l = Some b → ∃ x, x ∈ l ∧ f x = Some b.
Proof.
  induction l as [|x l IH]; simpl; [done|].
  destruct (f x) eqn:E; intros; simplify_eq.
  - exists x. split; [left|done].
  - destruct IH as (y & ? & ?); [done|]. exists y. split; [by right|done].
Qed.

Lemma find_map_None {A B} (f : A → option B) l :
  find_map f l = None ↔ ∀ x, x ∈ l → f x = None.
Proof.
  induction l as [|x l IH]; simpl; [set_solver|].
  destruct (f x) eqn:E.
  - split; [done|]. intros H. by rewrite H in E by left.
  - rewrite IH. set_solver.
Qed.

Lemma find_map_first {A B} (f : A → option B) l b :
  find_map f l = Some b → ∃ l1 x l2, l = l1 ++ x :: l2 ∧ (∀ y, y ∈ l1 → f y = None) ∧ f x = Some b.
Proof.
  induction l as [|x l IH]; simpl; [done|]. destruct (f x) as [b'|] eqn:E; intros H.
  - exists [], x, l. split; [done|]. split; [intros y []%elem_of_nil|congruence].
  - destruct (IH H) as (l1 & x' & l2 & -> & Hl1 & Hx). exists (x :: l1), x', l2. split; [done|].
    split; [|done]. intros y [->|]%elem_of_cons; auto.
Qed.

(** ** Lemmas on machine integers *)
Lemma wrap32_id z : int32_range z → wrap32 z = z.
Proof. unfold int32_range, wrap32. intros. rewrite Z.mod_small; lia. Qed.

Lemma wrap32_range z : int32_range (wrap32 z).
Proof. unfold int32_range, wrap32. pose proof (Z.mod_pos_bound (z + 2 ^ 31) (2 ^ 32)). lia. Qed.

(** ** Lemmas on strings *)
Lemma chars_app a b : chars (a +:+ b) = chars a ++ chars b.
Proof. induction a as [|c a IH]; [done|]. simpl. by rewrite <- IH. Qed.

Lemma of_chars_chars s : of_chars (chars s) = s.
Proof. apply String.string_of_list_ascii_of_string. Qed.

Lemma chars_of_chars l : chars (of_chars l) = l.
Proof. apply String.list_ascii_of_string_of_list_ascii. Qed.

Lemma chars_inj a b : chars a = chars b → a = b.
Proof. intros H. by rewrite <- (of_chars_chars a), H, of_chars_chars. Qed.

Lemma string_app_assoc (a b c : string) : (a +:+ b) +:+ c = a +:+ (b +:+ c).
Proof. apply chars_inj. by rewrite !chars_app, <- (assoc_L (++)). Qed.

Lemma string_app_nil_r (a : string) : a +:+ "" = a.
Proof. apply chars_inj. rewrite chars_app. apply app_nil_r. Qed.

Create Rewrite HintDb casskop_strings.
#[export] Hint Rewrite chars_app of_chars_chars chars_of_chars : casskop_strings.

Lemma split_chars_cons_ne sep l : split_chars sep l ≠ [].
Proof. destruct l; simpl; [done|]. case_bool_decide; [done|]. by case_match. Qed.

Lemma split_chars_no_sep sep l : sep ∉ l → split_chars sep l = [l].
Proof.
  induction l as [|c l IH]; intros Hl; simpl; [done|].
  rewrite not_elem_of_cons in Hl. destruct Hl.
  rewrite bool_decide_false by done. by rewrite IH.
Qed.

Lemma split_chars_app sep l r :
  sep ∉ l → split_chars sep (l ++ sep :: r) = l :: split_chars sep r.
Proof.
  induction l as [|c l IH]; intros Hl; simpl.
  - by rewrite bool_decide_true.
  - rewrite not_elem_of_cons in Hl. destruct Hl.
    rewrite bool_decide_false by done. by rewrite IH.
Qed.

Lemma Split_no_sep s sep : sep ∉ chars s → Split s sep = [s].
Proof. intros. unfold Split. rewrite split_chars_no_sep by done. simpl. by rewrite of_chars_chars. Qed.

Lemma Split_app a b sep :
  sep ∉ chars a → Split (a +:+ String sep b) sep = a :: Split b sep.
Proof.
  intros. unfold Split. rewrite chars_app. simpl.
  rewrite split_chars_app by done. simpl. by rewrite of_chars_chars.
Qed.

(** [strings.Split] undoes [strings.Join] on a non-empty list of words that do
    not contain the separator. *)
Lemma Split_Join (l : list string) sep :
  l ≠ [] → Forall (λ s, sep ∉ chars s) l → Split (Join l (String sep "")) sep = l.
Proof.
  induction l as [|s [|s' l] IH]; intros Hne Hl; [done|..].
  - simpl. inversion Hl; subst. by apply Split_no_sep.
  - inversion Hl as [|? ? Hs Hl']; subst.
    change (Join (s :: s' :: l) (String sep "")) with
      (s +:+ (String sep (Join (s' :: l) (String sep "")))).
    rewrite Split_app by done. f_equal. by apply IH.
Qed.

(** ** Lemmas on gmap-indexed records *)
Lemma alter_lookup_ne {V} (m : gmap string V) f i j :
  i ≠ j → alter f i m !! j = m !! j.
Proof. intros. by apply lookup_alter_ne. Qed.
#[export] Hint Resolve alter_lookup_ne : casskop.

(** ** Lemmas on ranges over maps *)
Lemma elem_of_map_range `{MapOrder} {A} (m : gmap string A) k a : (k, a) ∈ map_range m ↔ m !! k = Some a.
Proof. rewrite (map_range_perm m). apply elem_of_map_to_list. Qed.

Lemma NoDup_map_range `{MapOrder} {A} (m : gmap string A) : NoDup (map_range m).*1.
Proof. rewrite (map_range_perm m). apply NoDup_fst_map_to_list. Qed.

(** ** Lemmas on folds and permutations *)
(** Steps that can be exchanged give the same fold over a permutation. *)
Lemma foldl_exchange {A B} (f : B → A → B) b (l1 l2 : list A) :
  (∀ j1 a1 j2 a2 b, j1 ≠ j2 → l1 !! j1 = Some a1 → l1 !! j2 = Some a2 → f (f b a2) a1 = f (f b a1) a2) →
  l1 ≡ₚ l2 → foldl f b l1 = foldl f b l2.
Proof.
  intros Hf Hl. revert b. induction Hl as [|x l1 l2 _ IH|x y l|l1 l2 l3 Hl12 IH1 _ IH2]; intros b; [done|..].
  - apply IH. intros j1 a1 j2 a2 b' Hne H1 H2. by apply (Hf (S j1) a1 (S j2) a2); [lia|..].
  - cbn. f_equal. by apply (Hf 1 x 0 y).
  - rewrite IH1 by done. apply IH2. intros j1 a1 j2 a2 b' Hne H1 H2.
    apply symmetry, Permutation_inj in Hl12 as (_ & g & Hg & Hlk). rewrite Hlk in H1, H2.
    apply (Hf (g j1) a1 (g j2) a2); [|done..]. by intros ?%(inj g).
Qed.

Lemma bind_Permutation_ext {A B} (f g : A → list B) l :
  (∀ a, f a ≡ₚ g a) → l ≫= f ≡ₚ l ≫= g.
Proof. intros H. induction l as [|a l IH]; cbn; [done|]. by rewrite H, IH. Qed.
