(* ===== verification/GoHeap.v ===== *)
(** * Memory of the operators: values, cells and deep copies

    The components of this development read and write resources as values; the Go
    code holds them through pointers, slices and maps, and takes copies
    ([DeepCopy]) of what it is going to change.  This file models the memory those
    copies are made in: cells at locations, values that may hold locations, the
    statements the copy routines are made of, and what a deep copy is: the copy
    reads as the original did, from cells that did not exist before.

    [gtype] describes the declaration of a type, [read] is the tree that a value of
    that type stands for in a memory, and [copies] is the contract of a copy
    routine.  DeepCopy.v has the routines of the resources. *)
From Stdlib Require Import Floats.SpecFloat.
From S2P Require Import Prelude.

(** ** Values and cells *)
Abbreviation loc := positive (only parsing).

Inductive kind := KString | KInt | KBool | KFloat.
#[export] Instance kind_eq_dec : EqDecision kind.
Proof. solve_decision. Defined.

(** Values without a location in them; they are copied by an assignment. *)
Inductive basic := BString (s : string) | BInt (z : Z) | BBool (b : bool) | BFloat (f : spec_float).
Definition kind_of (b : basic) : kind :=
  match b with BString _ => KString | BInt _ => KInt | BBool _ => KBool | BFloat _ => KFloat end.

(** A slice is an array, the offset of its first element and its length; its
    capacity is not read by the copies.  [None] is nil. *)
Inductive gval :=
| VBase (b : basic)
| VStruct (fields : gmap string gval)
| VPtr (p : option loc)
| VSlice (s : option (loc * nat * nat))
| VMap (m : option loc).

Inductive cell :=
| CVal (v : gval)
| CArr (l : list gval)
| CMap (m : gmap string gval).

Abbreviation heap := (gmap loc cell).

(** ** Declarations of types *)
Inductive gtype :=
| TyBase (k : kind)
| TyStruct (fields : list (string * gtype))
| TyPtr (ty : gtype)
| TySlice (ty : gtype)
| TyMap (ty : gtype).

Definition TyString := TyBase KString.
Definition TyInt := TyBase KInt.
Definition TyBool := TyBase KBool.
Definition TyFloat := TyBase KFloat.

(** Induction on a declaration, with the hypothesis on every field. *)
Lemma gtype_nested_ind (P : gtype → Prop) :
  (∀ k, P (TyBase k)) → (∀ fs, Forall (λ f, P f.2) fs → P (TyStruct fs)) →
  (∀ ty, P ty → P (TyPtr ty)) → (∀ ty, P ty → P (TySlice ty)) → (∀ ty, P ty → P (TyMap ty)) →
  ∀ ty, P ty.
Proof.
  intros HB HS HP HSl HM. refine (fix IH ty := _). destruct ty as [k|fs|ty|ty|ty]; [apply HB| |apply HP, IH|apply HSl, IH|apply HM, IH].
  apply HS. induction fs as [|[n ty] fs IHfs]; constructor; [apply IH|apply IHfs].
Qed.

(** The value a variable of the type starts with. *)
Fixpoint zero (ty : gtype) : gval :=
  match ty with
  | TyBase KString => VBase (BString "")
  | TyBase KInt => VBase (BInt 0)
  | TyBase KBool => VBase (BBool false)
  | TyBase KFloat => VBase (BFloat (S754_zero false))
  | TyStruct fs => VStruct (list_to_map ((λ '(n, ty), (n, zero ty)) <$> fs))
  | TyPtr _ => VPtr None
  | TySlice _ => VSlice None
  | TyMap _ => VMap None
  end.

(** No value of the type holds a location: an assignment copies it. *)
Fixpoint flat (ty : gtype) : bool :=
  match ty with
  | TyBase _ => true
  | TyStruct fs => forallb (λ '(_, ty), flat ty) fs
  | _ => false
  end.

(** ** What a value stands for *)
Inductive gtree :=
| TBase (b : basic)
| TStruct (l : list gtree)
| TNil
| TPtr (t : gtree)
| TSlice (l : list gtree)
| TMap (m : gmap string gtree).

Definition all_entries {A} (m : gmap string (option A)) : option (gmap string A) :=
  if bool_decide (map_Forall (λ _ o, is_Some o) m) then Some (omap id m) else None.

Fixpoint read (h : heap) (ty : gtype) (v : gval) : option gtree :=
  match ty, v with
  | TyBase k, VBase b => if kind_of b == k then Some (TBase b) else None
  | TyStruct fs, VStruct vs => TStruct <$> mapM (λ '(n, ty), v ← vs !! n; read h ty v) fs
  | TyPtr _, VPtr None | TySlice _, VSlice None | TyMap _, VMap None => Some TNil
  | TyPtr ty, VPtr (Some l) =>
      match h !! l with Some (CVal v) => TPtr <$> read h ty v | _ => None end
  | TySlice ty, VSlice (Some (a, off, n)) =>
      match h !! a with
      | Some (CArr l) => if bool_decide (off + n ≤ length l)
                         then TSlice <$> mapM (read h ty) (take n (drop off l)) else None
      | _ => None
      end
  | TyMap ty, VMap (Some l) =>
      match h !! l with Some (CMap m) => TMap <$> all_entries (read h ty <$> m) | _ => None end
  | _, _ => None
  end.

(** ** Statements of the copy routines *)
Definition heapM (A : Type) := GoM heap A.

Definition alloc (c : cell) : heapM loc := λ h, let l := fresh (dom h) in Ret (l, <[l := c]> h).
Definition load (l : loc) : heapM cell := λ h, lift (deref (h !! l)) h.
Definition store (l : loc) (c : cell) : heapM unit := modify <[l := c]>.
Definition load_val (l : loc) : heapM gval := c ← load l; match c with CVal v => mret v | _ => panic end.
Definition load_map (l : loc) : heapM (gmap string gval) :=
  c ← load l; match c with CMap m => mret m | _ => panic end.
(** [( *in )[i]] *)
Definition load_elem (a : loc) (i : nat) : heapM gval :=
  c ← load a; match c with CArr l => lift (deref (l !! i)) | _ => panic end.

Definition set_elem (i : nat) (v : gval) (c : cell) : cell :=
  match c with CArr l => CArr (<[i := v]> l) | c => c end.
Definition set_entry (k : string) (v : gval) (c : cell) : cell :=
  match c with CMap m => CMap (<[k := v]> m) | c => c end.
Definition update (o : loc) (f : cell → cell) : heapM unit := c ← load o; store o (f c).

Definition is_nil (v : gval) : bool :=
  match v with VPtr None | VSlice None | VMap None => true | _ => false end.

(** [if in.F != nil { in, out := &in.F, &out.F; ... }]: a nil stays, as [*out = *in]
    has copied it. *)
Definition unless_nil (f : gval → heapM gval) (v : gval) : heapM gval :=
  if is_nil v then mret v else f v.

(** [*out = new(T); ( *in ).DeepCopyInto( *out )] *)
Definition new_into (ty : gtype) (into : gval → heapM gval) (v : gval) : heapM gval :=
  match v with
  | VPtr (Some l) =>
      o ← alloc (CVal (zero ty));
      _ ← range_do [tt] (λ _, x ← load_val l; y ← into x; update o (λ _, CVal y));
      mret (VPtr (Some o))
  | _ => panic
  end.
(** [*out = new(T); **out = **in] *)
Definition new_value (ty : gtype) : gval → heapM gval := new_into ty mret.

(** [*out = make([]T, len( *in )); for i := range *in { ( *in )[i].DeepCopyInto(&( *out )[i]) }] *)
Definition make_each (ty : gtype) (into : gval → heapM gval) (v : gval) : heapM gval :=
  match v with
  | VSlice (Some (a, off, n)) =>
      o ← alloc (CArr (replicate n (zero ty)));
      _ ← range_do (seq 0 n) (λ i, x ← load_elem a (off + i); y ← into x; update o (set_elem i y));
      mret (VSlice (Some (o, 0, n)))
  | _ => panic
  end.
(** [*out = make([]T, len( *in )); copy( *out, *in )] *)
Definition make_copy (ty : gtype) : gval → heapM gval := make_each ty mret.

(** The same without a test of nil, as the routine of a slice type has it: the copy of
    nil is an empty slice. *)
Definition make_each_slice (ty : gtype) (into : gval → heapM gval) (v : gval) : heapM gval :=
  match v with
  | VSlice None => o ← alloc (CArr []); mret (VSlice (Some (o, 0, 0)))
  | _ => make_each ty into v
  end.

(** [*out = make(map[string]T, len( *in )); for key, val := range *in { ( *out )[key] = ... }] *)
Definition make_map `{MapOrder} (into : gval → heapM gval) (v : gval) : heapM gval :=
  match v with
  | VMap (Some l) =>
      o ← alloc (CMap ∅);
      m ← load_map l;
      _ ← range_do (map_range m) (λ entry, y ← into entry.2; update o (set_entry entry.1 y));
      mret (VMap (Some o))
  | _ => panic
  end.

(** A statement for a field of the structure, run after [*out = *in]. *)
Definition stmt : Type := string * (gval → heapM gval).

Definition field (v : gval) (n : string) : outcome gval :=
  match v with VStruct vs => deref (vs !! n) | _ => Panic end.
Definition set_field (n : string) (x : gval) (v : gval) : outcome gval :=
  match v with VStruct vs => Ret (VStruct (<[n := x]> vs)) | _ => Panic end.

Fixpoint exec (stmts : list stmt) (vin vout : gval) : heapM gval :=
  match stmts with
  | [] => mret vout
  | (n, f) :: stmts =>
      x ← lift (field vin n);
      y ← f x;
      vout ← lift (set_field n y vout);
      exec stmts vin vout
  end.
(** [*out = *in] and the statements *)
Definition body (stmts : list stmt) (vin : gval) : heapM gval := exec stmts vin vin.

(** [if in == nil { return nil }; out := new(T); in.DeepCopyInto(out); return out] *)
Definition DeepCopy (ty : gtype) (into : gval → heapM gval) (vin : gval) : heapM gval :=
  if is_nil vin then mret vin else new_into ty into vin.
(** [DeepCopyObject]: a nil pointer gives the nil interface. *)
Definition DeepCopyObject (ty : gtype) (into : gval → heapM gval) (vin : gval) : heapM (option loc) :=
  c ← DeepCopy ty into vin;
  match c with VPtr p => mret p | _ => panic end.

(** ** The contract of a copy routine

    Run on a value that stands for [t], the routine ends; it adds cells and leaves
    those that were there; and its result stands for [t] in the added cells alone,
    so that it shares nothing with the original. *)
Definition copies (ty : gtype) (f : gval → heapM gval) : Prop :=
  ∀ h v t, read h ty v = Some t →
  ∃ v' hn, hn ##ₘ h ∧ f v h = Ret (v', h ∪ hn) ∧ read hn ty v' = Some t.

(** ** Reading *)
Lemma all_entries_Some {A} (m : gmap string (option A)) m' : all_entries m = Some m' ↔ m = Some <$> m'.
Proof.
  unfold all_entries. case_bool_decide as Hm; split.
  - intros [= <-]. apply map_eq. intros k. rewrite lookup_fmap, lookup_omap.
    destruct (m !! k) as [[a|]|] eqn:E; [done| |done]. by destruct (Hm _ _ E).
  - intros ->. f_equal. apply map_eq. intros k. rewrite lookup_omap, lookup_fmap. by destruct (m' !! k).
  - done.
  - intros ->. destruct Hm. intros k o. rewrite lookup_fmap. destruct (m' !! k); intros [= <-]; eauto.
Qed.

Lemma all_entries_fmap {A B} (f : A → option B) m m' :
  all_entries (f <$> m) = Some m' ↔ map_relation (λ _ a b, f a = Some b) (λ _ _, False) (λ _ _, False) m m'.
Proof.
  rewrite all_entries_Some. split.
  - intros H k. apply (f_equal (.!! k)) in H. rewrite !lookup_fmap in H.
    destruct (m !! k), (m' !! k); simplify_eq/=; done.
  - intros H. apply map_eq. intros k. specialize (H k). rewrite !lookup_fmap.
    destruct (m !! k), (m' !! k); cbn in *; [by f_equal|done..].
Qed.

Lemma read_fields_Some h (vs : gmap string gval) fs ts :
  mapM (λ '(n, ty), v ← vs !! n; read h ty v) fs = Some ts ↔
  Forall2 (λ f t, ∃ v, vs !! f.1 = Some v ∧ read h f.2 v = Some t) fs ts.
Proof.
  rewrite mapM_Some. split; intros H; (eapply Forall2_impl; [exact H|]); intros [n ty] t; cbn; apply bind_Some.
Qed.

(** More memory does not change what is read. *)
Lemma read_mono h h' ty v t : h ⊆ h' → read h ty v = Some t → read h' ty v = Some t.
Proof.
  intros Hh. revert v t. induction ty as [k|fs IH|ty IH|ty IH|ty IH] using gtype_nested_ind; intros v t; cbn.
  - done.
  - destruct v as [|vs| | |]; try done. intros (ts & Hts & ->)%fmap_Some. apply fmap_Some. exists ts. split; [|done].
    apply read_fields_Some. apply read_fields_Some in Hts. clear -IH Hts.
    induction Hts as [|[n ty] t fs ts (v & Hv & Ht) _ IHts]; constructor; inversion IH; subst; eauto.
  - destruct v as [| |[l|]| |]; try done. destruct (h !! l) as [c|] eqn:E; [|done].
    pose proof (lookup_weaken _ _ _ _ E Hh) as ->. destruct c; try done.
    intros (u & Hu & ->)%fmap_Some. apply fmap_Some. eauto.
  - destruct v as [| | |[[[a off] n]|]|]; try done. destruct (h !! a) as [c|] eqn:E; [|done].
    pose proof (lookup_weaken _ _ _ _ E Hh) as ->. destruct c; try done. case_bool_decide; [|done].
    intros (us & Hu & ->)%fmap_Some. apply fmap_Some. exists us. split; [|done].
    apply mapM_Some. apply mapM_Some in Hu. eapply Forall2_impl; eauto.
  - destruct v as [| | | |[l|]]; try done. destruct (h !! l) as [c|] eqn:E; [|done].
    pose proof (lookup_weaken _ _ _ _ E Hh) as ->. destruct c; try done.
    intros (us & Hu & ->)%fmap_Some. apply fmap_Some. exists us. split; [|done].
    apply all_entries_fmap. apply all_entries_fmap in Hu. intros k. specialize (Hu k).
    destruct (m !! k), (us !! k); cbn in *; auto.
Qed.

(** A value without locations reads the same in every memory. *)
Lemma read_flat h h' ty v t : flat ty = true → read h ty v = Some t → read h' ty v = Some t.
Proof.
  revert v t. induction ty as [k|fs IH|ty IH|ty IH|ty IH] using gtype_nested_ind; intros v t Hf; cbn; try done.
  destruct v as [|vs| | |]; try done. intros (ts & Hts & ->)%fmap_Some. apply fmap_Some. exists ts. split; [|done].
  apply read_fields_Some. apply read_fields_Some in Hts. cbn in Hf.
  induction Hts as [|[n ty] t fs ts (v & Hv & Ht) _ IHts]; constructor; inversion IH; subst;
    apply andb_true_iff in Hf as [Hty Hf]; eauto.
Qed.

(** ** Copies of fields: one cell filled step by step

    [range_do] with a body that takes a value, copies it and writes the copy into the
    new cell [o]: the structure behind a pointer, the elements of a slice and the
    entries of a map are all copied like this. *)
Section fill.
Context {K : Type} (get : K → heapM gval) (into : gval → heapM gval) (set : K → gval → cell → cell).
Context (ty : gtype) (o : loc).
Hypothesis into_copies : copies ty into.

Definition fill_step (k : K) : heapM unit := x ← get k; y ← into x; update o (set k y).

Lemma update_insert c f (h : heap) : update o f (<[o := c]> h) = Ret (tt, <[o := f c]> h).
Proof.
  unfold update, mbind, GoM_bind, load, lift, store, modify. rewrite lookup_insert_eq. cbn -[insert].
  by rewrite insert_insert_eq.
Qed.

Lemma fill_loop (h : heap) (ks : list K) (src : K → gval) (tr : K → gtree) :
  (∀ k, k ∈ ks → read h ty (src k) = Some (tr k) ∧ (∀ H, h ⊆ H → get k H = Ret (src k, H))) →
  ∀ (hn : heap) c, hn ##ₘ h → o ∉ dom (h ∪ hn) →
  ∃ (hn' : heap) ys, hn' ##ₘ h ∧ hn ⊆ hn' ∧ hn' !! o = None ∧
    range_do ks fill_step (<[o := c]> (h ∪ hn)) =
      Ret (tt, <[o := foldl (λ c '(k, y), set k y c) c (zip ks ys)]> (h ∪ hn')) ∧
    Forall2 (λ k y, read hn' ty y = Some (tr k)) ks ys.
Proof.
  induction ks as [|k ks IH]; intros Hks hn c Hd Ho.
  { exists hn, []. repeat split; [done..|apply not_elem_of_dom; set_solver|constructor]. }
  destruct (Hks k) as [Ht Hget]; [left|].
  assert (Hsub : h ⊆ <[o := c]> (h ∪ hn)).
  { apply insert_subseteq_r; [apply not_elem_of_dom; set_solver|apply map_union_subseteq_l]. }
  destruct (into_copies (<[o := c]> (h ∪ hn)) (src k) (tr k)) as (y & h2 & Hd2 & Hrun & Hy).
  { by apply (read_mono h). }
  apply map_disjoint_insert_r in Hd2 as [Ho2 Hd2]. apply map_disjoint_union_r in Hd2 as [Hd2h Hd2n].
  destruct (IH (λ k' Hk', Hks k' (list_elem_of_further _ _ _ Hk')) (hn ∪ h2) (set k y c))
    as (hn' & ys & ? & Hsub' & ? & Hrest & Hys).
  { by apply map_disjoint_union_l. }
  { apply not_elem_of_dom in Ho2. set_solver. }
  exists hn', (y :: ys). split; [done|]. split; [|split; [done|split]].
  - etrans; [apply map_union_subseteq_l|exact Hsub'].
  - cbn [range_do zip_with foldl]. unfold mbind, GoM_bind.
    assert (fill_step k (<[o := c]> (h ∪ hn)) = Ret (tt, <[o := set k y c]> (h ∪ (hn ∪ h2)))) as ->; [|exact Hrest].
    unfold fill_step, mbind, GoM_bind. rewrite Hget by done. rewrite Hrun.
    by rewrite <- insert_union_l, update_insert, <- (assoc_L (∪)).
  - constructor; [|done]. apply (read_mono h2); [|done].
    etrans; [|exact Hsub']. by apply map_union_subseteq_r.
Qed.

(** From an empty start: the added cells are [o] and what the copies added. *)
Lemma fill_alloc (h : heap) (ks : list K) (src : K → gval) (tr : K → gtree) c :
  o ∉ dom h →
  (∀ k, k ∈ ks → read h ty (src k) = Some (tr k) ∧ (∀ H, h ⊆ H → get k H = Ret (src k, H))) →
  ∃ (hn : heap) ys, hn ##ₘ h ∧
    range_do ks fill_step (<[o := c]> h) = Ret (tt, h ∪ hn) ∧
    hn !! o = Some (foldl (λ c '(k, y), set k y c) c (zip ks ys)) ∧
    Forall2 (λ k y, read hn ty y = Some (tr k)) ks ys.
Proof.
  intros Ho Hks. destruct (fill_loop h ks src tr Hks ∅ c) as (hn & ys & Hd & _ & Hon & Hrun & Hys).
  { apply map_disjoint_empty_l. }
  { by rewrite map_union_empty. }
  rewrite map_union_empty in Hrun. apply not_elem_of_dom in Ho.
  exists (<[o := foldl (λ c '(k, y), set k y c) c (zip ks ys)]> hn), ys. split; [|split; [|split]].
  - by apply map_disjoint_insert_l.
  - rewrite Hrun. by rewrite insert_union_r.
  - apply lookup_insert_eq.
  - eapply Forall2_impl; [exact Hys|]. intros k y. apply read_mono. by apply insert_subseteq.
Qed.
End fill.

(** ** The contract of each statement *)
Lemma GoM_bind_Ret {A B} (m : heapM A) (f : A → heapM B) h a h' : m h = Ret (a, h') → (m ≫= f) h = f a h'.
Proof. unfold mbind, GoM_bind. by intros ->. Qed.

Lemma alloc_run c (h : heap) : alloc c h = Ret (fresh (dom h), <[fresh (dom h) := c]> h).
Proof. done. Qed.

Lemma fresh_not_in (h : heap) : fresh (dom h) ∉ dom h.
Proof. apply is_fresh. Qed.

(** An assignment is a copy of a value without locations. *)
Lemma copies_flat ty : flat ty = true → copies ty mret.
Proof.
  intros Hf h v t Ht. exists v, ∅. split; [apply map_disjoint_empty_l|]. rewrite map_union_empty.
  split; [done|]. by apply (read_flat h).
Qed.

Lemma load_val_mono (h H : heap) l v : h !! l = Some (CVal v) → h ⊆ H → load_val l H = Ret (v, H).
Proof.
  intros Hl Hsub. unfold load_val, mbind, GoM_bind, load, lift. by rewrite (lookup_weaken _ _ _ _ Hl Hsub).
Qed.

Lemma load_elem_mono (h H : heap) a l i v :
  h !! a = Some (CArr l) → l !! i = Some v → h ⊆ H → load_elem a i H = Ret (v, H).
Proof.
  intros Ha Hi Hsub. unfold load_elem, mbind, GoM_bind, load, lift.
  rewrite (lookup_weaken _ _ _ _ Ha Hsub). cbn -[lookup]. by rewrite Hi.
Qed.

Lemma load_map_mono (h H : heap) l m : h !! l = Some (CMap m) → h ⊆ H → load_map l H = Ret (m, H).
Proof.
  intros Hl Hsub. unfold load_map, mbind, GoM_bind, load, lift. by rewrite (lookup_weaken _ _ _ _ Hl Hsub).
Qed.

Lemma copies_ptr ty into : copies ty into → copies (TyPtr ty) (unless_nil (new_into ty into)).
Proof.
  intros Hinto h v t Ht. destruct v as [| |[l|]| |]; try done.
  2: { exists (VPtr None), ∅. rewrite map_union_empty. split; [apply map_disjoint_empty_l|done]. }
  cbn in Ht. destruct (h !! l) as [[v| |]|] eqn:El; try done. apply fmap_Some in Ht as (u & Hu & ->).
  destruct (fill_alloc (λ _ : unit, load_val l) into (λ _ y _, CVal y) ty (fresh (dom h)) Hinto h [tt] (λ _, v) (λ _, u)
    (CVal (zero ty))) as (hn & ys & Hd & Hrun & Ho & Hys).
  { apply fresh_not_in. }
  { intros ? _. split; [done|]. intros. by apply (load_val_mono h). }
  apply Forall2_cons_inv_l in Hys as (y & ys' & Hy & ->%Forall2_nil_inv_l & ->). cbn in Ho.
  exists (VPtr (Some (fresh (dom h)))), hn. split; [done|]. split.
  - unfold unless_nil, new_into. cbn [is_nil]. rewrite (GoM_bind_Ret _ _ _ _ _ (alloc_run _ _)).
    by rewrite (GoM_bind_Ret _ _ _ _ _ Hrun).
  - cbn. by rewrite Ho, Hy.
Qed.

(** Writing the elements one after the other gives the list of the copies. *)
Lemma set_elems (ys zs : list gval) i pre :
  length pre = i → length zs = length ys →
  foldl (λ c '(k, y), set_elem k y c) (CArr (pre ++ zs)) (zip (seq i (length ys)) ys) = CArr (pre ++ ys).
Proof.
  revert zs i pre. induction ys as [|y ys IH]; intros zs i pre Hi Hz.
  - by destruct zs.
  - destruct zs as [|z zs]; [done|]. injection Hz as Hz. cbn.
    rewrite insert_app_r_alt, Hi, Nat.sub_diag by lia. cbn.
    rewrite (cons_middle y pre zs), (assoc_L (++)), IH; [by rewrite <- (assoc_L (++))|rewrite length_app; cbn; lia|done].
Qed.

Lemma copies_slice ty into : copies ty into → copies (TySlice ty) (unless_nil (make_each ty into)).
Proof.
  intros Hinto h v t Ht. destruct v as [| | |[[[a off] n]|]|]; try done.
  2: { exists (VSlice None), ∅. rewrite map_union_empty. split; [apply map_disjoint_empty_l|done]. }
  cbn in Ht. destruct (h !! a) as [[|l|]|] eqn:Ea; try done. case_bool_decide as Hlen; [|done].
  apply fmap_Some in Ht as (us & Hus & ->). apply mapM_Some in Hus.
  assert (Hn : length us = n). { rewrite <- (Forall2_length _ _ _ Hus), length_take, length_drop. lia. }
  destruct (fill_alloc (λ i, load_elem a (off + i)) into set_elem ty (fresh (dom h)) Hinto h (seq 0 n)
    (λ i, default (zero ty) (l !! (off + i))) (λ i, default TNil (us !! i))
    (CArr (replicate n (zero ty)))) as (hn & ys & Hd & Hrun & Ho & Hys).
  { apply fresh_not_in. }
  { intros i [_ Hi]%elem_of_seq. destruct (lookup_lt_is_Some_2 l (off + i)) as [x Hx]; [lia|].
    destruct (lookup_lt_is_Some_2 us i) as [u Hu]; [lia|]. rewrite Hx, Hu. cbn. split.
    - apply (Forall2_lookup_lr _ _ _ i x u Hus); [|done]. rewrite lookup_take_lt, lookup_drop by lia. done.
    - intros. by apply (load_elem_mono h _ _ l). }
  assert (Hy : length ys = n). { rewrite <- (Forall2_length _ _ _ Hys). apply length_seq. }
  assert (Ho' : hn !! fresh (dom h) = Some (CArr ys)).
  { rewrite Ho. f_equal. rewrite <- Hy at 2. apply (set_elems ys _ 0 []); [done|]. rewrite length_replicate. lia. }
  exists (VSlice (Some (fresh (dom h), 0, n))), hn. split; [done|]. split.
  - unfold unless_nil, make_each. cbn [is_nil]. rewrite (GoM_bind_Ret _ _ _ _ _ (alloc_run _ _)).
    by rewrite (GoM_bind_Ret _ _ _ _ _ Hrun).
  - cbn. rewrite Ho'. rewrite bool_decide_true by lia. rewrite drop_0, take_ge by lia.
    apply fmap_Some. exists us. split; [|done]. apply mapM_Some.
    apply Forall2_same_length_lookup_2; [lia|]. intros i y u Hy' Hu.
    rewrite Forall2_lookup in Hys. specialize (Hys i). rewrite Hy', lookup_seq_lt in Hys by (apply lookup_lt_Some in Hu; lia).
    inversion Hys as [? ? Hr|]; subst. by rewrite Hr, Hu.
Qed.

Lemma copies_each_slice ty into : copies ty into → copies (TySlice ty) (unless_nil (make_each_slice ty into)).
Proof. intros Hinto h [| | |[]|] t Ht; try done; exact (copies_slice ty into Hinto h _ t Ht). Qed.

(** The routine of a slice type keeps what a slice holds, and makes nil empty. *)
Lemma each_slice_nil ty into (h : heap) :
  ∃ v' h', make_each_slice ty into (VSlice None) h = Ret (v', h') ∧ read h' (TySlice ty) v' = Some (TSlice []).
Proof. do 2 eexists. split; [reflexivity|]. cbn. by rewrite lookup_insert_eq. Qed.

(** A routine that is not called on nil. *)
Lemma copies_unless_nil ty f : copies ty f → copies ty (unless_nil f).
Proof.
  intros Hf h v t Ht. unfold unless_nil. destruct (is_nil v) eqn:Hv; [|by apply Hf].
  exists v, ∅. rewrite map_union_empty. split; [apply map_disjoint_empty_l|]. split; [done|].
  by destruct ty, v as [| |[]|[]|[]].
Qed.

(** Writing entries of distinct keys gives the map of the copies. *)
Lemma set_entries (es : list (string * gval)) ys m0 :
  NoDup es.*1 → length ys = length es →
  foldl (λ c '(e, y), set_entry e.1 y c) (CMap m0) (zip es ys) = CMap (list_to_map (zip es.*1 ys) ∪ m0).
Proof.
  revert ys m0. induction es as [|[k v] es IH]; intros ys m0 Hnd Hl.
  - destruct ys; [|done]. cbn. by rewrite map_empty_union.
  - destruct ys as [|y ys]; [done|]. injection Hl as Hl. cbn in Hnd. apply NoDup_cons in Hnd as [Hk Hnd]. cbn -[union].
    rewrite IH by done. f_equal. rewrite <- insert_union_l. symmetry. apply insert_union_r.
    apply not_elem_of_list_to_map. rewrite fst_zip; [done|]. rewrite length_fmap. lia.
Qed.

Lemma copies_map `{MapOrder} ty into : copies ty into → copies (TyMap ty) (unless_nil (make_map into)).
Proof.
  intros Hinto h v t Ht. destruct v as [| | | |[l|]]; try done.
  2: { exists (VMap None), ∅. rewrite map_union_empty. split; [apply map_disjoint_empty_l|done]. }
  cbn in Ht. destruct (h !! l) as [[| |m]|] eqn:El; try done.
  apply fmap_Some in Ht as (us & Hus & ->). apply all_entries_fmap in Hus.
  destruct (fill_alloc (λ e : string * gval, mret e.2) into (λ e, set_entry e.1) ty (fresh (dom h)) Hinto h (map_range m)
    snd (λ e, default TNil (us !! e.1)) (CMap ∅)) as (hn & ys & Hd & Hrun & Ho & Hys).
  { apply fresh_not_in. }
  { intros [k x] Hx%elem_of_map_range. split; [|done]. specialize (Hus k). rewrite Hx in Hus. cbn in *.
    by destruct (us !! k). }
  assert (Hl : length ys = length (map_range m)) by (symmetry; eapply Forall2_length, Hys).
  rewrite set_entries, map_union_empty in Ho by (done || apply NoDup_map_range).
  exists (VMap (Some (fresh (dom h)))), hn. split; [done|]. split.
  - unfold unless_nil, make_map. cbn [is_nil]. rewrite (GoM_bind_Ret _ _ _ _ _ (alloc_run _ _)).
    rewrite (GoM_bind_Ret _ _ _ m (<[fresh (dom h) := CMap ∅]> h)).
    2: { apply (load_map_mono h); [done|]. apply insert_subseteq, not_elem_of_dom, fresh_not_in. }
    by rewrite (GoM_bind_Ret _ _ _ _ _ Hrun).
  - cbn. rewrite Ho. apply fmap_Some. exists us. split; [|done]. apply all_entries_fmap.
    assert (Hnd : NoDup (zip (map_range m).*1 ys).*1).
    { rewrite fst_zip by (rewrite length_fmap; lia). apply NoDup_map_range. }
    intros k. specialize (Hus k).
    destruct (m !! k) as [x|] eqn:Ex, (us !! k) as [u|] eqn:Eu; cbn in Hus; try done.
    + apply elem_of_map_range, list_elem_of_lookup in Ex as [i Hi].
      destruct (Forall2_lookup_l _ _ _ _ _ Hys Hi) as (y & Hy & Hr). cbn in Hr. rewrite Eu in Hr.
      rewrite (elem_of_list_to_map_1 _ k y Hnd); [done|]. apply list_elem_of_lookup. exists i.
      rewrite lookup_zip_with, list_lookup_fmap, Hi. cbn. by rewrite Hy.
    + rewrite not_elem_of_list_to_map_1; [done|]. rewrite fst_zip by (rewrite length_fmap; lia).
      intros ([k' x'] & -> & Hin%elem_of_map_range)%list_elem_of_fmap. cbn in *. congruence.
Qed.

(** ** The contract of a structure's routine *)

(** Every field has one statement at most, and one at least if it can hold a
    location; [stmts_copy]: a statement copies the type its field is declared with. *)
Definition fields_covered (fs : list (string * gtype)) (stmts : list stmt) : bool :=
  bool_decide (NoDup fs.*1) && bool_decide (NoDup stmts.*1) &&
  forallb (λ '(n, ty), bool_decide (n ∈ stmts.*1) || flat ty) fs.
Definition stmts_copy (fs : list (string * gtype)) (stmts : list stmt) : Prop :=
  Forall (λ '(n, into), Exists (λ '(n', ty), n' = n ∧ copies ty into) fs) stmts.

Section body.
Context (fs : list (string * gtype)) (vs : gmap string gval).
Hypothesis fs_nodup : NoDup fs.*1.

Definition field_reads (h : heap) (out : gmap string gval) (f : string * gtype) (t : gtree) : Prop :=
  ∃ v, out !! f.1 = Some v ∧ read h f.2 v = Some t.

Lemma field_reads_mono (h h' : heap) out f t : h ⊆ h' → field_reads h out f t → field_reads h' out f t.
Proof. intros Hh (v & Hv & Ht). exists v. split; [done|]. by apply (read_mono h). Qed.

Lemma exec_copies stmts :
  NoDup stmts.*1 → stmts_copy fs stmts →
  ∀ (h : heap) out, (∀ f, f ∈ fs → ∃ t, field_reads h vs f t) →
  ∃ (hn : heap) out', hn ##ₘ h ∧ exec stmts (VStruct vs) (VStruct out) h = Ret (VStruct out', h ∪ hn) ∧
    (∀ n, n ∉ stmts.*1 → out' !! n = out !! n) ∧
    (∀ f t, f ∈ fs → f.1 ∈ stmts.*1 → field_reads h vs f t → field_reads hn out' f t).
Proof.
  induction stmts as [|[n into] stmts IH]; intros Hnd Hst h out Hfs.
  { exists ∅, out. rewrite map_union_empty. split; [apply map_disjoint_empty_l|]. split; [done|]. split; [done|].
    intros f t _ Hin. by apply not_elem_of_nil in Hin. }
  cbn in Hnd. apply NoDup_cons in Hnd as [Hn Hnd]. apply Forall_cons in Hst as [Hst1 Hst].
  apply Exists_exists in Hst1 as ([n' ty] & Hf & -> & Hinto). destruct (Hfs _ Hf) as (t0 & x & Hx & Hr). cbn in Hx, Hr.
  destruct (Hinto _ _ _ Hr) as (y & h1 & Hd1 & Hrun & Hy).
  assert (Hh1 : h ⊆ h ∪ h1) by apply map_union_subseteq_l.
  destruct (IH Hnd Hst (h ∪ h1) (<[n := y]> out)) as (h2 & out' & Hd2 & Hexec & Hout & Hin).
  { intros f [t Ht]%Hfs. exists t. by apply (field_reads_mono h). }
  apply map_disjoint_union_r in Hd2 as [Hd2 Hd21].
  exists (h1 ∪ h2), out'. split; [by apply map_disjoint_union_l|]. split; [|split].
  - cbn [exec]. rewrite (GoM_bind_Ret _ _ h x h) by (unfold lift, field; by rewrite Hx).
    rewrite (GoM_bind_Ret _ _ _ _ _ Hrun), (GoM_bind_Ret _ _ _ (VStruct (<[n := y]> out)) (h ∪ h1)) by done.
    by rewrite Hexec, <- (assoc_L (∪)).
  - intros m [Hm Hm']%not_elem_of_cons. rewrite Hout by done. by apply lookup_insert_ne.
  - intros [m ty'] t Hf' Hm Ht. cbn in Hm. apply elem_of_cons in Hm as [->|Hin']; cbn in *.
    + assert (ty' = ty) as ->.
      { apply (elem_of_list_to_map_1 (M:=gmap string)) in Hf, Hf'; [congruence|done..]. }
      destruct Ht as (x' & Hx' & Ht). cbn in *. simplify_eq.
      exists y. cbn. rewrite Hout, lookup_insert_eq by done. split; [done|].
      apply (read_mono h1); [apply map_union_subseteq_l|]. done.
    + apply (field_reads_mono h2); [by apply map_union_subseteq_r|]. apply Hin; [done..|]. by apply (field_reads_mono h).
Qed.
End body.

Lemma copies_body fs stmts :
  fields_covered fs stmts = true → stmts_copy fs stmts → copies (TyStruct fs) (body stmts).
Proof.
  intros [[Hfs%bool_decide_eq_true Hst%bool_decide_eq_true]%andb_true_iff Hflat]%andb_true_iff Hc h v t Ht. destruct v as [|vs| | |]; try done. cbn in Ht.
  apply fmap_Some in Ht as (ts & Hts & ->). apply read_fields_Some in Hts.
  destruct (exec_copies fs vs Hfs stmts Hst Hc h vs) as (hn & out & Hd & Hrun & Hout & Hin).
  { intros f [i Hi]%list_elem_of_lookup. destruct (Forall2_lookup_l _ _ _ _ _ Hts Hi) as (t & _ & Ht). by exists t. }
  exists (VStruct out), hn. split; [done|]. split; [done|].
  cbn. apply fmap_Some. exists ts. split; [|done]. apply read_fields_Some.
  apply Forall2_same_length_lookup_2; [by eapply Forall2_length|]. intros i f t Hf Ht.
  pose proof (Forall2_lookup_lr _ _ _ _ _ _ Hts Hf Ht) as Hft.
  apply list_elem_of_lookup_2 in Hf. rewrite forallb_forall in Hflat.
  specialize (Hflat f (proj1 (list_elem_of_In _ _) Hf)). destruct f as [n ty]. destruct (decide (n ∈ stmts.*1)) as [Hn|Hn].
  - apply (Hin (n, ty) t Hf Hn Hft).
  - rewrite bool_decide_false in Hflat by done. destruct Hft as (x & Hx & Hr). exists x. cbn in *.
    rewrite Hout by done. split; [done|]. by apply (read_flat h).
Qed.

(** ** [DeepCopy] *)
Lemma copies_DeepCopy ty into : copies ty into → copies (TyPtr ty) (DeepCopy ty into).
Proof. exact (copies_ptr ty into). Qed.

(** [*val.DeepCopy()] with [val] the variable of a loop, which has a cell of its own *)
Definition copy_of_var (ty : gtype) (into : gval → heapM gval) (val : gval) : heapM gval :=
  l ← alloc (CVal val);
  c ← DeepCopy ty into (VPtr (Some l));
  match c with VPtr (Some p) => load_val p | _ => panic end.

Lemma copies_var ty into : copies ty into → copies ty (copy_of_var ty into).
Proof.
  intros Hinto h v t Ht. set (l := fresh (dom h)). assert (Hl : h !! l = None) by apply not_elem_of_dom, fresh_not_in.
  assert (Hsub : h ⊆ <[l := CVal v]> h) by by apply insert_subseteq.
  destruct (copies_DeepCopy ty into Hinto (<[l := CVal v]> h) (VPtr (Some l)) (TPtr t)) as (c & hn & Hd & Hrun & Hc).
  { cbn. rewrite lookup_insert_eq. by rewrite (read_mono _ _ _ _ _ Hsub Ht). }
  destruct c as [| |[p|]| |]; cbn in Hc; try done. destruct (hn !! p) as [[y| |]|] eqn:Ep; try done.
  apply fmap_Some in Hc as (u & Hu & [= <-]). apply map_disjoint_insert_r in Hd as [Hln Hd].
  assert (Hns : hn ⊆ <[l := CVal v]> hn) by by apply insert_subseteq.
  exists y, (<[l := CVal v]> hn). split; [by apply map_disjoint_insert_l|]. split; [|by apply (read_mono hn)].
  unfold copy_of_var. rewrite (GoM_bind_Ret _ _ _ _ _ (alloc_run _ _)). fold l.
  rewrite (GoM_bind_Ret _ _ _ _ _ Hrun), <- insert_union_l, insert_union_r by done.
  apply (load_val_mono (<[l := CVal v]> hn)); [by apply (lookup_weaken hn)|].
  apply map_union_subseteq_r. by apply map_disjoint_insert_r.
Qed.

(** ** Automation

    [solve_copies] proves the contract of a structure's routine from the contracts of
    the routines it calls, collected in [copies]. *)
Create HintDb copies discriminated.
#[export] Hint Constants Opaque : copies.
Lemma copies_new_value ty : flat ty = true → copies (TyPtr ty) (unless_nil (new_value ty)).
Proof. intros. by apply copies_ptr, copies_flat. Qed.
Lemma copies_make_copy ty : flat ty = true → copies (TySlice ty) (unless_nil (make_copy ty)).
Proof. intros. by apply copies_slice, copies_flat. Qed.
#[export] Hint Resolve copies_flat copies_ptr copies_slice copies_each_slice copies_map copies_var copies_DeepCopy
  copies_new_value copies_make_copy : copies.
#[export] Hint Extern 1 (flat _ = true) => reflexivity : copies.

Ltac solve_field := first [apply Exists_cons_hd; split; [reflexivity|eauto 10 with copies] | apply Exists_cons_tl; solve_field].
Ltac solve_copies :=
  apply copies_body;
  [vm_compute; reflexivity | repeat (apply Forall_cons; split; [solve_field|]); apply Forall_nil_2].

(** ** Writes after a copy *)

(** A run of assignments through pointers, slices and maps: cells are replaced. *)
Definition writes (ws : list (loc * cell)) (h : heap) : heap := foldl (λ h '(l, c), <[l := c]> h) h ws.

Lemma writes_outside ws (h0 h : heap) :
  Forall (λ w, w.1 ∉ dom h0) ws → h0 ⊆ h → h0 ⊆ writes ws h.
Proof.
  revert h. induction ws as [|[l c] ws IH]; intros h Hws Hh; [done|]. apply Forall_cons in Hws as [Hl Hws].
  apply IH; [done|]. apply insert_subseteq_r; [by apply not_elem_of_dom|done].
Qed.

(** What is written into the cells a copy added does not show in the original, and
    what is written into the others does not show in the copy. *)
Lemma copies_independent ty f h v t :
  copies ty f → read h ty v = Some t →
  ∃ v' h', f v h = Ret (v', h') ∧ h ⊆ h' ∧ read h' ty v = Some t ∧ read h' ty v' = Some t ∧
    (∀ ws, Forall (λ w, w.1 ∉ dom h) ws → read (writes ws h') ty v = Some t) ∧
    (∀ ws, Forall (λ w, w.1 ∈ dom h ∨ w.1 ∉ dom h') ws → read (writes ws h') ty v' = Some t).
Proof.
  intros Hf Ht. destruct (Hf h v t Ht) as (v' & hn & Hd & Hrun & Hr).
  assert (Hh : h ⊆ h ∪ hn) by apply map_union_subseteq_l.
  assert (Hn : hn ⊆ h ∪ hn) by by apply map_union_subseteq_r.
  exists v', (h ∪ hn). split; [done|]. split; [done|]. split; [by apply (read_mono h)|]. split; [by apply (read_mono hn)|].
  split; intros ws Hws.
  - apply (read_mono h); [|done]. by apply writes_outside.
  - apply (read_mono hn); [|done]. apply writes_outside; [|done].
    eapply Forall_impl; [exact Hws|]. intros [l c] [Hl|Hl]; cbn in *; [|set_solver].
    apply map_disjoint_dom in Hd. set_solver.
Qed.
