(* ===== verification/DeepCopy.v ===== *)
(** * Deep copies of the resources
    (src/api/v2/zz_generated.deepcopy.go, src/multi-casskop/api/v2/zz_generated.deepcopy.go)

    The controllers change what [DeepCopy] gives them and compare it with the
    original ([status := cc.Status.DeepCopy()] at the start of a reconciliation, the
    patches of the backup and restore controllers, the base of a MultiCasskop): the
    rest of the development treats such a copy as the same value, and this file
    shows that it is one.  For each type: its declaration ([T_t]), with the fields in
    order, and its routines, one line per statement.  The routines of Kubernetes'
    own types are the interface [ExternalTypes]; [ExternalLaws] says that they are
    deep copies too. *)
From S2P Require Import Prelude GoHeap.

(** ** Types of k8s.io/api and k8s.io/apimachinery

    A [metav1.Time] is copied as a value: the time zone it points to is never
    written. *)
Class ExternalTypes := {
  TypeMeta : gtype; ObjectMeta : gtype; ListMeta : gtype; LocalObjectReference : gtype; Time : gtype;
  ResourceRequirements : gtype; VolumeMount : gtype; Container : gtype; Toleration : gtype;
  PersistentVolumeClaimSpec : gtype;
  ObjectMeta_DeepCopyInto : gval → heapM gval;
  ListMeta_DeepCopyInto : gval → heapM gval;
  ResourceRequirements_DeepCopyInto : gval → heapM gval;
  VolumeMount_DeepCopyInto : gval → heapM gval;
  Container_DeepCopyInto : gval → heapM gval;
  Toleration_DeepCopyInto : gval → heapM gval;
  PersistentVolumeClaimSpec_DeepCopyInto : gval → heapM gval;
  Time_DeepCopy : gval → heapM gval;
}.

(** The two types that are assigned hold strings only; the others have deep copies. *)
Class ExternalLaws (Ext : ExternalTypes) := {
  TypeMeta_flat : flat TypeMeta = true;
  LocalObjectReference_flat : flat LocalObjectReference = true;
  ObjectMeta_copies : copies ObjectMeta ObjectMeta_DeepCopyInto;
  ListMeta_copies : copies ListMeta ListMeta_DeepCopyInto;
  ResourceRequirements_copies : copies ResourceRequirements ResourceRequirements_DeepCopyInto;
  VolumeMount_copies : copies VolumeMount VolumeMount_DeepCopyInto;
  Container_copies : copies Container Container_DeepCopyInto;
  Toleration_copies : copies Toleration Toleration_DeepCopyInto;
  PersistentVolumeClaimSpec_copies : copies PersistentVolumeClaimSpec PersistentVolumeClaimSpec_DeepCopyInto;
  Time_copies : copies (TyPtr Time) Time_DeepCopy;
}.

Section routines.
Context {Ext : ExternalTypes} {Ord : MapOrder}.

(** ** src/api/v2 *)
(** *** FailureCause *)
Definition FailureCause_t : gtype :=
  TyStruct [("Source", TyString); ("Message", TyString)].
Definition FailureCause_DeepCopyInto : gval → heapM gval := body [].
Definition FailureCause_DeepCopy : gval → heapM gval := DeepCopy FailureCause_t FailureCause_DeepCopyInto.

(** *** BackRestCondition *)
Definition BackRestCondition_t : gtype :=
  TyStruct [("Type", TyString); ("LastTransitionTime", TyString); ("FailureCause", TySlice FailureCause_t)].
Definition BackRestCondition_DeepCopyInto : gval → heapM gval := body [
  ("FailureCause", unless_nil (make_copy FailureCause_t))].
Definition BackRestCondition_DeepCopy : gval → heapM gval :=
  DeepCopy BackRestCondition_t BackRestCondition_DeepCopyInto.

(** *** BackRestSidecar *)
Definition BackRestSidecar_t : gtype :=
  TyStruct [("Enabled", TyPtr TyBool); ("Image", TyString); ("ImagePullPolicy", TyString);
  ("Resources", TyPtr ResourceRequirements); ("VolumeMounts", TySlice VolumeMount)].
Definition BackRestSidecar_DeepCopyInto : gval → heapM gval := body [
  ("Enabled", unless_nil (new_value TyBool));
  ("Resources", unless_nil (new_into ResourceRequirements ResourceRequirements_DeepCopyInto));
  ("VolumeMounts", unless_nil (make_each VolumeMount VolumeMount_DeepCopyInto))].
Definition BackRestSidecar_DeepCopy : gval → heapM gval := DeepCopy BackRestSidecar_t BackRestSidecar_DeepCopyInto.

(** *** BackRestStatus *)
Definition BackRestStatus_t : gtype :=
  TyStruct [("TimeCreated", TyString); ("TimeStarted", TyString); ("TimeCompleted", TyString);
  ("Condition", TyPtr BackRestCondition_t); ("CoordinatorMember", TyString); ("Progress", TyString);
  ("ID", TyString)].
Definition BackRestStatus_DeepCopyInto : gval → heapM gval := body [
  ("Condition", unless_nil (new_into BackRestCondition_t BackRestCondition_DeepCopyInto))].
Definition BackRestStatus_DeepCopy : gval → heapM gval := DeepCopy BackRestStatus_t BackRestStatus_DeepCopyInto.

(** *** CassandraBackupSpec *)
Definition CassandraBackupSpec_t : gtype :=
  TyStruct [("CassandraCluster", TyString); ("Datacenter", TyString); ("StorageLocation", TyString);
  ("Schedule", TyString); ("SnapshotTag", TyString); ("Duration", TyString); ("Bandwidth", TyString);
  ("ConcurrentConnections", TyInt); ("Entities", TyString); ("Secret", TyString)].
Definition CassandraBackupSpec_DeepCopyInto : gval → heapM gval := body [].
Definition CassandraBackupSpec_DeepCopy : gval → heapM gval :=
  DeepCopy CassandraBackupSpec_t CassandraBackupSpec_DeepCopyInto.

(** *** CassandraBackup *)
Definition CassandraBackup_t : gtype :=
  TyStruct [("TypeMeta", TypeMeta); ("ObjectMeta", ObjectMeta); ("Spec", CassandraBackupSpec_t);
  ("Status", BackRestStatus_t)].
Definition CassandraBackup_DeepCopyInto : gval → heapM gval := body [
  ("TypeMeta", mret);
  ("ObjectMeta", ObjectMeta_DeepCopyInto);
  ("Spec", mret);
  ("Status", BackRestStatus_DeepCopyInto)].
Definition CassandraBackup_DeepCopy : gval → heapM gval := DeepCopy CassandraBackup_t CassandraBackup_DeepCopyInto.
Definition CassandraBackup_DeepCopyObject : gval → heapM (option loc) :=
  DeepCopyObject CassandraBackup_t CassandraBackup_DeepCopyInto.

(** *** CassandraBackupList *)
Definition CassandraBackupList_t : gtype :=
  TyStruct [("TypeMeta", TypeMeta); ("ListMeta", ListMeta); ("Items", TySlice CassandraBackup_t)].
Definition CassandraBackupList_DeepCopyInto : gval → heapM gval := body [
  ("TypeMeta", mret);
  ("ListMeta", ListMeta_DeepCopyInto);
  ("Items", unless_nil (make_each CassandraBackup_t CassandraBackup_DeepCopyInto))].
Definition CassandraBackupList_DeepCopy : gval → heapM gval :=
  DeepCopy CassandraBackupList_t CassandraBackupList_DeepCopyInto.
Definition CassandraBackupList_DeepCopyObject : gval → heapM (option loc) :=
  DeepCopyObject CassandraBackupList_t CassandraBackupList_DeepCopyInto.

(** *** JMXConfiguration *)
Definition JMXConfiguration_t : gtype :=
  TyStruct [("JMXRemote", TyPtr TyBool); ("JMXRemotePort", TyInt); ("JMXRemoteRmiPort", TyInt);
  ("JXMRemoteSSL", TyPtr TyBool); ("JMXRemoteAuthenticate", TyPtr TyBool)].
Definition JMXConfiguration_DeepCopyInto : gval → heapM gval := body [
  ("JMXRemote", unless_nil (new_value TyBool));
  ("JXMRemoteSSL", unless_nil (new_value TyBool));
  ("JMXRemoteAuthenticate", unless_nil (new_value TyBool))].
Definition JMXConfiguration_DeepCopy : gval → heapM gval := DeepCopy JMXConfiguration_t JMXConfiguration_DeepCopyInto.

(** *** PodPolicy *)
Definition PodPolicy_t : gtype :=
  TyStruct [("Annotations", TyMap TyString); ("Tolerations", TySlice Toleration)].
Definition PodPolicy_DeepCopyInto : gval → heapM gval := body [
  ("Annotations", unless_nil (make_map mret));
  ("Tolerations", unless_nil (make_each Toleration Toleration_DeepCopyInto))].
Definition PodPolicy_DeepCopy : gval → heapM gval := DeepCopy PodPolicy_t PodPolicy_DeepCopyInto.

(** *** ServicePolicy *)
Definition ServicePolicy_t : gtype :=
  TyStruct [("Annotations", TyMap TyString)].
Definition ServicePolicy_DeepCopyInto : gval → heapM gval := body [
  ("Annotations", unless_nil (make_map mret))].
Definition ServicePolicy_DeepCopy : gval → heapM gval := DeepCopy ServicePolicy_t ServicePolicy_DeepCopyInto.

(** *** StorageConfig *)
Definition StorageConfig_t : gtype :=
  TyStruct [("MountPath", TyString); ("Name", TyString); ("PVCSpec", TyPtr PersistentVolumeClaimSpec)].
Definition StorageConfig_DeepCopyInto : gval → heapM gval := body [
  ("PVCSpec", unless_nil (new_into PersistentVolumeClaimSpec PersistentVolumeClaimSpec_DeepCopyInto))].
Definition StorageConfig_DeepCopy : gval → heapM gval := DeepCopy StorageConfig_t StorageConfig_DeepCopyInto.

(** *** Rack *)
Definition Rack_t : gtype :=
  TyStruct [("Name", TyString); ("Labels", TyMap TyString); ("Config", TySlice TyInt); ("RollingRestart", TyBool);
  ("RollingPartition", TyInt)].
Definition Rack_DeepCopyInto : gval → heapM gval := body [
  ("Labels", unless_nil (make_map mret));
  ("Config", unless_nil (make_copy TyInt))].
Definition Rack_DeepCopy : gval → heapM gval := DeepCopy Rack_t Rack_DeepCopyInto.

(** *** RackSlice *)
Definition RackSlice_t : gtype :=
  TySlice Rack_t.
Definition RackSlice_DeepCopyInto : gval → heapM gval := make_each_slice Rack_t Rack_DeepCopyInto.
Definition RackSlice_DeepCopy : gval → heapM gval := unless_nil RackSlice_DeepCopyInto.

(** *** DC *)
Definition DC_t : gtype :=
  TyStruct [("Name", TyString); ("Labels", TyMap TyString); ("Config", TySlice TyInt); ("Rack", RackSlice_t);
  ("NodesPerRacks", TyPtr TyInt); ("DataCapacity", TyString); ("DataStorageClass", TyString);
  ("Resources", ResourceRequirements)].
Definition DC_DeepCopyInto : gval → heapM gval := body [
  ("Labels", unless_nil (make_map mret));
  ("Config", unless_nil (make_copy TyInt));
  ("Rack", unless_nil (make_each Rack_t Rack_DeepCopyInto));
  ("NodesPerRacks", unless_nil (new_value TyInt));
  ("Resources", ResourceRequirements_DeepCopyInto)].
Definition DC_DeepCopy : gval → heapM gval := DeepCopy DC_t DC_DeepCopyInto.

(** *** DCSlice *)
Definition DCSlice_t : gtype :=
  TySlice DC_t.
Definition DCSlice_DeepCopyInto : gval → heapM gval := make_each_slice DC_t DC_DeepCopyInto.
Definition DCSlice_DeepCopy : gval → heapM gval := unless_nil DCSlice_DeepCopyInto.

(** *** Topology *)
Definition Topology_t : gtype :=
  TyStruct [("DC", DCSlice_t)].
Definition Topology_DeepCopyInto : gval → heapM gval := body [
  ("DC", unless_nil (make_each DC_t DC_DeepCopyInto))].
Definition Topology_DeepCopy : gval → heapM gval := DeepCopy Topology_t Topology_DeepCopyInto.

(** *** CassandraClusterSpec *)
Definition CassandraClusterSpec_t : gtype :=
  TyStruct [("NodesPerRacks", TyInt); ("CassandraImage", TyString); ("ImagePullPolicy", TyString);
  ("BootstrapImage", TyString); ("ConfigBuilderImage", TyString); ("RunAsUser", TyInt); ("FSGroup", TyInt);
  ("ReadOnlyRootFilesystem", TyPtr TyBool); ("Resources", ResourceRequirements); ("HardAntiAffinity", TyBool);
  ("Pod", TyPtr PodPolicy_t); ("Service", TyPtr ServicePolicy_t); ("DeletePVC", TyBool); ("Debug", TyBool);
  ("AutoPilot", TyBool); ("NoCheckStsAreEqual", TyBool); ("AutoUpdateSeedList", TyBool);
  ("MaxPodUnavailable", TyInt); ("RestartCountBeforePodDeletion", TyInt); ("UnlockNextOperation", TyBool);
  ("DataCapacity", TyString); ("DataStorageClass", TyString); ("StorageConfigs", TySlice StorageConfig_t);
  ("SidecarConfigs", TySlice Container); ("ConfigMapName", TyString); ("ServerVersion", TyString);
  ("ServerType", TyString); ("Config", TySlice TyInt); ("ImagePullSecret", LocalObjectReference);
  ("ImageJolokiaSecret", LocalObjectReference); ("KeyspaceCleanupThreads", TyInt); ("Topology", Topology_t);
  ("LivenessInitialDelaySeconds", TyPtr TyInt); ("LivenessHealthCheckTimeout", TyPtr TyInt);
  ("LivenessHealthCheckPeriod", TyPtr TyInt); ("LivenessFailureThreshold", TyPtr TyInt);
  ("LivenessSuccessThreshold", TyPtr TyInt); ("ReadinessInitialDelaySeconds", TyPtr TyInt);
  ("ReadinessHealthCheckTimeout", TyPtr TyInt); ("ReadinessHealthCheckPeriod", TyPtr TyInt);
  ("ReadinessFailureThreshold", TyPtr TyInt); ("ReadinessSuccessThreshold", TyPtr TyInt);
  ("ShareProcessNamespace", TyPtr TyBool); ("BackRestSidecar", TyPtr BackRestSidecar_t);
  ("ServiceAccountName", TyString); ("JMXConfiguration", TyPtr JMXConfiguration_t)].
Definition CassandraClusterSpec_DeepCopyInto : gval → heapM gval := body [
  ("ReadOnlyRootFilesystem", unless_nil (new_value TyBool));
  ("Resources", ResourceRequirements_DeepCopyInto);
  ("Pod", unless_nil (new_into PodPolicy_t PodPolicy_DeepCopyInto));
  ("Service", unless_nil (new_into ServicePolicy_t ServicePolicy_DeepCopyInto));
  ("StorageConfigs", unless_nil (make_each StorageConfig_t StorageConfig_DeepCopyInto));
  ("SidecarConfigs", unless_nil (make_each Container Container_DeepCopyInto));
  ("Config", unless_nil (make_copy TyInt));
  ("ImagePullSecret", mret);
  ("ImageJolokiaSecret", mret);
  ("Topology", Topology_DeepCopyInto);
  ("LivenessInitialDelaySeconds", unless_nil (new_value TyInt));
  ("LivenessHealthCheckTimeout", unless_nil (new_value TyInt));
  ("LivenessHealthCheckPeriod", unless_nil (new_value TyInt));
  ("LivenessFailureThreshold", unless_nil (new_value TyInt));
  ("LivenessSuccessThreshold", unless_nil (new_value TyInt));
  ("ReadinessInitialDelaySeconds", unless_nil (new_value TyInt));
  ("ReadinessHealthCheckTimeout", unless_nil (new_value TyInt));
  ("ReadinessHealthCheckPeriod", unless_nil (new_value TyInt));
  ("ReadinessFailureThreshold", unless_nil (new_value TyInt));
  ("ReadinessSuccessThreshold", unless_nil (new_value TyInt));
  ("ShareProcessNamespace", unless_nil (new_value TyBool));
  ("BackRestSidecar", unless_nil (new_into BackRestSidecar_t BackRestSidecar_DeepCopyInto));
  ("JMXConfiguration", unless_nil (new_into JMXConfiguration_t JMXConfiguration_DeepCopyInto))].
Definition CassandraClusterSpec_DeepCopy : gval → heapM gval :=
  DeepCopy CassandraClusterSpec_t CassandraClusterSpec_DeepCopyInto.

(** *** CassandraNodeStatus *)
Definition CassandraNodeStatus_t : gtype :=
  TyStruct [("HostId", TyString); ("NodeIp", TyString)].
Definition CassandraNodeStatus_DeepCopyInto : gval → heapM gval := body [].
Definition CassandraNodeStatus_DeepCopy : gval → heapM gval :=
  DeepCopy CassandraNodeStatus_t CassandraNodeStatus_DeepCopyInto.

(** *** CassandraLastAction *)
Definition CassandraLastAction_t : gtype :=
  TyStruct [("Status", TyString); ("Name", TyString); ("StartTime", TyPtr Time); ("EndTime", TyPtr Time);
  ("UpdatedNodes", TySlice TyString)].
Definition CassandraLastAction_DeepCopyInto : gval → heapM gval := body [
  ("StartTime", unless_nil Time_DeepCopy);
  ("EndTime", unless_nil Time_DeepCopy);
  ("UpdatedNodes", unless_nil (make_copy TyString))].
Definition CassandraLastAction_DeepCopy : gval → heapM gval :=
  DeepCopy CassandraLastAction_t CassandraLastAction_DeepCopyInto.

(** *** PodLastOperation *)
Definition PodLastOperation_t : gtype :=
  TyStruct [("Name", TyString); ("Status", TyString); ("StartTime", TyPtr Time); ("EndTime", TyPtr Time);
  ("Pods", TySlice TyString); ("PodsOK", TySlice TyString); ("PodsKO", TySlice TyString); ("OperatorName", TyString)].
Definition PodLastOperation_DeepCopyInto : gval → heapM gval := body [
  ("StartTime", unless_nil Time_DeepCopy);
  ("EndTime", unless_nil Time_DeepCopy);
  ("Pods", unless_nil (make_copy TyString));
  ("PodsOK", unless_nil (make_copy TyString));
  ("PodsKO", unless_nil (make_copy TyString))].
Definition PodLastOperation_DeepCopy : gval → heapM gval := DeepCopy PodLastOperation_t PodLastOperation_DeepCopyInto.

(** *** CassandraRackStatus *)
Definition CassandraRackStatus_t : gtype :=
  TyStruct [("Phase", TyString); ("CassandraLastAction", CassandraLastAction_t);
  ("PodLastOperation", PodLastOperation_t); ("StatefulSetSnapshotBeforeStorageResize", TyString)].
Definition CassandraRackStatus_DeepCopyInto : gval → heapM gval := body [
  ("CassandraLastAction", CassandraLastAction_DeepCopyInto);
  ("PodLastOperation", PodLastOperation_DeepCopyInto)].
Definition CassandraRackStatus_DeepCopy : gval → heapM gval :=
  DeepCopy CassandraRackStatus_t CassandraRackStatus_DeepCopyInto.

(** *** CassandraClusterStatus *)
Definition CassandraClusterStatus_t : gtype :=
  TyStruct [("Phase", TyString); ("LastClusterAction", TyString); ("LastClusterActionStatus", TyString);
  ("SeedList", TySlice TyString); ("CassandraNodesStatus", TyMap CassandraNodeStatus_t);
  ("CassandraRackStatus", TyMap (TyPtr CassandraRackStatus_t))].
Definition CassandraClusterStatus_DeepCopyInto : gval → heapM gval := body [
  ("SeedList", unless_nil (make_copy TyString));
  ("CassandraNodesStatus", unless_nil (make_map mret));
  ("CassandraRackStatus", unless_nil (make_map (unless_nil (new_into CassandraRackStatus_t CassandraRackStatus_DeepCopyInto))))].
Definition CassandraClusterStatus_DeepCopy : gval → heapM gval :=
  DeepCopy CassandraClusterStatus_t CassandraClusterStatus_DeepCopyInto.

(** *** CassandraCluster *)
Definition CassandraCluster_t : gtype :=
  TyStruct [("TypeMeta", TypeMeta); ("ObjectMeta", ObjectMeta); ("Spec", CassandraClusterSpec_t);
  ("Status", CassandraClusterStatus_t)].
Definition CassandraCluster_DeepCopyInto : gval → heapM gval := body [
  ("TypeMeta", mret);
  ("ObjectMeta", ObjectMeta_DeepCopyInto);
  ("Spec", CassandraClusterSpec_DeepCopyInto);
  ("Status", CassandraClusterStatus_DeepCopyInto)].
Definition CassandraCluster_DeepCopy : gval → heapM gval := DeepCopy CassandraCluster_t CassandraCluster_DeepCopyInto.
Definition CassandraCluster_DeepCopyObject : gval → heapM (option loc) :=
  DeepCopyObject CassandraCluster_t CassandraCluster_DeepCopyInto.

(** *** CassandraClusterList *)
Definition CassandraClusterList_t : gtype :=
  TyStruct [("TypeMeta", TypeMeta); ("ListMeta", ListMeta); ("Items", TySlice CassandraCluster_t)].
Definition CassandraClusterList_DeepCopyInto : gval → heapM gval := body [
  ("TypeMeta", mret);
  ("ListMeta", ListMeta_DeepCopyInto);
  ("Items", unless_nil (make_each CassandraCluster_t CassandraCluster_DeepCopyInto))].
Definition CassandraClusterList_DeepCopy : gval → heapM gval :=
  DeepCopy CassandraClusterList_t CassandraClusterList_DeepCopyInto.
Definition CassandraClusterList_DeepCopyObject : gval → heapM (option loc) :=
  DeepCopyObject CassandraClusterList_t CassandraClusterList_DeepCopyInto.

(** *** CassandraRestoreSpec *)
Definition CassandraRestoreSpec_t : gtype :=
  TyStruct [("CassandraCluster", TyString); ("Datacenter", TyString); ("CassandraBackup", TyString);
  ("ConcurrentConnection", TyPtr TyInt); ("CassandraDirectory", TyString); ("NoDeleteTruncates", TyBool);
  ("SchemaVersion", TyString); ("ExactSchemaVersion", TyBool); ("Entities", TyString); ("Rename", TyMap TyString);
  ("Secret", TyString)].
Definition CassandraRestoreSpec_DeepCopyInto : gval → heapM gval := body [
  ("ConcurrentConnection", unless_nil (new_value TyInt));
  ("Rename", unless_nil (make_map mret))].
Definition CassandraRestoreSpec_DeepCopy : gval → heapM gval :=
  DeepCopy CassandraRestoreSpec_t CassandraRestoreSpec_DeepCopyInto.

(** *** CassandraRestore *)
Definition CassandraRestore_t : gtype :=
  TyStruct [("TypeMeta", TypeMeta); ("ObjectMeta", ObjectMeta); ("Spec", CassandraRestoreSpec_t);
  ("Status", BackRestStatus_t)].
Definition CassandraRestore_DeepCopyInto : gval → heapM gval := body [
  ("TypeMeta", mret);
  ("ObjectMeta", ObjectMeta_DeepCopyInto);
  ("Spec", CassandraRestoreSpec_DeepCopyInto);
  ("Status", BackRestStatus_DeepCopyInto)].
Definition CassandraRestore_DeepCopy : gval → heapM gval := DeepCopy CassandraRestore_t CassandraRestore_DeepCopyInto.
Definition CassandraRestore_DeepCopyObject : gval → heapM (option loc) :=
  DeepCopyObject CassandraRestore_t CassandraRestore_DeepCopyInto.

(** *** CassandraRestoreList *)
Definition CassandraRestoreList_t : gtype :=
  TyStruct [("TypeMeta", TypeMeta); ("ListMeta", ListMeta); ("Items", TySlice CassandraRestore_t)].
Definition CassandraRestoreList_DeepCopyInto : gval → heapM gval := body [
  ("TypeMeta", mret);
  ("ListMeta", ListMeta_DeepCopyInto);
  ("Items", unless_nil (make_each CassandraRestore_t CassandraRestore_DeepCopyInto))].
Definition CassandraRestoreList_DeepCopy : gval → heapM gval :=
  DeepCopy CassandraRestoreList_t CassandraRestoreList_DeepCopyInto.
Definition CassandraRestoreList_DeepCopyObject : gval → heapM (option loc) :=
  DeepCopyObject CassandraRestoreList_t CassandraRestoreList_DeepCopyInto.

(** *** ClusterStateInfo *)
Definition ClusterStateInfo_t : gtype :=
  TyStruct [("ID", TyFloat); ("Name", TyString)].
Definition ClusterStateInfo_DeepCopyInto : gval → heapM gval := body [].
Definition ClusterStateInfo_DeepCopy : gval → heapM gval := DeepCopy ClusterStateInfo_t ClusterStateInfo_DeepCopyInto.

(** *** CompleteRackName *)
Definition CompleteRackName_t : gtype :=
  TyStruct [("DcName", TyString); ("RackName", TyString); ("DcRackName", TyString)].
Definition CompleteRackName_DeepCopyInto : gval → heapM gval := body [].
Definition CompleteRackName_DeepCopy : gval → heapM gval := DeepCopy CompleteRackName_t CompleteRackName_DeepCopyInto.

(** ** src/multi-casskop/api/v2 *)
(** *** MultiCasskopSpec *)
Definition MultiCasskopSpec_t : gtype :=
  TyStruct [("DeleteCassandraCluster", TyPtr TyBool); ("Base", CassandraCluster_t);
  ("Override", TyMap CassandraCluster_t)].
Definition MultiCasskopSpec_DeepCopyInto : gval → heapM gval := body [
  ("DeleteCassandraCluster", unless_nil (new_value TyBool));
  ("Base", CassandraCluster_DeepCopyInto);
  ("Override", unless_nil (make_map (copy_of_var CassandraCluster_t CassandraCluster_DeepCopyInto)))].
Definition MultiCasskopSpec_DeepCopy : gval → heapM gval := DeepCopy MultiCasskopSpec_t MultiCasskopSpec_DeepCopyInto.

(** *** MultiCasskopStatus *)
Definition MultiCasskopStatus_t : gtype :=
  TyStruct [].
Definition MultiCasskopStatus_DeepCopyInto : gval → heapM gval := body [].
Definition MultiCasskopStatus_DeepCopy : gval → heapM gval :=
  DeepCopy MultiCasskopStatus_t MultiCasskopStatus_DeepCopyInto.

(** *** MultiCasskop *)
Definition MultiCasskop_t : gtype :=
  TyStruct [("TypeMeta", TypeMeta); ("ObjectMeta", ObjectMeta); ("Spec", MultiCasskopSpec_t);
  ("Status", MultiCasskopStatus_t)].
Definition MultiCasskop_DeepCopyInto : gval → heapM gval := body [
  ("TypeMeta", mret);
  ("ObjectMeta", ObjectMeta_DeepCopyInto);
  ("Spec", MultiCasskopSpec_DeepCopyInto);
  ("Status", mret)].
Definition MultiCasskop_DeepCopy : gval → heapM gval := DeepCopy MultiCasskop_t MultiCasskop_DeepCopyInto.
Definition MultiCasskop_DeepCopyObject : gval → heapM (option loc) :=
  DeepCopyObject MultiCasskop_t MultiCasskop_DeepCopyInto.

(** *** MultiCasskopList *)
Definition MultiCasskopList_t : gtype :=
  TyStruct [("TypeMeta", TypeMeta); ("ListMeta", ListMeta); ("Items", TySlice MultiCasskop_t)].
Definition MultiCasskopList_DeepCopyInto : gval → heapM gval := body [
  ("TypeMeta", mret);
  ("ListMeta", ListMeta_DeepCopyInto);
  ("Items", unless_nil (make_each MultiCasskop_t MultiCasskop_DeepCopyInto))].
Definition MultiCasskopList_DeepCopy : gval → heapM gval := DeepCopy MultiCasskopList_t MultiCasskopList_DeepCopyInto.
Definition MultiCasskopList_DeepCopyObject : gval → heapM (option loc) :=
  DeepCopyObject MultiCasskopList_t MultiCasskopList_DeepCopyInto.
End routines.

(** ** Contracts *)
#[export] Hint Resolve TypeMeta_flat LocalObjectReference_flat ObjectMeta_copies ListMeta_copies
  ResourceRequirements_copies VolumeMount_copies Container_copies Toleration_copies
  PersistentVolumeClaimSpec_copies Time_copies copies_unless_nil : copies.
#[export] Hint Transparent RackSlice_t DCSlice_t : copies.

Section contracts.
Context {Ext : ExternalTypes} {Ord : MapOrder} {Laws : ExternalLaws Ext}.

Lemma FailureCause_copies : copies FailureCause_t FailureCause_DeepCopyInto.
Proof. solve_copies. Qed.
#[local] Hint Resolve FailureCause_copies : copies.
Lemma BackRestCondition_copies : copies BackRestCondition_t BackRestCondition_DeepCopyInto.
Proof. solve_copies. Qed.
#[local] Hint Resolve BackRestCondition_copies : copies.
Lemma BackRestSidecar_copies : copies BackRestSidecar_t BackRestSidecar_DeepCopyInto.
Proof. solve_copies. Qed.
#[local] Hint Resolve BackRestSidecar_copies : copies.
Lemma BackRestStatus_copies : copies BackRestStatus_t BackRestStatus_DeepCopyInto.
Proof. solve_copies. Qed.
#[local] Hint Resolve BackRestStatus_copies : copies.
Lemma CassandraBackupSpec_copies : copies CassandraBackupSpec_t CassandraBackupSpec_DeepCopyInto.
Proof. solve_copies. Qed.
#[local] Hint Resolve CassandraBackupSpec_copies : copies.
Lemma CassandraBackup_copies : copies CassandraBackup_t CassandraBackup_DeepCopyInto.
Proof. solve_copies. Qed.
#[local] Hint Resolve CassandraBackup_copies : copies.
Lemma CassandraBackupList_copies : copies CassandraBackupList_t CassandraBackupList_DeepCopyInto.
Proof. solve_copies. Qed.
#[local] Hint Resolve CassandraBackupList_copies : copies.
Lemma JMXConfiguration_copies : copies JMXConfiguration_t JMXConfiguration_DeepCopyInto.
Proof. solve_copies. Qed.
#[local] Hint Resolve JMXConfiguration_copies : copies.
Lemma PodPolicy_copies : copies PodPolicy_t PodPolicy_DeepCopyInto.
Proof. solve_copies. Qed.
#[local] Hint Resolve PodPolicy_copies : copies.
Lemma ServicePolicy_copies : copies ServicePolicy_t ServicePolicy_DeepCopyInto.
Proof. solve_copies. Qed.
#[local] Hint Resolve ServicePolicy_copies : copies.
Lemma StorageConfig_copies : copies StorageConfig_t StorageConfig_DeepCopyInto.
Proof. solve_copies. Qed.
#[local] Hint Resolve StorageConfig_copies : copies.
Lemma Rack_copies : copies Rack_t Rack_DeepCopyInto.
Proof. solve_copies. Qed.
#[local] Hint Resolve Rack_copies : copies.
Lemma DC_copies : copies DC_t DC_DeepCopyInto.
Proof. solve_copies. Qed.
#[local] Hint Resolve DC_copies : copies.
Lemma Topology_copies : copies Topology_t Topology_DeepCopyInto.
Proof. solve_copies. Qed.
#[local] Hint Resolve Topology_copies : copies.
Lemma CassandraClusterSpec_copies : copies CassandraClusterSpec_t CassandraClusterSpec_DeepCopyInto.
Proof. solve_copies. Qed.
#[local] Hint Resolve CassandraClusterSpec_copies : copies.
Lemma CassandraNodeStatus_copies : copies CassandraNodeStatus_t CassandraNodeStatus_DeepCopyInto.
Proof. solve_copies. Qed.
#[local] Hint Resolve CassandraNodeStatus_copies : copies.
Lemma CassandraLastAction_copies : copies CassandraLastAction_t CassandraLastAction_DeepCopyInto.
Proof. solve_copies. Qed.
#[local] Hint Resolve CassandraLastAction_copies : copies.
Lemma PodLastOperation_copies : copies PodLastOperation_t PodLastOperation_DeepCopyInto.
Proof. solve_copies. Qed.
#[local] Hint Resolve PodLastOperation_copies : copies.
Lemma CassandraRackStatus_copies : copies CassandraRackStatus_t CassandraRackStatus_DeepCopyInto.
Proof. solve_copies. Qed.
#[local] Hint Resolve CassandraRackStatus_copies : copies.
Lemma CassandraClusterStatus_copies : copies CassandraClusterStatus_t CassandraClusterStatus_DeepCopyInto.
Proof. solve_copies. Qed.
#[local] Hint Resolve CassandraClusterStatus_copies : copies.
Lemma CassandraCluster_copies : copies CassandraCluster_t CassandraCluster_DeepCopyInto.
Proof. solve_copies. Qed.
#[local] Hint Resolve CassandraCluster_copies : copies.
Lemma CassandraClusterList_copies : copies CassandraClusterList_t CassandraClusterList_DeepCopyInto.
Proof. solve_copies. Qed.
#[local] Hint Resolve CassandraClusterList_copies : copies.
Lemma CassandraRestoreSpec_copies : copies CassandraRestoreSpec_t CassandraRestoreSpec_DeepCopyInto.
Proof. solve_copies. Qed.
#[local] Hint Resolve CassandraRestoreSpec_copies : copies.
Lemma CassandraRestore_copies : copies CassandraRestore_t CassandraRestore_DeepCopyInto.
Proof. solve_copies. Qed.
#[local] Hint Resolve CassandraRestore_copies : copies.
Lemma CassandraRestoreList_copies : copies CassandraRestoreList_t CassandraRestoreList_DeepCopyInto.
Proof. solve_copies. Qed.
#[local] Hint Resolve CassandraRestoreList_copies : copies.
Lemma ClusterStateInfo_copies : copies ClusterStateInfo_t ClusterStateInfo_DeepCopyInto.
Proof. solve_copies. Qed.
#[local] Hint Resolve ClusterStateInfo_copies : copies.
Lemma CompleteRackName_copies : copies CompleteRackName_t CompleteRackName_DeepCopyInto.
Proof. solve_copies. Qed.
#[local] Hint Resolve CompleteRackName_copies : copies.
Lemma MultiCasskopSpec_copies : copies MultiCasskopSpec_t MultiCasskopSpec_DeepCopyInto.
Proof. solve_copies. Qed.
#[local] Hint Resolve MultiCasskopSpec_copies : copies.
Lemma MultiCasskopStatus_copies : copies MultiCasskopStatus_t MultiCasskopStatus_DeepCopyInto.
Proof. solve_copies. Qed.
#[local] Hint Resolve MultiCasskopStatus_copies : copies.
Lemma MultiCasskop_copies : copies MultiCasskop_t MultiCasskop_DeepCopyInto.
Proof. solve_copies. Qed.
#[local] Hint Resolve MultiCasskop_copies : copies.
Lemma MultiCasskopList_copies : copies MultiCasskopList_t MultiCasskopList_DeepCopyInto.
Proof. solve_copies. Qed.
#[local] Hint Resolve MultiCasskopList_copies : copies.

(** The routines of the two files that take any value: the declared type and the copy. *)
Definition routines : list (gtype * (gval → heapM gval)) := [
  (FailureCause_t, FailureCause_DeepCopyInto); (TyPtr FailureCause_t, FailureCause_DeepCopy);
  (BackRestCondition_t, BackRestCondition_DeepCopyInto); (TyPtr BackRestCondition_t, BackRestCondition_DeepCopy);
  (BackRestSidecar_t, BackRestSidecar_DeepCopyInto); (TyPtr BackRestSidecar_t, BackRestSidecar_DeepCopy);
  (BackRestStatus_t, BackRestStatus_DeepCopyInto); (TyPtr BackRestStatus_t, BackRestStatus_DeepCopy);
  (CassandraBackupSpec_t, CassandraBackupSpec_DeepCopyInto); (TyPtr CassandraBackupSpec_t, CassandraBackupSpec_DeepCopy);
  (CassandraBackup_t, CassandraBackup_DeepCopyInto); (TyPtr CassandraBackup_t, CassandraBackup_DeepCopy);
  (CassandraBackupList_t, CassandraBackupList_DeepCopyInto); (TyPtr CassandraBackupList_t, CassandraBackupList_DeepCopy);
  (JMXConfiguration_t, JMXConfiguration_DeepCopyInto); (TyPtr JMXConfiguration_t, JMXConfiguration_DeepCopy);
  (PodPolicy_t, PodPolicy_DeepCopyInto); (TyPtr PodPolicy_t, PodPolicy_DeepCopy);
  (ServicePolicy_t, ServicePolicy_DeepCopyInto); (TyPtr ServicePolicy_t, ServicePolicy_DeepCopy);
  (StorageConfig_t, StorageConfig_DeepCopyInto); (TyPtr StorageConfig_t, StorageConfig_DeepCopy);
  (Rack_t, Rack_DeepCopyInto); (TyPtr Rack_t, Rack_DeepCopy);
  (RackSlice_t, RackSlice_DeepCopy);
  (DC_t, DC_DeepCopyInto); (TyPtr DC_t, DC_DeepCopy);
  (DCSlice_t, DCSlice_DeepCopy);
  (Topology_t, Topology_DeepCopyInto); (TyPtr Topology_t, Topology_DeepCopy);
  (CassandraClusterSpec_t, CassandraClusterSpec_DeepCopyInto); (TyPtr CassandraClusterSpec_t, CassandraClusterSpec_DeepCopy);
  (CassandraNodeStatus_t, CassandraNodeStatus_DeepCopyInto); (TyPtr CassandraNodeStatus_t, CassandraNodeStatus_DeepCopy);
  (CassandraLastAction_t, CassandraLastAction_DeepCopyInto); (TyPtr CassandraLastAction_t, CassandraLastAction_DeepCopy);
  (PodLastOperation_t, PodLastOperation_DeepCopyInto); (TyPtr PodLastOperation_t, PodLastOperation_DeepCopy);
  (CassandraRackStatus_t, CassandraRackStatus_DeepCopyInto); (TyPtr CassandraRackStatus_t, CassandraRackStatus_DeepCopy);
  (CassandraClusterStatus_t, CassandraClusterStatus_DeepCopyInto); (TyPtr CassandraClusterStatus_t, CassandraClusterStatus_DeepCopy);
  (CassandraCluster_t, CassandraCluster_DeepCopyInto); (TyPtr CassandraCluster_t, CassandraCluster_DeepCopy);
  (CassandraClusterList_t, CassandraClusterList_DeepCopyInto); (TyPtr CassandraClusterList_t, CassandraClusterList_DeepCopy);
  (CassandraRestoreSpec_t, CassandraRestoreSpec_DeepCopyInto); (TyPtr CassandraRestoreSpec_t, CassandraRestoreSpec_DeepCopy);
  (CassandraRestore_t, CassandraRestore_DeepCopyInto); (TyPtr CassandraRestore_t, CassandraRestore_DeepCopy);
  (CassandraRestoreList_t, CassandraRestoreList_DeepCopyInto); (TyPtr CassandraRestoreList_t, CassandraRestoreList_DeepCopy);
  (ClusterStateInfo_t, ClusterStateInfo_DeepCopyInto); (TyPtr ClusterStateInfo_t, ClusterStateInfo_DeepCopy);
  (CompleteRackName_t, CompleteRackName_DeepCopyInto); (TyPtr CompleteRackName_t, CompleteRackName_DeepCopy);
  (MultiCasskopSpec_t, MultiCasskopSpec_DeepCopyInto); (TyPtr MultiCasskopSpec_t, MultiCasskopSpec_DeepCopy);
  (MultiCasskopStatus_t, MultiCasskopStatus_DeepCopyInto); (TyPtr MultiCasskopStatus_t, MultiCasskopStatus_DeepCopy);
  (MultiCasskop_t, MultiCasskop_DeepCopyInto); (TyPtr MultiCasskop_t, MultiCasskop_DeepCopy);
  (MultiCasskopList_t, MultiCasskopList_DeepCopyInto); (TyPtr MultiCasskopList_t, MultiCasskopList_DeepCopy)].

Lemma routines_copy : Forall (λ r, copies r.1 r.2) routines.
Proof.
  repeat (apply Forall_cons; split; [cbn [fst snd]|]); [..|apply Forall_nil_2];
    first [solve [eauto 1 with copies] | apply copies_DeepCopy | apply copies_each_slice]; eauto 1 with copies.
Qed.

(** The two that take a slice and "must be non-nil", as their comments say: they make
    an empty slice of nil ([each_slice_nil]). *)
Definition slice_routines : list (gtype * (gval → heapM gval)) := [
  (RackSlice_t, RackSlice_DeepCopyInto); (DCSlice_t, DCSlice_DeepCopyInto)].

(** On a slice they are their guarded callers. *)
Lemma slice_routines_copy ty f : (ty, f) ∈ slice_routines → copies ty (unless_nil f).
Proof.
  intros [[= -> ->]|[[= -> ->]|[]%elem_of_nil]%elem_of_cons]%elem_of_cons; apply copies_each_slice; eauto 1 with copies.
Qed.
End contracts.

(** ** What the controllers rely on *)
Section independence.
Context {Ext : ExternalTypes} {Ord : MapOrder} {Laws : ExternalLaws Ext}.

(** C21: Every [DeepCopyInto] and [DeepCopy] of the resources is a deep copy of the type
    its file declares (the [DeepCopyInto] of the two slice types, [RackSlice] and
    [DCSlice], on a slice that is not nil, as their comments ask).  On a value that
    stands for [t] it returns; the cells that were there are unchanged; original and
    copy both stand for [t] afterwards; whatever is then written into cells the copy
    added (all that can be reached through it) leaves the original, and whatever is
    written elsewhere leaves the copy. *)
Theorem deep_copies_independent ty f h v t :
  (ty, f) ∈ routines ∨ ((ty, f) ∈ slice_routines ∧ is_nil v = false) → read h ty v = Some t →
  ∃ v' h', f v h = Ret (v', h') ∧ h ⊆ h' ∧ read h' ty v = Some t ∧ read h' ty v' = Some t ∧
    (∀ ws, Forall (λ w, w.1 ∉ dom h) ws → read (writes ws h') ty v = Some t) ∧
    (∀ ws, Forall (λ w, w.1 ∈ dom h ∨ w.1 ∉ dom h') ws → read (writes ws h') ty v' = Some t).
Proof.
  intros [Hin|[Hin Hnil]] Ht.
  - apply copies_independent; [|done]. pose proof routines_copy as Hc. rewrite Forall_forall in Hc. apply (Hc _ Hin).
  - replace (f v h) with (unless_nil f v h) by (unfold unless_nil; by rewrite Hnil).
    apply copies_independent; [by apply slice_routines_copy|done].
Qed.

(** [DeepCopyObject] is nil for nil and a pointer to the copy otherwise: it never is
    an interface that holds a nil pointer. *)
Theorem deep_copy_object ty into (h : heap) p t :
  copies ty into → read h (TyPtr ty) (VPtr p) = Some t →
  ∃ p' h', DeepCopyObject ty into (VPtr p) h = Ret (p', h') ∧ (p' = None ↔ p = None) ∧
    read h' (TyPtr ty) (VPtr p') = Some t.
Proof.
  intros Hc Ht. destruct (copies_DeepCopy ty into Hc h (VPtr p) t Ht) as (v' & hn & Hd & Hrun & Hr).
  destruct v' as [| |p'| |]; try done. exists p', (h ∪ hn). split; [|split].
  - unfold DeepCopyObject. by rewrite (GoM_bind_Ret _ _ _ _ _ Hrun).
  - cbn in Ht, Hr. destruct p, p'; repeat case_match; simplify_option_eq; done.
  - apply (read_mono hn); [by apply map_union_subseteq_r|done].
Qed.
End independence.

(** ** An instance

    Reduced declarations of the Kubernetes types, each with a location where the real
    one has some, and a status with one rack. *)
Module SampleTypes.
#[local] Instance sample_order : MapOrder := {| map_range A := map_to_list; map_range_perm A m := reflexivity _ |}.

Definition labelled : gtype := TyStruct [("Name", TyString); ("Labels", TyMap TyString)].
Definition labelled_into : gval → heapM gval := body [("Labels", unless_nil (make_map mret))].
Definition optional : gtype := TyStruct [("Key", TyString); ("Value", TyPtr TyString)].
Definition optional_into : gval → heapM gval := body [("Value", unless_nil (new_value TyString))].
Definition listed : gtype := TyStruct [("Name", TyString); ("Command", TySlice TyString)].
Definition listed_into : gval → heapM gval := body [("Command", unless_nil (make_copy TyString))].
Definition named_only : gtype := TyStruct [("Name", TyString)].

#[local] Instance sample_types : ExternalTypes := {|
  TypeMeta := named_only; LocalObjectReference := named_only; Time := TyInt;
  ObjectMeta := labelled; ObjectMeta_DeepCopyInto := labelled_into;
  ListMeta := named_only; ListMeta_DeepCopyInto := body [];
  ResourceRequirements := labelled; ResourceRequirements_DeepCopyInto := labelled_into;
  VolumeMount := optional; VolumeMount_DeepCopyInto := optional_into;
  Container := listed; Container_DeepCopyInto := listed_into;
  Toleration := optional; Toleration_DeepCopyInto := optional_into;
  PersistentVolumeClaimSpec := optional; PersistentVolumeClaimSpec_DeepCopyInto := optional_into;
  Time_DeepCopy := DeepCopy TyInt mret |}.

Lemma labelled_copies : copies labelled labelled_into.
Proof. solve_copies. Qed.
Lemma optional_copies : copies optional optional_into.
Proof. solve_copies. Qed.
Lemma listed_copies : copies listed listed_into.
Proof. solve_copies. Qed.
Lemma named_only_copies : copies named_only (body []).
Proof. solve_copies. Qed.

#[local] Instance sample_laws : ExternalLaws sample_types.
Proof.
  split; [reflexivity..|apply labelled_copies|apply named_only_copies|apply labelled_copies|apply optional_copies
    |apply listed_copies|apply optional_copies|apply optional_copies|by apply copies_DeepCopy, copies_flat].
Qed.

(** A status with the rack dc1-rack1 and a list of one seed: the map of the racks is
    the cell 1, its rack the cell 2 and the array of the seeds the cell 3. *)
Definition with_field (n : string) (x v : gval) : gval :=
  match v with VStruct vs => VStruct (<[n := x]> vs) | v => v end.
Definition sample_rack : gval := with_field "Phase" (VBase (BString "Running")) (zero CassandraRackStatus_t).
Definition sample_heap : heap :=
  <[1%positive := CMap {[ "dc1-rack1" := VPtr (Some 2%positive) ]}]>
  (<[2%positive := CVal sample_rack]> {[3%positive := CArr [VBase (BString "cc-dc1-rack1-0")] ]}).
Definition sample_status : gval :=
  with_field "CassandraRackStatus" (VMap (Some 1%positive))
  (with_field "SeedList" (VSlice (Some (3%positive, 0, 1))) (zero CassandraClusterStatus_t)).

(** The copy of the status has cells of its own: changing the phase of the rack through
    any cell of the copy does not change the original. *)
Lemma deep_copies_independent_witness :
  ∃ t v' h', read sample_heap CassandraClusterStatus_t sample_status = Some t ∧
    CassandraClusterStatus_DeepCopyInto sample_status sample_heap = Ret (v', h') ∧
    h' ≠ sample_heap ∧ read h' CassandraClusterStatus_t v' = Some t ∧
    (∀ l c, l ∉ dom sample_heap → read (writes [(l, c)] h') CassandraClusterStatus_t sample_status = Some t).
Proof.
  destruct (read sample_heap CassandraClusterStatus_t sample_status) as [t|] eqn:Ht; [|vm_compute in Ht; discriminate].
  destruct (deep_copies_independent CassandraClusterStatus_t CassandraClusterStatus_DeepCopyInto sample_heap sample_status t)
    as (v' & h' & Hrun & _ & _ & Hr & Hw & _).
  - left. apply list_elem_of_lookup. exists 40. reflexivity.
  - exact Ht.
  - exists t, v', h'. split; [done|]. split; [done|]. split; [|split; [done|]].
    + intros ->. apply (f_equal (λ o, match o with Ret (_, h) => size h | Panic => 0 end)) in Hrun.
      vm_compute in Hrun. discriminate.
    + intros l c Hl. apply Hw. by apply Forall_singleton.
Defined.
End SampleTypes.
