(* ===== verification/KubeObjects.v ===== *)
(** * Kubernetes objects and the API server

    The records carry the fields of the Kubernetes API types
    ([k8s.io/api/core/v1], [apps/v1], [policy/v1]) that CassKop reads or writes.
    Code of those packages is not part of the repository: quantities are the
    interface [QuantityLib], the API server is the interface [ApiServer] of [Server].

    [*int32] replica counts are integers here: the operator always fills the
    pointer and the API server defaults it, so a stored object never has nil. *)
From S2P Require Import Prelude.

(** ** resource.Quantity *)
Class QuantityLib := {
  Quantity : Type;
  Quantity_eq_dec :: EqDecision Quantity;
  (** [resource.Quantity{}] *)
  Quantity_zero : Quantity;
  (** [resource.ParseQuantity]; [None] is the error, with the zero quantity. *)
  ParseQuantity : string → option Quantity;
  (** [q.Cmp(r)] *)
  Quantity_cmp : Quantity → Quantity → comparison;
  (** [q.Value()]: the amount as an int64 *)
  Quantity_Value : Quantity → Z;
  (** [q.IsZero()] *)
  Quantity_IsZero : Quantity → bool;
}.

(** [q.Equal(r)] compares the numbers, not the representations. *)
Definition Quantity_equal `{QuantityLib} (q r : Quantity) : bool :=
  match Quantity_cmp q r with Eq => true | _ => false end.

(** What the operator relies on: [Cmp] is a total preorder. *)
Class QuantityLaws (QL : QuantityLib) := {
  Quantity_cmp_refl q : Quantity_cmp q q = Eq;
  Quantity_cmp_antisym q r : Quantity_cmp r q = CompOpp (Quantity_cmp q r);
  Quantity_cmp_eq_trans q r s c :
    Quantity_cmp q r = Eq → Quantity_cmp r s = c → Quantity_cmp q s = c;
}.

(** A concrete quantity library, on which statements are instantiated: numbers of
    thousandths, from at most three decimals and an optional binary suffix, kept
    with their spelling. *)
Definition parse_decimal (l : list ascii) : option Z :=
  let digits (l : list ascii) := bool_decide (l ≠ []) && forallb is_digit l in
  match split_chars "."%char l with
  | [int] => if digits int then Some (1000 * digits_value int)%Z else None
  | [int; frac] =>
      if digits int && digits frac && bool_decide (length frac ≤ 3)
      then Some (1000 * digits_value int + digits_value (take 3 (frac ++ ["0"; "0"; "0"]%char)))%Z
      else None
  | _ => None
  end.

Definition parse_plain (s : string) : option (Z * string) :=
  let suffixed (l : list ascii) (m : Z) := (λ z, (z * m, s)%Z) <$> parse_decimal (reverse l) in
  match reverse (chars s) with
  | "i"%char :: "K"%char :: l => suffixed l (2 ^ 10)%Z
  | "i"%char :: "M"%char :: l => suffixed l (2 ^ 20)%Z
  | "i"%char :: "G"%char :: l => suffixed l (2 ^ 30)%Z
  | l => suffixed l 1%Z
  end.

Definition SampleQuantities : QuantityLib := {|
  Quantity := Z * string;
  Quantity_eq_dec := _;
  Quantity_zero := (0%Z, "");
  ParseQuantity := parse_plain;
  Quantity_cmp q r := (q.1 ?= r.1)%Z;
  Quantity_Value q := ((q.1 + 999) / 1000)%Z;
  Quantity_IsZero q := (q.1 =? 0)%Z |}.

#[export] Instance SampleQuantities_laws : QuantityLaws SampleQuantities.
Proof.
  split; simpl.
  - intros. apply Z.compare_refl.
  - intros. apply Z.compare_antisym.
  - intros q r s c Hqr Hrs. apply Z.compare_eq in Hqr. by rewrite Hqr.
Qed.

Section objects.
Context {QL : QuantityLib}.

(** ** metav1 *)
Record OwnerReference := mkOwnerReference {
  own_APIVersion : string; own_Kind : string; own_Name : string;
  own_UID : string; own_Controller : option bool }.
#[global] Instance OwnerReference_eq_dec : EqDecision OwnerReference.
Proof. solve_decision. Defined.

Record ObjectMeta := mkObjectMeta {
  m_Name : string; m_Namespace : string;
  m_Labels : gmap string string; m_Annotations : gmap string string;
  m_UID : string; m_ResourceVersion : string; m_Generation : Z;
  m_GenerateName : string; m_SelfLink : string;
  m_CreationTimestamp : option Z; m_DeletionTimestamp : option Z;
  m_DeletionGracePeriodSeconds : option Z;
  m_OwnerReferences : list OwnerReference; m_Finalizers : list string;
  m_ManagedFields : list string }.
#[global] Instance eta_ObjectMeta : Eta ObjectMeta := λ x,
  mkObjectMeta (m_Name x) (m_Namespace x) (m_Labels x) (m_Annotations x) (m_UID x)
    (m_ResourceVersion x) (m_Generation x) (m_GenerateName x) (m_SelfLink x)
    (m_CreationTimestamp x) (m_DeletionTimestamp x) (m_DeletionGracePeriodSeconds x)
    (m_OwnerReferences x) (m_Finalizers x) (m_ManagedFields x).
#[global] Instance ObjectMeta_eq_dec : EqDecision ObjectMeta.
Proof. solve_decision. Defined.

(** [metav1.ObjectMeta{Name: n, Namespace: ns}] *)
Definition named (ns n : string) : ObjectMeta :=
  mkObjectMeta n ns ∅ ∅ "" "" 0 "" "" None None None [] [] [].

(** ** core/v1: resources, containers, volumes *)
Abbreviation ResourceList := (gmap string Quantity).
(** [v1.ResourceRequirements]; a nil map is [None]. *)
Record ResourceRequirements := mkResourceRequirements {
  Limits : option ResourceList; Requests : option ResourceList }.
#[global] Instance eta_ResourceRequirements : Eta ResourceRequirements := λ x,
  mkResourceRequirements (Limits x) (Requests x).
#[global] Instance ResourceRequirements_eq_dec : EqDecision ResourceRequirements.
Proof. solve_decision. Defined.

(** [v1.EnvVarSource]: a field of the pod or a key of a secret *)
Inductive EnvVarSource :=
| FieldRef (APIVersion FieldPath : string)
| SecretKeyRef (secret Key : string).
#[global] Instance EnvVarSource_eq_dec : EqDecision EnvVarSource.
Proof. solve_decision. Defined.

Record EnvVar := mkEnvVar {
  env_Name : string; env_Value : string; env_ValueFrom : option EnvVarSource }.
#[global] Instance eta_EnvVar : Eta EnvVar := λ x, mkEnvVar (env_Name x) (env_Value x) (env_ValueFrom x).
#[global] Instance EnvVar_eq_dec : EqDecision EnvVar.
Proof. solve_decision. Defined.

Record VolumeMount := mkVolumeMount { vm_Name : string; vm_MountPath : string }.
#[global] Instance eta_VolumeMount : Eta VolumeMount := λ x, mkVolumeMount (vm_Name x) (vm_MountPath x).
#[global] Instance VolumeMount_eq_dec : EqDecision VolumeMount.
Proof. solve_decision. Defined.

Inductive ProbeHandler :=
| ExecAction (Command : list string)
| HTTPGetAction (Port : Z) (Path : string).
#[global] Instance ProbeHandler_eq_dec : EqDecision ProbeHandler.
Proof. solve_decision. Defined.

Record Probe := mkProbe {
  pr_InitialDelaySeconds : Z; pr_TimeoutSeconds : Z; pr_PeriodSeconds : Z;
  pr_FailureThreshold : Z; pr_SuccessThreshold : Z; pr_Handler : ProbeHandler }.
#[global] Instance eta_Probe : Eta Probe := λ x,
  mkProbe (pr_InitialDelaySeconds x) (pr_TimeoutSeconds x) (pr_PeriodSeconds x)
    (pr_FailureThreshold x) (pr_SuccessThreshold x) (pr_Handler x).
#[global] Instance Probe_eq_dec : EqDecision Probe.
Proof. solve_decision. Defined.

(** [v1.SecurityContext] of a container: the capabilities it adds, the type of its
    proc mount, and whether its root file system is read-only. *)
Record SecurityContext := mkSecurityContext {
  sec_Add : list string; sec_ProcMount : string; sec_ReadOnlyRootFilesystem : option bool }.
#[global] Instance SecurityContext_eq_dec : EqDecision SecurityContext.
Proof. solve_decision. Defined.

(** [v1.ContainerPort] and [v1.ServicePort]: name, number, protocol *)
Record NamedPort := mkPort { port_Name : string; port_Number : Z; port_Protocol : string }.
#[global] Instance NamedPort_eq_dec : EqDecision NamedPort.
Proof. solve_decision. Defined.

Record Container := mkContainer {
  c_Name : string; c_Image : string; c_ImagePullPolicy : string;
  c_Command : list string; c_Args : list string;
  c_Env : list EnvVar; c_VolumeMounts : list VolumeMount;
  c_Ports : list NamedPort; c_Resources : ResourceRequirements;
  c_ReadinessProbe : option Probe; c_LivenessProbe : option Probe;
  c_SecurityContext : option SecurityContext }.
#[global] Instance eta_Container : Eta Container := λ x,
  mkContainer (c_Name x) (c_Image x) (c_ImagePullPolicy x) (c_Command x) (c_Args x)
    (c_Env x) (c_VolumeMounts x) (c_Ports x) (c_Resources x) (c_ReadinessProbe x)
    (c_LivenessProbe x) (c_SecurityContext x).
#[global] Instance Container_eq_dec : EqDecision Container.
Proof. solve_decision. Defined.
(** [v1.Container{}] *)
Definition Container_zero : Container :=
  mkContainer "" "" "" [] [] [] [] [] (mkResourceRequirements None None) None None None.

(** [v1.Volume]: a config map volume carries the name of the map and the mode of
    its files. *)
Inductive VolumeSource :=
| EmptyDir
| ConfigMapSource (map : string) (DefaultMode : option Z)
| OtherSource (kind : string).
#[global] Instance VolumeSource_eq_dec : EqDecision VolumeSource.
Proof. solve_decision. Defined.
Record Volume := mkVolume { vol_Name : string; vol_Source : VolumeSource }.
#[global] Instance Volume_eq_dec : EqDecision Volume.
Proof. solve_decision. Defined.
Definition vol_ConfigMap (v : Volume) : option string :=
  match vol_Source v with ConfigMapSource n _ => Some n | _ => None end.

(** ** PersistentVolumeClaim *)
Record PVCSpec := mkPVCSpec {
  pvc_AccessModes : list string;
  pvc_Requests : option ResourceList;      (* Spec.Resources.Requests *)
  pvc_StorageClassName : option string;
  pvc_VolumeMode : option string }.
#[global] Instance eta_PVCSpec : Eta PVCSpec := λ x,
  mkPVCSpec (pvc_AccessModes x) (pvc_Requests x) (pvc_StorageClassName x) (pvc_VolumeMode x).
#[global] Instance PVCSpec_eq_dec : EqDecision PVCSpec.
Proof. solve_decision. Defined.

Record PersistentVolumeClaim := mkPVC {
  pvc_Meta : ObjectMeta; pvc_Spec : PVCSpec;
  pvc_Capacity : ResourceList              (* Status.Capacity *) }.
#[global] Instance eta_PVC : Eta PersistentVolumeClaim := λ x,
  mkPVC (pvc_Meta x) (pvc_Spec x) (pvc_Capacity x).
#[global] Instance PVC_eq_dec : EqDecision PersistentVolumeClaim.
Proof. solve_decision. Defined.

(** A missing key of a Go map reads as the zero value. *)
Definition resource_get (l : ResourceList) (k : string) : Quantity := default Quantity_zero (l !! k).

(** ** Pod *)
Record ContainerStatus := mkContainerStatus {
  cs_Name : string; cs_Ready : bool; cs_RestartCount : Z;
  cs_WaitingReason : option string         (* State.Waiting *) }.
#[global] Instance ContainerStatus_eq_dec : EqDecision ContainerStatus.
Proof. solve_decision. Defined.

Record PodCondition := mkPodCondition { cond_Type : string; cond_Status : string; cond_Reason : string }.
#[global] Instance PodCondition_eq_dec : EqDecision PodCondition.
Proof. solve_decision. Defined.

Record Pod := mkPod {
  pod_Meta : ObjectMeta;
  pod_Hostname : string; pod_Subdomain : string;
  pod_Phase : string; pod_PodIP : string;
  pod_Conditions : option (list PodCondition);
  pod_ContainerStatuses : list ContainerStatus }.
#[global] Instance eta_Pod : Eta Pod := λ x,
  mkPod (pod_Meta x) (pod_Hostname x) (pod_Subdomain x) (pod_Phase x) (pod_PodIP x)
    (pod_Conditions x) (pod_ContainerStatuses x).
#[global] Instance Pod_eq_dec : EqDecision Pod.
Proof. solve_decision. Defined.

Definition pod_Name (p : Pod) : string := m_Name (pod_Meta p).
Definition pod_Labels (p : Pod) : gmap string string := m_Labels (pod_Meta p).
Definition pod_DeletionTimestamp (p : Pod) : option Z := m_DeletionTimestamp (pod_Meta p).

Definition PodRunning : string := "Running".
Definition PodPending : string := "Pending".

(** ** StatefulSet *)
Record StatefulSetStatus := mkStsStatus {
  st_Replicas : Z; st_ReadyReplicas : Z;
  st_CurrentRevision : string; st_UpdateRevision : string }.
#[global] Instance eta_StsStatus : Eta StatefulSetStatus := λ x,
  mkStsStatus (st_Replicas x) (st_ReadyReplicas x) (st_CurrentRevision x) (st_UpdateRevision x).
#[global] Instance StsStatus_eq_dec : EqDecision StatefulSetStatus.
Proof. solve_decision. Defined.
(** [appsv1.StatefulSetStatus{}] *)
Definition StsStatus_zero : StatefulSetStatus := mkStsStatus 0 0 "" "".

(** [v1.Affinity]: node selector terms that must match, and the pods a pod is to
    keep away from. *)
Record NodeSelectorRequirement := mkNodeSelector {
  ns_Key : string; ns_Operator : string; ns_Values : list string }.
#[global] Instance NodeSelector_eq_dec : EqDecision NodeSelectorRequirement.
Proof. solve_decision. Defined.
Record PodAffinityTerm := mkPodAffinityTerm {
  pat_TopologyKey : string; pat_MatchLabels : gmap string string }.
#[global] Instance PodAffinityTerm_eq_dec : EqDecision PodAffinityTerm.
Proof. solve_decision. Defined.
Record PodAntiAffinity := mkPodAntiAffinity {
  paa_Required : list PodAffinityTerm; paa_Preferred : list (Z * PodAffinityTerm) }.
#[global] Instance PodAntiAffinity_eq_dec : EqDecision PodAntiAffinity.
Proof. solve_decision. Defined.
Record Affinity := mkAffinity {
  (** [NodeAffinity.RequiredDuringSchedulingIgnoredDuringExecution], its terms *)
  aff_Node : option (list (list NodeSelectorRequirement));
  aff_PodAnti : PodAntiAffinity }.
#[global] Instance Affinity_eq_dec : EqDecision Affinity.
Proof. solve_decision. Defined.

(** [v1.PodSecurityContext] *)
Record PodSecurityContext := mkPodSecurityContext {
  psc_RunAsUser : option Z; psc_RunAsNonRoot : option bool; psc_FSGroup : option Z }.
#[global] Instance PodSecurityContext_eq_dec : EqDecision PodSecurityContext.
Proof. solve_decision. Defined.

(** [v1.PodTemplateSpec]: its labels, annotations and pod spec. *)
Record PodTemplate := mkPodTemplate {
  t_Labels : gmap string string; t_Annotations : gmap string string;
  t_SchedulerName : string; t_DNSPolicy : string;
  t_Affinity : option Affinity; t_Tolerations : list string;
  t_SecurityContext : option PodSecurityContext;
  t_InitContainers : list Container; t_Containers : list Container;
  t_Volumes : option (list Volume);
  t_RestartPolicy : string; t_TerminationGracePeriodSeconds : option Z;
  t_ShareProcessNamespace : option bool;
  t_ServiceAccountName : string; t_ImagePullSecrets : list string }.
#[global] Instance eta_PodTemplate : Eta PodTemplate := λ x,
  mkPodTemplate (t_Labels x) (t_Annotations x) (t_SchedulerName x) (t_DNSPolicy x)
    (t_Affinity x) (t_Tolerations x) (t_SecurityContext x)
    (t_InitContainers x) (t_Containers x) (t_Volumes x) (t_RestartPolicy x)
    (t_TerminationGracePeriodSeconds x) (t_ShareProcessNamespace x) (t_ServiceAccountName x)
    (t_ImagePullSecrets x).
#[global] Instance PodTemplate_eq_dec : EqDecision PodTemplate.
Proof. solve_decision. Defined.
(** [v1.PodTemplateSpec{}] *)
Definition PodTemplate_zero : PodTemplate :=
  mkPodTemplate ∅ ∅ "" "" None [] None [] [] None "" None None "" [].

Record StatefulSet := mkSts {
  sts_TypeMeta : string * string;
  sts_Meta : ObjectMeta;
  sts_Replicas : Z;
  sts_ServiceName : string;
  sts_UpdateStrategy : string;
  sts_Partition : Z;
  sts_MatchLabels : gmap string string;
  sts_Template : PodTemplate;
  sts_VolumeClaimTemplates : list PersistentVolumeClaim;
  sts_Status : StatefulSetStatus }.
#[global] Instance eta_Sts : Eta StatefulSet := λ x,
  mkSts (sts_TypeMeta x) (sts_Meta x) (sts_Replicas x) (sts_ServiceName x)
    (sts_UpdateStrategy x) (sts_Partition x) (sts_MatchLabels x) (sts_Template x) (sts_VolumeClaimTemplates x) (sts_Status x).
#[global] Instance Sts_eq_dec : EqDecision StatefulSet.
Proof. solve_decision. Defined.

(** ** Service *)
Record Service := mkService {
  svc_Meta : ObjectMeta; svc_Type : string; svc_ClusterIP : string;
  svc_Ports : list NamedPort; svc_Selector : gmap string string;
  svc_PublishNotReadyAddresses : bool }.
#[global] Instance eta_Service : Eta Service := λ x,
  mkService (svc_Meta x) (svc_Type x) (svc_ClusterIP x) (svc_Ports x) (svc_Selector x)
    (svc_PublishNotReadyAddresses x).
#[global] Instance Service_eq_dec : EqDecision Service.
Proof. solve_decision. Defined.

(** ** PodDisruptionBudget *)
Record PodDisruptionBudget := mkPDB {
  pdb_Meta : ObjectMeta; pdb_MaxUnavailable : Z; pdb_MatchLabels : gmap string string;
  pdb_DisruptionsAllowed : Z; pdb_ExpectedPods : Z }.
#[global] Instance PDB_eq_dec : EqDecision PodDisruptionBudget.
Proof. solve_decision. Defined.
End objects.
