(* ===== verification/Types.v ===== *)
(** * The CassandraCluster resource (src/api/v2)

    The Go structs of [cassandracluster_types.go], [names.go] and the constants
    the controllers compare against.  Maps of pointers
    ([map[string]*CassandraRackStatus]) are [gmap]s: every access goes through
    the key, so an update through a pointer is an update of the entry.  Slices
    the code compares with nil are [option (list _)]. *)
From S2P Require Import Prelude KubeObjects.

(** ** Constants *)
Definition DefaultLivenessInitialDelaySeconds : Z := 120.
Definition DefaultLivenessHealthCheckTimeout : Z := 20.
Definition DefaultLivenessHealthCheckPeriod : Z := 10.
Definition DefaultReadinessInitialDelaySeconds : Z := 60.
Definition DefaultReadinessHealthCheckTimeout : Z := 10.
Definition DefaultReadinessHealthCheckPeriod : Z := 10.
Definition defaultCassandraImage : string := "cassandra:3.11.10".
Definition defaultBootstrapImage : string := "ghcr.io/cscetbon/casskop-bootstrap:0.1.21".
Definition defaultConfigBuilderImage : string := "datastax/cass-config-builder:1.0.4".
Definition DefaultBackRestImage : string := "ghcr.io/cscetbon/instaclustr-icarus:1.1.3".
Definition defaultServiceAccountName : string := "cassandra-cluster-node".
Definition defaultMaxPodUnavailable : Z := 1.
Definition defaultImagePullPolicy : string := "Always".
Definition DefaultCassandraDC : string := "dc1".
Definition DefaultCassandraRack : string := "rack1".
Definition DefaultResyncPeriod : Z := 10.
Definition DefaultDelayWait : Z := 2 * DefaultResyncPeriod.
Definition DefaultDelayWaitForDecommission : Z := 120.

(** [ClusterStateInfo]: the identifier goes to the Prometheus gauge. *)
Record ClusterStateInfo := mkStateInfo { ID : Z; Name : string }.

Definition ClusterPhaseInitial := mkStateInfo 1 "Initializing".
Definition ClusterPhaseRunning := mkStateInfo 2 "Running".
Definition ClusterPhasePending := mkStateInfo 3 "Pending".
Definition ActionUpdateConfigMap := mkStateInfo 1 "UpdateConfigMap".
Definition ActionUpdateDockerImage := mkStateInfo 2 "UpdateDockerImage".
Definition ActionUpdateSeedList := mkStateInfo 3 "UpdateSeedList".
Definition ActionRollingRestart := mkStateInfo 4 "RollingRestart".
Definition ActionUpdateResources := mkStateInfo 5 "UpdateResources".
Definition ActionUpdateStatefulSet := mkStateInfo 6 "UpdateStatefulSet".
Definition ActionScaleUp := mkStateInfo 7 "ScaleUp".
Definition ActionScaleDown := mkStateInfo 8 "ScaleDown".
Definition ActionDeleteDC := mkStateInfo 9 "ActionDeleteDC".
Definition ActionDeleteRack := mkStateInfo 10 "ActionDeleteRack".
Definition ActionCorrectCRDConfig := mkStateInfo 11 "CorrectCRDConfig".
Definition ActionStorageUpsize := mkStateInfo 12 "StorageUpsize".

Definition AnnotationLastApplied : string :=
  "cassandraclusters.db.orange.com/last-applied-configuration".

Definition StatusOngoing : string := "Ongoing".
Definition StatusDone : string := "Done".
Definition StatusToDo : string := "ToDo".
Definition StatusFinalizing : string := "Finalizing".
Definition StatusContinue : string := "Continue".
Definition StatusConfiguring : string := "Configuring".
Definition StatusManual : string := "Manual".
Definition StatusError : string := "Error".

Definition OperationUpgradeSSTables : string := "upgradesstables".
Definition OperationCleanup : string := "cleanup".
Definition OperationDecommission : string := "decommission".
Definition OperationRebuild : string := "rebuild".
Definition OperationRemove : string := "remove".

Definition BreakResyncLoop : bool := true.
Definition ContinueResyncLoop : bool := false.

(** consts/consts.go *)
Definition DataPVCName : string := "data".
Definition CassandraContainerName : string := "cassandra".

Section types.
Context {QL : QuantityLib}.

(** ** names.go *)
Record CompleteRackName := mkCompleteRackName {
  crn_DcName : string; crn_RackName : string; crn_DcRackName : string }.

(** ** Topology *)
Record Rack := mkRack {
  rack_Name : string;
  rack_Labels : gmap string string;
  rack_Config : option string;             (* json.RawMessage *)
  RollingRestart : bool;
  RollingPartition : Z }.
#[global] Instance eta_Rack : Eta Rack := λ x,
  mkRack (rack_Name x) (rack_Labels x) (rack_Config x) (RollingRestart x) (RollingPartition x).
#[global] Instance Rack_eq_dec : EqDecision Rack.
Proof. solve_decision. Defined.

Record DC := mkDC {
  dc_Name : string;
  dc_Labels : gmap string string;
  dc_Config : option string;
  dc_Rack : list Rack;
  dc_NodesPerRacks : option Z;             (* *int32 *)
  dc_DataCapacity : string;
  dc_DataStorageClass : string;
  dc_Resources : ResourceRequirements }.
#[global] Instance eta_DC : Eta DC := λ x,
  mkDC (dc_Name x) (dc_Labels x) (dc_Config x) (dc_Rack x) (dc_NodesPerRacks x)
    (dc_DataCapacity x) (dc_DataStorageClass x) (dc_Resources x).
#[global] Instance DC_eq_dec : EqDecision DC.
Proof. solve_decision. Defined.

(** [Topology] is a struct with the single field [DC]. *)
Abbreviation Topology := (list DC).

Record BackRestSidecar := mkBackRestSidecar {
  br_Enabled : option bool; br_Image : string; br_ImagePullPolicy : string;
  br_Resources : option ResourceRequirements; br_VolumeMounts : list VolumeMount }.
#[global] Instance eta_BackRestSidecar : Eta BackRestSidecar := λ x,
  mkBackRestSidecar (br_Enabled x) (br_Image x) (br_ImagePullPolicy x) (br_Resources x) (br_VolumeMounts x).
#[global] Instance BackRestSidecar_eq_dec : EqDecision BackRestSidecar.
Proof. solve_decision. Defined.

Record JMXConfiguration := mkJMX {
  JMXRemote : option bool; JMXRemotePort : Z; JMXRemoteRmiPort : Z;
  JXMRemoteSSL : option bool; JMXRemoteAuthenticate : option bool }.
#[global] Instance JMX_eq_dec : EqDecision JMXConfiguration.
Proof. solve_decision. Defined.

Record StorageConfig := mkStorageConfig {
  sc_MountPath : string; sc_Name : string; sc_PVCSpec : option PVCSpec }.
#[global] Instance StorageConfig_eq_dec : EqDecision StorageConfig.
Proof. solve_decision. Defined.

(** [PodPolicy] (its tolerations as opaque strings) *)
Record PodPolicy := mkPodPolicy {
  pp_Annotations : gmap string string; pp_Tolerations : list string }.
#[global] Instance PodPolicy_eq_dec : EqDecision PodPolicy.
Proof. solve_decision. Defined.

(** ** CassandraClusterSpec *)
Record CassandraClusterSpec := mkSpec {
  NodesPerRacks : Z;                       (* int32 *)
  CassandraImage : string;
  ImagePullPolicy : string;
  BootstrapImage : string;
  ConfigBuilderImage : string;
  RunAsUser : Z;
  FSGroup : Z;
  ReadOnlyRootFilesystem : option bool;
  Resources : ResourceRequirements;
  HardAntiAffinity : bool;
  spec_Pod : option PodPolicy;
  spec_Service : option (gmap string string);  (* ServicePolicy.Annotations *)
  DeletePVC : bool;
  spec_Debug : bool;
  AutoPilot : bool;
  NoCheckStsAreEqual : bool;
  AutoUpdateSeedList : bool;
  MaxPodUnavailable : Z;
  RestartCountBeforePodDeletion : Z;
  UnlockNextOperation : bool;
  DataCapacity : string;
  DataStorageClass : string;
  StorageConfigs : list StorageConfig;
  SidecarConfigs : list Container;
  ConfigMapName : string;
  ServerVersion : string;
  ServerType : string;
  spec_Config : option string;
  ImagePullSecret : string;
  ImageJolokiaSecret : string;
  KeyspaceCleanupThreads : Z;
  spec_Topology : Topology;
  LivenessInitialDelaySeconds : option Z;
  LivenessHealthCheckTimeout : option Z;
  LivenessHealthCheckPeriod : option Z;
  LivenessFailureThreshold : option Z;
  LivenessSuccessThreshold : option Z;
  ReadinessInitialDelaySeconds : option Z;
  ReadinessHealthCheckTimeout : option Z;
  ReadinessHealthCheckPeriod : option Z;
  ReadinessFailureThreshold : option Z;
  ReadinessSuccessThreshold : option Z;
  ShareProcessNamespace : option bool;
  spec_BackRestSidecar : option BackRestSidecar;
  ServiceAccountName : string;
  spec_JMXConfiguration : option JMXConfiguration }.
#[global] Instance eta_Spec : Eta CassandraClusterSpec := λ x,
  mkSpec (NodesPerRacks x) (CassandraImage x) (ImagePullPolicy x) (BootstrapImage x)
    (ConfigBuilderImage x) (RunAsUser x) (FSGroup x) (ReadOnlyRootFilesystem x) (Resources x)
    (HardAntiAffinity x) (spec_Pod x) (spec_Service x) (DeletePVC x) (spec_Debug x) (AutoPilot x)
    (NoCheckStsAreEqual x) (AutoUpdateSeedList x) (MaxPodUnavailable x)
    (RestartCountBeforePodDeletion x) (UnlockNextOperation x) (DataCapacity x)
    (DataStorageClass x) (StorageConfigs x) (SidecarConfigs x) (ConfigMapName x)
    (ServerVersion x) (ServerType x) (spec_Config x) (ImagePullSecret x) (ImageJolokiaSecret x)
    (KeyspaceCleanupThreads x) (spec_Topology x) (LivenessInitialDelaySeconds x)
    (LivenessHealthCheckTimeout x) (LivenessHealthCheckPeriod x) (LivenessFailureThreshold x)
    (LivenessSuccessThreshold x) (ReadinessInitialDelaySeconds x) (ReadinessHealthCheckTimeout x)
    (ReadinessHealthCheckPeriod x) (ReadinessFailureThreshold x) (ReadinessSuccessThreshold x)
    (ShareProcessNamespace x) (spec_BackRestSidecar x) (ServiceAccountName x)
    (spec_JMXConfiguration x).
#[global] Instance Spec_eq_dec : EqDecision CassandraClusterSpec.
Proof. solve_decision. Defined.

(** ** Status *)
Record CassandraLastAction := mkLastAction {
  la_Status : string; la_Name : string;
  la_StartTime : option Z; la_EndTime : option Z;     (* *metav1.Time *)
  la_UpdatedNodes : list string }.
#[global] Instance eta_LastAction : Eta CassandraLastAction := λ x,
  mkLastAction (la_Status x) (la_Name x) (la_StartTime x) (la_EndTime x) (la_UpdatedNodes x).
#[global] Instance LastAction_eq_dec : EqDecision CassandraLastAction.
Proof. solve_decision. Defined.

Record PodLastOperation := mkPodLastOperation {
  po_Name : string; po_Status : string;
  po_StartTime : option Z; po_EndTime : option Z;
  po_Pods : option (list string);
  po_PodsOK : option (list string);
  po_PodsKO : option (list string);
  po_OperatorName : string }.
#[global] Instance eta_PodLastOperation : Eta PodLastOperation := λ x,
  mkPodLastOperation (po_Name x) (po_Status x) (po_StartTime x) (po_EndTime x)
    (po_Pods x) (po_PodsOK x) (po_PodsKO x) (po_OperatorName x).
#[global] Instance PodLastOperation_eq_dec : EqDecision PodLastOperation.
Proof. solve_decision. Defined.

Record CassandraRackStatus := mkRackStatus {
  rs_Phase : string;
  rs_LastAction : CassandraLastAction;
  rs_PodLastOperation : PodLastOperation;
  rs_Snapshot : string                     (* StatefulSetSnapshotBeforeStorageResize *) }.
#[global] Instance eta_RackStatus : Eta CassandraRackStatus := λ x,
  mkRackStatus (rs_Phase x) (rs_LastAction x) (rs_PodLastOperation x) (rs_Snapshot x).
#[global] Instance RackStatus_eq_dec : EqDecision CassandraRackStatus.
Proof. solve_decision. Defined.

Record CassandraNodeStatus := mkNodeStatus { HostId : string; NodeIp : string }.
#[global] Instance NodeStatus_eq_dec : EqDecision CassandraNodeStatus.
Proof. solve_decision. Defined.

Record CassandraClusterStatus := mkStatus {
  s_Phase : string;
  s_LastClusterAction : string;
  s_LastClusterActionStatus : string;
  s_SeedList : option (list string);
  s_NodesStatus : option (gmap string CassandraNodeStatus);
  s_RackStatus : gmap string CassandraRackStatus }.
#[global] Instance eta_Status : Eta CassandraClusterStatus := λ x,
  mkStatus (s_Phase x) (s_LastClusterAction x) (s_LastClusterActionStatus x) (s_SeedList x)
    (s_NodesStatus x) (s_RackStatus x).
#[global] Instance Status_eq_dec : EqDecision CassandraClusterStatus.
Proof. solve_decision. Defined.

(** ** CassandraCluster *)
Record CassandraCluster := mkCC {
  cc_Meta : ObjectMeta; cc_Spec : CassandraClusterSpec; cc_Status : CassandraClusterStatus }.
#[global] Instance eta_CC : Eta CassandraCluster := λ x, mkCC (cc_Meta x) (cc_Spec x) (cc_Status x).
#[global] Instance CC_eq_dec : EqDecision CassandraCluster.
Proof. solve_decision. Defined.

Definition cc_Name (cc : CassandraCluster) : string := m_Name (cc_Meta cc).
Definition cc_Namespace (cc : CassandraCluster) : string := m_Namespace (cc_Meta cc).
Definition topology (cc : CassandraCluster) : Topology := spec_Topology (cc_Spec cc).

(** Zero values of the structs. *)
Definition LastAction_zero : CassandraLastAction := mkLastAction "" "" None None [].
Definition PodLastOperation_zero : PodLastOperation := mkPodLastOperation "" "" None None None None None "".
Definition Spec_zero : CassandraClusterSpec :=
  mkSpec 0 "" "" "" "" 0 0 None (mkResourceRequirements None None) false None None false false false
    false false 0 0 false "" "" [] [] "" "" "" None "" "" 0 [] None None None None None None None None
    None None None None "" None.
Definition DC_zero : DC := mkDC "" ∅ None [] None "" "" (mkResourceRequirements None None).
Definition Rack_zero : Rack := mkRack "" ∅ None false 0.
Definition Status_zero : CassandraClusterStatus := mkStatus "" "" "" None None ∅.

(** A resource with a name, a topology and a cluster-wide node count. *)
Definition simple_cluster (n : Z) (t : Topology) : CassandraCluster :=
  mkCC (named "ns" "cassandra-demo")
    (Spec_zero <| NodesPerRacks := n |> <| spec_Topology := t |>) Status_zero.
Definition simple_dc (name : string) (racks : list string) : DC :=
  DC_zero <| dc_Name := name |> <| dc_Rack := (λ r, Rack_zero <| rack_Name := r |>) <$> racks |>.

(** [status.GetCassandraRackStatus(dcRackName)]: the nil pointer of a missing
    key makes the field accesses of every caller panic. *)
Definition GetCassandraRackStatus (st : CassandraClusterStatus) (dcRackName : string)
  : option CassandraRackStatus := s_RackStatus st !! dcRackName.

(** Assignments through that pointer. *)
Definition on_rack (dcRackName : string) (f : CassandraRackStatus → CassandraRackStatus)
  (st : CassandraClusterStatus) : CassandraClusterStatus :=
  st <| s_RackStatus ::= alter f dcRackName |>.
Definition on_action (dcRackName : string) (f : CassandraLastAction → CassandraLastAction)
  : CassandraClusterStatus → CassandraClusterStatus :=
  on_rack dcRackName (λ r, r <| rs_LastAction ::= f |>).
Definition on_podop (dcRackName : string) (f : PodLastOperation → PodLastOperation)
  : CassandraClusterStatus → CassandraClusterStatus :=
  on_rack dcRackName (λ r, r <| rs_PodLastOperation ::= f |>).
End types.
