(* ===== verification/ClusterApi.v ===== *)
(** * Methods of CassandraCluster (src/api/v2/cassandracluster_types.go)

    Indices produced by [for i := 0; i < n; i++] loops are [nat]s; the index
    that can be -1 ([GetDCIndexFromDCName]) is an integer.  A loop with an early
    [return] is a [find_map] over the loop's indices, a loop that mutates the
    resource is a [foldl] whose state is the resource. *)
From S2P Require Import Prelude KubeObjects Types.

(** A [var s []T] to which elements were appended is nil iff none was. *)
Definition appended {A} (l : list A) : option (list A) :=
  match l with [] => None | _ => Some l end.

(** [regexDCRackName]: ^[a-z]([-a-z0-9]*[a-z0-9])?$ *)
Definition is_label_char (c : ascii) : bool := is_lower c || is_digit c || is_dash c.
Definition is_alnum (c : ascii) : bool := is_lower c || is_digit c.
Definition regexDCRackName (s : string) : bool :=
  match chars s with
  | [] => false
  | c :: l =>
      is_lower c &&
      match reverse l with
      | [] => true
      | last :: mid => is_alnum last && forallb is_label_char mid
      end
  end.

Section api.
Context {QL : QuantityLib}.
Implicit Types cc oldCRD : CassandraCluster.
Implicit Types st : CassandraClusterStatus.

(** ** Sizes and names *)
Definition GetDCSize cc : nat := length (topology cc).

Definition GetRackSize cc (dc : nat) : nat :=
  match topology cc !! dc with Some d => length (dc_Rack d) | None => 0 end.

Definition GetDCRackSize cc : nat :=
  foldl (λ nb dc, nb + GetRackSize cc dc) 0 (seq 0 (GetDCSize cc)).

Definition GetStatusDCRackSize cc : nat := size (s_RackStatus (cc_Status cc)).

Definition GetDCName cc (dc : nat) : string :=
  match topology cc !! dc with Some d => dc_Name d | None => DefaultCassandraDC end.

Definition getDCNodesPerRacksFromIndex cc (dc : nat) : Z :=
  match topology cc !! dc with
  | None => NodesPerRacks (cc_Spec cc)
  | Some storeDC =>
      match dc_NodesPerRacks storeDC with
      | None => NodesPerRacks (cc_Spec cc)
      | Some n => n
      end
  end.

Definition GetRackName cc (dc rack : nat) : string :=
  match topology cc !! dc with
  | None => DefaultCassandraRack
  | Some d => match dc_Rack d !! rack with Some r => rack_Name r | None => DefaultCassandraRack end
  end.

Definition GetDCRackName (dcName rackName : string) : string :=
  let dcRackName := dcName +:+ "-" +:+ rackName in
  if regexDCRackName dcRackName then dcRackName else "".

Definition GetDCNameAndRackNameFromDCRackName (dcRackName : string) : outcome (string * string) :=
  let dc := Split dcRackName "-"%char in
  d ← index dc 0; r ← index dc 1; mret (d, r).

Definition GetDCNameFromDCRackName (dcRackName : string) : outcome string :=
  '(dc, _) ← GetDCNameAndRackNameFromDCRackName dcRackName; mret dc.

(** ** Lookups in the topology *)
Definition GetDCIndexFromDCName cc (dcName : string) : Z :=
  if bool_decide (GetDCSize cc < 1) then (-1)%Z
  else default (-1)%Z
         (find_map (λ dc, if dcName == GetDCName cc dc then Some (Z.of_nat dc) else None)
            (seq 0 (GetDCSize cc))).

Definition getDCFromIndex cc (dc : Z) : outcome (option DC) :=
  if bool_decide (Z.of_nat (GetDCSize cc) ≤ dc)%Z then mret None
  else d ← index (topology cc) dc; mret (Some d).

Definition GetDCFromDCRackName cc (dcRackName : string) : outcome (option DC) :=
  dcName ← GetDCNameFromDCRackName dcRackName;
  getDCFromIndex cc (GetDCIndexFromDCName cc dcName).

Definition GetRackFromDCRackName cc (dcRackName : string) : outcome (option Rack) :=
  '(_, rackName) ← GetDCNameAndRackNameFromDCRackName dcRackName;
  dc ← GetDCFromDCRackName cc dcRackName;
  d ← deref dc;
  mret (find_map (λ r, if rack_Name r == rackName then Some r else None) (dc_Rack d)).

(** [GetDCNodesPerRacksFromDCRackName], which [GetNodesPerRacks] and
    [GetNodesPerRacksStrongType] call: a data centre without racks ends the
    search. *)
Definition GetNodesPerRacks cc (dcRackName : string) : Z :=
  if bool_decide (GetDCSize cc < 1) then NodesPerRacks (cc_Spec cc)
  else default (NodesPerRacks (cc_Spec cc))
    (find_map (λ dc,
       let dcName := GetDCName cc dc in
       let racksize := GetRackSize cc dc in
       if bool_decide (racksize < 1) then Some (NodesPerRacks (cc_Spec cc))
       else find_map (λ rack,
              if dcRackName == GetDCRackName dcName (GetRackName cc dc rack)
              then Some (getDCNodesPerRacksFromIndex cc dc) else None)
            (seq 0 racksize))
     (seq 0 (GetDCSize cc))).

Definition GetRollingPartitionPerRacks cc (dcRackName : string) : Z :=
  if bool_decide (GetDCSize cc < 1) then 0
  else default 0%Z
    (find_map (λ dc,
       let dcName := GetDCName cc dc in
       let racksize := GetRackSize cc dc in
       if bool_decide (racksize < 1) then Some 0%Z
       else find_map (λ rack,
              if dcRackName == GetDCRackName dcName (GetRackName cc dc rack)
              then match topology cc !! dc with
                   | Some d => RollingPartition <$> dc_Rack d !! rack
                   | None => None
                   end
              else None)
            (seq 0 racksize))
     (seq 0 (GetDCSize cc))).

Fixpoint GetDCRackNames_loop cc (dcs : list nat) (acc : list string) : list string :=
  match dcs with
  | [] => acc
  | dc :: dcs =>
      let dcName := GetDCName cc dc in
      let racksize := GetRackSize cc dc in
      if bool_decide (racksize < 1) then acc
      else GetDCRackNames_loop cc dcs
             (acc ++ ((λ rack, GetDCRackName dcName (GetRackName cc dc rack)) <$> seq 0 racksize))
  end.
Definition GetDCRackNames cc : list string :=
  if bool_decide (GetDCSize cc < 1) then []
  else GetDCRackNames_loop cc (seq 0 (GetDCSize cc)) [].

Definition GetDCNodesPerRacksFromName cc (dctarget : string) : bool * Z :=
  if bool_decide (GetDCSize cc < 1) then (false, NodesPerRacks (cc_Spec cc))
  else default (false, NodesPerRacks (cc_Spec cc))
    (find_map (λ dc,
       if dctarget == GetDCName cc dc then Some (true, getDCNodesPerRacksFromIndex cc dc) else None)
     (seq 0 (GetDCSize cc))).

Definition FindDCWithNodesTo0 cc : bool * string * nat :=
  default (false, "", 0)
    (find_map (λ dc,
       if bool_decide (getDCNodesPerRacksFromIndex cc dc = 0%Z)
       then Some (true, GetDCName cc dc, dc) else None)
     (seq 0 (GetDCSize cc))).

Definition IsValidDC cc (dcName : string) : bool :=
  existsb (λ d, dc_Name d == dcName) (topology cc).

Definition GetRemovedDCName cc oldCRD : string :=
  default ""
    (find_map (λ dc,
       let olddcName := GetDCName oldCRD dc in
       let dcName := GetDCName cc dc in
       if olddcName != dcName then Some olddcName else None)
     (seq 0 (GetDCSize oldCRD))).

(** [DCSlice.Remove] and [RackSlice.Remove]: the slice expressions panic past
    the end. *)
Definition Remove {A} (l : list A) (idx : nat) : outcome (list A) :=
  if bool_decide (idx < length l) then Ret (take idx l ++ drop (S idx) l) else Panic.

(** ** Storage settings of a data centre *)
Definition GetDataCapacityFromDCName cc (dcName : string) : outcome string :=
  let dcIndex := GetDCIndexFromDCName cc dcName in
  if bool_decide (0 ≤ dcIndex)%Z then
    dc ← getDCFromIndex cc dcIndex;
    mret match dc with
         | Some d => if dc_DataCapacity d != "" then dc_DataCapacity d else DataCapacity (cc_Spec cc)
         | None => DataCapacity (cc_Spec cc)
         end
  else mret (DataCapacity (cc_Spec cc)).

Definition GetDataStorageClassFromDCName cc (dcName : string) : outcome string :=
  let dcIndex := GetDCIndexFromDCName cc dcName in
  if bool_decide (0 ≤ dcIndex)%Z then
    dc ← getDCFromIndex cc dcIndex;
    mret match dc with
         | Some d => if dc_DataCapacity d != "" then dc_DataStorageClass d else DataStorageClass (cc_Spec cc)
         | None => DataStorageClass (cc_Spec cc)
         end
  else mret (DataStorageClass (cc_Spec cc)).

(** ** Initialisation of the rack list *)
Definition initTopology cc (dcName rackName : string) : CassandraCluster :=
  cc <| cc_Spec ::= λ s, s <| spec_Topology :=
    [mkDC dcName ∅ None [mkRack rackName ∅ None false 0] None "" "" (mkResourceRequirements None None)] |> |>.

Definition initialRackStatus : CassandraRackStatus :=
  mkRackStatus (Name ClusterPhaseInitial)
    (mkLastAction StatusOngoing (Name ClusterPhaseInitial) None None [])
    PodLastOperation_zero "".

Definition InitCassandraRackStatus (dcName rackName : string) st : CassandraClusterStatus :=
  st <| s_RackStatus ::= <[GetDCRackName dcName rackName := initialRackStatus]> |>.

(** The body of the loop over the data centres: it re-reads the resource, which
    [initTopology] replaces. *)
Definition InitCassandraRackList_dc (s : CassandraCluster * nat) (dc : nat) : CassandraCluster * nat :=
  let '(cc, nbRack) := s in
  let dcName := GetDCName cc dc in
  let racksize := GetRackSize cc dc in
  if bool_decide (racksize < 1) then
    let cc := cc <| cc_Status ::= InitCassandraRackStatus dcName DefaultCassandraRack |> in
    (initTopology cc dcName DefaultCassandraRack, nbRack + 1)
  else
    foldl (λ '(cc, nbRack) rack,
             let rackName := GetRackName cc dc rack in
             (cc <| cc_Status ::= InitCassandraRackStatus dcName rackName |>, nbRack + 1))
      (cc, nbRack) (seq 0 racksize).

Definition InitCassandraRackList cc : CassandraCluster * nat :=
  let cc := cc <| cc_Status ::= λ s, s <| s_RackStatus := ∅ |> |> in
  let dcsize := GetDCSize cc in
  if bool_decide (dcsize < 1) then
    let cc := cc <| cc_Status ::= InitCassandraRackStatus DefaultCassandraDC DefaultCassandraRack |> in
    (initTopology cc DefaultCassandraDC DefaultCassandraRack, 1)
  else foldl InitCassandraRackList_dc (cc, 0) (seq 0 dcsize).

(** Go ranges over the map in an unspecified order; [map_to_list] is one. *)
Definition FixCassandraRackList cc st : CassandraClusterStatus * list string :=
  let newcc := (InitCassandraRackList cc).1 in
  let gone := filter (λ k, s_RackStatus (cc_Status newcc) !! k = None)
                (map_to_list (s_RackStatus (cc_Status cc))).*1 in
  (foldl (λ st k, st <| s_RackStatus ::= delete k |>) st gone, gone).

(** ** Seeds *)
Definition newSeed cc (dcName rackName : string) (indice : Z) : string :=
  cc_Name cc +:+ "-" +:+ GetDCRackName dcName rackName +:+ "-" +:+ Itoa indice
  +:+ "." +:+ cc_Name cc +:+ "." +:+ cc_Namespace cc.

(** [for indice = 0; cond(indice, nb); indice++ { addNewSeed; nb++ }]: every
    loop of [InitSeedList] stops at 3, so 3 turns are enough. *)
Fixpoint addSeeds (fuel : nat) (cond : Z → nat → bool) (seed : Z → string)
    (indice : Z) (nb : nat) : list string * nat :=
  match fuel with
  | 0 => ([], nb)
  | S fuel =>
      if cond indice nb then
        let '(l, nb') := addSeeds fuel cond seed (indice + 1) (S nb) in
        (seed indice :: l, nb')
      else ([], nb)
  end.

Definition InitSeedList_rack cc (dc racksize : nat) (dcName : string)
    (s : list string * nat) (rack : nat) : list string * nat :=
  let '(seedList, nbSeedInDC) := s in
  let rackName := GetRackName cc dc rack in
  let dcRackName := GetDCRackName dcName rackName in
  let nodesPerRacks := GetNodesPerRacks cc dcRackName in
  match racksize with
  | 1 | 2 =>
      let '(l, nb) := addSeeds 3
        (λ indice nb, bool_decide (indice < nodesPerRacks)%Z &&
                      bool_decide (indice < Z.of_nat (4 - racksize))%Z && bool_decide (nb < 3))
        (newSeed cc dcName rackName) 0 nbSeedInDC in
      (seedList ++ l, nb)
  | _ =>
      if bool_decide (nbSeedInDC < 3)
      then (seedList ++ [newSeed cc dcName rackName 0], S nbSeedInDC)
      else (seedList, nbSeedInDC)
  end.

Definition defaultSeeds cc (dcName : string) : list string :=
  (addSeeds 3 (λ indice _, bool_decide (indice < NodesPerRacks (cc_Spec cc))%Z && bool_decide (indice < 3)%Z)
    (newSeed cc dcName DefaultCassandraRack) 0 0).1.

Definition InitSeedList_dc cc (seedList : list string) (dc : nat) : list string :=
  let dcName := GetDCName cc dc in
  let racksize := GetRackSize cc dc in
  if bool_decide (racksize < 1) then seedList ++ defaultSeeds cc dcName
  else (foldl (InitSeedList_rack cc dc racksize dcName) (seedList, 0) (seq 0 racksize)).1.

Definition InitSeedList cc : list string :=
  if bool_decide (GetDCSize cc < 1) then defaultSeeds cc DefaultCassandraDC
  else foldl (InitSeedList_dc cc) [] (seq 0 (GetDCSize cc)).

Definition SeedList (seedListTab : list string) : string := Join seedListTab ",".

(** ** Defaults *)
Definition or_default {A} (d : A) (o : option A) : option A := Some (default d o).
Definition or_nonempty (d s : string) : string := if bool_decide (s = "") then d else s.

Definition CheckDefaults cc : CassandraCluster :=
  cc <| cc_Spec ::= λ ccs, ccs
    <| CassandraImage ::= or_nonempty defaultCassandraImage |>
    <| ImagePullPolicy ::= or_nonempty defaultImagePullPolicy |>
    <| BootstrapImage ::= or_nonempty defaultBootstrapImage |>
    <| ConfigBuilderImage ::= or_nonempty defaultConfigBuilderImage |>
    <| ServiceAccountName ::= or_nonempty defaultServiceAccountName |>
    <| ReadOnlyRootFilesystem ::= or_default true |>
    <| LivenessInitialDelaySeconds ::= or_default DefaultLivenessInitialDelaySeconds |>
    <| LivenessHealthCheckTimeout ::= or_default DefaultLivenessHealthCheckTimeout |>
    <| LivenessHealthCheckPeriod ::= or_default DefaultLivenessHealthCheckPeriod |>
    <| ReadinessInitialDelaySeconds ::= or_default DefaultReadinessInitialDelaySeconds |>
    <| ReadinessHealthCheckTimeout ::= or_default DefaultReadinessHealthCheckTimeout |>
    <| ReadinessHealthCheckPeriod ::= or_default DefaultReadinessHealthCheckPeriod |>
    <| spec_BackRestSidecar ::= λ b,
         match b with
         | None => Some (mkBackRestSidecar (Some true) DefaultBackRestImage "" None [])
         | Some b => Some (b <| br_Enabled ::= or_default true |>
                             <| br_Image ::= or_nonempty DefaultBackRestImage |>)
         end |> |>.

(** [SetDefaults] returns whether the resource changed. *)
Definition SetDefaults cc : CassandraCluster * bool :=
  let '(cc, changed) :=
    if bool_decide (NodesPerRacks (cc_Spec cc) = 0%Z)
    then (cc <| cc_Spec ::= λ s, s <| NodesPerRacks := 1%Z |> |>, true) else (cc, false) in
  let '(cc, changed) :=
    if bool_decide (s_Phase (cc_Status cc) = "") then
      let cc := cc <| cc_Status ::= λ s, s <| s_Phase := Name ClusterPhaseInitial |> |> in
      let cc := (InitCassandraRackList cc).1 in
      let cc := match s_SeedList (cc_Status cc) with
                | None => cc <| cc_Status ::= λ s, s <| s_SeedList := appended (InitSeedList cc) |> |>
                | Some _ => cc
                end in
      (cc, true)
    else (cc, changed) in
  let '(cc, changed) :=
    if bool_decide (MaxPodUnavailable (cc_Spec cc) = 0%Z)
    then (cc <| cc_Spec ::= λ s, s <| MaxPodUnavailable := defaultMaxPodUnavailable |> |>, true)
    else (cc, changed) in
  match Limits (Resources (cc_Spec cc)) with
  | None => (cc <| cc_Spec ::= λ s, s <| Resources ::= λ r, r <| Limits := Requests r |> |> |>, true)
  | Some _ => (cc, changed)
  end.

Definition IsPodInSeedList cc (podName : string) : bool :=
  existsb (λ s, s == podName) (elems (s_SeedList (cc_Status cc))).

(** ** Well-formed topologies

    What the CRD schema asks of names (pattern ^[^-]+$ for data centres and
    racks), with distinct names and racks everywhere. *)
Definition no_dash (s : string) : Prop := "-"%char ∉ chars s.
Definition wf_dc (d : DC) : Prop :=
  dc_Rack d ≠ [] ∧ no_dash (dc_Name d) ∧
  Forall (λ r, no_dash (rack_Name r) ∧ GetDCRackName (dc_Name d) (rack_Name r) ≠ "") (dc_Rack d) ∧
  NoDup (rack_Name <$> dc_Rack d).
Definition wf_topology (t : list DC) : Prop :=
  Forall wf_dc t ∧ NoDup (dc_Name <$> t).

#[global] Instance wf_dc_dec d : Decision (wf_dc d).
Proof. unfold wf_dc, no_dash. apply _. Defined.
#[global] Instance wf_topology_dec t : Decision (wf_topology t).
Proof. unfold wf_topology. apply _. Defined.
End api.

(** ** Lemmas *)
Section lemmas.
Context {QL : QuantityLib}.
Implicit Types cc : CassandraCluster.

Lemma GetDCRackName_ne dc rack :
  GetDCRackName dc rack ≠ "" → GetDCRackName dc rack = dc +:+ "-" +:+ rack.
Proof. unfold GetDCRackName. by case_match. Qed.

Lemma split_name dc rack :
  no_dash dc → no_dash rack → Split (dc +:+ "-" +:+ rack) "-"%char = [dc; rack].
Proof.
  intros Hdc Hrack. change ("-" +:+ rack) with (String "-" rack).
  rewrite Split_app by done. by rewrite Split_no_sep.
Qed.

Lemma GetDCRackName_inj dc dc' rack rack' :
  no_dash dc → no_dash rack → no_dash dc' → no_dash rack' →
  GetDCRackName dc rack ≠ "" →
  GetDCRackName dc rack = GetDCRackName dc' rack' → dc = dc' ∧ rack = rack'.
Proof.
  intros Hd Hr Hd' Hr' Hne Heq.
  assert (GetDCRackName dc' rack' ≠ "") as Hne' by congruence.
  rewrite !GetDCRackName_ne in Heq by done.
  apply (f_equal (λ s, Split s "-"%char)) in Heq.
  rewrite !split_name in Heq by done. by simplify_eq.
Qed.

Lemma find_map_seq_unique {B} (f : nat → option B) n i b :
  i < n → f i = Some b → (∀ j, j < i → f j = None) →
  find_map f (seq 0 n) = Some b.
Proof.
  intros Hi Hf Hlt.
  replace n with (i + S (n - i - 1)) by lia.
  rewrite seq_app. simpl.
  assert (∀ l, Forall (λ j, j < i) l → ∀ k, find_map f (l ++ k) = find_map f k) as Happ.
  { intros l Hl k. induction Hl as [|j l Hj _ IH]; simpl; [done|]. by rewrite Hlt. }
  rewrite Happ.
  - simpl. by rewrite Hf.
  - apply Forall_forall. intros j Hj%elem_of_seq. lia.
Qed.

Section wf.
Context (cc : CassandraCluster) (Hwf : wf_topology (topology cc)).

Lemma wf_lookup_dc dc d : topology cc !! dc = Some d → wf_dc d.
Proof. destruct Hwf as [H _]. rewrite Forall_lookup in H. eauto. Qed.

Lemma wf_racksize dc d : topology cc !! dc = Some d → ¬ GetRackSize cc dc < 1.
Proof.
  intros Hd. unfold GetRackSize. rewrite Hd.
  apply wf_lookup_dc in Hd as (Hr & _). destruct (dc_Rack d); simpl; [done|lia].
Qed.

Lemma GetRackName_lookup dc d rack r :
  topology cc !! dc = Some d → dc_Rack d !! rack = Some r → GetRackName cc dc rack = rack_Name r.
Proof. intros Hd Hr. unfold GetRackName. by rewrite Hd, Hr. Qed.

(** A composed name determines both indices. *)
Lemma rack_indices_inj dc dc' d d' rack rack' r r' :
  topology cc !! dc = Some d → topology cc !! dc' = Some d' →
  dc_Rack d !! rack = Some r → dc_Rack d' !! rack' = Some r' →
  GetDCRackName (dc_Name d) (rack_Name r) = GetDCRackName (dc_Name d') (rack_Name r') →
  dc = dc' ∧ rack = rack'.
Proof.
  intros Hd Hd' Hr Hr' Heq.
  pose proof (wf_lookup_dc _ _ Hd) as (_ & Hnd & Hracks & Hnodup).
  pose proof (wf_lookup_dc _ _ Hd') as (_ & Hnd' & Hracks' & _).
  rewrite Forall_lookup in Hracks, Hracks'.
  destruct (Hracks _ _ Hr) as [Hnr Hne], (Hracks' _ _ Hr') as [Hnr' _].
  apply GetDCRackName_inj in Heq as [Hdc Hrk]; [|done..].
  assert (dc = dc') as ->.
  { destruct Hwf as [_ Hnd2]. eapply NoDup_lookup; [exact Hnd2|..].
    - rewrite list_lookup_fmap, Hd. done.
    - rewrite list_lookup_fmap, Hd', Hdc. done. }
  simplify_eq. split; [done|].
  eapply NoDup_lookup; [exact Hnodup|..]; rewrite list_lookup_fmap.
  - by rewrite Hr.
  - by rewrite Hr', Hrk.
Qed.

Lemma find_rack {B} (g : nat → nat → option B) (early : option B) dc d rack r b :
  topology cc !! dc = Some d → dc_Rack d !! rack = Some r → g dc rack = Some b →
  find_map (λ dc0,
    if bool_decide (GetRackSize cc dc0 < 1) then early
    else find_map (λ rack0,
           if bool_decide (GetDCRackName (dc_Name d) (rack_Name r)
                           = GetDCRackName (GetDCName cc dc0) (GetRackName cc dc0 rack0))
           then g dc0 rack0 else None) (seq 0 (GetRackSize cc dc0)))
    (seq 0 (GetDCSize cc)) = Some b.
Proof.
  intros Hd Hr Hg.
  assert (∀ dc0 rack0, dc0 < GetDCSize cc → rack0 < GetRackSize cc dc0 →
    GetDCRackName (dc_Name d) (rack_Name r)
      = GetDCRackName (GetDCName cc dc0) (GetRackName cc dc0 rack0) → dc0 = dc ∧ rack0 = rack) as Hinj.
  { intros dc0 rack0 Hlt Hlt2 Heq. unfold GetDCSize in Hlt.
    apply lookup_lt_is_Some in Hlt as [d0 Hd0].
    unfold GetRackSize in Hlt2. rewrite Hd0 in Hlt2.
    apply lookup_lt_is_Some in Hlt2 as [r0 Hr0].
    unfold GetDCName in Heq. rewrite Hd0, (GetRackName_lookup _ _ _ _ Hd0 Hr0) in Heq.
    symmetry in Heq. eapply rack_indices_inj in Heq; eauto. }
  assert (∀ dc0, dc0 < GetDCSize cc → bool_decide (GetRackSize cc dc0 < 1) = false) as Hsz.
  { intros dc0 [d0 Hd0]%lookup_lt_is_Some. apply bool_decide_false. by eapply wf_racksize. }
  pose proof (lookup_lt_Some _ _ _ Hd) as Hlt.
  pose proof (lookup_lt_Some _ _ _ Hr) as Hlt2.
  assert (rack < GetRackSize cc dc) as Hlt3 by (unfold GetRackSize; by rewrite Hd).
  apply find_map_seq_unique with dc; [done| |].
  - rewrite Hsz by done. apply find_map_seq_unique with rack; [done| |].
    + rewrite bool_decide_true; [done|].
      unfold GetDCName. rewrite Hd. by rewrite (GetRackName_lookup _ _ _ _ Hd Hr).
    + intros j Hj. rewrite bool_decide_eq_false_2; [done|].
      intros Heq. edestruct Hinj as [_ ?]; [exact Hlt| |exact Heq|]; lia.
  - intros j Hj. rewrite Hsz by (unfold GetDCSize in *; lia).
    apply find_map_None. intros rack0 Hrk%elem_of_seq.
    rewrite bool_decide_eq_false_2; [done|].
    intros Heq. edestruct (Hinj j rack0) as [? ?]; [unfold GetDCSize; lia|lia|done|lia].
Qed.

Section one_rack.
Context (dc rack : nat) (d : DC) (r : Rack).
Context (Hd : topology cc !! dc = Some d) (Hr : dc_Rack d !! rack = Some r).

Lemma wf_split_name :
  GetDCNameAndRackNameFromDCRackName (GetDCRackName (dc_Name d) (rack_Name r)) = Ret (dc_Name d, rack_Name r).
Proof.
  destruct (wf_lookup_dc _ _ Hd) as (_ & Hnd & Hracks & _). rewrite Forall_lookup in Hracks.
  destruct (Hracks _ _ Hr) as [Hnr Hne]. unfold GetDCNameAndRackNameFromDCRackName.
  by rewrite GetDCRackName_ne, split_name.
Qed.

Lemma wf_dc_index : GetDCIndexFromDCName cc (dc_Name d) = Z.of_nat dc.
Proof.
  pose proof (lookup_lt_Some _ _ _ Hd) as Hlt. unfold GetDCIndexFromDCName, GetDCSize.
  rewrite bool_decide_false by lia. erewrite (find_map_seq_unique _ _ dc); [done|lia|..].
  - unfold GetDCName. rewrite Hd. by rewrite bool_decide_true.
  - intros j Hj. destruct (lookup_lt_is_Some_2 (topology cc) j ltac:(lia)) as [d' Hd'].
    unfold GetDCName. rewrite Hd'. rewrite bool_decide_false; [done|]. intros E.
    destruct Hwf as [_ Hnd]. enough (j = dc) by lia.
    eapply NoDup_lookup; [exact Hnd|..]; rewrite list_lookup_fmap; [by rewrite Hd'|by rewrite Hd; simpl; rewrite E].
Qed.

Lemma wf_dc_of_index : getDCFromIndex cc (Z.of_nat dc) = Ret (Some d).
Proof.
  pose proof (lookup_lt_Some _ _ _ Hd) as Hlt. unfold getDCFromIndex, GetDCSize.
  rewrite bool_decide_false by lia.
  assert (index (topology cc) (Z.of_nat dc) = Ret d) as ->; [|done].
  apply index_spec. rewrite Nat2Z.id. split; [lia|done].
Qed.

Lemma wf_dc_of_name : GetDCFromDCRackName cc (GetDCRackName (dc_Name d) (rack_Name r)) = Ret (Some d).
Proof.
  unfold GetDCFromDCRackName, GetDCNameFromDCRackName. rewrite wf_split_name. simpl.
  by rewrite wf_dc_index, wf_dc_of_index.
Qed.

Lemma wf_rack_of_name : GetRackFromDCRackName cc (GetDCRackName (dc_Name d) (rack_Name r)) = Ret (Some r).
Proof.
  unfold GetRackFromDCRackName. rewrite wf_split_name, wf_dc_of_name. cbn -[find_map]. f_equal.
  destruct (wf_lookup_dc _ _ Hd) as (_ & _ & _ & Hnd). apply list_elem_of_lookup_2 in Hr. clear Hwf Hd.
  induction (dc_Rack d) as [|r' l IH]; [by apply not_elem_of_nil in Hr|]. cbn.
  inversion Hnd as [|? ? Hnin Hnd']; subst. case_bool_decide as E.
  - apply elem_of_cons in Hr as [->|Hin]; [done|]. destruct Hnin. rewrite E. by apply list_elem_of_fmap_2.
  - apply elem_of_cons in Hr as [->|Hin]; [done|]. by apply IH.
Qed.

Lemma wf_capacity :
  GetDataCapacityFromDCName cc (dc_Name d) =
  Ret (if dc_DataCapacity d != "" then dc_DataCapacity d else DataCapacity (cc_Spec cc)).
Proof.
  unfold GetDataCapacityFromDCName. rewrite wf_dc_index, bool_decide_true by lia. by rewrite wf_dc_of_index.
Qed.

Lemma wf_storage_class : ∃ c, GetDataStorageClassFromDCName cc (dc_Name d) = Ret c.
Proof.
  unfold GetDataStorageClassFromDCName. rewrite wf_dc_index, bool_decide_true by lia. rewrite wf_dc_of_index. by eexists.
Qed.
End one_rack.
End wf.

(** *** Seeds *)
Lemma addSeeds_length fuel cond seed i nb l nb' :
  addSeeds fuel cond seed i nb = (l, nb') → nb' = nb + length l ∧ length l ≤ fuel.
Proof.
  revert i nb l nb'. induction fuel as [|fuel IH]; simpl; intros i nb l nb' H; simplify_eq/=; [lia|].
  destruct (cond i nb); [|simplify_eq/=; lia].
  destruct (addSeeds _ _ _ _ _) as [l1 nb1] eqn:E. apply IH in E. simplify_eq/=. lia.
Qed.

(** The loop adds as many seeds as the three bounds of its condition allow. *)
Lemma addSeeds_count fuel (n m : Z) (cap : nat) seed i nb :
  (0 ≤ i)%Z → (m - i ≤ Z.of_nat fuel)%Z →
  length (addSeeds fuel (λ indice nb, bool_decide (indice < n)%Z && bool_decide (indice < m)%Z
                                      && bool_decide (nb < cap)) seed i nb).1
  = Z.to_nat (Z.min (Z.min (n - i) (m - i)) (Z.of_nat cap - Z.of_nat nb)).
Proof.
  revert i nb. induction fuel as [|fuel IH]; intros i nb Hi Hf; simpl; [lia|].
  repeat case_bool_decide; simpl; try lia.
  destruct (addSeeds _ _ _ _ _) as [l1 nb1] eqn:E. simpl.
  specialize (IH (i + 1)%Z (S nb)). rewrite E in IH. simpl in IH. rewrite IH; lia.
Qed.

Lemma addSeeds_cap fuel (b : Z → bool) seed i n l0 n0 cap :
  n ≤ cap → addSeeds fuel (λ i nb, b i && bool_decide (nb < cap)) seed i n = (l0, n0) → n0 ≤ cap.
Proof.
  revert i n l0 n0. induction fuel as [|fuel IH]; simpl; intros i n l0 n0 Hn E; simplify_eq/=; [lia|].
  destruct (b i); simpl in E; [|simplify_eq; lia]. case_bool_decide; [|simplify_eq; lia].
  destruct (addSeeds _ _ _ _ _) eqn:E2. apply IH in E2; [|lia]. by simplify_eq.
Qed.
#[local] Arguments addSeeds : simpl never.

Lemma InitSeedList_rack_app cc dc racksize dcName l nb rack :
  InitSeedList_rack cc dc racksize dcName (l, nb) rack =
  (l ++ (InitSeedList_rack cc dc racksize dcName ([], nb) rack).1,
   (InitSeedList_rack cc dc racksize dcName ([], nb) rack).2).
Proof.
  unfold InitSeedList_rack. destruct racksize as [|[|[|r]]]; simpl;
    try (destruct (addSeeds _ _ _ _ _)); try case_bool_decide; simpl; by rewrite ?app_nil_r.
Qed.

#[local] Arguments InitSeedList_rack : simpl never.
Lemma InitSeedList_racks_app cc dc racksize dcName l nb racks :
  foldl (InitSeedList_rack cc dc racksize dcName) (l, nb) racks =
  (l ++ (foldl (InitSeedList_rack cc dc racksize dcName) ([], nb) racks).1,
   (foldl (InitSeedList_rack cc dc racksize dcName) ([], nb) racks).2).
Proof.
  revert l nb. induction racks as [|rack racks IH]; intros l nb; simpl; [by rewrite app_nil_r|].
  rewrite InitSeedList_rack_app.
  destruct (InitSeedList_rack cc dc racksize dcName ([], nb) rack) as [l1 nb1]; simpl.
  rewrite (IH (l ++ l1)), (IH l1). simpl. by rewrite (assoc_L (++)).
Qed.

Lemma InitSeedList_rack_nb cc dc racksize dcName l nb rack l' nb' :
  nb ≤ 3 → InitSeedList_rack cc dc racksize dcName (l, nb) rack = (l', nb') →
  nb' ≤ 3 ∧ nb' + length l = nb + length l'.
Proof.
  unfold InitSeedList_rack. intros Hnb H.
  destruct racksize as [|[|[|r]]]; try (case_bool_decide; simplify_eq/=; rewrite ?length_app; simpl; lia).
  all: destruct (addSeeds _ _ _ _ _) as [l1 nb1] eqn:E; simplify_eq.
  all: pose proof E as E2; apply addSeeds_length in E2; apply addSeeds_cap in E; [|done];
    rewrite length_app; lia.
Qed.

Lemma InitSeedList_racks_nb cc dc racksize dcName racks l nb l' nb' :
  nb ≤ 3 → foldl (InitSeedList_rack cc dc racksize dcName) (l, nb) racks = (l', nb') →
  nb' ≤ 3 ∧ nb' + length l = nb + length l'.
Proof.
  revert l nb. induction racks as [|rack racks IH]; simpl; intros l nb Hnb H; [simplify_eq; lia|].
  destruct (InitSeedList_rack _ _ _ _ _ _) as [l1 nb1] eqn:E.
  apply InitSeedList_rack_nb in E as [? ?]; [|done]. apply IH in H; lia.
Qed.

Lemma defaultSeeds_length cc dcName : length (defaultSeeds cc dcName) ≤ 3.
Proof.
  unfold defaultSeeds. destruct (addSeeds _ _ _ _ _) eqn:E. apply addSeeds_length in E. simpl. lia.
Qed.

Lemma InitSeedList_dc_app cc l dc : InitSeedList_dc cc l dc = l ++ InitSeedList_dc cc [] dc.
Proof.
  unfold InitSeedList_dc. case_bool_decide; [done|]. by rewrite InitSeedList_racks_app.
Qed.

Lemma InitSeedList_dc_le3 cc dc : length (InitSeedList_dc cc [] dc) ≤ 3.
Proof.
  unfold InitSeedList_dc. case_bool_decide; [apply defaultSeeds_length|].
  destruct (foldl _ _ _) as [l nb] eqn:E. apply InitSeedList_racks_nb in E; simpl in *; lia.
Qed.

(** The seed list is the concatenation of the seeds of the data centres. *)
Lemma InitSeedList_concat cc :
  1 ≤ GetDCSize cc →
  InitSeedList cc = concat (InitSeedList_dc cc [] <$> seq 0 (GetDCSize cc)).
Proof.
  intros Hsz. unfold InitSeedList. rewrite bool_decide_false by lia.
  assert (∀ dcs l, foldl (InitSeedList_dc cc) l dcs = l ++ concat (InitSeedList_dc cc [] <$> dcs)) as H.
  { induction dcs as [|dc dcs IH]; intros l; simpl; [by rewrite app_nil_r|].
    rewrite IH, InitSeedList_dc_app. by rewrite <- (assoc_L (++)). }
  apply H.
Qed.
End lemmas.

(** *** The rack list *)
Section racks.
Context {QL : QuantityLib}.
Implicit Types cc : CassandraCluster.

Definition rack_names_of cc (dc : nat) : list string :=
  (λ rack, GetDCRackName (GetDCName cc dc) (GetRackName cc dc rack)) <$> seq 0 (GetRackSize cc dc).

Definition init_keys (names : list string) (m : gmap string CassandraRackStatus) :=
  foldl (λ m k, <[k := initialRackStatus]> m) m names.

Lemma init_keys_lookup names m k :
  init_keys names m !! k = if decide (k ∈ names) then Some initialRackStatus else m !! k.
Proof.
  revert m. induction names as [|n names IH]; intros m; simpl; [done|].
  rewrite IH, lookup_insert. repeat case_decide; set_solver.
Qed.

Lemma init_keys_app l1 l2 m : init_keys (l1 ++ l2) m = init_keys l2 (init_keys l1 m).
Proof. apply foldl_app. Qed.

Lemma upd_racks_comp cc l1 l2 :
  (cc <| cc_Status ::= λ s, s <| s_RackStatus ::= init_keys (l1 ++ l2) |> |>) =
  (cc <| cc_Status ::= λ s, s <| s_RackStatus ::= init_keys l1 |> |>)
     <| cc_Status ::= λ s, s <| s_RackStatus ::= init_keys l2 |> |>.
Proof. destruct cc as [m s st]. unfold upd; simpl. by rewrite init_keys_app. Qed.

Lemma InitCassandraRackList_racks cc dc nb racks :
  foldl (λ '(cc, nbRack) rack,
           (cc <| cc_Status ::= InitCassandraRackStatus (GetDCName cc dc) (GetRackName cc dc rack) |>,
            nbRack + 1)) (cc, nb) racks
  = (cc <| cc_Status ::= λ s, s <| s_RackStatus ::=
       init_keys ((λ rack, GetDCRackName (GetDCName cc dc) (GetRackName cc dc rack)) <$> racks) |> |>,
     nb + length racks).
Proof.
  revert cc nb. induction racks as [|rack racks IH]; intros cc nb; simpl.
  - rewrite Nat.add_0_r. by destruct cc as [? ? []].
  - rewrite IH. f_equal. lia.
Qed.

Lemma InitCassandraRackList_dc_spec cc nb dc :
  ¬ GetRackSize cc dc < 1 →
  InitCassandraRackList_dc (cc, nb) dc =
  (cc <| cc_Status ::= λ s, s <| s_RackStatus ::= init_keys (rack_names_of cc dc) |> |>,
   nb + GetRackSize cc dc).
Proof.
  intros Hsz. unfold InitCassandraRackList_dc, rack_names_of. rewrite bool_decide_false by done.
  transitivity (foldl (λ '(cc, nbRack) rack,
           (cc <| cc_Status ::= InitCassandraRackStatus (GetDCName cc dc) (GetRackName cc dc rack) |>,
            nbRack + 1)) (cc, nb) (seq 0 (GetRackSize cc dc))).
  - assert (∀ racks cc0 nb0, GetDCName cc0 dc = GetDCName cc dc →
      foldl (λ '(cc1, nbRack) rack,
        (cc1 <| cc_Status ::= InitCassandraRackStatus (GetDCName cc dc) (GetRackName cc1 dc rack) |>,
         nbRack + 1)) (cc0, nb0) racks =
      foldl (λ '(cc1, nbRack) rack,
        (cc1 <| cc_Status ::= InitCassandraRackStatus (GetDCName cc1 dc) (GetRackName cc1 dc rack) |>,
         nbRack + 1)) (cc0, nb0) racks) as H.
    { induction racks as [|rack racks IH]; intros cc0 nb0 Hn; simpl; [done|]. rewrite Hn. by apply IH. }
    by apply H.
  - rewrite InitCassandraRackList_racks. by rewrite length_seq.
Qed.

Lemma InitCassandraRackList_dcs cc nb dcs :
  Forall (λ dc, ¬ GetRackSize cc dc < 1) dcs →
  foldl InitCassandraRackList_dc (cc, nb) dcs =
  (cc <| cc_Status ::= λ s, s <| s_RackStatus ::= init_keys (concat (rack_names_of cc <$> dcs)) |> |>,
   foldl (λ nb dc, nb + GetRackSize cc dc) nb dcs).
Proof.
  revert cc nb. induction dcs as [|dc dcs IH]; intros cc nb Hdcs; cbn [foldl].
  - by destruct cc as [? ? []].
  - inversion Hdcs; subst. rewrite InitCassandraRackList_dc_spec by done.
    rewrite IH by done. f_equal.
    cbn [fmap list_fmap concat]. rewrite upd_racks_comp. f_equal.
Qed.

Lemma GetDCRackNames_concat cc :
  1 ≤ GetDCSize cc → Forall (λ dc, ¬ GetRackSize cc dc < 1) (seq 0 (GetDCSize cc)) →
  GetDCRackNames cc = concat (rack_names_of cc <$> seq 0 (GetDCSize cc)).
Proof.
  intros Hsz Hdcs. unfold GetDCRackNames. rewrite bool_decide_false by lia.
  assert (∀ dcs acc, Forall (λ dc, ¬ GetRackSize cc dc < 1) dcs →
    GetDCRackNames_loop cc dcs acc = acc ++ concat (rack_names_of cc <$> dcs)) as H.
  { induction dcs as [|dc dcs IH]; intros acc Hl; simpl; [by rewrite app_nil_r|].
    inversion Hl; subst. rewrite bool_decide_false by done.
    rewrite IH by done. by rewrite <- (assoc_L (++)). }
  by apply H.
Qed.

Lemma wf_racksizes cc :
  wf_topology (topology cc) → Forall (λ dc, ¬ GetRackSize cc dc < 1) (seq 0 (GetDCSize cc)).
Proof.
  intros Hwf. apply Forall_forall. intros dc [_ Hdc]%elem_of_seq. simpl in Hdc.
  apply lookup_lt_is_Some in Hdc as [d Hd]. by eapply wf_racksize.
Qed.

Lemma wf_InitCassandraRackList cc :
  topology cc ≠ [] → wf_topology (topology cc) →
  InitCassandraRackList cc =
  (cc <| cc_Status ::= λ s, s <| s_RackStatus := init_keys (GetDCRackNames cc) ∅ |> |>,
   GetDCRackSize cc).
Proof.
  intros Hne Hwf. assert (1 ≤ GetDCSize cc) as Hsz.
  { unfold GetDCSize. destruct (topology cc); simpl; [done|lia]. }
  unfold InitCassandraRackList.
  set (cc0 := cc <| cc_Status ::= _ |>).
  change (GetDCSize cc0) with (GetDCSize cc). rewrite bool_decide_false by lia.
  rewrite InitCassandraRackList_dcs by (by apply (wf_racksizes cc)).
  rewrite GetDCRackNames_concat by eauto using wf_racksizes. done.
Qed.

Lemma foldl_delete (gone : list string) (st : CassandraClusterStatus) :
  foldl (λ st k, st <| s_RackStatus ::= delete k |>) st gone
  = st <| s_RackStatus ::= λ m, foldl (λ m k, delete k m) m gone |>.
Proof.
  revert st. induction gone as [|k gone IH]; intros st; simpl; [by destruct st|].
  by rewrite IH.
Qed.

Lemma lookup_delete_list {V} (gone : list string) (m : gmap string V) k :
  foldl (λ m k, delete k m) m gone !! k = if decide (k ∈ gone) then None else m !! k.
Proof.
  revert m. induction gone as [|g gone IH]; intros m; simpl; [done|].
  rewrite IH. destruct (decide (g = k)) as [->|].
  - rewrite lookup_delete_eq. repeat case_decide; set_solver.
  - rewrite lookup_delete_ne by done. repeat case_decide; set_solver.
Qed.

Lemma init_keys_dom names : dom (init_keys names ∅) = list_to_set names.
Proof.
  apply set_eq. intros k. rewrite elem_of_dom, init_keys_lookup, elem_of_list_to_set.
  case_decide; [naive_solver|]. rewrite lookup_empty. split; [by intros []|done].
Qed.
End racks.

(** ** Theorems *)
Section theorems.
Context {QL : QuantityLib}.

(** The key of a rack in the status map and in object names determines the
    data centre and the rack: splitting [GetDCRackName] gives back both names,
    without panic, for names the CRD schema accepts. *)
Theorem dc_rack_name_roundtrip (dc rack : string)
    (Hdc : no_dash dc) (Hrack : no_dash rack) (Hvalid : GetDCRackName dc rack ≠ "") :
  GetDCNameAndRackNameFromDCRackName (GetDCRackName dc rack) = Ret (dc, rack).
Proof.
  unfold GetDCNameAndRackNameFromDCRackName.
  rewrite GetDCRackName_ne, split_name by done. done.
Qed.

(** In a well-formed topology the node count the operator uses for a rack is
    the one of the rack's own data centre (its [nodesPerRacks] or else the
    cluster-wide value), whatever the other racks are called. *)
Theorem GetNodesPerRacks_correct (cc : CassandraCluster) (dc : nat) (d : DC) (rack : nat) (r : Rack)
    (Hwf : wf_topology (topology cc))
    (Hd : topology cc !! dc = Some d) (Hr : dc_Rack d !! rack = Some r) :
  GetNodesPerRacks cc (GetDCRackName (dc_Name d) (rack_Name r))
  = default (NodesPerRacks (cc_Spec cc)) (dc_NodesPerRacks d).
Proof.
  pose proof (lookup_lt_Some _ _ _ Hd) as Hlt.
  unfold GetNodesPerRacks, GetDCSize. rewrite bool_decide_false by lia.
  rewrite (find_rack cc Hwf (λ dc _, Some (getDCNodesPerRacksFromIndex cc dc)) _ dc d rack r
             (getDCNodesPerRacksFromIndex cc dc)) by done.
  unfold getDCNodesPerRacksFromIndex. simpl. rewrite Hd. by destruct (dc_NodesPerRacks d).
Qed.


(** *** Counting the seeds of a data centre *)
Lemma addSeeds_quota n size seed (l : list string) nb :
  1 ≤ size ≤ 2 → ∃ l1,
    (let '(l', nb') := addSeeds 3
       (λ indice nb, bool_decide (indice < n)%Z && bool_decide (indice < Z.of_nat (4 - size))%Z
                     && bool_decide (nb < 3)) seed 0 nb in (l ++ l', nb'))
    = (l ++ l1, nb + length l1) ∧
    Z.of_nat (length l1) =
    Z.max 0 (Z.min (if bool_decide (size ≤ 2) then Z.min n (4 - Z.of_nat size) else 1)
                   (3 - Z.of_nat nb)).
Proof.
  intros Hsz. pose proof (addSeeds_count 3 n (Z.of_nat (4 - size)) 3 seed 0 nb) as Hc.
  destruct (addSeeds _ _ _ _ _) as [l1 nb1] eqn:E. exists l1.
  apply addSeeds_length in E as [-> _]. split; [done|]. simpl in Hc.
  rewrite Hc by lia. rewrite bool_decide_true by lia. lia.
Qed.

Section seed_count.
Context (cc : CassandraCluster) (dc : nat) (n : Z).
Abbreviation racksize := (GetRackSize cc dc).
Hypothesis Hn : (1 ≤ n)%Z.
Hypothesis Hnodes : ∀ rack, rack < racksize →
  GetNodesPerRacks cc (GetDCRackName (GetDCName cc dc) (GetRackName cc dc rack)) = n.

(** Seeds one rack would give if the data centre had none yet. *)
Let quota : Z := if bool_decide (racksize ≤ 2) then Z.min n (4 - Z.of_nat racksize) else 1.

Lemma InitSeedList_rack_count l nb rack :
  rack < racksize → ∃ l1,
    InitSeedList_rack cc dc racksize (GetDCName cc dc) (l, nb) rack = (l ++ l1, nb + length l1) ∧
    Z.of_nat (length l1) = Z.max 0 (Z.min quota (3 - Z.of_nat nb)).
Proof.
  intros Hrk. unfold InitSeedList_rack, quota. rewrite Hnodes by done.
  destruct racksize as [|[|[|m]]] eqn:Esz; [lia|..].
  - apply (addSeeds_quota n); lia.
  - apply (addSeeds_quota n); lia.
  - rewrite (bool_decide_false (_ ≤ 2)) by lia. case_bool_decide.
    + eexists [_]. split; [f_equal; simpl; lia|simpl; lia].
    + exists []. rewrite app_nil_r, Nat.add_0_r. split; [done|simpl; lia].
Qed.

Lemma InitSeedList_racks_count racks l nb :
  Forall (λ k, k < racksize) racks → ∃ l1,
    foldl (InitSeedList_rack cc dc racksize (GetDCName cc dc)) (l, nb) racks
    = (l ++ l1, nb + length l1) ∧
    Z.of_nat (length l1) = Z.max 0 (Z.min (Z.of_nat (length racks) * quota) (3 - Z.of_nat nb)).
Proof.
  assert (0 ≤ quota)%Z by (unfold quota; case_bool_decide; lia).
  revert l nb. induction racks as [|rack racks IH]; intros l nb Hl; cbn [foldl length].
  - exists []. rewrite app_nil_r, Nat.add_0_r. split; [done|simpl; lia].
  - inversion Hl; subst. destruct (InitSeedList_rack_count l nb rack) as (l1 & -> & Hl1); [done|].
    destruct (IH (l ++ l1) (nb + length l1)) as (l2 & -> & Hl2); [done|].
    exists (l1 ++ l2). rewrite (assoc_L (++)), length_app. split; [f_equal; lia|]. nia.
Qed.
End seed_count.

(** A data centre with [racks] racks of [n >= 1] nodes gets exactly
    min(3, racks * n) seeds: three as soon as it has three nodes, all its nodes
    otherwise. *)
Theorem InitSeedList_count (cc : CassandraCluster) (dc : nat) (n : Z)
    (Hracks : 1 ≤ GetRackSize cc dc) (Hn : (1 ≤ n)%Z)
    (Hnodes : ∀ rack, rack < GetRackSize cc dc →
       GetNodesPerRacks cc (GetDCRackName (GetDCName cc dc) (GetRackName cc dc rack)) = n) :
  Z.of_nat (length (InitSeedList_dc cc [] dc)) = Z.min 3 (Z.of_nat (GetRackSize cc dc) * n).
Proof.
  unfold InitSeedList_dc. rewrite bool_decide_false by lia.
  destruct (InitSeedList_racks_count cc dc n Hn Hnodes (seq 0 (GetRackSize cc dc)) [] 0)
    as (l1 & -> & Hl1).
  { apply Forall_forall. intros k [_ Hk]%elem_of_seq. lia. }
  rewrite length_seq in Hl1. simpl. rewrite Hl1. case_bool_decide; nia.
Qed.

(** On a well-formed topology the status is initialised with one
    [Initializing] entry per rack of the topology and nothing else, the
    specification is left as it is, and the count returned is the number of
    racks. *)
Theorem InitCassandraRackList_spec (cc : CassandraCluster)
    (Hne : topology cc ≠ []) (Hwf : wf_topology (topology cc)) :
  let '(cc', nbRack) := InitCassandraRackList cc in
  cc_Spec cc' = cc_Spec cc ∧ nbRack = GetDCRackSize cc ∧
  dom (s_RackStatus (cc_Status cc')) = list_to_set (GetDCRackNames cc) ∧
  map_Forall (λ _ r, r = initialRackStatus) (s_RackStatus (cc_Status cc')).
Proof.
  rewrite wf_InitCassandraRackList by done. repeat split; [apply init_keys_dom|].
  intros k r. cbn. rewrite init_keys_lookup, lookup_empty. case_decide; naive_solver.
Qed.

(** Cleaning the status removes exactly the racks the topology no longer
    has, whatever order the map is visited in, and reports them. *)
Theorem FixCassandraRackList_spec (cc : CassandraCluster)
    (Hne : topology cc ≠ []) (Hwf : wf_topology (topology cc)) :
  let '(st, gone) := FixCassandraRackList cc (cc_Status cc) in
  (∀ k, s_RackStatus st !! k =
        if decide (k ∈ GetDCRackNames cc) then s_RackStatus (cc_Status cc) !! k else None) ∧
  (∀ k, k ∈ gone ↔ k ∈ dom (s_RackStatus (cc_Status cc)) ∧ k ∉ GetDCRackNames cc) ∧
  st = (cc_Status cc) <| s_RackStatus := s_RackStatus st |>.
Proof.
  unfold FixCassandraRackList. rewrite wf_InitCassandraRackList by done. cbn.
  set (gone := filter _ _).
  assert (∀ k, k ∈ gone ↔ k ∈ dom (s_RackStatus (cc_Status cc)) ∧ k ∉ GetDCRackNames cc) as Hgone.
  { intros k. unfold gone. rewrite list_elem_of_filter, init_keys_lookup, lookup_empty.
    rewrite list_elem_of_fmap, elem_of_dom. case_decide; [naive_solver|].
    split; [intros [_ ([k' r] & -> & Hk)]|intros [[r Hr] ?]].
    - apply elem_of_map_to_list in Hk. eauto.
    - split; [done|]. exists (k, r). split; [done|]. by apply elem_of_map_to_list. }
  rewrite foldl_delete. split; [|split; [exact Hgone|by destruct (cc_Status cc)]].
  intros k. cbn. rewrite lookup_delete_list. specialize (Hgone k).
  destruct (decide (k ∈ gone)) as [Hin|Hin], (decide (k ∈ GetDCRackNames cc)) as [Hk|Hk]; try done.
  - by apply Hgone in Hin as [_ ?].
  - destruct (s_RackStatus (cc_Status cc) !! k) eqn:E; [|done].
    destruct Hin. apply Hgone. split; [by eapply elem_of_dom_2|done].
Qed.

(** Removing one data centre from the topology makes [GetRemovedDCName]
    return its name, unless it is the last one and is called like the default
    data centre. *)
Theorem GetRemovedDCName_correct (cc oldCRD : CassandraCluster) (l1 : list DC) (d : DC) (l2 : list DC)
    (Hold : topology oldCRD = l1 ++ d :: l2) (Hnew : topology cc = l1 ++ l2)
    (Hnodup : NoDup (dc_Name <$> topology oldCRD))
    (Hname : l2 = [] → dc_Name d ≠ DefaultCassandraDC) :
  GetRemovedDCName cc oldCRD = dc_Name d.
Proof.
  unfold GetRemovedDCName, GetDCSize, GetDCName. rewrite Hold, Hnew in *.
  erewrite (find_map_seq_unique _ _ (length l1)); [done| | |].
  - rewrite length_app. simpl. lia.
  - rewrite list_lookup_middle, lookup_app_r, Nat.sub_diag by done.
    rewrite bool_decide_eq_false_2; [done|].
    rewrite fmap_app in Hnodup. apply NoDup_app in Hnodup as (_ & _ & Hnodup).
    destruct l2 as [|d2 l2]; simpl in *; [by apply Hname|].
    intros Heq. inversion Hnodup as [|? ? Hnin _]. apply Hnin. rewrite Heq. by left.
  - intros j Hj. rewrite !lookup_app_l by done.
    destruct (lookup_lt_is_Some_2 l1 j Hj) as [x ->]. by rewrite bool_decide_eq_true_2.
Qed.

(** A last data centre called "dc1" is missed. *)
Lemma GetRemovedDCName_dc1 (cc oldCRD : CassandraCluster) (l : list DC) (d : DC) :
  topology oldCRD = l ++ [d] → topology cc = l → dc_Name d = DefaultCassandraDC →
  GetRemovedDCName cc oldCRD = "".
Proof.
  intros Hold Hnew Hd. unfold GetRemovedDCName, GetDCSize, GetDCName. rewrite Hold, Hnew.
  replace (find_map _ _) with (None : option string); [done|]. symmetry. apply find_map_None.
  intros j [_ Hj]%elem_of_seq. rewrite length_app in Hj. simpl in Hj.
  destruct (decide (j = length l)) as [->|].
  - rewrite lookup_app_r, Nat.sub_diag, (lookup_ge_None_2 l) by lia. simpl. rewrite Hd.
    by rewrite bool_decide_eq_true_2.
  - rewrite !lookup_app_l by lia. by destruct (l !! j); rewrite bool_decide_eq_true_2.
Qed.

Lemma or_nonempty_ne d s : d ≠ "" → or_nonempty d s ≠ "".
Proof. intros. unfold or_nonempty. by case_bool_decide. Qed.

Lemma or_nonempty_id d s : s ≠ "" → or_nonempty d s = s.
Proof. intros. unfold or_nonempty. by rewrite bool_decide_false. Qed.

Lemma or_nonempty_idemp d s : d ≠ "" → or_nonempty d (or_nonempty d s) = or_nonempty d s.
Proof. intros. apply or_nonempty_id. by apply or_nonempty_ne. Qed.

Lemma CheckDefaults_idemp (cc : CassandraCluster) : CheckDefaults (CheckDefaults cc) = CheckDefaults cc.
Proof.
  destruct cc as [m s st]. destruct s as [].
  with_strategy opaque [or_nonempty] lazy.
  rewrite !or_nonempty_idemp by discriminate.
  destruct spec_BackRestSidecar as [[]|]; [|reflexivity].
  by rewrite or_nonempty_idemp.
Qed.

(** [CheckDefaults] fills every optional setting, keeps the settings that are
    given, and is idempotent. *)
Theorem CheckDefaults_spec (cc : CassandraCluster) :
  let ccs := cc_Spec cc in
  let ccs' := cc_Spec (CheckDefaults cc) in
  CheckDefaults (CheckDefaults cc) = CheckDefaults cc ∧
  (CassandraImage ccs' ≠ "" ∧ ImagePullPolicy ccs' ≠ "" ∧ BootstrapImage ccs' ≠ "" ∧
   ConfigBuilderImage ccs' ≠ "" ∧ ServiceAccountName ccs' ≠ "") ∧
  (∀ i, CassandraImage ccs = i → i ≠ "" → CassandraImage ccs' = i) ∧
  (∀ b, ReadOnlyRootFilesystem ccs = Some b → ReadOnlyRootFilesystem ccs' = Some b) ∧
  (∃ b, spec_BackRestSidecar ccs' = Some b ∧ is_Some (br_Enabled b) ∧ br_Image b ≠ "") ∧
  spec_Topology ccs' = spec_Topology ccs ∧ NodesPerRacks ccs' = NodesPerRacks ccs ∧
  cc_Status (CheckDefaults cc) = cc_Status cc.
Proof.
  split; [apply CheckDefaults_idemp|].
  split; [repeat apply conj; apply or_nonempty_ne; discriminate|].
  split; [intros i Hi Hne; cbn; rewrite Hi; by apply or_nonempty_id|].
  split; [intros b Hb; cbn; by rewrite Hb|].
  split; [|done].
  cbn. destruct (spec_BackRestSidecar _) as [b|]; eexists; (split; [reflexivity|]);
    (split; [eexists; reflexivity|]); by try apply or_nonempty_ne.
Qed.
End theorems.

(** ** Instances

    The theorems on a cluster with two data centres. *)
Section instances.
#[local] Existing Instance SampleQuantities.
Definition demo_dc2 : DC := (simple_dc "dc2" ["rack1"]) <| dc_NodesPerRacks := Some 5%Z |>.
Definition demo : CassandraCluster :=
  simple_cluster 2 [simple_dc "dc1" ["rack1"; "rack2"]; demo_dc2].
Definition demo_one : CassandraCluster := simple_cluster 2 [simple_dc "dc1" ["rack1"; "rack2"]].

Lemma dc_rack_name_roundtrip_witness :
  GetDCNameAndRackNameFromDCRackName (GetDCRackName "dc1" "rack2") = Ret ("dc1", "rack2").
Proof. apply dc_rack_name_roundtrip; vm_compute; set_solver. Defined.

Lemma demo_wf : wf_topology (topology demo).
Proof. apply (bool_decide_unpack _). vm_compute. exact I. Qed.

Lemma GetNodesPerRacks_correct_witness : GetNodesPerRacks demo "dc2-rack1" = 5%Z.
Proof.
  exact (GetNodesPerRacks_correct demo 1 demo_dc2
    0 (Rack_zero <| rack_Name := "rack1" |>) demo_wf eq_refl eq_refl).
Defined.

Lemma InitSeedList_count_witness : Z.of_nat (length (InitSeedList_dc demo [] 0)) = 3%Z.
Proof.
  apply (InitSeedList_count demo 0 2); [vm_compute; lia|lia|].
  intros [|[|rack]] H; vm_compute in H |- *; [reflexivity..|lia].
Defined.

Lemma InitCassandraRackList_spec_witness :
  (InitCassandraRackList demo).2 = 3 ∧
  dom (s_RackStatus (cc_Status (InitCassandraRackList demo).1))
  = list_to_set ["dc1-rack1"; "dc1-rack2"; "dc2-rack1"].
Proof.
  pose proof (InitCassandraRackList_spec demo ltac:(discriminate) demo_wf) as H.
  destruct (InitCassandraRackList demo) as [cc nb]. destruct H as (_ & Hnb & Hdom & _). cbn [fst snd].
  rewrite Hnb, Hdom. split; vm_compute; reflexivity.
Defined.

Definition demo_stale : CassandraCluster :=
  (InitCassandraRackList demo).1 <| cc_Spec := cc_Spec demo_one |>.
Lemma FixCassandraRackList_spec_witness :
  "dc2-rack1" ∈ (FixCassandraRackList demo_stale (cc_Status demo_stale)).2.
Proof.
  pose proof (FixCassandraRackList_spec demo_stale ltac:(discriminate)
    ltac:(apply (bool_decide_unpack _); vm_compute; exact I)) as H.
  destruct (FixCassandraRackList _ _) as [st gone]. destruct H as (_ & H & _).
  apply H. split; [|apply (bool_decide_unpack _); vm_compute; exact I].
  apply (bool_decide_unpack _). vm_compute. exact I.
Defined.

Lemma GetRemovedDCName_correct_witness : GetRemovedDCName demo_one demo = "dc2".
Proof.
  apply (GetRemovedDCName_correct demo_one demo [simple_dc "dc1" ["rack1"; "rack2"]]
    demo_dc2 []); try reflexivity.
  - apply (bool_decide_unpack _). vm_compute. exact I.
  - intros _. discriminate.
Defined.
End instances.
