(* ===== verification/Server.v ===== *)
(** * The outside world

    Everything the controllers exchange with the outside (API server, clock,
    random numbers, environment, Jolokia agents of the Cassandra nodes,
    Prometheus gauges) is a request [Req A] with an answer of type [A].  The
    world that answers is a parameter: [ApiServer W] gives an answer and a next
    world for every request, without any promise, so a theorem holds for an API
    server that fails, loses races or lies.  Every request and its answer is
    appended to the log of the environment; safety theorems are statements about
    that log.

    [Env] is the state the controller code shares: the reconciler's fields
    ([rcc.cc], [rcc.storedPdb], [rcc.storedStatefulSet]), the [status] copy of the
    current reconcile loop, the global [needUpdate], the channel of finished pod
    operations and the goroutines that were started. *)
From S2P Require Import Prelude KubeObjects Types.

(** Kubernetes API errors, as [apierrors.IsNotFound] and
    [apierrors.IsAlreadyExists] tell them apart.  [fmt.Errorf] with %v hides the
    kind, so a wrapped error is [OtherError]. *)
Inductive error :=
| NotFound
| AlreadyExists
| OtherError (msg : string).
#[export] Instance error_eq_dec : EqDecision error.
Proof. solve_decision. Defined.

Definition IsNotFound (e : error) : bool := e == NotFound.
Definition IsAlreadyExists (e : error) : bool := e == AlreadyExists.

Inductive result (A : Type) :=
| Ok (a : A)
| Err (e : error).
Arguments Ok {A} _.
Arguments Err {A} _.

(** JSON values, as [encoding/json] decodes a Jolokia answer into interface{}. *)
Inductive JValue :=
| JString (s : string)
| JList (l : list JValue)
| JMap (m : list (string * JValue))
| JOther.

(** [go_jolokia.JolokiaReadResponse]: an error text and a value. *)
Record JolokiaResponse := mkJolokiaResponse { jr_Error : string; jr_Value : JValue }.

(** [JolokiaClient]: the host and the credentials of the HTTP client. *)
Record JolokiaClient := mkJolokiaClient { jc_host : string; jc_cred : option (string * string) }.

Section server.
Context {QL : QuantityLib}.

(** ** Requests *)
Inductive Req : Type → Type :=
(* clock, randomness, environment *)
| Now : Req Z
| RandIntn (n : Z) : Req Z
| Getenv (name : string) : Req string
(* Prometheus *)
| PhaseMetric (phase : ClusterStateInfo) (cluster : string) : Req unit
| ActionMetric (action : ClusterStateInfo) (cluster : string) : Req unit
(* pods *)
| ApiGetPod (ns name : string) : Req (result Pod)
| ApiListPods (ns : string) (selector : gmap string string) : Req (result (list Pod))
| ApiCreatePod (pod : Pod) : Req (option error)
| ApiUpdatePod (pod : Pod) : Req (option error)
| ApiDeletePod (pod : Pod) (grace : option Z) : Req (option error)
(* statefulsets *)
| ApiGetStatefulSet (ns name : string) : Req (result StatefulSet)
| ApiCreateStatefulSet (sts : StatefulSet) : Req (option error)
| ApiUpdateStatefulSet (sts : StatefulSet) : Req (option error)
| ApiDeleteStatefulSet (ns name : string) (orphan : bool) : Req (option error)
(* persistent volume claims *)
| ApiGetPVC (ns name : string) : Req (result PersistentVolumeClaim)
| ApiListPVC (ns : string) (selector : gmap string string) : Req (result (list PersistentVolumeClaim))
| ApiUpdatePVC (pvc : PersistentVolumeClaim) : Req (option error)
| ApiDeletePVC (pvc : PersistentVolumeClaim) : Req (option error)
(* pod disruption budgets *)
| ApiGetPDB (ns name : string) : Req (result PodDisruptionBudget)
| ApiCreatePDB (pdb : PodDisruptionBudget) : Req (option error)
| ApiUpdatePDB (pdb : PodDisruptionBudget) : Req (option error)
| ApiDeletePDB (pdb : PodDisruptionBudget) : Req (option error)
(* services and secrets *)
| ApiCreateService (svc : Service) : Req (option error)
| ApiDeleteService (ns name : string) : Req (option error)
| ApiGetSecret (ns name : string) : Req (result (gmap string string))
(* the CassandraCluster resource.  The API server answers an update with the
   object it was sent, its new resource version and the status it has stored;
   an update of the status answers with the new resource version. *)
| ApiGetCC (ns name : string) : Req (result CassandraCluster)
| ApiUpdateCC (cc : CassandraCluster) : Req (result (string * CassandraClusterStatus))
| ApiUpdateCCStatus (cc : CassandraCluster) : Req (result string)
(* Jolokia *)
| JolokiaRead (client : JolokiaClient) (mbean attribute : string) : Req (result JolokiaResponse)
| JolokiaExec (client : JolokiaClient) (mbean operation : string) (args : list string)
  : Req (result JolokiaResponse).

Class ApiServer (W : Type) := serve : ∀ A : Type, Req A → W → A * W.
#[global] Arguments serve {W _ A} _ _.

(** A request together with its answer. *)
Inductive Event :=
| Ev (A : Type) (r : Req A) (answer : A).

(** ** Pod operations in flight *)
Record finalizedOp := mkFinalizedOp {
  fo_err : option error; fo_dcRackName : string; fo_pod : Pod; fo_operationName : string }.

(** The goroutines the controller starts. *)
Inductive Task :=
| RunOperation (operationName hostName dcRackName : string) (pod : Pod)
| MonitorOperation (hostName dcRackName : string) (pod : Pod) (operationName : string)
| Decommission (client : JolokiaClient) (v4 : bool).

(** ** Environment *)
Record Env (W : Type) := mkEnv {
  world : W;
  log : list Event;
  rcc_cc : CassandraCluster;
  status : CassandraClusterStatus;
  rcc_storedPdb : option PodDisruptionBudget;
  rcc_storedStatefulSet : option StatefulSet;
  needUpdate : bool;
  chanRunningOp : list finalizedOp;
  tasks : list Task }.
End server.

Arguments mkEnv {_ _} _ _ _ _ _ _ _ _ _.
Arguments world {_ _} _.
Arguments log {_ _} _.
Arguments rcc_cc {_ _} _.
Arguments status {_ _} _.
Arguments rcc_storedPdb {_ _} _.
Arguments rcc_storedStatefulSet {_ _} _.
Arguments needUpdate {_ _} _.
Arguments chanRunningOp {_ _} _.
Arguments tasks {_ _} _.

#[export] Instance eta_Env `{QuantityLib} W : Eta (Env W) := λ x,
  mkEnv (world x) (log x) (rcc_cc x) (status x) (rcc_storedPdb x) (rcc_storedStatefulSet x)
    (needUpdate x) (chanRunningOp x) (tasks x).

(** Controller code: a computation over the environment. *)
Abbreviation M W := (GoM (Env W)) (only parsing).

Section programs.
Context {QL : QuantityLib} {W : Type} {Srv : ApiServer W}.

Definition call {A} (r : Req A) : M W A := λ e,
  let '(a, w) := serve r (world e) in
  Ret (a, e <| world := w |> <| log ::= λ l, l ++ [Ev _ r a] |>).

Definition spawn (t : Task) : M W unit := modify (λ e, e <| tasks ::= λ l, l ++ [t] |>).

(** ** Access to the shared objects *)
Definition get_cc : M W CassandraCluster := gets rcc_cc.
Definition get_status : M W CassandraClusterStatus := gets status.
Definition modify_cc (f : CassandraCluster → CassandraCluster) : M W unit :=
  modify (λ e, e <| rcc_cc ::= f |>).
Definition modify_status (f : CassandraClusterStatus → CassandraClusterStatus) : M W unit :=
  modify (λ e, e <| status ::= f |>).

(** [status.CassandraRackStatus[k]]: reading a field through the nil pointer of a
    missing key panics, and so does assigning one. *)
Definition rack_status (k : string) : M W CassandraRackStatus :=
  st ← get_status; lift (deref (s_RackStatus st !! k)).
Definition set_rack (k : string) (f : CassandraRackStatus → CassandraRackStatus) : M W unit :=
  _ ← rack_status k; modify_status (on_rack k f).
Definition set_action (k : string) (f : CassandraLastAction → CassandraLastAction) : M W unit :=
  set_rack k (λ r, r <| rs_LastAction ::= f |>).
Definition set_podop (k : string) (f : PodLastOperation → PodLastOperation) : M W unit :=
  set_rack k (λ r, r <| rs_PodLastOperation ::= f |>).
End programs.

(** ** Third-party code

    [json-iterator] and the [k8s-objectmatcher] patch library, which are not part
    of the repository. *)
Class StsCodec {QL : QuantityLib} := {
  Marshal_sts : StatefulSet → result string;
  Unmarshal_sts : string → result StatefulSet;
  (** [patch.DefaultAnnotator.GetOriginalConfiguration], its error ignored *)
  GetOriginalConfiguration : StatefulSet → string;
  (** [patch.LastAppliedConfig], the key of the annotation *)
  LastAppliedConfig : string;
  (** [patch.DeleteNullInJson] *)
  DeleteNullInJson : string → result string;
  (** [archive/zip] and [encoding/base64] over the bytes *)
  zipAndBase64 : string → result string;
}.

(** What [json.Marshal] promises: it succeeds, with a non-empty text that
    [json.Unmarshal] reads back.  (The text does not tell a nil map or slice from an
    empty one, and neither do most fields of [KubeObjects].  Where they do, as for the
    volumes of the pod template, the law is meant for a statefulset as the API server
    sends it, which has a field of this kind nil or not empty; it is used for those.) *)
Class StsCodecLaws `{StsCodec} := {
  Marshal_sts_roundtrip s : ∃ t, Marshal_sts s = Ok t ∧ t ≠ "" ∧ Unmarshal_sts t = Ok s;
}.

(** [encoding/json] on the CassandraCluster resource: the last applied
    configuration is kept as text in an annotation. *)
Class ConfigCodec {QL : QuantityLib} := {
  Marshal_cc : CassandraCluster → option string;
  Unmarshal_cc : string → option CassandraCluster;
}.

(** [r3labs/diff] on two slices of strings gives no error and some change. *)
Class SliceDiff := { slices_differ : list string → list string → bool }.

(** ** Reasoning

    [wp m Q e]: if [m] returns from [e], its result and the environment it leaves
    satisfy [Q].  [wp_steps] walks through a program, one bind at a time. *)
Section wp.
Context {S : Type}.
Definition wp {A} (m : GoM S A) (Q : A → S → Prop) (s : S) : Prop :=
  match m s with Ret (a, s') => Q a s' | Panic => True end.

Lemma wp_ret {A} (a : A) Q s : Q a s → wp (mret a) Q s.
Proof. done. Qed.

Lemma wp_bind {A B} (m : GoM S A) (f : A → GoM S B) Q s :
  wp m (λ a s', wp (f a) Q s') s → wp (m ≫= f) Q s.
Proof. unfold wp, mbind, GoM_bind. destruct (m s) as [[a s']|]; done. Qed.

Lemma wp_mono {A} (m : GoM S A) (Q Q' : A → S → Prop) s :
  wp m Q s → (∀ a s', Q a s' → Q' a s') → wp m Q' s.
Proof. unfold wp. destruct (m s) as [[a s']|]; auto. Qed.

Lemma wp_conseq {A} (m : GoM S A) (Q Q' : A → S → Prop) s :
  (∀ a s', Q a s' → Q' a s') → wp m Q s → wp m Q' s.
Proof. intros. by eapply wp_mono. Qed.

Lemma wp_and {A} (m : GoM S A) (Q Q' : A → S → Prop) s :
  wp m Q s → wp m Q' s → wp m (λ a s', Q a s' ∧ Q' a s') s.
Proof. unfold wp. destruct (m s) as [[a s']|]; auto. Qed.

Lemma wp_run {A} (m : GoM S A) (Q : A → S → Prop) s a s' :
  wp m Q s → m s = Ret (a, s') → Q a s'.
Proof. unfold wp. intros H E. by rewrite E in H. Qed.

Lemma wp_intro {A} (m : GoM S A) (Q : A → S → Prop) s :
  (∀ a s', m s = Ret (a, s') → Q a s') → wp m Q s.
Proof. unfold wp. destruct (m s) as [[a s']|]; auto. Qed.

Lemma wp_get Q s : Q s s → wp get Q s.
Proof. done. Qed.
Lemma wp_gets {A} (f : S → A) Q s : Q (f s) s → wp (gets f) Q s.
Proof. done. Qed.
Lemma wp_modify (f : S → S) Q s : Q tt (f s) → wp (modify f) Q s.
Proof. done. Qed.
Lemma wp_panic {A} (Q : A → S → Prop) s : wp panic Q s.
Proof. done. Qed.
Lemma wp_lift {A} (o : outcome A) Q s : (∀ a, o = Ret a → Q a s) → wp (lift o) Q s.
Proof. unfold wp, lift. destruct o; auto. Qed.

(** A loop is verified with an invariant of its state. *)
Lemma wp_range_do {A} (l : list A) (body : A → GoM S unit) (I : S → Prop) Q s :
  I s → (∀ x s0, x ∈ l → I s0 → wp (body x) (λ _ s', I s') s0) →
  (∀ s', I s' → Q tt s') → wp (range_do l body) Q s.
Proof.
  revert s. induction l as [|x l IH]; intros s HI Hbody HQ; simpl; [by apply wp_ret, HQ|].
  apply wp_bind. eapply wp_mono; [apply Hbody; [by left|done]|].
  intros ? s' HI'. apply IH; [done| |done]. intros. apply Hbody; [by right|done].
Qed.

Lemma wp_range_return {A R} (l : list A) (body : A → GoM S (option R)) (I : S → Prop) Q s :
  I s →
  (∀ x s0, x ∈ l → I s0 →
     wp (body x) (λ r s', match r with Some v => Q (Some v) s' | None => I s' end) s0) →
  (∀ s', I s' → Q None s') → wp (range_return l body) Q s.
Proof.
  revert s. induction l as [|x l IH]; intros s HI Hbody HQ; simpl; [by apply wp_ret, HQ|].
  apply wp_bind. eapply wp_mono; [apply Hbody; [by left|done]|].
  intros [v|] s' HI'; [by apply wp_ret|].
  apply IH; [done| |done]. intros. apply Hbody; [by right|done].
Qed.

(** [safe m s]: [m] does not panic from [s], it returns. *)
Definition safe {A} (m : GoM S A) (s : S) : Prop := m s ≠ Panic.

Lemma safe_returns {A} (m : GoM S A) s : safe m s → ∃ a s', m s = Ret (a, s').
Proof. unfold safe. destruct (m s) as [[a s']|]; [eauto|done]. Qed.
Lemma safe_bind {A B} (m : GoM S A) (f : A → GoM S B) s :
  safe m s → wp m (λ a s', safe (f a) s') s → safe (m ≫= f) s.
Proof. unfold safe, wp, mbind, GoM_bind. destruct (m s) as [[a s']|]; done. Qed.
Lemma safe_range_do {A} (l : list A) (body : A → GoM S unit) (I : S → Prop) s :
  I s → (∀ x s0, x ∈ l → I s0 → safe (body x) s0 ∧ wp (body x) (λ _ s', I s') s0) → safe (range_do l body) s.
Proof.
  revert s. induction l as [|x l IH]; intros s HI Hbody; simpl; [done|].
  destruct (Hbody x s) as [Hs Hw]; [by left|done|]. apply safe_bind; [done|].
  eapply wp_mono; [exact Hw|]. intros ? s' HI'. apply IH; [done|]. intros. apply Hbody; [by right|done].
Qed.
End wp.

(** ** Total specifications

    [total m Q s]: the computation returns from [s], with [Q]. *)
Section total.
Context {S : Type}.
Definition total {A} (m : GoM S A) (Q : A → S → Prop) (s : S) : Prop := ∃ a s', m s = Ret (a, s') ∧ Q a s'.

Lemma total_ret {A} (a : A) (Q : A → S → Prop) s : Q a s → total (mret a) Q s.
Proof. intros. by exists a, s. Qed.
Lemma total_bind {A B} (m : GoM S A) (f : A → GoM S B) Q s :
  total m (λ a s', total (f a) Q s') s → total (m ≫= f) Q s.
Proof.
  intros (a & s1 & Hm & b & s2 & Hf & HQ). exists b, s2. split; [|done]. unfold mbind, GoM_bind. by rewrite Hm.
Qed.
Lemma total_mono {A} (m : GoM S A) (Q Q' : A → S → Prop) s :
  total m Q s → (∀ a s', Q a s' → Q' a s') → total m Q' s.
Proof. intros (a & s' & Hm & HQ) H. exists a, s'. auto. Qed.
Lemma total_lift {A} (o : outcome A) a (Q : A → S → Prop) s : o = Ret a → Q a s → total (lift o) Q s.
Proof. intros -> HQ. by exists a, s. Qed.
Lemma total_gets {A} (f : S → A) (Q : A → S → Prop) s : Q (f s) s → total (gets f) Q s.
Proof. intros HQ. by exists (f s), s. Qed.
Lemma total_modify (f : S → S) (Q : unit → S → Prop) s : Q tt (f s) → total (modify f) Q s.
Proof. intros HQ. by exists tt, (f s). Qed.
End total.

Section keeps.
Context {S : Type} (R : S → S → Prop) `{!PreOrder R}.

(** [keeps m]: every run of [m] relates its final state to its initial one; for
    a preorder this composes along programs. *)
Definition keeps {A} (m : GoM S A) : Prop := ∀ s, wp m (λ _ s', R s s') s.

Lemma wp_keeps {A} (m : GoM S A) (Q : A → S → Prop) s :
  keeps m → (∀ a s', R s s' → Q a s') → wp m Q s.
Proof. intros Hm HQ. eapply wp_mono; [apply Hm|]. auto. Qed.

Lemma keeps_mono {A} (R' : S → S → Prop) (m : GoM S A) :
  (∀ s s', R s s' → R' s s') → keeps m → ∀ s, wp m (λ _ s', R' s s') s.
Proof. intros HR Hm s. eapply wp_mono; [apply Hm|]. intros. by apply HR. Qed.

Lemma keeps_ret {A} (a : A) : keeps (mret a).
Proof. intros s. apply wp_ret. reflexivity. Qed.
Lemma keeps_bind {A B} (m : GoM S A) (f : A → GoM S B) :
  keeps m → (∀ a, keeps (f a)) → keeps (m ≫= f).
Proof.
  intros Hm Hf s. apply wp_bind. eapply wp_mono; [apply Hm|]. intros a s' HR.
  eapply wp_mono; [apply Hf|]. intros b s'' HR'. simpl in *. by etrans.
Qed.
Lemma keeps_get : keeps get.
Proof. intros s. apply wp_get. reflexivity. Qed.
Lemma keeps_gets {A} (f : S → A) : keeps (gets f).
Proof. intros s. apply wp_gets. reflexivity. Qed.
Lemma keeps_modify (f : S → S) : (∀ s, R s (f s)) → keeps (modify f).
Proof. intros H s. by apply wp_modify. Qed.
Lemma keeps_panic {A} : keeps (panic : GoM S A).
Proof. intros s. apply wp_panic. Qed.
Lemma keeps_lift {A} (o : outcome A) : keeps (lift o).
Proof. intros s. apply wp_lift. reflexivity. Qed.
Lemma keeps_range_do {A} (l : list A) (body : A → GoM S unit) :
  (∀ x, keeps (body x)) → keeps (range_do l body).
Proof.
  intros Hb. induction l as [|x l IH]; simpl; [apply keeps_ret|].
  apply keeps_bind; [apply Hb|]. intros _. apply IH.
Qed.
Lemma keeps_range_return {A B} (l : list A) (body : A → GoM S (option B)) :
  (∀ x, keeps (body x)) → keeps (range_return l body).
Proof.
  intros Hb. induction l as [|x l IH]; simpl; [apply keeps_ret|].
  apply keeps_bind; [apply Hb|]. intros [v|]; [apply keeps_ret|apply IH].
Qed.
End keeps.

(** [observe f m s]: what [f] sees of a run, [None] for a panic; concrete runs are
    evaluated through it. *)
Definition observe {S A B} (f : A → S → B) (m : GoM S A) (s : S) : option B :=
  match m s with Ret (a, s') => Some (f a s') | Panic => None end.

Lemma observe_Some {S A B} (f : A → S → B) (m : GoM S A) s b :
  observe f m s = Some b → ∃ a s', m s = Ret (a, s') ∧ f a s' = b.
Proof. unfold observe. destruct (m s) as [[a s']|]; [|done]. intros [= <-]. eauto. Qed.

(** ** What a program adds to the log *)
Section events.
Context {QL : QuantityLib} {W : Type} {Srv : ApiServer W}.

(** All the requests between [e] and [e'] satisfy [P]. *)
Definition logs (P : Event → Prop) (e e' : Env W) : Prop :=
  ∃ l, log e' = log e ++ l ∧ Forall P l.

#[global] Instance logs_preorder P : PreOrder (logs P).
Proof.
  split.
  - intros e. exists []. by rewrite app_nil_r.
  - intros e1 e2 e3 (l1 & E1 & H1) (l2 & E2 & H2). exists (l1 ++ l2).
    rewrite E2, E1, (assoc_L (++)). split; [done|]. by apply Forall_app.
Qed.

Lemma logs_mono (P P' : Event → Prop) e e' :
  (∀ ev, P ev → P' ev) → logs P e e' → logs P' e e'.
Proof. intros HP (l & E & Hl). exists l. split; [exact E|]. by eapply Forall_impl. Qed.

Lemma wp_call {A} (r : Req A) Q (e : Env W) :
  (∀ a w, Q a (e <| world := w |> <| log ::= λ l, l ++ [Ev _ r a] |>)) → wp (call r) Q e.
Proof. intros HQ. unfold wp, call. destruct (serve r (world e)). apply HQ. Qed.

Lemma keeps_call {A} (R : Env W → Env W → Prop) (r : Req A) :
  (∀ e a w, R e (e <| world := w |> <| log ::= λ l, l ++ [Ev _ r a] |>)) → keeps R (call r).
Proof. intros HR e. apply wp_call. auto. Qed.

Lemma logs_call {A} (P : Event → Prop) (r : Req A) (e : Env W) a w :
  P (Ev _ r a) → logs P e (e <| world := w |> <| log ::= λ l, l ++ [Ev _ r a] |>).
Proof. intros HP. exists [Ev _ r a]. split; [done|]. by repeat constructor. Qed.

Lemma logs_same P (e e' : Env W) : log e' = log e → logs P e e'.
Proof. intros E. exists []. by rewrite E, app_nil_r. Qed.

(** The event happened between [e] and [e']. *)
Definition since (e e' : Env W) (ev : Event) : Prop := ∃ l, log e' = log e ++ l ∧ ev ∈ l.

Lemma since_call {A} (r : Req A) (e : Env W) a w :
  since e (e <| world := w |> <| log ::= λ l, l ++ [Ev _ r a] |>) (Ev _ r a).
Proof. exists [Ev _ r a]. split; [done|]. by left. Qed.
Lemma since_logs_l P (e e1 e' : Env W) ev : logs P e e1 → since e1 e' ev → since e e' ev.
Proof.
  intros (l & E & _) (l' & E' & Hin). exists (l ++ l'). rewrite E', E, (assoc_L (++)).
  split; [done|]. apply elem_of_app. by right.
Qed.
Lemma since_logs_r P (e e1 e' : Env W) ev : logs P e1 e' → since e e1 ev → since e e' ev.
Proof.
  intros (l & E & _) (l' & E' & Hin). exists (l' ++ l). rewrite E, E', (assoc_L (++)).
  split; [done|]. apply elem_of_app. by left.
Qed.
Lemma logs_since P (e e' : Env W) ev : logs P e e' → since e e' ev → P ev.
Proof.
  intros (l & E & HP) (l' & E' & Hin). rewrite E in E'. apply (inj _) in E' as <-.
  rewrite Forall_forall in HP. by apply HP.
Qed.

(** Requests that change nothing outside. *)
Definition read_only (ev : Event) : Prop :=
  match ev with
  | Ev _ r _ =>
      match r with
      | Now | RandIntn _ | Getenv _ | PhaseMetric _ _ | ActionMetric _ _
      | ApiGetPod _ _ | ApiListPods _ _ | ApiGetStatefulSet _ _ | ApiGetPVC _ _ | ApiListPVC _ _
      | ApiGetPDB _ _ | ApiGetSecret _ _ | ApiGetCC _ _ | JolokiaRead _ _ _ => True
      | _ => False
      end
  end.

(** A program that only adds requests satisfying [P] and changes none of the
    shared objects. *)
Definition quiet (P : Event → Prop) (e e' : Env W) : Prop :=
  logs P e e' ∧ rcc_cc e' = rcc_cc e ∧ status e' = status e ∧
  rcc_storedStatefulSet e' = rcc_storedStatefulSet e ∧ rcc_storedPdb e' = rcc_storedPdb e ∧
  tasks e' = tasks e ∧ chanRunningOp e' = chanRunningOp e ∧ needUpdate e' = needUpdate e.
#[global] Instance quiet_preorder P : PreOrder (quiet P).
Proof.
  split; [by intros e; repeat split; apply logs_same|].
  intros e1 e2 e3 (L1 & E1) (L2 & E2). split; [by etrans|]. destruct_and!. repeat split; congruence.
Qed.
Lemma quiet_logs P (e e' : Env W) : quiet P e e' → logs P e e'.
Proof. by intros [? _]. Qed.
Lemma quiet_mono (P P' : Event → Prop) (e e' : Env W) :
  (∀ ev, P ev → P' ev) → quiet P e e' → quiet P' e e'.
Proof. intros HP [HL HE]. split; [by eapply logs_mono|done]. Qed.
Lemma quiet_log (P : Event → Prop) (e e' : Env W) ev : quiet P e e' → ev ∈ log e → ev ∈ log e'.
Proof. intros [(l & -> & _) _] Hev. apply elem_of_app. by left. Qed.
Lemma keeps_quiet_call {A} (P : Event → Prop) (r : Req A) :
  (∀ a, P (Ev _ r a)) → keeps (quiet P) (call r).
Proof. intros HP. apply keeps_call. intros. repeat split. by apply logs_call. Qed.

(** A field that a program does not touch. *)
Definition same {T} (proj : Env W → T) (e e' : Env W) : Prop := proj e' = proj e.
#[global] Instance same_preorder {T} (proj : Env W → T) : PreOrder (same proj).
Proof. split; [by intros e|]. unfold same. intros e1 e2 e3 H1 H2. congruence. Qed.
End events.

Section access.
Context {QL : QuantityLib} {W : Type} {Srv : ApiServer W}.

Lemma wp_rack_status k Q (e : Env W) :
  (∀ r, s_RackStatus (status e) !! k = Some r → Q r e) → wp (rack_status k) Q e.
Proof.
  intros HQ. apply wp_bind, wp_gets, wp_lift. intros r Hr. apply HQ.
  by destruct (s_RackStatus (status e) !! k); simplify_eq/=.
Qed.

Lemma wp_set_rack k f Q (e : Env W) :
  (∀ r, s_RackStatus (status e) !! k = Some r → Q tt (e <| status ::= on_rack k f |>)) →
  wp (set_rack k f) Q e.
Proof. intros HQ. apply wp_bind, wp_rack_status. intros r Hr. apply wp_modify. eauto. Qed.

Lemma safe_call {A} (r : Req A) (e : Env W) : safe (call r) e.
Proof. unfold safe, call. by destruct (serve r (world e)). Qed.
Lemma safe_rack_status k (e : Env W) : is_Some (s_RackStatus (status e) !! k) → safe (rack_status k) e.
Proof. intros [rs Hrs]. unfold safe, rack_status, mbind, GoM_bind, lift, deref. cbn. by rewrite Hrs. Qed.
Lemma safe_set_rack k f (e : Env W) : is_Some (s_RackStatus (status e) !! k) → safe (set_rack k f) e.
Proof. intros Hk. apply safe_bind; [by apply safe_rack_status|]. by apply wp_rack_status. Qed.

Lemma keeps_set_rack (R : Env W → Env W → Prop) k f :
  (∀ e, R e (e <| status ::= on_rack k f |>)) → keeps R (set_rack k f).
Proof. intros HR e. apply wp_set_rack. auto. Qed.

Lemma keeps_rack_status (R : Env W → Env W → Prop) `{!PreOrder R} k : keeps R (rack_status k).
Proof. intros e. apply wp_rack_status. reflexivity. Qed.

(** Reading the entry of a rack after it was updated. *)
Lemma on_rack_lookup k f st r :
  s_RackStatus st !! k = Some r → s_RackStatus (on_rack k f st) !! k = Some (f r).
Proof. intros Hr. cbn. by rewrite lookup_alter_eq, Hr. Qed.

Lemma on_rack_lookup_ne k k' f st :
  k ≠ k' → s_RackStatus (on_rack k f st) !! k' = s_RackStatus st !! k'.
Proof. intros. cbn. by apply lookup_alter_ne. Qed.

(** Requests that are answered in a known way *)
Lemma total_call {A} (r : Req A) a w' (Q : A → Env W → Prop) (e : Env W) :
  serve r (world e) = (a, w') →
  (∀ e1, quiet (λ _, True) e e1 → world e1 = w' → since e e1 (Ev _ r a) → Q a e1) → total (call r) Q e.
Proof.
  intros Hs HQ. exists a, (e <| world := w' |> <| log ::= λ l, l ++ [Ev _ r a] |>). split; [unfold call; by rewrite Hs|].
  apply HQ; [repeat split; by apply logs_call|done|apply since_call].
Qed.
Lemma total_rack_status k rs (Q : CassandraRackStatus → Env W → Prop) (e : Env W) :
  s_RackStatus (status e) !! k = Some rs → Q rs e → total (rack_status k) Q e.
Proof. intros Hk HQ. apply total_bind, total_gets. eapply total_lift; [by rewrite Hk|done]. Qed.
Lemma total_set_rack k f (Q : unit → Env W → Prop) (e : Env W) :
  is_Some (s_RackStatus (status e) !! k) → Q tt (e <| status ::= on_rack k f |>) → total (set_rack k f) Q e.
Proof. intros [rs Hk] HQ. apply total_bind. eapply total_rack_status; [exact Hk|]. by apply total_modify. Qed.
End access.
Create HintDb keeps.

(** [keeps_steps] proves [keeps R m] by following the syntax of [m]; the facts
    about called procedures come from the hint database [keeps], the remaining
    goals are the primitive updates. *)
Ltac keeps_apply lem :=
  apply lem; lazymatch goal with |- PreOrder _ => apply _ | |- ∀ _, _ => intros ? | _ => idtac end.
Ltac keeps_step :=
  lazymatch goal with
  | |- keeps _ (mret _) => keeps_apply @keeps_ret
  | |- keeps _ (mbind _ _) => keeps_apply @keeps_bind
  | |- keeps _ get => keeps_apply @keeps_get
  | |- keeps _ (gets _) => keeps_apply @keeps_gets
  | |- keeps _ get_cc => keeps_apply @keeps_gets
  | |- keeps _ get_status => keeps_apply @keeps_gets
  | |- keeps _ panic => keeps_apply @keeps_panic
  | |- keeps _ (lift _) => keeps_apply @keeps_lift
  | |- keeps _ (rack_status _) => keeps_apply @keeps_rack_status
  | |- keeps _ (range_do _ _) => keeps_apply @keeps_range_do
  | |- keeps _ (range_return _ _) => keeps_apply @keeps_range_return
  | |- keeps _ (let '(_, _) := ?x in _) => destruct x
  | |- keeps _ (match ?x with _ => _ end) => destruct x
  | |- keeps _ ((match ?x with _ => _ end) _) => destruct x
  end.
Ltac keeps_steps := repeat (keeps_step || solve [eauto with keeps]).


(** [wp_steps] runs a program symbolically: primitives by their rule, tests by
    case analysis. *)
Ltac wp_step :=
  lazymatch goal with
  | |- wp (mret _) _ _ => apply wp_ret
  | |- wp (mbind _ _) _ _ => apply wp_bind
  | |- wp (call _) _ _ => apply wp_call; intros ? ?
  | |- wp get _ _ => apply wp_get
  | |- wp (gets _) _ _ => apply wp_gets
  | |- wp (modify _) _ _ => apply wp_modify
  | |- wp panic _ _ => apply wp_panic
  | |- wp (lift _) _ _ => apply wp_lift; intros ? ?
  | |- wp get_cc _ _ => apply wp_gets
  | |- wp get_status _ _ => apply wp_gets
  | |- wp (rack_status _) _ _ => apply wp_rack_status; intros ? ?
  | |- wp (set_rack _ _) _ _ => apply wp_set_rack; intros ? ?
  | |- wp (set_action _ _) _ _ => apply wp_set_rack; intros ? ?
  | |- wp (set_podop _ _) _ _ => apply wp_set_rack; intros ? ?
  | |- wp (match ?x with _ => _ end) _ _ => let E := fresh "E" in destruct x eqn:E
  end; cbv beta.
Ltac wp_steps := repeat wp_step.
