(* ===== verification/K8sUtil.v ===== *)
(** * Helpers of the controllers (src/pkg/k8s/util.go, src/pkg/util/util.go)

    Slices of names, label maps, owner references and the time stamps kept in
    pod labels.  Times are nanoseconds since 1970 in UTC. *)
From S2P Require Import Prelude KubeObjects Types ClusterApi.

(** ** Slices *)
Fixpoint RemoveString (s : list string) (r : string) : list string :=
  match s with
  | [] => []
  | v :: s => if v == r then s else v :: RemoveString s r
  end.

Definition Contains (s : list string) (e : string) : bool := existsb (λ a, a == e) s.

Definition ContainSlice (ref n : list string) : bool := forallb (Contains ref) n.

Definition MergeSlice (old new : list string) : list string :=
  List.filter (Contains new) old ++ List.filter (λ x, negb (Contains old x)) new.

Definition StringSliceContains (list : list string) (s : string) : bool := existsb (λ v, v == s) list.

(** [StringSliceRemove] ranges over the array of the slice it was given while
    [append(list[:i], list[i+1:]...)] moves the elements of that same array:
    [arr] is the array, [len] the length of the current slice, [i] the index of
    the range loop. *)
Fixpoint StringSliceRemove_loop (fuel : nat) (s : string) (arr : list string) (len i : nat)
  : outcome (list string) :=
  match fuel with
  | 0 => Ret (take len arr)
  | S fuel =>
      v ← index arr (Z.of_nat i);
      if v == s then
        if bool_decide (S i ≤ len) then
          (* list[i+1:] is copied to position i, the tail of the array stays *)
          let arr := take i arr ++ take (len - S i) (drop (S i) arr) ++ drop (len - 1) arr in
          StringSliceRemove_loop fuel s arr (len - 1) (S i)
        else Panic
      else StringSliceRemove_loop fuel s arr len (S i)
  end.
Definition StringSliceRemove (list : list string) (s : string) : outcome (Datatypes.list string) :=
  StringSliceRemove_loop (length list) s list (length list) 0.

(** ** Labels *)
Definition MergeLabels (allLabels : list (gmap string string)) : gmap string string :=
  foldl (λ res labels, labels ∪ res) ∅ allLabels.

Definition dcLabel : string := "cassandraclusters.db.orange.com.dc".
Definition rackLabel : string := "cassandraclusters.db.orange.com.rack".

Section labels.
Context {QL : QuantityLib}.

Definition LabelsForCassandraDCRack (cc : CassandraCluster) (dcName rackName : string) : gmap string string :=
  let m := list_to_map [("app", "cassandracluster"); ("cassandracluster", cc_Name cc);
             ("dc-rack", GetDCRackName dcName rackName); (dcLabel, dcName); (rackLabel, rackName)] in
  MergeLabels [m_Labels (cc_Meta cc); m].

Definition LabelsForCassandraDC (cc : CassandraCluster) (dcName : string) : gmap string string :=
  let m : gmap string string :=
    list_to_map [("app", "cassandracluster"); ("cassandracluster", cc_Name cc)] in
  let m := if bool_decide (0 < String.length dcName) then <[dcLabel := dcName]> m else m in
  MergeLabels [m_Labels (cc_Meta cc); m].

Definition LabelsForCassandra (cc : CassandraCluster) : gmap string string :=
  let m := list_to_map [("app", "cassandracluster"); ("cassandracluster", cc_Name cc)] in
  MergeLabels [m_Labels (cc_Meta cc); m].

Definition DCRackLabelsAndNodeSelectorForStatefulSet (cc : CassandraCluster) (dc rack : nat)
  : gmap string string * gmap string string :=
  let '(dcName, rackName, nodeSelector) :=
    match topology cc !! dc with
    | None => (DefaultCassandraDC, DefaultCassandraRack, ∅)
    | Some d =>
        let nodeSelector := MergeLabels [dc_Labels d] in
        match dc_Rack d !! rack with
        | None => (dc_Name d, "Rack-1", nodeSelector)
        | Some r => (dc_Name d, rack_Name r, MergeLabels [nodeSelector; rack_Labels r])
        end
    end in
  (MergeLabels [LabelsForCassandraDCRack cc dcName rackName;
                list_to_map [(dcLabel, dcName); (rackLabel, rackName)]], nodeSelector).

(** ** Owner references *)
Definition AsOwner (cc : CassandraCluster) : OwnerReference :=
  mkOwnerReference "db.orange.com/v2" "CassandraCluster" (cc_Name cc) (m_UID (cc_Meta cc)) (Some true).

Definition AddOwnerRefToObject (o : ObjectMeta) (r : OwnerReference) : ObjectMeta :=
  o <| m_OwnerReferences ::= λ l, l ++ [r] |>.

Definition IsMarkedForDeletion (m : ObjectMeta) : bool := m_DeletionTimestamp m != None.

(** ** Pods *)
Definition PodHostname (pod : Pod) : string := pod_Hostname pod +:+ "." +:+ pod_Subdomain pod.

Definition PodByName (podList : list Pod) (podName : string) : option Pod :=
  find_map (λ pod, if pod_Name pod == podName then Some pod else None) podList.
End labels.

(** ** Time stamps in labels *)
Definition second : Z := 10 ^ 9.
(** [time.Time{}]: 1 January of year 1. *)
Definition zero_time : Z := (-62135596800) * second.

(** The proleptic Gregorian calendar, as package time computes it. *)
Definition civil_from_days (z : Z) : Z * Z * Z :=
  let z := (z + 719468)%Z in
  let era := (z / 146097)%Z in
  let doe := (z - era * 146097)%Z in
  let yoe := ((doe - doe / 1460 + doe / 36524 - doe / 146096) / 365)%Z in
  let doy := (doe - (365 * yoe + yoe / 4 - yoe / 100))%Z in
  let mp := ((5 * doy + 2) / 153)%Z in
  let d := (doy - (153 * mp + 2) / 5 + 1)%Z in
  let m := if bool_decide (mp < 10)%Z then (mp + 3)%Z else (mp - 9)%Z in
  (yoe + era * 400 + (if bool_decide (m ≤ 2)%Z then 1 else 0), m, d)%Z.

Definition days_from_civil (y m d : Z) : Z :=
  let y := (if bool_decide (m ≤ 2)%Z then y - 1 else y)%Z in
  let era := (y / 400)%Z in
  let yoe := (y - era * 400)%Z in
  let doy := ((153 * (if bool_decide (2 < m)%Z then m - 3 else m + 9) + 2) / 5 + d - 1)%Z in
  let doe := (yoe * 365 + yoe / 4 - yoe / 100 + doy)%Z in
  (era * 146097 + doe - 719468)%Z.

Definition days_in_month (y m : Z) : Z :=
  (match m with
   | 2 => if bool_decide (y `mod` 4 = 0 ∧ (y `mod` 100 ≠ 0 ∨ y `mod` 400 = 0)) then 29 else 28
   | 4 | 6 | 9 | 11 => 30
   | _ => 31
   end)%Z.

Definition digit (n : Z) : ascii := ascii_of_N (48 + Z.to_N n).
(** [%02d] for a number of at most two digits *)
Definition pad2 (n : Z) : string := String (digit (n / 10)) (String (digit (n `mod` 10)) "").

(** [LabelTime] at the time [now]. *)
Definition LabelTime (now : Z) : string :=
  let secs := (now / second)%Z in
  let '(y, m, d) := civil_from_days (secs / 86400) in
  let tod := (secs `mod` 86400)%Z in
  Itoa y +:+ pad2 m +:+ pad2 d +:+ "T" +:+ pad2 (tod / 3600) +:+ pad2 (tod / 60 `mod` 60)
  +:+ pad2 (tod `mod` 60).

(** [time.Parse] for the layout 2006-01-02T15:04:05; a fraction of a second may
    follow. *)
Definition parse_fraction (l : list ascii) : option Z :=
  match l with
  | [] => Some 0%Z
  | c :: ds =>
      if ((code c =? 46) || (code c =? 44))%N && bool_decide (ds ≠ []) && forallb is_digit ds
      then Some (digits_value (take 9 (ds ++ replicate 9 "0"%char)))
      else None
  end.

Definition parse_time (l : list ascii) : option Z :=
  match l with
  | y1 :: y2 :: y3 :: y4 :: "-"%char :: m1 :: m2 :: "-"%char :: d1 :: d2 :: "T"%char
      :: h1 :: h2 :: ":"%char :: i1 :: i2 :: ":"%char :: s1 :: s2 :: frac =>
      if forallb is_digit [y1; y2; y3; y4; m1; m2; d1; d2; h1; h2; i1; i2; s1; s2] then
        let y := digits_value [y1; y2; y3; y4] in
        let m := digits_value [m1; m2] in
        let d := digits_value [d1; d2] in
        let h := digits_value [h1; h2] in
        let i := digits_value [i1; i2] in
        let s := digits_value [s1; s2] in
        if bool_decide (1 ≤ m ≤ 12 ∧ 1 ≤ d ≤ days_in_month y m ∧ h < 24 ∧ i < 60 ∧ s < 60)%Z then
          ns ← parse_fraction frac;
          Some ((((days_from_civil y m d * 24 + h) * 60 + i) * 60 + s) * second + ns)%Z
        else None
      else None
  | _ => None
  end.

(** [ReLabelTime] puts the separators back. *)
Definition reformat (l : list ascii) : list ascii :=
  match l with
  | y1 :: y2 :: y3 :: y4 :: m1 :: m2 :: d1 :: d2 :: "T"%char :: h1 :: h2 :: i1 :: i2 :: s1 :: s2 :: rest =>
      if forallb is_digit [y1; y2; y3; y4; m1; m2; d1; d2; h1; h2; i1; i2; s1; s2] then
        [y1; y2; y3; y4; "-"%char; m1; m2; "-"%char; d1; d2; "T"%char; h1; h2; ":"%char; i1; i2;
         ":"%char; s1; s2] ++ rest
      else l
  | _ => l
  end.

(** The parsed time, or the zero time and an error. *)
Definition LabelTime2Time (label : string) : Z * bool :=
  match parse_time (reformat (chars label)) with
  | Some t => (t, false)
  | None => (zero_time, true)
  end.

(** ** Lemmas on slices *)
Lemma Contains_spec s e : Contains s e = true ↔ e ∈ s.
Proof.
  unfold Contains. rewrite existsb_exists. setoid_rewrite bool_decide_eq_true.
  split; [intros (x & Hx & ->); by apply list_elem_of_In|].
  intros He. exists e. split; [by apply list_elem_of_In|done].
Qed.

Lemma Contains_false s e : Contains s e = false ↔ e ∉ s.
Proof. rewrite <- Contains_spec. by destruct (Contains s e). Qed.

Lemma ContainSlice_spec ref n : ContainSlice ref n = true ↔ n ⊆ ref.
Proof.
  unfold ContainSlice. rewrite forallb_forall.
  setoid_rewrite Contains_spec. by setoid_rewrite <- list_elem_of_In.
Qed.

Lemma elem_of_List_filter {A} (f : A → bool) l x : x ∈ List.filter f l ↔ x ∈ l ∧ f x = true.
Proof. rewrite !list_elem_of_In. apply filter_In. Qed.

Lemma elem_of_MergeSlice old new x : x ∈ MergeSlice old new ↔ x ∈ new.
Proof.
  unfold MergeSlice. rewrite elem_of_app, !elem_of_List_filter, negb_true_iff, Contains_spec, Contains_false.
  destruct (decide (x ∈ old)); naive_solver.
Qed.

Lemma List_filter_true {A} (f : A → bool) l : (∀ x, x ∈ l → f x = true) → List.filter f l = l.
Proof.
  induction l as [|x l IH]; intros H; simpl; [done|].
  rewrite H by left. f_equal. apply IH. intros. apply H. by right.
Qed.

Lemma List_filter_none {A} (f : A → bool) l : (∀ x, x ∈ l → f x = false) → List.filter f l = [].
Proof.
  induction l as [|x l IH]; intros H; simpl; [done|].
  rewrite H by left. apply IH. intros. apply H. by right.
Qed.

Lemma NoDup_List_filter {A} (f : A → bool) l : NoDup l → NoDup (List.filter f l).
Proof.
  induction 1 as [|x l Hx Hl IH]; simpl; [constructor|].
  destruct (f x); [|done]. constructor; [|done]. rewrite elem_of_List_filter. naive_solver.
Qed.

Lemma elem_of_drop {A} (l : list A) n x : x ∈ drop n l → x ∈ l.
Proof. intros H. rewrite <- (take_drop n l). apply elem_of_app. by right. Qed.

Lemma RemoveString_elem s r x : NoDup s → x ∈ RemoveString s r ↔ x ∈ s ∧ x ≠ r.
Proof.
  induction 1 as [|v s Hv Hs IH]; simpl; [set_solver|].
  case_bool_decide; subst; [set_solver|]. set_solver.
Qed.

Lemma RemoveString_notin s r : r ∉ s → RemoveString s r = s.
Proof.
  induction s as [|v s IH]; intros Hr; simpl; [done|].
  rewrite not_elem_of_cons in Hr. destruct Hr.
  rewrite bool_decide_false by done. by rewrite IH.
Qed.

Lemma RemoveString_app l1 l2 r : r ∉ l1 → RemoveString (l1 ++ r :: l2) r = l1 ++ l2.
Proof.
  induction l1 as [|v l1 IH]; intros Hr; simpl; [by rewrite bool_decide_true|].
  rewrite not_elem_of_cons in Hr. destruct Hr.
  rewrite bool_decide_false by done. by rewrite IH.
Qed.

(** ** Lemmas on StringSliceRemove *)
Lemma index_lookup {A} (l : list A) i x : l !! i = Some x → index l (Z.of_nat i) = Ret x.
Proof. intros. apply index_spec. rewrite Nat2Z.id. split; [lia|done]. Qed.

(** Past the end of the current slice the array holds old elements; as long as
    none of them is [s] the loop only walks over them. *)
Lemma StringSliceRemove_loop_skip fuel s arr len i :
  length arr = i + fuel → s ∉ drop i arr →
  StringSliceRemove_loop fuel s arr len i = Ret (take len arr).
Proof.
  revert i. induction fuel as [|fuel IH]; intros i Hlen Hs; cbn [StringSliceRemove_loop]; [done|].
  destruct (lookup_lt_is_Some_2 arr i) as [v Hv]; [lia|].
  rewrite (index_lookup _ _ _ Hv). unfold mbind, outcome_bind.
  rewrite (drop_S arr v i Hv), not_elem_of_cons in Hs. destruct Hs as [Hne Hs].
  rewrite bool_decide_false by done. apply IH; [lia|done].
Qed.

Lemma StringSliceRemove_loop_prefix fuel s arr len i j :
  length arr = i + (j + fuel) → s ∉ take j (drop i arr) →
  StringSliceRemove_loop (j + fuel) s arr len i = StringSliceRemove_loop fuel s arr len (i + j).
Proof.
  revert i. induction j as [|j IH]; intros i Hlen Hs; simpl Nat.add; [by rewrite Nat.add_0_r|].
  cbn [StringSliceRemove_loop].
  destruct (lookup_lt_is_Some_2 arr i) as [v Hv]; [lia|].
  rewrite (index_lookup _ _ _ Hv). unfold mbind, outcome_bind.
  rewrite (drop_S arr v i Hv) in Hs. simpl in Hs. rewrite not_elem_of_cons in Hs. destruct Hs as [Hne Hs].
  rewrite bool_decide_false by done. rewrite IH; [f_equal; lia|lia|done].
Qed.

(** ** Theorems *)

(** [MergeSlice] keeps the members of the old list that are still wanted, in
    their order and in front, adds the new ones behind in their order, and has
    exactly the members of the new list: the seed list never loses or reorders a
    seed that stays. *)
Theorem MergeSlice_spec (old new : list string) :
  (∀ x, x ∈ MergeSlice old new ↔ x ∈ new) ∧
  (∃ kept added, MergeSlice old new = kept ++ added ∧ sublist kept old ∧ sublist added new ∧
     (∀ x, x ∈ kept ↔ x ∈ old ∧ x ∈ new) ∧ (∀ x, x ∈ added ↔ x ∈ new ∧ x ∉ old)) ∧
  (NoDup old → NoDup new → NoDup (MergeSlice old new)) ∧
  MergeSlice (MergeSlice old new) new = MergeSlice old new.
Proof.
  assert (∀ f (l : list string), sublist (List.filter f l) l) as Hsub.
  { intros f l. induction l as [|x l IH]; simpl; [done|]. destruct (f x); by constructor. }
  split; [intros x; apply elem_of_MergeSlice|]. split.
  - eexists _, _. split; [reflexivity|]. split; [done|]. split; [done|].
    split; intros x; rewrite elem_of_List_filter, ?Contains_spec, ?negb_true_iff, ?Contains_false; done.
  - split.
    + intros Ho Hn. unfold MergeSlice. apply NoDup_app. split; [by apply NoDup_List_filter|].
      split; [|by apply NoDup_List_filter]. intros x.
      rewrite !elem_of_List_filter, negb_true_iff, Contains_false. naive_solver.
    + unfold MergeSlice at 1. rewrite List_filter_true, List_filter_none; [by rewrite app_nil_r|..].
      * intros x Hx. rewrite negb_false_iff, Contains_spec. by apply elem_of_MergeSlice.
      * intros x Hx. rewrite Contains_spec. by apply elem_of_MergeSlice in Hx.
Qed.

(** On a list without duplicates [StringSliceRemove] returns the list without
    the element and does not panic, although it shifts the array it ranges over. *)
Theorem StringSliceRemove_spec (l : list string) (s : string) (Hnodup : NoDup l) :
  StringSliceRemove l s = Ret (RemoveString l s).
Proof.
  unfold StringSliceRemove. destruct (decide (s ∈ l)) as [Hs|Hs].
  2: { rewrite RemoveString_notin by done.
       rewrite StringSliceRemove_loop_skip by done. by rewrite firstn_all. }
  apply list_elem_of_split in Hs as (l1 & l2 & ->).
  apply NoDup_app in Hnodup as (_ & Hd & Hn2). apply NoDup_cons in Hn2 as [Hn2 _].
  assert (s ∉ l1) as Hn1 by (intros H; apply (Hd s H); by left).
  rewrite RemoveString_app by done.
  rewrite length_app. cbn [length].
  rewrite StringSliceRemove_loop_prefix.
  2: { rewrite length_app. simpl. lia. }
  2: { rewrite drop_0, take_app_length. done. }
  cbn [StringSliceRemove_loop]. rewrite Nat.add_0_l.
  rewrite (index_lookup _ _ s) by apply list_lookup_middle, eq_refl.
  unfold mbind, outcome_bind. rewrite bool_decide_true by done.
  rewrite bool_decide_true by (simpl; lia).
  replace (drop (S (length l1)) (l1 ++ s :: l2)) with l2
    by (rewrite drop_app_ge by lia; replace (S (length l1) - length l1) with 1 by lia; done).
  rewrite take_app_length. replace (length l1 + S (length l2) - S (length l1)) with (length l2) by lia.
  replace (length l1 + S (length l2) - 1) with (length l1 + length l2) by lia.
  rewrite firstn_all. rewrite StringSliceRemove_loop_skip.
  - rewrite (assoc_L (++)), take_app_le by (rewrite length_app; lia).
    rewrite take_ge; [done|rewrite length_app; lia].
  - rewrite !length_app, length_drop, length_app. simpl. lia.
  - rewrite drop_app_ge by lia. replace (S (length l1) - length l1) with 1 by lia.
    rewrite (drop_app_ge l1 (s :: l2)) by lia. replace (length l1 + length l2 - length l1) with (length l2) by lia.
    destruct l2 as [|x l2]; [by apply not_elem_of_nil|]. simpl.
    rewrite not_elem_of_cons in Hn2. destruct Hn2 as [Hx Hn2].
    rewrite drop_0, not_elem_of_app. split; [done|].
    intros Hin%elem_of_drop. by rewrite elem_of_cons in Hin; destruct Hin.
Qed.

Lemma StringSliceRemove_spec_witness :
  StringSliceRemove ["a"; "b"; "c"] "b" = Ret ["a"; "c"].
Proof.
  rewrite (StringSliceRemove_spec ["a"; "b"; "c"] "b"); [reflexivity|].
  apply (bool_decide_unpack _). vm_compute. exact I.
Defined.

(** With a duplicate at the end the loop reaches the stale tail of the array and
    slices past the end. *)
Lemma StringSliceRemove_duplicate_panics : StringSliceRemove ["s"; "s"] "s" = Panic.
Proof. reflexivity. Qed.

Example LabelTime_example : LabelTime (1583020800 * second) = "20200301T000000".
Proof. vm_compute. reflexivity. Qed.
Example LabelTime2Time_example :
  LabelTime2Time "20200229T235959" = ((1583020799 * second)%Z, false).
Proof. vm_compute. reflexivity. Qed.
Example LabelTime2Time_empty : LabelTime2Time "" = (zero_time, true).
Proof. vm_compute. reflexivity. Qed.
