(* ===== verification/Pods.v ===== *)
(** * Pods (src/controllers/cassandracluster/pod.go, cassandrapod/, service.go, pvc.go)

    Readiness, the ordering of the pods of a rack by their ordinal, and the
    wrappers around the API client.  A [Get] that fails leaves the object the
    caller prepared (its name and namespace only), which some callers go on
    using; a failed [List] leaves an empty list. *)
From S2P Require Import Prelude KubeObjects Types ClusterApi K8sUtil Server.

(** The longest prefix whose elements satisfy [f]. *)
Fixpoint take_while {A} (f : A → bool) (l : list A) : list A :=
  match l with
  | [] => []
  | x :: l => if f x then x :: take_while f l else []
  end.

Section pods.
Context {QL : QuantityLib}.

(** ** cassandrapod *)
Definition getContainerStatus (pod : Pod) : option ContainerStatus :=
  find_map (λ cs, if cs_Name cs == CassandraContainerName then Some cs else None)
    (pod_ContainerStatuses pod).

Definition IsReady (pod : Pod) : bool :=
  match getContainerStatus pod with
  | Some cs => (pod_Phase pod == PodRunning) && cs_Ready cs
  | None => false
  end.

Definition RestartCount (pod : Pod) : Z :=
  default 0%Z
    (find_map (λ cs, if cs_Name cs == CassandraContainerName then Some (cs_RestartCount cs) else None)
       (pod_ContainerStatuses pod)).

Definition allPodsReady (podList : list Pod) : bool := forallb IsReady podList.

Definition PodContainersReady (pod : Pod) : bool :=
  match pod_ContainerStatuses pod with
  | [] => false
  | l => forallb cs_Ready l
  end.

(** ** Ordinals *)

(** [reEndingNumber.FindString]: the longest run of digits at the end. *)
Definition ending_digits (name : string) : list ascii :=
  reverse (take_while is_digit (reverse (chars name))).
Definition pod_ordinal (name : string) : Z := Atoi_digits (ending_digits name).
Definition ordinal (pod : Pod) : Z := pod_ordinal (pod_Name pod).

(** [sort.Slice] with the comparison of ordinals.  [sort.Slice] is not stable;
    on pods with distinct ordinals every sorting algorithm gives this list. *)
Definition ordinal_le (p q : Pod) : Prop := (ordinal p ≤ ordinal q)%Z.
#[global] Instance ordinal_le_dec : RelDecision ordinal_le.
Proof. unfold RelDecision, ordinal_le. apply _. Defined.
Definition sortPodsList (items : list Pod) : list Pod := merge_sort ordinal_le items.

Definition there_is_no_pod : error := OtherError "there is no pod".

Definition GetLastOrFirstPodItem (podsList : list Pod) (last : bool) : result Pod :=
  let nb := length podsList in
  if bool_decide (nb < 1) then Err there_is_no_pod
  else
    let items := sortPodsList podsList in
    match items !! (if last then nb - 1 else 0) with
    | Some pod => Ok pod
    | None => Err there_is_no_pod
    end.

Definition GetLastOrFirstPod (podsList : list Pod) (last : bool) : result Pod :=
  GetLastOrFirstPodItem podsList last.

Definition GetLastOrFirstPodReady (podsList : list Pod) (last : bool) : result Pod :=
  GetLastOrFirstPodItem (List.filter IsReady podsList) last.

Definition emptyPod (ns name : string) : Pod := mkPod (named ns name) "" "" "" "" None [].
End pods.

(** ** API wrappers *)
Section api_pods.
Context {QL : QuantityLib} {W : Type} {Srv : ApiServer W}.

(** The object a [Get] leaves behind and its error. *)
Definition got {A} (dflt : A) (r : result A) : A * option error :=
  match r with Ok a => (a, None) | Err e => (dflt, Some e) end.

Definition GetPod (ns name : string) : M W (Pod * option error) :=
  r ← call (ApiGetPod ns name); mret (got (emptyPod ns name) r).

Definition ListPods (ns : string) (selector : gmap string string) : M W (list Pod * option error) :=
  r ← call (ApiListPods ns selector); mret (got [] r).

Definition ListPodsOrderByNameAscending (ns : string) (selector : gmap string string)
  : M W (list Pod * option error) :=
  '(pods, err) ← ListPods ns selector; mret (sortPodsList pods, err).

Definition failed_to_get_pods : error := OtherError "failed to get cassandra's pods".

Definition GetFirstPod (ns : string) (selector : gmap string string) : M W (result Pod) :=
  '(podsList, err) ← ListPods ns selector;
  mret match err with Some _ => Err failed_to_get_pods | None => GetLastOrFirstPod podsList false end.

Definition GetLastPod (ns : string) (selector : gmap string string) : M W (result Pod) :=
  '(podsList, err) ← ListPods ns selector;
  mret match err with Some _ => Err failed_to_get_pods | None => GetLastOrFirstPod podsList true end.

Definition GetFirstPodReady (ns : string) (selector : gmap string string) : M W (result Pod) :=
  '(podsList, err) ← ListPods ns selector;
  mret match err with Some _ => Err failed_to_get_pods | None => GetLastOrFirstPodReady podsList false end.

Definition GetLastPodReady (ns : string) (selector : gmap string string) : M W (result Pod) :=
  '(podsList, err) ← ListPods ns selector;
  mret match err with Some _ => Err failed_to_get_pods | None => GetLastOrFirstPodReady podsList true end.

(** The messages of [CreatePod] and [UpdatePod] are swapped in the source (a
    failure that is not AlreadyExists says "pod already exists"). *)
Definition wrap_create_update (err : option error) : option error :=
  match err with
  | None => None
  | Some e => if negb (IsAlreadyExists e) then Some (OtherError "already exists")
              else Some (OtherError "failed to create or update")
  end.

Definition CreatePod (pod : Pod) : M W (option error) :=
  err ← call (ApiCreatePod pod); mret (wrap_create_update err).

Definition UpdatePod (pod : Pod) : M W (option error) :=
  err ← call (ApiUpdatePod pod); mret (wrap_create_update err).

Definition with_labels (labels : gmap string string) (pod : Pod) : Pod :=
  pod <| pod_Meta ::= λ m, m <| m_Labels := labels |> |>.

Definition UpdatePodLabel (pod : Pod) (label : gmap string string) : M W (option error) :=
  '(podToUpdate, err) ← GetPod (m_Namespace (pod_Meta pod)) (pod_Name pod);
  match err with
  | Some e => mret (Some e)
  | None => UpdatePod (with_labels (MergeLabels [pod_Labels podToUpdate; label]) podToUpdate)
  end.

Definition CreateOrUpdatePod (ns : string) (pod : Pod) : M W (option error) :=
  '(storedPod, err) ← GetPod ns (pod_Name pod);
  match err with
  | Some e => if IsNotFound e then CreatePod pod else mret (Some e)
  | None =>
      UpdatePod (pod <| pod_Meta ::= λ m, m <| m_ResourceVersion := m_ResourceVersion (pod_Meta storedPod) |> |>)
  end.

Definition wrap_delete (err : option error) : option error :=
  match err with None => None | Some _ => Some (OtherError "failed to delete Pod") end.

Definition DeletePod (pod : Pod) : M W (option error) :=
  err ← call (ApiDeletePod pod None); mret (wrap_delete err).

Definition ForceDeletePod (pod : Pod) : M W (option error) :=
  err ← call (ApiDeletePod pod (Some 0%Z)); mret (wrap_delete err).

(** A container or a condition that keeps the pod from being scheduled. *)
Definition unschedulable (pod : Pod) : bool :=
  if pod_Phase pod == PodRunning then false
  else match pod_Conditions pod with
       | None => false
       | Some conditions =>
           existsb (λ cs, negb (cs_Ready cs) && (cs_WaitingReason cs == Some "ImagePullBackOff"))
             (pod_ContainerStatuses pod) ||
           existsb (λ cond, (cond_Reason cond == "Unschedulable") ||
                            ((cond_Type cond == "Ready") && (cond_Status cond == "False") &&
                             (cond_Reason cond == "ContainersNotReady"))) conditions
       end.

Definition hasUnschedulablePod (n : CompleteRackName) : M W bool :=
  cc ← get_cc;
  '(podsList, err) ← ListPods (cc_Namespace cc) (LabelsForCassandraDCRack cc (crn_DcName n) (crn_RackName n));
  match err with
  | Some _ => mret false
  | None => mret (existsb unschedulable podsList)
  end.

(** ** Claims and services *)
Definition emptyPVC (ns name : string) : PersistentVolumeClaim :=
  mkPVC (named ns name) (mkPVCSpec [] None None None) ∅.

Definition GetPVC (ns name : string) : M W (PersistentVolumeClaim * option error) :=
  r ← call (ApiGetPVC ns name); mret (got (emptyPVC ns name) r).
Definition ListPVC (ns : string) (selector : gmap string string)
  : M W (list PersistentVolumeClaim * option error) :=
  r ← call (ApiListPVC ns selector); mret (got [] r).
Definition UpdatePVC (pvc : PersistentVolumeClaim) : M W (option error) := call (ApiUpdatePVC pvc).
Definition deletePVC (pvc : PersistentVolumeClaim) : M W (option error) := call (ApiDeletePVC pvc).

(** [DeletePVCs] only logs the errors; a failed listing leaves nothing to delete. *)
Definition DeletePVCs (cc : CassandraCluster) (dcName rackName : string) : M W unit :=
  '(lpvc, _) ← ListPVC (cc_Namespace cc) (LabelsForCassandraDCRack cc dcName rackName);
  range_do lpvc (λ pvc, _ ← deletePVC pvc; mret tt).

Definition DeleteService (ns name : string) : M W (option error) := call (ApiDeleteService ns name).
End api_pods.

(** ** Lemmas on decimal numbers *)
Lemma pretty_digit x : (x < 10)%N →
  is_digit (pretty_N_char x) = true ∧ Z.of_N (code (pretty_N_char x) - 48) = Z.of_N x.
Proof.
  intros. assert (x ∈ [0;1;2;3;4;5;6;7;8;9]%N) as Hin by (rewrite !elem_of_cons; lia).
  repeat (apply elem_of_cons in Hin as [->|Hin]; [done|]). by apply elem_of_nil in Hin.
Qed.

Lemma digits_value_snoc l c : digits_value (l ++ [c]) = (10 * digits_value l + Z.of_N (code c - 48))%Z.
Proof. unfold digits_value. by rewrite foldl_app. Qed.

Lemma chars_pretty_N_go x s : ∃ ds,
  chars (pretty_N_go x s) = ds ++ chars s ∧ Forall (λ c, is_digit c = true) ds ∧ digits_value ds = Z.of_N x.
Proof.
  revert s. induction (N.lt_wf_0 x) as [x _ IH]; intros s.
  destruct (decide (x = 0)%N) as [->|Hx]; [by exists []|].
  rewrite pretty_N_go_step by lia.
  destruct (pretty_digit (x `mod` 10)) as [Hd Hv]; [by apply N.mod_lt|].
  destruct (IH (x `div` 10)%N ltac:(apply N.div_lt; lia) (String (pretty_N_char (x `mod` 10)) s))
    as (ds & -> & Hds & Hval).
  exists (ds ++ [pretty_N_char (x `mod` 10)]). simpl. rewrite <- (assoc_L (++)). split; [done|].
  split; [by apply Forall_app; split; [|repeat constructor]|].
  rewrite digits_value_snoc, Hval, Hv. pose proof (N.div_mod x 10). lia.
Qed.

Lemma chars_Itoa (n : Z) : (0 ≤ n)%Z →
  Forall (λ c, is_digit c = true) (chars (Itoa n)) ∧ digits_value (chars (Itoa n)) = n.
Proof.
  intros Hn. destruct n as [|p|p]; [| |lia].
  - split; [by repeat constructor|done].
  - change (Itoa (Z.pos p)) with (pretty_N_go (N.pos p) "").
    destruct (chars_pretty_N_go (N.pos p) "") as (ds & -> & Hds & Hv). simpl. rewrite app_nil_r. done.
Qed.

Lemma take_while_app {A} (f : A → bool) l1 x l2 :
  Forall (λ c, f c = true) l1 → f x = false → take_while f (l1 ++ x :: l2) = l1.
Proof. intros Hl Hx. induction Hl as [|c l Hc _ IH]; simpl; [by rewrite Hx|]. by rewrite Hc, IH. Qed.

(** The ordinal of a pod of the statefulset [base] is the number in its name. *)
Lemma pod_ordinal_name base (n : Z) :
  (0 ≤ n ≤ max_int64)%Z → pod_ordinal (base +:+ "-" +:+ Itoa n) = n.
Proof.
  intros Hn. unfold pod_ordinal, ending_digits. rewrite !chars_app.
  rewrite !reverse_app. destruct (chars_Itoa n) as [Hd Hv]; [lia|].
  change (chars "-") with ["-"%char]. simpl. rewrite reverse_singleton. rewrite <- (assoc_L (++)). simpl.
  rewrite take_while_app by (try apply Forall_reverse; done).
  rewrite reverse_involutive. unfold Atoi_digits. rewrite Hv. lia.
Qed.

Section sorting.
Context {QL : QuantityLib}.
Implicit Types l : list Pod.

#[global] Instance ordinal_le_trans : Transitive ordinal_le.
Proof. unfold ordinal_le. intros ???; lia. Qed.
#[global] Instance ordinal_le_total : Total ordinal_le.
Proof. unfold ordinal_le. intros ??; lia. Qed.

Lemma sortPodsList_sorted l : StronglySorted ordinal_le (sortPodsList l).
Proof. apply (StronglySorted_merge_sort _). Qed.
Lemma sortPodsList_perm l : sortPodsList l ≡ₚ l.
Proof. apply merge_sort_Permutation. Qed.
Lemma sortPodsList_length l : length (sortPodsList l) = length l.
Proof. by rewrite sortPodsList_perm. Qed.

Lemma StronglySorted_lookup {A} (R : relation A) (l : list A) i j x y :
  StronglySorted R l → i < j → l !! i = Some x → l !! j = Some y → R x y.
Proof.
  intros Hs. revert i j. induction Hs as [|z l Hl IH Hz]; intros i j Hij Hi Hj; [done|].
  destruct j as [|j]; [lia|]. simpl in Hj. destruct i as [|i]; simpl in Hi.
  - simplify_eq. rewrite Forall_lookup in Hz. eauto.
  - apply (IH i j); [lia|done|done].
Qed.

(** The ordinal of the pod returned is extremal. *)
Lemma GetLastOrFirstPodItem_spec l last :
  match GetLastOrFirstPodItem l last with
  | Ok p => p ∈ l ∧ ∀ q, q ∈ l → if last then ordinal_le q p else ordinal_le p q
  | Err _ => l = []
  end.
Proof.
  unfold GetLastOrFirstPodItem. case_bool_decide; [by destruct l; simpl in *; [|lia]|].
  destruct (lookup_lt_is_Some_2 (sortPodsList l) (if last then length l - 1 else 0)) as [p Hp].
  { rewrite sortPodsList_length. destruct last; lia. }
  rewrite Hp. split; [rewrite <- sortPodsList_perm; by eapply list_elem_of_lookup_2|].
  intros q Hq. rewrite <- sortPodsList_perm, list_elem_of_lookup in Hq. destruct Hq as [i Hi].
  pose proof (sortPodsList_sorted l) as Hs. pose proof (lookup_lt_Some _ _ _ Hi) as Hlt.
  rewrite sortPodsList_length in Hlt.
  destruct last.
  - destruct (decide (i = length l - 1)) as [->|]; [simplify_eq; unfold ordinal_le; lia|].
    eapply StronglySorted_lookup; [done| |done|done]. lia.
  - destruct i as [|i]; [simplify_eq; unfold ordinal_le; lia|].
    eapply StronglySorted_lookup; [done| |done|done]. lia.
Qed.

(** ** Theorems *)

(** For pods with distinct ordinals the order [sortPodsList] produces is the
    only sorted arrangement, so the unstable [sort.Slice] cannot give another
    one. *)
Theorem sortPodsList_unique (l l' : list Pod)
    (Hdistinct : NoDup (ordinal <$> l)) (Hperm : l' ≡ₚ l) (Hsorted : StronglySorted ordinal_le l') :
  l' = sortPodsList l.
Proof.
  eapply StronglySorted_unique_strong with (R := ordinal_le);
    [|done|apply sortPodsList_sorted|by rewrite sortPodsList_perm].
  intros p q Hp Hq Hpq Hqp. rewrite Hperm in Hp. rewrite sortPodsList_perm in Hq.
  apply list_elem_of_lookup in Hp as [i Hi]. apply list_elem_of_lookup in Hq as [j Hj].
  assert (i = j) as ->.
  { eapply NoDup_lookup; [exact Hdistinct|..]; rewrite list_lookup_fmap, ?Hi, ?Hj; simpl; [done|].
    f_equal. unfold ordinal_le in *. lia. }
  by simplify_eq.
Qed.

(** Among the pods of a statefulset with [n] replicas, in whatever order the
    API server lists them, [GetLastOrFirstPod] with [last] returns the pod with
    ordinal [n - 1], which is the one the statefulset controller deletes when the
    statefulset is scaled down by one. *)
Theorem GetLastPod_highest (base : string) (n : nat) (l : list Pod) (p : Pod)
    (Hn : (Z.of_nat n ≤ max_int64)%Z)
    (Hnames : pod_Name <$> l ≡ₚ (λ i, base +:+ "-" +:+ Itoa (Z.of_nat i)) <$> seq 0 n)
    (Hget : GetLastOrFirstPod l true = Ok p) :
  pod_Name p = base +:+ "-" +:+ Itoa (Z.of_nat n - 1).
Proof.
  pose proof (GetLastOrFirstPodItem_spec l true) as Hspec.
  unfold GetLastOrFirstPod in Hget. rewrite Hget in Hspec. destruct Hspec as [Hp Hmax].
  assert (pod_Name p ∈ pod_Name <$> l) as Hin by by apply list_elem_of_fmap_2.
  rewrite Hnames, list_elem_of_fmap in Hin. destruct Hin as (i & Hi & [_ Hlt]%elem_of_seq).
  assert (base +:+ "-" +:+ Itoa (Z.of_nat (n - 1)) ∈ pod_Name <$> l) as Hlast.
  { rewrite Hnames. apply (list_elem_of_fmap_2' _ _ (n - 1)); [apply elem_of_seq; lia|done]. }
  apply list_elem_of_fmap in Hlast as (q & Hq & Hql). specialize (Hmax q Hql).
  unfold ordinal_le, ordinal in Hmax. rewrite <- Hq, Hi, !pod_ordinal_name in Hmax by lia.
  rewrite Hi. do 3 f_equal. lia.
Qed.

(** A pod is found exactly when one is there: the only error of
    [GetLastOrFirstPodReady] is the absence of a ready pod, and the pod it returns
    is ready. *)
Theorem GetLastOrFirstPodReady_spec (l : list Pod) (last : bool) :
  match GetLastOrFirstPodReady l last with
  | Ok p => p ∈ l ∧ IsReady p = true
  | Err e => e = there_is_no_pod ∧ ∀ p, p ∈ l → IsReady p = false
  end.
Proof.
  unfold GetLastOrFirstPodReady.
  pose proof (GetLastOrFirstPodItem_spec (List.filter IsReady l) last) as Hspec.
  destruct (GetLastOrFirstPodItem _ _) as [p|e] eqn:E.
  - destruct Hspec as [Hp _]. by apply elem_of_List_filter in Hp.
  - split.
    + unfold GetLastOrFirstPodItem in E. by go_cases.
    + intros p Hp. destruct (IsReady p) eqn:Er; [|done].
      assert (p ∈ List.filter IsReady l) as Hin by by apply elem_of_List_filter.
      rewrite Hspec in Hin. by apply elem_of_nil in Hin.
Qed.
End sorting.

(** ** Instances *)
Definition demo_pods : list Pod := emptyPod "ns" <$> ["c-dc1-rack1-1"; "c-dc1-rack1-10"; "c-dc1-rack1-9"].

Lemma sortPodsList_unique_witness :
  [emptyPod "ns" "c-dc1-rack1-1"; emptyPod "ns" "c-dc1-rack1-9"; emptyPod "ns" "c-dc1-rack1-10"]
  = sortPodsList demo_pods.
Proof.
  apply sortPodsList_unique.
  - apply (bool_decide_unpack _). vm_compute. exact I.
  - apply Permutation_cons; [done|]. apply Permutation_swap.
  - repeat constructor; vm_compute; discriminate.
Defined.

Lemma GetLastPod_highest_witness :
  pod_Name (emptyPod "ns" "c-2") = "c" +:+ "-" +:+ Itoa (Z.of_nat 3 - 1).
Proof.
  apply (GetLastPod_highest "c" 3 (emptyPod "ns" <$> ["c-1"; "c-2"; "c-0"])); [vm_compute; discriminate| |].
  - vm_compute. apply Permutation_sym, (Permutation_cons_app ["c-1"; "c-2"] []). done.
  - vm_compute. reflexivity.
Defined.
