(* ===== verification/FakeCluster.v ===== *)
(** * An in-memory API server

    A concrete world for the requests of [Server]: objects are kept in maps by
    name, a list filters by labels, an update replaces the stored object, a clock
    ticks one second per reading, and the answers of the Jolokia agents are given
    by the attribute or operation asked for.  It is the instance on which the
    theorems about arbitrary servers are exercised. *)
From S2P Require Import Prelude KubeObjects Types Server K8sUtil.

Section fake.
#[local] Existing Instance SampleQuantities.

Record FakeCluster := mkFake {
  f_now : Z;
  f_pods : gmap string Pod;
  f_sts : gmap string StatefulSet;
  f_pvcs : gmap string PersistentVolumeClaim;
  f_pdb : option PodDisruptionBudget;
  f_cc : option CassandraCluster;
  f_jolokia : gmap string JValue;
  f_revision : Z }.
#[global] Instance eta_Fake : Eta FakeCluster := λ x,
  mkFake (f_now x) (f_pods x) (f_sts x) (f_pvcs x) (f_pdb x) (f_cc x) (f_jolokia x) (f_revision x).

Definition found {A} (o : option A) : result A := match o with Some a => Ok a | None => Err NotFound end.

(** [labels.SelectorFromSet]: every label of the selector is there. *)
Definition selected (selector : gmap string string) (m : ObjectMeta) : bool :=
  bool_decide (map_Forall (λ k v, m_Labels m !! k = Some v) selector).

Definition present {A} (o : option A) (w w' : FakeCluster) : option error * FakeCluster :=
  match o with Some _ => (None, w') | None => (Some NotFound, w) end.
Definition absent {A} (o : option A) (w w' : FakeCluster) : option error * FakeCluster :=
  match o with Some _ => (Some AlreadyExists, w) | None => (None, w') end.

Definition name_of (m : ObjectMeta) : string := m_Name m.
Definition bump (w : FakeCluster) (m : ObjectMeta) : ObjectMeta := m <| m_ResourceVersion := Itoa (f_revision w) |>.

Definition fake_serve (A : Type) (r : Req A) (w : FakeCluster) : A * FakeCluster :=
  let w := w <| f_revision ::= Z.succ |> in
  match r in Req A return A * FakeCluster with
  | Now => (f_now w, w <| f_now ::= (λ t, t + second)%Z |>)
  | RandIntn n => (f_now w `mod` n, w)%Z
  | Getenv _ => ("casskop-0", w)
  | PhaseMetric _ _ => (tt, w)
  | ActionMetric _ _ => (tt, w)
  | ApiGetPod _ n => (found (f_pods w !! n), w)
  | ApiListPods _ sel => (Ok (List.filter (λ p, selected sel (pod_Meta p)) (map_to_list (f_pods w)).*2), w)
  | ApiCreatePod p => absent (f_pods w !! pod_Name p) w (w <| f_pods ::= <[pod_Name p := p]> |>)
  | ApiUpdatePod p => present (f_pods w !! pod_Name p) w (w <| f_pods ::= <[pod_Name p := p]> |>)
  | ApiDeletePod p _ => present (f_pods w !! pod_Name p) w (w <| f_pods ::= delete (pod_Name p) |>)
  | ApiGetStatefulSet _ n => (found (f_sts w !! n), w)
  | ApiCreateStatefulSet s =>
      absent (f_sts w !! m_Name (sts_Meta s)) w
        (w <| f_sts ::= <[m_Name (sts_Meta s) :=
                s <| sts_Meta ::= bump w |>
                  <| sts_Status ::= λ t, t <| st_Replicas := sts_Replicas s |>
                                           <| st_ReadyReplicas := sts_Replicas s |> |>]> |>)
  | ApiUpdateStatefulSet s =>
      present (f_sts w !! m_Name (sts_Meta s)) w
        (w <| f_sts ::= <[m_Name (sts_Meta s) := s <| sts_Meta ::= bump w |>]> |>)
  | ApiDeleteStatefulSet _ n _ => present (f_sts w !! n) w (w <| f_sts ::= delete n |>)
  | ApiGetPVC _ n => (found (f_pvcs w !! n), w)
  | ApiListPVC _ sel => (Ok (List.filter (λ p, selected sel (pvc_Meta p)) (map_to_list (f_pvcs w)).*2), w)
  | ApiUpdatePVC p =>
      present (f_pvcs w !! m_Name (pvc_Meta p)) w
        (w <| f_pvcs ::= <[m_Name (pvc_Meta p) := p <| pvc_Capacity := default ∅ (pvc_Requests (pvc_Spec p)) |>]> |>)
  | ApiDeletePVC p => present (f_pvcs w !! m_Name (pvc_Meta p)) w (w <| f_pvcs ::= delete (m_Name (pvc_Meta p)) |>)
  | ApiGetPDB _ _ => (found (f_pdb w), w)
  | ApiCreatePDB p => absent (f_pdb w) w (w <| f_pdb := Some p |>)
  | ApiUpdatePDB p => present (f_pdb w) w (w <| f_pdb := Some p |>)
  | ApiDeletePDB _ => present (f_pdb w) w (w <| f_pdb := None |>)
  | ApiCreateService _ => (None, w)
  | ApiDeleteService _ _ => (Some NotFound, w)
  | ApiGetSecret _ _ => (Err NotFound, w)
  | ApiGetCC _ _ => (found (f_cc w), w)
  | ApiUpdateCC cc =>
      (match f_cc w with
       | Some old => Ok (Itoa (f_revision w), cc_Status old)
       | None => Err NotFound
       end,
       w <| f_cc ::= fmap (λ old, cc <| cc_Status := cc_Status old |>) |>)
  | ApiUpdateCCStatus cc =>
      (match f_cc w with Some _ => Ok (Itoa (f_revision w)) | None => Err NotFound end,
       w <| f_cc ::= fmap (λ old, old <| cc_Status := cc_Status cc |>) |>)
  | JolokiaRead _ _ attribute => (Ok (mkJolokiaResponse "" (default JOther (f_jolokia w !! attribute))), w)
  | JolokiaExec _ _ operation _ => (Ok (mkJolokiaResponse "" (default JOther (f_jolokia w !! operation))), w)
  end.

#[global] Instance fake_server : ApiServer FakeCluster := fake_serve.

Definition empty_cluster : FakeCluster := mkFake (100 * second) ∅ ∅ ∅ None None ∅ 1.

(** The environment at the start of a reconcile loop of [cc]. *)
Definition start (w : FakeCluster) (cc : CassandraCluster) : Env FakeCluster :=
  mkEnv w [] cc (cc_Status cc) (Some (mkPDB (named "" "") 1 ∅ 1 1)) None false [] [].
End fake.
