(* ===== verification/Samples.v ===== *)
(** * A concrete JSON-like codec

    Statefulsets are countable, so they have a text form that reads back: the
    instance of the codec interface on which the theorems about snapshots are
    exercised. *)
From S2P Require Import Prelude KubeObjects Types Server Pods.

Section countable.
#[local] Existing Instance SampleQuantities.

#[global] Instance quantity_countable : Countable (@Quantity SampleQuantities).
Proof. unfold Quantity; simpl. apply _. Defined.

Ltac by_fields f g := refine (inj_countable' f g _); by intros [].

#[global] Instance owner_countable : Countable OwnerReference.
Proof.
  by_fields (λ x, (own_APIVersion x, own_Kind x, own_Name x, own_UID x, own_Controller x))
    (λ '(a, b, c, d, e), mkOwnerReference a b c d e).
Defined.
#[global] Instance meta_countable : Countable ObjectMeta.
Proof.
  by_fields (λ x, (m_Name x, m_Namespace x, m_Labels x, m_Annotations x, m_UID x,
    m_ResourceVersion x, m_Generation x, m_GenerateName x, m_SelfLink x,
    m_CreationTimestamp x, m_DeletionTimestamp x, m_DeletionGracePeriodSeconds x,
    m_OwnerReferences x, m_Finalizers x, m_ManagedFields x))
    (λ '(a, b, c, d, e, f, g, h, i, j, k, l, m, n, o), mkObjectMeta a b c d e f g h i j k l m n o).
Defined.
#[global] Instance resources_countable : Countable ResourceRequirements.
Proof. by_fields (λ x, (Limits x, Requests x)) (λ '(a, b), mkResourceRequirements a b). Defined.
#[global] Instance env_source_countable : Countable EnvVarSource.
Proof.
  by_fields (λ x, match x with FieldRef a b => inl (a, b) | SecretKeyRef a b => inr (a, b) end : string * string + string * string)
    (λ y, match y with inl (a, b) => FieldRef a b | inr (a, b) => SecretKeyRef a b end).
Defined.
#[global] Instance env_countable : Countable EnvVar.
Proof. by_fields (λ x, (env_Name x, env_Value x, env_ValueFrom x)) (λ '(a, b, c), mkEnvVar a b c). Defined.
#[global] Instance mount_countable : Countable VolumeMount.
Proof. by_fields (λ x, (vm_Name x, vm_MountPath x)) (λ '(a, b), mkVolumeMount a b). Defined.
#[global] Instance handler_countable : Countable ProbeHandler.
Proof.
  by_fields (λ x, match x with ExecAction a => inl a | HTTPGetAction a b => inr (a, b) end : list string + Z * string)
    (λ y, match y with inl a => ExecAction a | inr (a, b) => HTTPGetAction a b end).
Defined.
#[global] Instance probe_countable : Countable Probe.
Proof.
  by_fields (λ x, (pr_InitialDelaySeconds x, pr_TimeoutSeconds x, pr_PeriodSeconds x,
    pr_FailureThreshold x, pr_SuccessThreshold x, pr_Handler x)) (λ '(a, b, c, d, e, f), mkProbe a b c d e f).
Defined.
#[global] Instance security_countable : Countable SecurityContext.
Proof.
  by_fields (λ x, (sec_Add x, sec_ProcMount x, sec_ReadOnlyRootFilesystem x))
    (λ '(a, b, c), mkSecurityContext a b c).
Defined.
#[global] Instance port_countable : Countable NamedPort.
Proof. by_fields (λ x, (port_Name x, port_Number x, port_Protocol x)) (λ '(a, b, c), mkPort a b c). Defined.
#[global] Instance container_countable : Countable Container.
Proof.
  by_fields (λ x, (c_Name x, c_Image x, c_ImagePullPolicy x, c_Command x, c_Args x, c_Env x,
    c_VolumeMounts x, c_Ports x, c_Resources x, c_ReadinessProbe x, c_LivenessProbe x,
    c_SecurityContext x))
    (λ '(a, b, c, d, e, f, g, h, i, j, k, l), mkContainer a b c d e f g h i j k l).
Defined.
#[global] Instance source_countable : Countable VolumeSource.
Proof.
  by_fields (λ x, match x with EmptyDir => inl (inl tt) | ConfigMapSource a b => inl (inr (a, b))
                  | OtherSource a => inr a end : unit + string * option Z + string)
    (λ y : unit + string * option Z + string, match y with inl (inl _) => EmptyDir | inl (inr (a, b)) => ConfigMapSource a b
          | inr a => OtherSource a end).
Defined.
#[global] Instance volume_countable : Countable Volume.
Proof. by_fields (λ x, (vol_Name x, vol_Source x)) (λ '(a, b), mkVolume a b). Defined.
#[global] Instance pvcspec_countable : Countable PVCSpec.
Proof.
  by_fields (λ x, (pvc_AccessModes x, pvc_Requests x, pvc_StorageClassName x, pvc_VolumeMode x))
    (λ '(a, b, c, d), mkPVCSpec a b c d).
Defined.
#[global] Instance pvc_countable : Countable PersistentVolumeClaim.
Proof. by_fields (λ x, (pvc_Meta x, pvc_Spec x, pvc_Capacity x)) (λ '(a, b, c), mkPVC a b c). Defined.
#[global] Instance sts_status_countable : Countable StatefulSetStatus.
Proof.
  by_fields (λ x, (st_Replicas x, st_ReadyReplicas x, st_CurrentRevision x, st_UpdateRevision x))
    (λ '(a, b, c, d), mkStsStatus a b c d).
Defined.
#[global] Instance node_selector_countable : Countable NodeSelectorRequirement.
Proof. by_fields (λ x, (ns_Key x, ns_Operator x, ns_Values x)) (λ '(a, b, c), mkNodeSelector a b c). Defined.
#[global] Instance affinity_term_countable : Countable PodAffinityTerm.
Proof. by_fields (λ x, (pat_TopologyKey x, pat_MatchLabels x)) (λ '(a, b), mkPodAffinityTerm a b). Defined.
#[global] Instance anti_affinity_countable : Countable PodAntiAffinity.
Proof. by_fields (λ x, (paa_Required x, paa_Preferred x)) (λ '(a, b), mkPodAntiAffinity a b). Defined.
#[global] Instance affinity_countable : Countable Affinity.
Proof. by_fields (λ x, (aff_Node x, aff_PodAnti x)) (λ '(a, b), mkAffinity a b). Defined.
#[global] Instance pod_security_countable : Countable PodSecurityContext.
Proof.
  by_fields (λ x, (psc_RunAsUser x, psc_RunAsNonRoot x, psc_FSGroup x))
    (λ '(a, b, c), mkPodSecurityContext a b c).
Defined.
#[global] Instance template_countable : Countable PodTemplate.
Proof.
  by_fields (λ x, (t_Labels x, t_Annotations x, t_SchedulerName x, t_DNSPolicy x, t_Affinity x,
    t_Tolerations x, t_SecurityContext x, t_InitContainers x, t_Containers x, t_Volumes x,
    t_RestartPolicy x, t_TerminationGracePeriodSeconds x, t_ShareProcessNamespace x,
    t_ServiceAccountName x, t_ImagePullSecrets x))
    (λ '(a, b, c, d, e, f, g, h, i, j, k, l, m, n, o), mkPodTemplate a b c d e f g h i j k l m n o).
Defined.
#[global] Instance sts_countable : Countable StatefulSet.
Proof.
  by_fields (λ x, (sts_TypeMeta x, sts_Meta x, sts_Replicas x, sts_ServiceName x,
    sts_UpdateStrategy x, sts_Partition x, sts_MatchLabels x, sts_Template x,
    sts_VolumeClaimTemplates x, sts_Status x))
    (λ '(a, b, c, d, e, f, g, h, i, j), mkSts a b c d e f g h i j).
Defined.

Definition text_of (s : StatefulSet) : string := Itoa (Z.pos (encode s)).
Definition of_text (t : string) : result StatefulSet :=
  match decode (Z.to_pos (digits_value (chars t))) with
  | Some s => Ok s
  | None => Err (OtherError "cannot unmarshal")
  end.

#[global] Instance SampleCodec : StsCodec := {|
  Marshal_sts s := Ok (text_of s);
  Unmarshal_sts := of_text;
  GetOriginalConfiguration _ := "";
  LastAppliedConfig := "banzaicloud.com/last-applied";
  DeleteNullInJson t := Ok t;
  zipAndBase64 t := Ok t |}.

Lemma of_text_of s : of_text (text_of s) = Ok s.
Proof.
  unfold of_text, text_of. destruct (chars_Itoa (Z.pos (encode s))) as [_ ->]; [lia|].
  by rewrite Pos2Z.id, decode_encode.
Qed.

#[global] Instance SampleCodec_laws : StsCodecLaws.
Proof.
  split. intros s. exists (text_of s). split; [done|]. split; [|apply of_text_of].
  intros Hempty. pose proof (of_text_of s) as Hs. unfold text_of in Hempty.
  destruct (chars_Itoa (Z.pos (encode s))) as [_ Hv]; [lia|]. rewrite Hempty in Hv.
  change (digits_value (chars "")) with 0%Z in Hv. lia.
Qed.
End countable.
