(* ===== verification/Generator.v ===== *)
(** * Generation of the objects of a cluster
    (src/controllers/cassandracluster/generator.go)

    From the resource, the status and the name of a rack the generator makes the
    statefulset of the rack: volumes, claim templates, the three init containers,
    the Cassandra container with the side cars, affinities, resources; and the
    services and the disruption budget of the cluster.

    The functions that dereference a pointer of the resource (a probe setting, the
    data centre of a rack, the side car section) return an [outcome]; which
    resources never panic is a theorem.  The configuration passed to the
    config-builder is a JSON tree handled by gabs, a third-party library: it is the
    interface [GabsLib].  A range over a Go map goes through it in an unspecified
    order, the interface [MapOrder]. *)
From S2P Require Import Prelude KubeObjects Types ClusterApi Server K8sUtil.

(** ** Constants *)
Definition bootstrapContainerName : string := "bootstrap".
Definition cassConfigBuilderName : string := "config-builder".
Definition cassBaseConfigBuilderName : string := "base-config-builder".
Definition defaultJvmMaxHeap : string := "2048M".
Definition defaultJvmInitHeap : string := "512M".
Definition hostnameTopologyKey : string := "kubernetes.io/hostname".
Definition defaultInitContainerLimitsCPU : string := "0.5".
Definition defaultInitContainerLimitsMemory : string := "0.5Gi".
Definition defaultInitContainerRequestsCPU : string := "0.5".
Definition defaultInitContainerRequestsMemory : string := "0.5Gi".
Definition defaultBackRestContainerRequestsCPU : string := "0.5".
Definition defaultBackRestContainerRequestsMemory : string := "1Gi".
Definition cassandraConfigMapName : string := "cassandra-config".
Definition defaultBackRestPort : Z := 4567.
Definition jvmOptsName : string := "JVM_OPTS".

Inductive containerType := initContainer | bootstrapContainer | cassandraContainer | backrestContainer.
#[export] Instance containerType_eq_dec : EqDecision containerType.
Proof. solve_decision. Defined.

(** deploy_cassandra.go *)
Definition cassandraPort : Z := 9042.
Definition cassandraPortName : string := "cql".
Definition cassandraIntraNodePort : Z := 7000.
Definition cassandraIntraNodeName : string := "intra-node".
Definition cassandraIntraNodeTLSPort : Z := 7001.
Definition cassandraIntraNodeTLSName : string := "intra-node-tls".
Definition cassandraJMX : Z := 7199.
Definition cassandraJMXName : string := "jmx-port".
Definition JolokiaPort : Z := 8778.
Definition JolokiaPortName : string := "jolokia".
Definition exporterCassandraJmxPort : Z := 9500.
Definition exporterCassandraJmxPortName : string := "promjmx".

Definition DefaultTerminationGracePeriodSeconds : Z := 1800.

(** ** Third-party code *)

(** [NodeConfig]: [map[string]map[string]interface{}], with the values the code puts
    into it. *)
Inductive scalar := VStr (s : string) | VInt (z : Z) | VBool (b : bool).
#[export] Instance scalar_eq_dec : EqDecision scalar.
Proof. solve_decision. Defined.
Abbreviation NodeConfig := (gmap string (gmap string scalar)).

(** [github.com/Jeffail/gabs]: a [*gabs.Container] and the [interface{}] data in it.
    The errors of its functions are ignored by every caller, so what a failing call
    leaves behind is its result. *)
Class GabsLib := {
  Gabs : Type;
  GData : Type;
  (** [d == nil] and the conversion of a value to [interface{}] *)
  GData_nil : GData → bool;
  GData_of : scalar → GData;
  (** [json.Marshal] of a [NodeConfig] *)
  NodeConfig_Marshal : NodeConfig → string;
  ParseJSON : string → Gabs;
  (** [c.Path(p)]; [None] is the nil container *)
  gabs_Path : Gabs → string → option GData;
  gabs_SetP : Gabs → GData → string → Gabs;
  gabs_DeleteP : Gabs → string → Gabs;
  (** [c.MergeFn(source, f)] where [f] takes the value of the source *)
  gabs_MergeSource : Gabs → Gabs → Gabs;
  gabs_String : Gabs → string;
}.

(** [patch.DefaultAnnotator.SetLastAppliedAnnotation], its error ignored *)
Class AnnotatorLib {QL : QuantityLib} := { SetLastAppliedAnnotation : StatefulSet → StatefulSet }.

Section generator.
Context {QL : QuantityLib}.

(** ** Quantities *)
Definition generateResourceQuantity (qs : string) : Quantity := default Quantity_zero (ParseQuantity qs).

(** [resource.MustParse] panics on a malformed quantity. *)
Definition MustParse (qs : string) : outcome Quantity := deref (ParseQuantity qs).

Definition initContainerResources : outcome ResourceRequirements :=
  limitsCPU ← MustParse defaultInitContainerLimitsCPU;
  limitsMemory ← MustParse defaultInitContainerLimitsMemory;
  requestsCPU ← MustParse defaultInitContainerRequestsCPU;
  requestsMemory ← MustParse defaultInitContainerRequestsMemory;
  mret (mkResourceRequirements (Some {[ "cpu" := limitsCPU; "memory" := limitsMemory ]})
                               (Some {[ "cpu" := requestsCPU; "memory" := requestsMemory ]})).

Definition generateResourceList (cpu memory : string) : gmap string Quantity :=
  let resources : gmap string Quantity := ∅ in
  let resources := if cpu != "" then <["cpu" := generateResourceQuantity cpu]> resources else resources in
  if memory != "" then <["memory" := generateResourceQuantity memory]> resources else resources.

(** [float64(z)] for an int64: the nearest multiple of the last place of a 53-bit
    significand, ties to even. *)
Definition float64_of_int64 (z : Z) : Z :=
  if bool_decide (Z.abs z < 2 ^ 53)%Z then z
  else
    let u := (2 ^ (Z.log2 (Z.abs z) - 52))%Z in
    let q := (Z.abs z / u)%Z in
    let r := (Z.abs z `mod` u)%Z in
    let up := bool_decide (u < 2 * r)%Z || (bool_decide (u = 2 * r)%Z && Z.odd q) in
    (Z.sgn z * u * (if up then q + 1 else q))%Z.

Record JvmMemory := mkJvmMemory { maxHeapSize : string; initialHeapSize : string }.

(** The divisions by 4 and by 1024*1024 are exact in floating point; [int] truncates. *)
Definition defineJvmMemory (resources : ResourceRequirements) : JvmMemory :=
  let memory := resource_get (default ∅ (Limits resources)) "memory" in
  if negb (Quantity_IsZero memory) then
    let mhsInMB := (float64_of_int64 (Quantity_Value memory) ÷ (4 * (1024 * 1024)))%Z in
    let ihs := (mhsInMB ÷ 4)%Z in
    mkJvmMemory (Join [Itoa mhsInMB; "M"] "") (Join [Itoa ihs; "M"] "")
  else mkJvmMemory defaultJvmMaxHeap defaultJvmInitHeap.

(** ** Services and budget *)
Definition generateCassandraService (cc : CassandraCluster) (labels : gmap string string)
    (ownerRefs : list OwnerReference) : Service :=
  let annotations := default ∅ (spec_Service (cc_Spec cc)) in
  mkService ((named (cc_Namespace cc) (cc_Name cc)) <| m_Labels := labels |>
               <| m_Annotations := annotations |> <| m_OwnerReferences := ownerRefs |>)
    "ClusterIP" "None" [mkPort cassandraPortName cassandraPort "TCP"] labels true.

Definition generateCassandraExporterService (cc : CassandraCluster) (labels : gmap string string)
    (ownerRefs : list OwnerReference) : Service :=
  let mlabels := MergeLabels [labels; {[ "k8s-app" := "exporter-cassandra-jmx" ]}] in
  mkService ((named (cc_Namespace cc) (cc_Name cc +:+ "-exporter-jmx")) <| m_Labels := mlabels |>
               <| m_OwnerReferences := ownerRefs |>)
    "ClusterIP" "None" [mkPort exporterCassandraJmxPortName exporterCassandraJmxPort "TCP"] labels false.

Definition generatePodDisruptionBudget (name ns : string) (labels : gmap string string)
    (owner : OwnerReference) (maxUnavailable : Z) : PodDisruptionBudget :=
  mkPDB ((named ns name) <| m_Labels := labels |> <| m_OwnerReferences := [owner] |>) maxUnavailable labels 0 0.

(** ** Volumes and mounts *)
Definition emptyDir (name : string) : Volume := mkVolume name EmptyDir.

Definition generateCassandraVolumes (cc : CassandraCluster) : list Volume :=
  let v := emptyDir <$> ["bootstrap"; "extra-lib"; "tools"; "log"; "tmp"] in
  if ConfigMapName (cc_Spec cc) != ""
  then v ++ [mkVolume cassandraConfigMapName (ConfigMapSource (ConfigMapName (cc_Spec cc)) (Some 493%Z))]
  else v.

Definition generateContainerVolumeMount (cc : CassandraCluster) (ct : containerType) : list VolumeMount :=
  if ct == initContainer then [mkVolumeMount "bootstrap" "/bootstrap"]
  else
    let vm := [mkVolumeMount "bootstrap" "/etc/cassandra"; mkVolumeMount "extra-lib" "/extra-lib"] in
    let vm := if ct != backrestContainer then vm ++ [mkVolumeMount "tools" "/opt/bin"] else vm in
    if ct == bootstrapContainer then
      if ConfigMapName (cc_Spec cc) != "" then vm ++ [mkVolumeMount "cassandra-config" "/configmap"] else vm
    else
      let vm := if DataCapacity (cc_Spec cc) != "" then vm ++ [mkVolumeMount "data" "/var/lib/cassandra"] else vm in
      let vm := vm ++ [mkVolumeMount "tmp" "/tmp"] in
      if ct == backrestContainer then vm else vm ++ [mkVolumeMount "log" "/var/log/cassandra"].

Definition generateStorageConfigVolumesMount (cc : CassandraCluster) : list VolumeMount :=
  (λ storage, mkVolumeMount (sc_Name storage) (sc_MountPath storage)) <$> StorageConfigs (cc_Spec cc).

(** ** Claim templates *)
Fixpoint storage_claims (labels : gmap string string) (l : list StorageConfig)
  : result (list PersistentVolumeClaim) :=
  match l with
  | [] => Ok []
  | storage :: l =>
      match sc_PVCSpec storage with
      | None => Err (OtherError "can't create PVC from storageConfig")
      | Some spec =>
          match storage_claims labels l with
          | Ok pvcs => Ok (mkPVC ((named "" (sc_Name storage)) <| m_Labels := labels |>) spec ∅ :: pvcs)
          | Err e => Err e
          end
      end
  end.

Definition generateStorageConfigVolumeClaimTemplates (cc : CassandraCluster) (labels : gmap string string)
  : result (list PersistentVolumeClaim) := storage_claims labels (StorageConfigs (cc_Spec cc)).

Definition generateVolumeClaimTemplate (cc : CassandraCluster) (labels : gmap string string) (dcName : string)
  : outcome (result (list PersistentVolumeClaim)) :=
  dataCapacity ← GetDataCapacityFromDCName cc dcName;
  dataStorageClass ← GetDataStorageClassFromDCName cc dcName;
  if dataCapacity == "" then mret (Ok [])
  else
    let pvc := mkPVC ((named "" DataPVCName) <| m_Labels := labels |>)
      (mkPVCSpec ["ReadWriteOnce"] (Some {[ "storage" := generateResourceQuantity dataCapacity ]})
        (if dataStorageClass != "" then Some dataStorageClass else None) None) ∅ in
    mret match generateStorageConfigVolumeClaimTemplates cc labels with
         | Ok storageConfigPvcs => Ok (pvc :: storageConfigPvcs)
         | Err e => Err e
         end.

(** ** Volumes that a claim replaces *)

(** Where the Cassandra container mounts each claim. *)
Definition volumeClaimMapNameMountPath (containers : list Container)
    (volumeClaimTemplate : list PersistentVolumeClaim) : gmap string string :=
  let mounts := foldl (λ mounts c, if c_Name c == CassandraContainerName then c_VolumeMounts c else mounts)
                  [] containers in
  foldl (λ m volumeClaim,
    foldl (λ m volumeMount,
      if m_Name (pvc_Meta volumeClaim) == vm_Name volumeMount
      then <[m_Name (pvc_Meta volumeClaim) := vm_MountPath volumeMount]> m else m) m mounts)
    ∅ volumeClaimTemplate.

Context {Ord : MapOrder}.

(** One mount of a container: the mounts kept so far and the volumes to remove. *)
Definition dedup_mount (claims : gmap string string) (container : string)
    (acc : list VolumeMount * gset string) (vm : VolumeMount) : list VolumeMount * gset string :=
  let '(newVolumesMounts, volumeToRemove) := acc in
  match claims !! vm_Name vm with
  | Some _ => (newVolumesMounts ++ [vm], volumeToRemove)
  | None =>
      match find_map (λ '(key, value), if value == vm_MountPath vm then Some key else None) (map_range claims) with
      | Some key =>
          (if container != CassandraContainerName then newVolumesMounts ++ [vm <| vm_Name := key |>]
           else newVolumesMounts,
           {[ vm_Name vm ]} ∪ volumeToRemove)
      | None => (newVolumesMounts ++ [vm], volumeToRemove)
      end
  end.

(** The new mounts are stored only when their number differs. *)
Definition dedup_container (claims : gmap string string) (volumeToRemove : gset string) (container : Container)
  : Container * gset string :=
  let '(newVolumesMounts, volumeToRemove) :=
    foldl (dedup_mount claims (c_Name container)) ([], volumeToRemove) (c_VolumeMounts container) in
  (if bool_decide (length newVolumesMounts = length (c_VolumeMounts container)) then container
   else container <| c_VolumeMounts := newVolumesMounts |>, volumeToRemove).

(** The slice of containers is changed in place: it is returned with the set. *)
Definition removeDuplicateVolumeMountsFromContainers (containers : list Container) (claims : gmap string string)
  : list Container * gset string :=
  foldl (λ '(done, volumeToRemove) c,
           let '(c, volumeToRemove) := dedup_container claims volumeToRemove c in
           (done ++ [c], volumeToRemove)) ([], ∅) containers.

Definition volumesWoDupes (volumes : list Volume) (volumeToRemove : gset string) : option (list Volume) :=
  let newVolumes := List.filter (λ vol, negb (bool_decide (vol_Name vol ∈ volumeToRemove))) volumes in
  if bool_decide (length newVolumes = length volumes) then Some volumes else appended newVolumes.

Definition RemoveDuplicateVolumesAndVolumeMounts (containers : list Container)
    (volumeClaimTemplate : list PersistentVolumeClaim) (volumes : list Volume)
  : list Container * option (list Volume) :=
  let claims := volumeClaimMapNameMountPath containers volumeClaimTemplate in
  let '(containers, volumeToRemove) := removeDuplicateVolumeMountsFromContainers containers claims in
  (containers, volumesWoDupes volumes volumeToRemove).

(** ** Affinity *)
Definition createNodeAffinity (labels : gmap string string) : option (list (list NodeSelectorRequirement)) :=
  if bool_decide (size labels = 0) then None
  else
    let keys := merge_sort String.le (map_range labels).*1 in
    Some [(λ key, mkNodeSelector key "In" [default "" (labels !! key)]) <$> keys].

Definition createPodAntiAffinity (hard : bool) (labels : gmap string string) : PodAntiAffinity :=
  let podAffinityTerm := mkPodAffinityTerm hostnameTopologyKey labels in
  if hard then mkPodAntiAffinity [podAffinityTerm] [] else mkPodAntiAffinity [] [(100%Z, podAffinityTerm)].

(** ** The configuration of the nodes *)
Context {Gab : GabsLib}.

Definition jvmOptionName (cc : CassandraCluster) : string :=
  if HasPrefix (ServerVersion (cc_Spec cc)) "4" then "jvm-server-options" else "jvm-options".

Definition mergeConfig (config : option string) (currentParsedConfig : Gabs) (serverVersion : string) : Gabs :=
  match config with
  | None => currentParsedConfig
  | Some config =>
      let parsedConfig := ParseJSON config in
      let parsedConfig :=
        match gabs_Path parsedConfig "jvm-options" with
        | Some data =>
            if HasPrefix serverVersion "4"
            then gabs_DeleteP (gabs_SetP parsedConfig data "jvm-server-options") "jvm-options"
            else parsedConfig
        | None => parsedConfig
        end in
      gabs_MergeSource currentParsedConfig parsedConfig
  end.

Definition parseConfig (config : NodeConfig) : Gabs := ParseJSON (NodeConfig_Marshal config).

(** [c.Path(p).Data() == nil] *)
Definition gabs_unset (c : Gabs) (p : string) : bool :=
  match gabs_Path c p with Some d => GData_nil d | None => true end.

(** A default goes in where the merged configuration has nothing. *)
Definition setDefaultConfig (defaultConfig : NodeConfig) (parsedConfig : Gabs) : Gabs :=
  foldl (λ c '(key, value),
    foldl (λ c '(subkey, subvalue),
      let keyPath := key +:+ "." +:+ subkey in
      if gabs_unset c keyPath then gabs_SetP c (GData_of subvalue) keyPath else c)
      c (map_range value))
    parsedConfig (map_range defaultConfig).

Definition detectServerVersion (cc : CassandraCluster) : string :=
  let image := Split (CassandraImage (cc_Spec cc)) ":"%char in
  let serverVersion := ServerVersion (cc_Spec cc) in
  if serverVersion == "" then
    if bool_decide (2 ≤ length image) then
      let version := Split (List.last image "") "-"%char in
      let serverVersion := List.hd "" version in
      if bool_decide (length version = 1) then serverVersion else serverVersion +:+ ".0"
    else serverVersion
  else serverVersion.

Definition detectServerType (cc : CassandraCluster) : string :=
  let image := Split (CassandraImage (cc_Spec cc)) ":"%char in
  let serverType := ServerType (cc_Spec cc) in
  if serverType == "" then
    if Contains_sub "dse" (List.hd "" image) then "dse" else "cassandra"
  else serverType.

Definition defaultNodeConfig (cc : CassandraCluster) (resources : ResourceRequirements) : NodeConfig :=
  <[jvmOptionName cc := {[ "initial_heap_size" := VStr (initialHeapSize (defineJvmMemory resources));
                           "max_heap_size" := VStr (maxHeapSize (defineJvmMemory resources));
                           "cassandra_ring_delay_ms" := VInt 30000;
                           "jmx-connection-type" := VStr "remote-no-auth" ]}]>
  {[ "cassandra-yaml" := {[ "read_request_timeout_in_ms" := VInt 5000;
                            "write_request_timeout_in_ms" := VInt 5000;
                            "counter_write_request_timeout_in_ms" := VInt 5000 ]};
     "logback-xml" := {[ "debuglog-enabled" := VBool false ]} ]}.

Definition clusterConfig (cc : CassandraCluster) (seedList dcName : string) : NodeConfig :=
  {[ "cluster-info" := {[ "name" := VStr (cc_Name cc); "seeds" := VStr seedList ]};
     "datacenter-info" := {[ "name" := VStr dcName ]} ]}.

(** The tree that becomes CONFIG_FILE_DATA. *)
Definition nodeConfigData (cc : CassandraCluster) (st : CassandraClusterStatus)
    (resources : ResourceRequirements) (dcRackName : string) : outcome Gabs :=
  let serverVersion := detectServerVersion cc in
  dcName ← GetDCNameFromDCRackName dcRackName;
  let parsedConfig := parseConfig (clusterConfig cc (SeedList (elems (s_SeedList st))) dcName) in
  odc ← GetDCFromDCRackName cc dcRackName;
  orack ← GetRackFromDCRackName cc dcRackName;
  let parsedConfig := mergeConfig (spec_Config (cc_Spec cc)) parsedConfig serverVersion in
  dc ← deref odc;
  let parsedConfig := mergeConfig (dc_Config dc) parsedConfig serverVersion in
  rack ← deref orack;
  let parsedConfig := mergeConfig (rack_Config rack) parsedConfig serverVersion in
  mret (setDefaultConfig (defaultNodeConfig cc resources) parsedConfig).

Definition fieldEnv (name path : string) : EnvVar := mkEnvVar name "" (Some (FieldRef "v1" path)).
Definition valueEnv (name value : string) : EnvVar := mkEnvVar name value None.

Definition initContainerEnvVar (cc : CassandraCluster) (st : CassandraClusterStatus)
    (resources : ResourceRequirements) (dcRackName : string) : outcome (list EnvVar) :=
  parsedConfig ← nodeConfigData cc st resources dcRackName;
  mret [valueEnv "CONFIG_FILE_DATA" (gabs_String parsedConfig);
        valueEnv "CONFIG_OUTPUT_DIRECTORY" "/bootstrap";
        fieldEnv "RACK_NAME" "metadata.labels['cassandraclusters.db.orange.com.rack']";
        valueEnv "PRODUCT_NAME" (detectServerType cc);
        valueEnv "PRODUCT_VERSION" (detectServerVersion cc);
        fieldEnv "POD_IP" "status.podIP";
        fieldEnv "HOST_IP" "status.hostIP"].

(** ** Environment of the containers *)
Definition commonBootstrapCassandraEnvVar (cc : CassandraCluster) : list EnvVar :=
  let commonEnvVars := [fieldEnv "POD_IP" "status.podIP"; valueEnv "CASSANDRA_LOG_DIR" "/var/log/cassandra"] in
  let secret := ImageJolokiaSecret (cc_Spec cc) in
  if secret != "" then
    commonEnvVars ++
      [mkEnvVar "JOLOKIA_USER" "" (Some (SecretKeyRef secret "username"));
       mkEnvVar "JOLOKIA_PASSWORD" "" (Some (SecretKeyRef secret "password"));
       valueEnv "CASSANDRA_AUTH_JOLOKIA" "true"]
  else commonEnvVars.

Definition bootstrapContainerEnvVar (cc : CassandraCluster) (st : CassandraClusterStatus) : list EnvVar :=
  [valueEnv "CASSANDRA_CLUSTER_NAME" (cc_Name cc);
   valueEnv "CASSANDRA_SEEDS" (SeedList (elems (s_SeedList st)));
   fieldEnv "CASSANDRA_DC" "metadata.labels['cassandraclusters.db.orange.com.dc']";
   fieldEnv "CASSANDRA_RACK" "metadata.labels['cassandraclusters.db.orange.com.rack']"] ++
  commonBootstrapCassandraEnvVar cc.

Definition JMXConfigurationMap : gmap string string :=
  {[ "JMXRemote" := "-Dcom.sun.management.jmxremote=";
     "JMXRemotePort" := "-Dcom.sun.management.jmxremote.port=";
     "JMXRemoteRmiPort" := "-Dcom.sun.management.jmxremote.rmi.port=";
     "JXMRemoteSSL" := "-Dcom.sun.management.jmxremote.ssl=";
     "JMXRemoteAuthenticate" := "-Dcom.sun.management.jmxremote.authenticate=" ]}.

Definition FormatBool (b : bool) : string := if b then "true" else "false".

Definition generateJMXConfiguration (jmxConf : JMXConfiguration) : EnvVar :=
  let param name value := default "" (JMXConfigurationMap !! name) +:+ value +:+ " " in
  let flag name o := match o with Some b => param name (FormatBool b) | None => "" end in
  let port name z := if bool_decide (z = 0%Z) then "" else param name (Itoa z) in
  valueEnv jvmOptsName
    (flag "JMXRemote" (JMXRemote jmxConf) +:+ flag "JXMRemoteSSL" (JXMRemoteSSL jmxConf) +:+
     flag "JMXRemoteAuthenticate" (JMXRemoteAuthenticate jmxConf) +:+
     port "JMXRemotePort" (JMXRemotePort jmxConf) +:+ port "JMXRemoteRmiPort" (JMXRemoteRmiPort jmxConf)).

(** ** Containers *)
Definition createInitConfigContainer (cc : CassandraCluster) (st : CassandraClusterStatus)
    (dcRackName : string) : outcome Container :=
  env ← initContainerEnvVar cc st (Resources (cc_Spec cc)) dcRackName;
  resources ← initContainerResources;
  mret (Container_zero <| c_Name := cassConfigBuilderName |>
          <| c_Image := ConfigBuilderImage (cc_Spec cc) |>
          <| c_ImagePullPolicy := ImagePullPolicy (cc_Spec cc) |>
          <| c_Env := env |>
          <| c_VolumeMounts := generateContainerVolumeMount cc initContainer |>
          <| c_Resources := resources |>).

Definition createBaseConfigBuilderContainer (cc : CassandraCluster) : outcome Container :=
  resources ← initContainerResources;
  mret (Container_zero <| c_Name := cassBaseConfigBuilderName |>
          <| c_Image := CassandraImage (cc_Spec cc) |>
          <| c_ImagePullPolicy := ImagePullPolicy (cc_Spec cc) |>
          <| c_Command := ["/bin/sh"] |>
          <| c_Args := ["-c"; "cp -r /etc/cassandra/* /bootstrap/"] |>
          <| c_VolumeMounts := generateContainerVolumeMount cc initContainer |>
          <| c_Resources := resources |>).

Definition createCassandraBootstrapContainer (cc : CassandraCluster) (st : CassandraClusterStatus)
  : outcome Container :=
  resources ← initContainerResources;
  mret (Container_zero <| c_Name := bootstrapContainerName |>
          <| c_Image := BootstrapImage (cc_Spec cc) |>
          <| c_ImagePullPolicy := ImagePullPolicy (cc_Spec cc) |>
          <| c_Env := bootstrapContainerEnvVar cc st |>
          <| c_VolumeMounts := generateContainerVolumeMount cc bootstrapContainer |>
          <| c_Resources := resources |>).

(** The position of a mount, -1 without one. *)
Definition getPos (slice : list VolumeMount) (value : string) : Z :=
  default (-1)%Z (find_map (λ '(i, v), if vm_Name v == value then Some (Z.of_nat i) else None)
                    (zip (seq 0 (length slice)) slice)).

(** The resources of a data centre replace those of the cluster. *)
Definition cassandraResources (cc : CassandraCluster) (dcRackName : string) : outcome ResourceRequirements :=
  odc ← GetDCFromDCRackName cc dcRackName;
  dc ← deref odc;
  mret match dc_Resources dc with
       | mkResourceRequirements None None => Resources (cc_Spec cc)
       | dcResources => dcResources
       end.

(** A probe that runs a script; the thresholds are 0 unless the resource sets them. *)
Definition scriptProbe (script : string) (delay timeout period failure success : option Z) : outcome Probe :=
  delay ← deref delay;
  timeout ← deref timeout;
  period ← deref period;
  mret (mkProbe delay timeout period (default 0%Z failure) (default 0%Z success)
          (ExecAction ["/bin/bash"; "-c"; script])).

Definition cassandraEnv (cc : CassandraCluster) : list EnvVar :=
  let cassandraEnv := commonBootstrapCassandraEnvVar cc ++
    [valueEnv "JAVA_TOOL_OPTIONS" "-Dcom.sun.jndi.rmiURLParsing=legacy"] in
  match spec_JMXConfiguration (cc_Spec cc) with
  | Some jmx =>
      let jmxEnvVariable := generateJMXConfiguration jmx in
      if env_Value jmxEnvVariable != "" then cassandraEnv ++ [jmxEnvVariable] else cassandraEnv
  | None => cassandraEnv
  end.

Definition createCassandraContainer (cc : CassandraCluster) (dcRackName : string) : outcome Container :=
  let ccs := cc_Spec cc in
  resources ← cassandraResources cc dcRackName;
  let volumeMounts := generateContainerVolumeMount cc cassandraContainer ++ generateStorageConfigVolumesMount cc in
  let command := if spec_Debug ccs then ["sh"; "-c"; "tail -f /dev/null"] else ["cassandra"; "-f"] in
  readiness ← scriptProbe "/etc/cassandra/readiness-probe.sh" (ReadinessInitialDelaySeconds ccs)
    (ReadinessHealthCheckTimeout ccs) (ReadinessHealthCheckPeriod ccs)
    (ReadinessFailureThreshold ccs) (ReadinessSuccessThreshold ccs);
  liveness ← scriptProbe "/etc/cassandra/liveness-probe.sh" (LivenessInitialDelaySeconds ccs)
    (LivenessHealthCheckTimeout ccs) (LivenessHealthCheckPeriod ccs)
    (LivenessFailureThreshold ccs) (LivenessSuccessThreshold ccs);
  mret (mkContainer CassandraContainerName (CassandraImage ccs) (ImagePullPolicy ccs) command []
    (cassandraEnv cc) volumeMounts
    [mkPort cassandraIntraNodeName cassandraIntraNodePort "TCP";
     mkPort cassandraIntraNodeTLSName cassandraIntraNodeTLSPort "TCP";
     mkPort cassandraJMXName cassandraJMX "TCP";
     mkPort cassandraPortName cassandraPort "TCP";
     mkPort exporterCassandraJmxPortName exporterCassandraJmxPort "TCP";
     mkPort JolokiaPortName JolokiaPort "TCP"]
    resources (Some readiness) (Some liveness)
    (Some (mkSecurityContext ["IPC_LOCK"] "Default" (ReadOnlyRootFilesystem ccs)))).

(** The probe [livenessProbe] of the source is a copy that is not stored. *)
Definition backrestSidecarContainer (cc : CassandraCluster) : outcome Container :=
  let resources := generateResourceList defaultBackRestContainerRequestsCPU defaultBackRestContainerRequestsMemory in
  br ← deref (spec_BackRestSidecar (cc_Spec cc));
  let container := mkContainer "backrest-sidecar" (br_Image br) (br_ImagePullPolicy br) [] [] []
    (br_VolumeMounts br) [mkPort "http" defaultBackRestPort ""]
    (mkResourceRequirements (Some resources) (Some resources))
    (Some (mkProbe 10 5 10 10 0 (HTTPGetAction defaultBackRestPort "/status"))) None None in
  let container := match br_Resources br with
                   | Some r => container <| c_Resources := r |> | None => container end in
  mret (container <| c_VolumeMounts ::= λ l, l ++ generateContainerVolumeMount cc backrestContainer |>).

Definition generateContainers (cc : CassandraCluster) (dcRackName : string) : outcome (list Container) :=
  cassandra ← createCassandraContainer cc dcRackName;
  let containers := SidecarConfigs (cc_Spec cc) ++ [cassandra] in
  br ← deref (spec_BackRestSidecar (cc_Spec cc));
  if default true (br_Enabled br) then
    backrest ← backrestSidecarContainer cc; mret (containers ++ [backrest])
  else mret containers.

(** ** The statefulset *)
Definition addBootstrapContainerEnvVarsToSidecars (bootstrapContainer : Container) (ss : StatefulSet) : StatefulSet :=
  ss <| sts_Template ::= λ t, t <| t_Containers ::= fmap (λ c,
    if c_Name c != CassandraContainerName then c <| c_Env ::= λ env, env ++ c_Env bootstrapContainer |> else c) |> |>.

Context {Annot : AnnotatorLib}.

(** The owner references of the source go to copies of the claim templates, so they
    have no effect. *)
Definition generateCassandraStatefulSet (cc : CassandraCluster) (st : CassandraClusterStatus)
    (dcName dcRackName : string) (labels nodeSelector : gmap string string)
    (ownerRefs : list OwnerReference) : outcome (result StatefulSet) :=
  let ccs := cc_Spec cc in
  let volumes := generateCassandraVolumes cc in
  claims ← generateVolumeClaimTemplate cc labels dcName;
  match claims with
  | Err e => mret (Err e)
  | Ok volumeClaimTemplate =>
      containers ← generateContainers cc dcRackName;
      let '(containers, volumes) := RemoveDuplicateVolumesAndVolumeMounts containers volumeClaimTemplate volumes in
      let annotations := match spec_Pod ccs with Some p => pp_Annotations p | None => ∅ end in
      let tolerations := match spec_Pod ccs with Some p => pp_Tolerations p | None => [] end in
      base ← createBaseConfigBuilderContainer cc;
      init ← createInitConfigContainer cc st dcRackName;
      boot ← createCassandraBootstrapContainer cc st;
      let template := mkPodTemplate labels annotations "" ""
        (Some (mkAffinity (createNodeAffinity nodeSelector)
                 (createPodAntiAffinity (HardAntiAffinity ccs) (LabelsForCassandra cc))))
        tolerations
        (Some (mkPodSecurityContext (Some (RunAsUser ccs)) (Some true) (Some (FSGroup ccs))))
        [base; init; boot] containers volumes "Always" (Some DefaultTerminationGracePeriodSeconds)
        (ShareProcessNamespace ccs) (ServiceAccountName ccs)
        (if ImagePullSecret ccs != "" then [ImagePullSecret ccs] else []) in
      let ss := mkSts ("", "")
        ((named (cc_Namespace cc) (cc_Name cc +:+ "-" +:+ dcRackName)) <| m_Labels := labels |>
           <| m_OwnerReferences := ownerRefs |>)
        (GetNodesPerRacks cc dcRackName) (cc_Name cc) "RollingUpdate" (GetRollingPartitionPerRacks cc dcRackName)
        labels template volumeClaimTemplate StsStatus_zero in
      let bootstrapContainer := default Container_zero
        (find_map (λ c, if c_Name c == bootstrapContainerName then Some c else None) [base; init; boot]) in
      mret (Ok (SetLastAppliedAnnotation (addBootstrapContainerEnvVarsToSidecars bootstrapContainer ss)))
  end.
End generator.

(** ** Volumes that a claim replaces: the reference

    A mount is shadowed when it does not name a claim and the Cassandra container
    mounts a claim at its path. *)
Section dedup.
Context {QL : QuantityLib} {Ord : MapOrder}.

Definition shadowed (claims : gmap string string) (vm : VolumeMount) : bool :=
  bool_decide (claims !! vm_Name vm = None) &&
  bool_decide (vm_MountPath vm ∈ (map_to_list claims).*2).

Definition all_mounts (containers : list Container) : list VolumeMount := containers ≫= c_VolumeMounts.

(** The Cassandra container loses its shadowed mounts, the volumes of all shadowed
    mounts go. *)
Definition unshadow (claims : gmap string string) (c : Container) : Container :=
  if c_Name c == CassandraContainerName
  then c <| c_VolumeMounts ::= List.filter (λ vm, negb (shadowed claims vm)) |> else c.
Definition shadowed_names (claims : gmap string string) (mounts : list VolumeMount) : list string :=
  vm_Name <$> List.filter (shadowed claims) mounts.

Lemma path_lookup claims vm :
  match find_map (λ '(key, value), if value == vm_MountPath vm then Some key else None) (map_range claims) with
  | Some key => claims !! key = Some (vm_MountPath vm)
  | None => vm_MountPath vm ∉ (map_to_list claims).*2
  end.
Proof.
  case_match eqn:E.
  - apply find_map_Some in E as ([k v] & Hin & E). case_bool_decide; simplify_eq. by apply elem_of_map_range.
  - rewrite find_map_None in E. intros ([k v] & Hv & Hin)%list_elem_of_fmap. simpl in Hv. subst v.
    apply elem_of_map_to_list, elem_of_map_range in Hin. specialize (E _ Hin). simpl in E.
    by rewrite bool_decide_true in E.
Qed.

Lemma shadowed_spec claims vm :
  shadowed claims vm = true ↔
  claims !! vm_Name vm = None ∧ ∃ key, claims !! key = Some (vm_MountPath vm).
Proof.
  unfold shadowed. rewrite andb_true_iff, !bool_decide_eq_true, list_elem_of_fmap. f_equiv. split.
  - intros ([k v] & -> & Hin). exists k. by apply elem_of_map_to_list.
  - intros [k Hk]. exists (k, vm_MountPath vm). split; [done|]. by apply elem_of_map_to_list.
Qed.

Lemma dedup_mount_shadowed claims c acc rm vm :
  dedup_mount claims c (acc, rm) vm =
  if shadowed claims vm then
    (if c == CassandraContainerName then acc
     else acc ++ [vm <| vm_Name := default "" (find_map (λ '(key, value), if value == vm_MountPath vm then Some key else None)
                                                 (map_range claims)) |>], {[ vm_Name vm ]} ∪ rm)
  else (acc ++ [vm], rm).
Proof.
  unfold dedup_mount, shadowed. destruct (claims !! vm_Name vm) eqn:Hn; [done|].
  pose proof (path_lookup claims vm) as Hp. case_match eqn:E.
  - rewrite (bool_decide_true (_ ∈ _)); [cbn; by case_bool_decide|].
    apply list_elem_of_fmap. exists (s, vm_MountPath vm). split; [done|]. by apply elem_of_map_to_list.
  - by rewrite (bool_decide_false (_ ∈ _)), andb_false_r.
Qed.

(** Only the number of mounts counts for a container that is not Cassandra's. *)
Lemma dedup_mounts_fold claims c mounts acc rm :
  ∃ kept, foldl (dedup_mount claims c) (acc, rm) mounts =
    (acc ++ kept, list_to_set (shadowed_names claims mounts) ∪ rm) ∧
    if c == CassandraContainerName then kept = List.filter (λ vm, negb (shadowed claims vm)) mounts
    else length kept = length mounts.
Proof.
  revert acc rm. induction mounts as [|vm mounts IH]; intros acc rm.
  { exists []. rewrite app_nil_r. unfold shadowed_names. cbn. split; [f_equal; set_solver|]. by case_bool_decide. }
  cbn [foldl]. rewrite dedup_mount_shadowed. unfold shadowed_names in *. cbn [List.filter].
  destruct (shadowed claims vm) eqn:Hs.
  - destruct (IH (if c == CassandraContainerName then acc else acc ++ [vm <| vm_Name := default "" (find_map (λ '(key, value), if value == vm_MountPath vm then Some key else None)
                                                 (map_range claims)) |>]) ({[ vm_Name vm ]} ∪ rm)) as (kept & Heq & Hk).
    rewrite Heq. case_bool_decide.
    + exists kept. split; [|exact Hk]. f_equal. rewrite fmap_cons, list_to_set_cons. set_solver.
    + eexists. split; [rewrite <- (assoc_L (++)); f_equal;
        rewrite fmap_cons, list_to_set_cons; set_solver|]. simpl. by f_equal.
  - destruct (IH (acc ++ [vm]) rm) as (kept & Heq & Hk). rewrite Heq. exists (vm :: kept).
    split; [by rewrite <- (assoc_L (++))|]. simpl. case_bool_decide; simpl; by f_equal.
Qed.

Lemma filter_length_eq {A} (f : A → bool) l : length (List.filter f l) = length l → List.filter f l = l.
Proof.
  induction l as [|x l IH]; simpl; [done|]. pose proof (filter_length_le f l).
  destruct (f x); simpl; intros; [f_equal; auto with lia|lia].
Qed.

Lemma dedup_container_spec claims rm c :
  dedup_container claims rm c =
    (unshadow claims c, list_to_set (shadowed_names claims (c_VolumeMounts c)) ∪ rm).
Proof.
  unfold dedup_container, unshadow.
  destruct (dedup_mounts_fold claims (c_Name c) (c_VolumeMounts c) [] rm) as (kept & -> & Hk). f_equal.
  case_bool_decide as Hc; simpl.
  - subst kept. case_bool_decide as Hl; [|done]. apply filter_length_eq in Hl. destruct c. unfold upd. cbn in *. by rewrite Hl.
  - by rewrite bool_decide_true.
Qed.

Lemma removeDuplicate_fold claims containers done rm :
  foldl (λ '(done, volumeToRemove) c,
           let '(c, volumeToRemove) := dedup_container claims volumeToRemove c in
           (done ++ [c], volumeToRemove)) (done, rm) containers =
  (done ++ (unshadow claims <$> containers),
   list_to_set (shadowed_names claims (all_mounts containers)) ∪ rm).
Proof.
  revert done rm. induction containers as [|c containers IH]; intros done rm.
  { unfold shadowed_names. cbn. rewrite app_nil_r. f_equal. set_solver. }
  cbn [foldl]. rewrite dedup_container_spec, IH, <- (assoc_L (++)). f_equal.
  unfold all_mounts, shadowed_names. cbn [mbind list_bind].
  rewrite List.filter_app, fmap_app, list_to_set_app_L. set_solver.
Qed.

Lemma removeDuplicate_fold0 claims containers :
  removeDuplicateVolumeMountsFromContainers containers claims =
    (unshadow claims <$> containers, list_to_set (shadowed_names claims (all_mounts containers))).
Proof. unfold removeDuplicateVolumeMountsFromContainers. rewrite removeDuplicate_fold. cbn. f_equal. set_solver. Qed.

Lemma volumesWoDupes_elems volumes rm :
  elems (volumesWoDupes volumes rm) = List.filter (λ vol, negb (bool_decide (vol_Name vol ∈ rm))) volumes.
Proof.
  unfold volumesWoDupes. case_bool_decide as E; [cbn; symmetry; by apply filter_length_eq|].
  by destruct (List.filter _ volumes).
Qed.

Lemma volumesWoDupes_keep cc (removed : list string) n :
  n ∈ ["bootstrap"; "extra-lib"; "tools"; "tmp"; "log"] → n ∉ removed →
  n ∈ vol_Name <$> elems (volumesWoDupes (generateCassandraVolumes cc) (list_to_set removed)).
Proof.
  intros Hn Hr. rewrite volumesWoDupes_elems. apply list_elem_of_fmap. exists (emptyDir n). split; [done|].
  apply elem_of_List_filter. split.
  - assert (emptyDir n ∈ emptyDir <$> ["bootstrap"; "extra-lib"; "tools"; "log"; "tmp"]) as Hin.
    { apply list_elem_of_fmap_2. set_solver. }
    unfold generateCassandraVolumes. case_match; [|done]. by apply elem_of_app; left.
  - rewrite bool_decide_false; [done|]. by rewrite elem_of_list_to_set.
Qed.

(** The routine that replaces volumes by claims agrees with its reference,
    whatever the order in which Go goes through the map: the Cassandra container
    loses exactly the mounts a claim shadows, every other container keeps its
    mounts, and the volumes to remove are those of all shadowed mounts. *)
Theorem removeDuplicate_reference (containers : list Container) (claims : gmap string string) :
  removeDuplicateVolumeMountsFromContainers containers claims =
    (unshadow claims <$> containers, list_to_set (shadowed_names claims (all_mounts containers))).
Proof. apply removeDuplicate_fold0. Qed.
End dedup.

(** What the annotator promises: it writes annotations of the statefulset only. *)
Class AnnotatorLaws {QL : QuantityLib} (Annot : AnnotatorLib) := {
  SetLastApplied_frame s : ∃ a,
    SetLastAppliedAnnotation s = s <| sts_Meta ::= λ m, m <| m_Annotations := a |> |>;
}.

(** Reads the result off an equation between returning computations. *)
Ltac inv_ret := unfold mret, outcome_ret; intros [= <-].

(** ** What a generated statefulset is made of *)
Section structure.
Context {QL : QuantityLib} {Ord : MapOrder} {Gab : GabsLib} {Annot : AnnotatorLib} {Laws : AnnotatorLaws Annot}.

Definition cassandra_mounts (cc : CassandraCluster) : list VolumeMount :=
  generateContainerVolumeMount cc cassandraContainer ++ generateStorageConfigVolumesMount cc.

(** The mounts of the containers that the user describes. *)
Definition side_mounts (cc : CassandraCluster) : list VolumeMount :=
  all_mounts (SidecarConfigs (cc_Spec cc)) ++
  match spec_BackRestSidecar (cc_Spec cc) with Some br => br_VolumeMounts br | None => [] end.

(** Where the Cassandra container mounts claims. *)
Definition storage_paths (cc : CassandraCluster) : list string :=
  (if DataCapacity (cc_Spec cc) != "" then ["/var/lib/cassandra"] else []) ++
  (sc_MountPath <$> StorageConfigs (cc_Spec cc)).

Definition claim_names (l : list PersistentVolumeClaim) : list string := (λ c, m_Name (pvc_Meta c)) <$> l.

(** The volumes and claims a container of the statefulset can mount. *)
Definition declared (ss : StatefulSet) : list string :=
  (vol_Name <$> elems (t_Volumes (sts_Template ss))) ++ claim_names (sts_VolumeClaimTemplates ss).

Lemma mounts_cassandra cc :
  generateContainerVolumeMount cc cassandraContainer =
  [mkVolumeMount "bootstrap" "/etc/cassandra"; mkVolumeMount "extra-lib" "/extra-lib"; mkVolumeMount "tools" "/opt/bin"] ++
  (if DataCapacity (cc_Spec cc) != "" then [mkVolumeMount "data" "/var/lib/cassandra"] else []) ++
  [mkVolumeMount "tmp" "/tmp"; mkVolumeMount "log" "/var/log/cassandra"].
Proof. unfold generateContainerVolumeMount. by destruct (DataCapacity (cc_Spec cc) != ""). Qed.
Lemma mounts_backrest cc :
  generateContainerVolumeMount cc backrestContainer =
  [mkVolumeMount "bootstrap" "/etc/cassandra"; mkVolumeMount "extra-lib" "/extra-lib"] ++
  (if DataCapacity (cc_Spec cc) != "" then [mkVolumeMount "data" "/var/lib/cassandra"] else []) ++
  [mkVolumeMount "tmp" "/tmp"].
Proof. unfold generateContainerVolumeMount. by destruct (DataCapacity (cc_Spec cc) != ""). Qed.

Lemma storage_claims_Ok labels l pvcs :
  storage_claims labels l = Ok pvcs →
  claim_names pvcs = sc_Name <$> l ∧ Forall (λ c, m_Labels (pvc_Meta c) = labels) pvcs.
Proof.
  revert pvcs. induction l as [|s l IH]; intros pvcs; simpl; [by inv_ret|].
  destruct (sc_PVCSpec s); [|done]. destruct (storage_claims labels l) as [pvcs'|]; [|done].
  intros [= <-]. destruct (IH _ eq_refl) as [Hn Hl]. split; [unfold claim_names in *; csimpl; by rewrite Hn|by constructor].
Qed.

Lemma storage_claims_Err labels l :
  (∃ e, storage_claims labels l = Err e) ↔ Exists (λ s, sc_PVCSpec s = None) l.
Proof.
  induction l as [|s l IH]; simpl.
  - split; [by intros []|by intros ?%Exists_nil].
  - rewrite Exists_cons. destruct (sc_PVCSpec s).
    + rewrite <- IH. destruct (storage_claims labels l); naive_solver.
    + naive_solver.
Qed.

Lemma generateVolumeClaimTemplate_Ok cc labels dcName claims :
  generateVolumeClaimTemplate cc labels dcName = Ret (Ok claims) →
  ∃ capacity, GetDataCapacityFromDCName cc dcName = Ret capacity ∧
    (capacity = "" ∧ claims = [] ∨
     capacity ≠ "" ∧ claim_names claims = DataPVCName :: (sc_Name <$> StorageConfigs (cc_Spec cc))).
Proof.
  unfold generateVolumeClaimTemplate. destruct (GetDataCapacityFromDCName cc dcName) as [capacity|]; [|done].
  destruct (GetDataStorageClassFromDCName cc dcName) as [cls|]; [|done]. cbn.
  unfold mret, outcome_ret. intros Hr. exists capacity. split; [done|]. case_bool_decide; [simplify_eq/=; by left|right].
  unfold generateStorageConfigVolumeClaimTemplates in *. split; [done|].
  destruct (storage_claims labels _) as [pvcs|] eqn:E; simplify_eq/=.
  apply storage_claims_Ok in E as [<- _]. done.
Qed.

Lemma createCassandraContainer_Ret cc k c :
  createCassandraContainer cc k = Ret c →
  c_Name c = CassandraContainerName ∧ c_VolumeMounts c = cassandra_mounts cc ∧
  cassandraResources cc k = Ret (c_Resources c).
Proof.
  unfold createCassandraContainer. destruct (cassandraResources cc k); [|done]. cbn -[scriptProbe].
  destruct (scriptProbe "/etc/cassandra/readiness-probe.sh" _ _ _ _ _); [|done]. cbn -[scriptProbe].
  destruct (scriptProbe _ _ _ _ _ _); [|done]. by inv_ret.
Qed.

Lemma backrest_Ret cc c :
  backrestSidecarContainer cc = Ret c →
  c_Name c = "backrest-sidecar" ∧ ∃ br, spec_BackRestSidecar (cc_Spec cc) = Some br ∧
    c_VolumeMounts c = br_VolumeMounts br ++ generateContainerVolumeMount cc backrestContainer.
Proof.
  unfold backrestSidecarContainer. destruct (spec_BackRestSidecar (cc_Spec cc)) as [br|]; [|done]. cbn.
  inv_ret. destruct (br_Resources br); cbn; eauto.
Qed.

(** The containers: the side cars of the user, Cassandra, and at most one more. *)
Lemma generateContainers_Ret cc k containers :
  generateContainers cc k = Ret containers →
  ∃ cas more, createCassandraContainer cc k = Ret cas ∧ containers = SidecarConfigs (cc_Spec cc) ++ cas :: more ∧
    Forall (λ c, c_Name c = "backrest-sidecar" ∧
      ∀ vm, vm ∈ c_VolumeMounts c → vm ∈ side_mounts cc ∨ vm ∈ cassandra_mounts cc) more.
Proof.
  unfold generateContainers. destruct (createCassandraContainer cc k) as [cas|]; [|done]. cbn.
  destruct (spec_BackRestSidecar (cc_Spec cc)) as [br|] eqn:Hbr; [|done]. cbn.
  destruct (default true (br_Enabled br)).
  - destruct (backrestSidecarContainer cc) as [b|] eqn:Hb; [|done]. cbn. inv_ret.
    exists cas, [b]. rewrite <- (assoc_L (++)). repeat split; [done..|]. constructor; [|done].
    apply backrest_Ret in Hb as (Hn & br' & Hbr' & Hm). split; [done|]. intros vm. rewrite Hm, elem_of_app.
    intros [Hin|Hin]; [left|right; apply elem_of_app; left].
    + unfold side_mounts. rewrite Hbr', elem_of_app. by right.
    + revert Hin. rewrite mounts_backrest, mounts_cassandra. case_match; set_solver.
  - inv_ret. exists cas, []. repeat split; [done..|constructor].
Qed.

(** The pieces of a generated statefulset. *)
Record pieces (cc : CassandraCluster) (st : CassandraClusterStatus) (dcName k : string)
    (labels nodeSelector : gmap string string) (refs : list OwnerReference) (ss : StatefulSet)
    (containers : list Container) (base init boot : Container) : Prop := {
  pc_claims : generateVolumeClaimTemplate cc labels dcName = Ret (Ok (sts_VolumeClaimTemplates ss));
  pc_containers : generateContainers cc k = Ret containers;
  pc_base : createBaseConfigBuilderContainer cc = Ret base;
  pc_config : createInitConfigContainer cc st k = Ret init;
  pc_boot : createCassandraBootstrapContainer cc st = Ret boot;
  pc_init : t_InitContainers (sts_Template ss) = [base; init; boot];
  pc_deduped : t_Containers (sts_Template ss) =
    (λ c, if c_Name c != CassandraContainerName
          then c <| c_Env ::= λ env, env ++ bootstrapContainerEnvVar cc st |> else c) <$>
    (RemoveDuplicateVolumesAndVolumeMounts containers (sts_VolumeClaimTemplates ss) (generateCassandraVolumes cc)).1;
  pc_volumes : t_Volumes (sts_Template ss) =
    (RemoveDuplicateVolumesAndVolumeMounts containers (sts_VolumeClaimTemplates ss) (generateCassandraVolumes cc)).2;
  pc_name : m_Name (sts_Meta ss) = cc_Name cc +:+ "-" +:+ k ∧ m_Namespace (sts_Meta ss) = cc_Namespace cc ∧
    sts_ServiceName ss = cc_Name cc ∧ m_OwnerReferences (sts_Meta ss) = refs;
  pc_labels : m_Labels (sts_Meta ss) = labels ∧ sts_MatchLabels ss = labels ∧ t_Labels (sts_Template ss) = labels;
  pc_replicas : sts_Replicas ss = GetNodesPerRacks cc k ∧ sts_Partition ss = GetRollingPartitionPerRacks cc k ∧
    sts_UpdateStrategy ss = "RollingUpdate" ∧ sts_Status ss = StsStatus_zero;
  pc_affinity : t_Affinity (sts_Template ss) = Some (mkAffinity (createNodeAffinity nodeSelector)
    (createPodAntiAffinity (HardAntiAffinity (cc_Spec cc)) (LabelsForCassandra cc))) }.

Lemma bootstrap_name cc st b : createCassandraBootstrapContainer cc st = Ret b →
  c_Name b = bootstrapContainerName ∧ c_Env b = bootstrapContainerEnvVar cc st.
Proof. unfold createCassandraBootstrapContainer. destruct initContainerResources; [|done]. by inv_ret. Qed.
Lemma base_name cc b : createBaseConfigBuilderContainer cc = Ret b → c_Name b = cassBaseConfigBuilderName.
Proof. unfold createBaseConfigBuilderContainer. destruct initContainerResources; [|done]. by inv_ret. Qed.
Lemma config_name cc st k b : createInitConfigContainer cc st k = Ret b → c_Name b = cassConfigBuilderName.
Proof.
  unfold createInitConfigContainer. destruct (initContainerEnvVar _ _ _ _); [|done].
  destruct initContainerResources; [|done]. by inv_ret.
Qed.

Lemma generate_pieces cc st dcName k labels nodeSelector refs ss :
  generateCassandraStatefulSet cc st dcName k labels nodeSelector refs = Ret (Ok ss) →
  ∃ containers base init boot, pieces cc st dcName k labels nodeSelector refs ss containers base init boot.
Proof.
  unfold generateCassandraStatefulSet.
  destruct (generateVolumeClaimTemplate cc labels dcName) as [[claims|]|] eqn:Hc; [|done..]. cbn -[find_map].
  destruct (generateContainers cc k) as [containers|] eqn:Hcs; [|done]. cbn -[find_map].
  destruct (RemoveDuplicateVolumesAndVolumeMounts _ _ _) as [cs vols] eqn:Hrm.
  destruct (createBaseConfigBuilderContainer cc) as [base|] eqn:Hb; [|done]. cbn -[find_map].
  destruct (createInitConfigContainer cc st k) as [init|] eqn:Hi; [|done]. cbn -[find_map].
  destruct (createCassandraBootstrapContainer cc st) as [boot|] eqn:Hbt; [|done]. cbn -[find_map].
  destruct (bootstrap_name _ _ _ Hbt) as [Hn He].
  assert (find_map (λ c, if c_Name c == bootstrapContainerName then Some c else None) [base; init; boot] = Some boot)
    as -> by (simpl; rewrite (base_name _ _ Hb), (config_name _ _ _ _ Hi), Hn; reflexivity).
  set (ss0 := addBootstrapContainerEnvVarsToSidecars _ _). destruct (SetLastApplied_frame ss0) as [a ->].
  inv_ret. exists containers, base, init, boot. subst ss0.
  split; cbn -[RemoveDuplicateVolumesAndVolumeMounts bootstrapContainerEnvVar]; rewrite ?Hrm, <- ?He; done.
Qed.
End structure.

(** ** Mounts of the Cassandra container *)
Section claim_map.
Context {QL : QuantityLib}.

(** What the nested loops of [volumeClaimMapNameMountPath] build. *)
Definition claim_path (mounts : list VolumeMount) (n : string) (m : gmap string string) : gmap string string :=
  foldl (λ m vm, if n == vm_Name vm then <[n := vm_MountPath vm]> m else m) m mounts.

Lemma claim_path_sound mounts n m k p :
  claim_path mounts n m !! k = Some p → (k = n ∧ mkVolumeMount k p ∈ mounts) ∨ m !! k = Some p.
Proof.
  revert m. induction mounts as [|[vn vp] mounts IH]; intros m; cbn; [by right|].
  intros [[-> Hin]|H]%IH; [left; split; [done|by right]|].
  case_bool_decide as E; [|by right]. subst vn. destruct (decide (k = n)) as [->|Hne].
  - rewrite lookup_insert_eq in H. simplify_eq. left. split; [done|by left].
  - rewrite lookup_insert_ne in H by done. by right.
Qed.

Lemma claim_path_keeps mounts n m k : is_Some (m !! k) → is_Some (claim_path mounts n m !! k).
Proof.
  revert m. induction mounts as [|vm mounts IH]; intros m Hk; cbn; [done|]. apply IH.
  case_bool_decide; [|done]. destruct (decide (k = n)) as [->|]; [by rewrite lookup_insert_eq|by rewrite lookup_insert_ne].
Qed.

Lemma claim_path_complete mounts n m p : mkVolumeMount n p ∈ mounts → is_Some (claim_path mounts n m !! n).
Proof.
  revert m. induction mounts as [|vm mounts IH]; intros m Hin; [by apply not_elem_of_nil in Hin|].
  cbn. apply elem_of_cons in Hin as [<-|Hin]; [|by apply IH].
  apply claim_path_keeps. cbn. rewrite bool_decide_true by done. by rewrite lookup_insert_eq.
Qed.

Lemma claim_paths_sound mounts claims m k p :
  foldl (λ m c, claim_path mounts (m_Name (pvc_Meta c)) m) m claims !! k = Some p →
  (k ∈ claim_names claims ∧ mkVolumeMount k p ∈ mounts) ∨ m !! k = Some p.
Proof.
  revert m. induction claims as [|c claims IH]; intros m; cbn; [by right|]. rewrite elem_of_cons.
  intros [[Hk Hin]|H]%IH; [by left; auto|]. apply claim_path_sound in H as [[-> ?]|?]; auto.
Qed.

Lemma claim_paths_complete mounts claims m k p :
  k ∈ claim_names claims → mkVolumeMount k p ∈ mounts →
  is_Some (foldl (λ m c, claim_path mounts (m_Name (pvc_Meta c)) m) m claims !! k).
Proof.
  assert (∀ claims m k, is_Some (m !! k) →
    is_Some (foldl (λ m c, claim_path mounts (m_Name (pvc_Meta c)) m) m claims !! k)) as Hkeep.
  { clear. intros claims. induction claims as [|c claims IH]; intros m k Hk; cbn; [done|].
    by apply IH, claim_path_keeps. }
  revert m. induction claims as [|c claims IH]; intros m Hk Hin; [by apply not_elem_of_nil in Hk|]. cbn.
  apply elem_of_cons in Hk as [->|Hk]; [|by apply IH]. eapply Hkeep, claim_path_complete, Hin.
Qed.

(** The last container with the name of Cassandra's gives the mounts. *)
Lemma cassandra_mounts_found (side more : list Container) cas :
  c_Name cas = CassandraContainerName → Forall (λ c, c_Name c ≠ CassandraContainerName) more →
  foldl (λ mounts c, if c_Name c == CassandraContainerName then c_VolumeMounts c else mounts) []
    (side ++ cas :: more) = c_VolumeMounts cas.
Proof.
  intros Hc Hmore. rewrite foldl_app. cbn. rewrite bool_decide_true by done.
  generalize (c_VolumeMounts cas). induction Hmore as [|c more Hne _ IH]; intros l; cbn; [done|].
  rewrite bool_decide_false by done. apply IH.
Qed.
End claim_map.

Section mounts.
Context {QL : QuantityLib} {Ord : MapOrder} {Gab : GabsLib} {Annot : AnnotatorLib} {Laws : AnnotatorLaws Annot}.
Implicit Types cc : CassandraCluster.

(** A user's setting of volumes that the generator can honour: distinct names and
    paths, storage only where there is a data claim, and side cars that mount on a
    path of Cassandra's storage only what Cassandra mounts there. *)
Record sound_volumes (cc : CassandraCluster) (dcName : string) : Prop := {
  sv_capacity : StorageConfigs (cc_Spec cc) = [] ∨
    ∃ capacity, GetDataCapacityFromDCName cc dcName = Ret capacity ∧ capacity ≠ "";
  sv_names : NoDup (vm_Name <$> cassandra_mounts cc);
  sv_paths : NoDup (storage_paths cc);
  sv_side_names : Forall (λ c, c_Name c ≠ CassandraContainerName) (SidecarConfigs (cc_Spec cc));
  sv_side : Forall (λ vm, vm_MountPath vm ∉ storage_paths cc ∨ vm ∈ cassandra_mounts cc) (side_mounts cc) }.

Lemma mount_eq cc vm vm' :
  NoDup (vm_Name <$> cassandra_mounts cc) → vm ∈ cassandra_mounts cc → vm' ∈ cassandra_mounts cc →
  vm_Name vm = vm_Name vm' → vm = vm'.
Proof.
  intros Hnd [i Hi]%list_elem_of_lookup [j Hj]%list_elem_of_lookup Hn.
  assert (i = j) as ->; [|congruence].
  eapply NoDup_lookup; [exact Hnd|..]; rewrite list_lookup_fmap; [by rewrite Hi|]. rewrite Hj. cbn. by rewrite Hn.
Qed.

Lemma capacity_empty cc dcName : GetDataCapacityFromDCName cc dcName = Ret "" → DataCapacity (cc_Spec cc) = "".
Proof.
  unfold GetDataCapacityFromDCName. case_bool_decide; [|by intros [= ->]].
  destruct (getDCFromIndex _ _) as [[d|]|]; cbn; [|by intros [= ->]|done].
  case_bool_decide; cbn; [by intros [= ->]|by intros [=]].
Qed.

Lemma elem_of_cassandra_mounts cc vm :
  vm ∈ cassandra_mounts cc →
  vm_Name vm ∈ ["bootstrap"; "extra-lib"; "tools"; "tmp"; "log"] ∨
  (vm = mkVolumeMount "data" "/var/lib/cassandra" ∧ DataCapacity (cc_Spec cc) ≠ "") ∨
  ∃ s, s ∈ StorageConfigs (cc_Spec cc) ∧ vm = mkVolumeMount (sc_Name s) (sc_MountPath s).
Proof.
  unfold cassandra_mounts. rewrite mounts_cassandra, elem_of_app. intros [Hin|(s & -> & Hs)%list_elem_of_fmap]; [|eauto].
  case_bool_decide; set_solver.
Qed.

Section one_cluster.
Context (cc : CassandraCluster) (dcName : string) (claims : list PersistentVolumeClaim).
Context (Hsound : sound_volumes cc dcName).
Context (Hnames : (∃ capacity, GetDataCapacityFromDCName cc dcName = Ret capacity ∧ (capacity = "" ∧ claims = [] ∨
   capacity ≠ "" ∧ claim_names claims = DataPVCName :: (sc_Name <$> StorageConfigs (cc_Spec cc))))).
Let m := foldl (λ m c, claim_path (cassandra_mounts cc) (m_Name (pvc_Meta c)) m) ∅ claims.

Lemma claimed_mount k p : m !! k = Some p → k ∈ claim_names claims ∧ mkVolumeMount k p ∈ cassandra_mounts cc.
Proof. intros [?|H]%claim_paths_sound; [done|]. by rewrite lookup_empty in H. Qed.

Lemma storage_mount s : s ∈ StorageConfigs (cc_Spec cc) → mkVolumeMount (sc_Name s) (sc_MountPath s) ∈ cassandra_mounts cc.
Proof. intros. unfold cassandra_mounts. apply elem_of_app. right. apply list_elem_of_fmap. eauto. Qed.

(** A storage has a claim of its name. *)
Lemma storage_claim s : s ∈ StorageConfigs (cc_Spec cc) → sc_Name s ∈ claim_names claims.
Proof.
  intros Hs. destruct Hnames as (cap & Hcap & [[-> _]|[_ ->]]); [|right; apply list_elem_of_fmap; eauto].
  destruct (sv_capacity _ _ Hsound) as [E|(c & E & Hne)]; [rewrite E in Hs; by apply not_elem_of_nil in Hs|].
  rewrite Hcap in E. by simplify_eq.
Qed.

(** A mount of the operator's own that names a claim is the one of the data. *)
Lemma operator_claim o :
  o ∈ generateContainerVolumeMount cc cassandraContainer → vm_Name o ∈ claim_names claims →
  o = mkVolumeMount "data" "/var/lib/cassandra" ∧ DataCapacity (cc_Spec cc) ≠ "".
Proof.
  intros Ho Hk. pose proof (sv_names _ _ Hsound) as Hnd. unfold cassandra_mounts in Hnd. rewrite fmap_app in Hnd.
  apply NoDup_app in Hnd as (_ & Hdisj & _).
  destruct Hnames as (cap & _ & [[_ E]|[_ E]]); rewrite E in Hk; [by apply not_elem_of_nil in Hk|].
  apply elem_of_cons in Hk as [Hk|(s & Hk & Hs)%list_elem_of_fmap].
  - assert (Forall (λ o, vm_Name o = DataPVCName → o = mkVolumeMount "data" "/var/lib/cassandra" ∧
      DataCapacity (cc_Spec cc) ≠ "") (generateContainerVolumeMount cc cassandraContainer)) as Hall.
    { rewrite mounts_cassandra. case_bool_decide; repeat constructor; done. }
    rewrite Forall_forall in Hall. by apply Hall.
  - exfalso. eapply (Hdisj (vm_Name o)); [by apply list_elem_of_fmap_2|]. rewrite Hk.
    apply list_elem_of_fmap. eexists. split; [|apply list_elem_of_fmap; eauto]. done.
Qed.

(** A claim is mounted on a storage path. *)
Lemma claimed_path k p : m !! k = Some p → p ∈ storage_paths cc.
Proof.
  intros [Hk Hin]%claimed_mount. unfold storage_paths. apply elem_of_app.
  unfold cassandra_mounts in Hin. apply elem_of_app in Hin as [Hop|(s & [= -> ->] & Hs)%list_elem_of_fmap].
  - destruct (operator_claim _ Hop Hk) as [[= -> ->] Hd]. left. rewrite bool_decide_false by done. by left.
  - right. apply list_elem_of_fmap. eauto.
Qed.

(** Every claim that the Cassandra container mounts is in the map, with its path. *)
Lemma claim_in_map vm :
  vm ∈ cassandra_mounts cc → vm_Name vm ∈ claim_names claims → m !! vm_Name vm = Some (vm_MountPath vm).
Proof.
  destruct vm as [n p]. cbn. intros Hin Hn.
  destruct (claim_paths_complete (cassandra_mounts cc) claims ∅ n p Hn Hin) as [p' Hp']. fold m in Hp'.
  destruct (claimed_mount _ _ Hp') as [_ Hin'].
  assert (mkVolumeMount n p' = mkVolumeMount n p) as [= ->]; [|done]. by eapply mount_eq; [apply Hsound|..].
Qed.

(** A mount has a claim or a volume of the operator. *)
Lemma mount_source vm :
  vm ∈ cassandra_mounts cc → vm_Name vm ∈ claim_names claims ∨
  vm_Name vm ∈ ["bootstrap"; "extra-lib"; "tools"; "tmp"; "log"].
Proof.
  intros Hin. destruct (elem_of_cassandra_mounts _ _ Hin) as [Hop|[[-> Hd]|(s & Hs & ->)]]; [by right|left..].
  - destruct Hnames as (cap & Hcap & [[-> _]|[_ ->]]); [by apply capacity_empty in Hcap|]. by left.
  - by apply storage_claim.
Qed.

Lemma NoDup_filtered_paths (l : list VolumeMount) f :
  NoDup (vm_MountPath <$> l) → NoDup (vm_MountPath <$> List.filter f l).
Proof.
  induction l as [|x l IH]; cbn; [done|]. intros [Hn Hnd]%NoDup_cons. destruct (f x); [|auto].
  cbn. apply NoDup_cons. split; [|auto]. intros (y & Hy & Hin)%list_elem_of_fmap.
  apply elem_of_List_filter in Hin as [Hin _]. apply Hn. rewrite Hy. by apply list_elem_of_fmap_2.
Qed.

(** Among the mounts that stay, no two are on the same path. *)
Lemma unshadowed_paths :
  NoDup (vm_MountPath <$> List.filter (λ vm, negb (shadowed m vm)) (cassandra_mounts cc)).
Proof.
  pose proof (sv_paths _ _ Hsound) as Hpaths. unfold storage_paths in Hpaths.
  apply NoDup_app in Hpaths as (_ & Hdisj & Hsp).
  unfold cassandra_mounts. rewrite List.filter_app, fmap_app. apply NoDup_app. split_and!.
  - apply NoDup_filtered_paths. rewrite mounts_cassandra.
    case_match; cbn; apply (bool_decide_unpack _); vm_compute; exact I.
  - intros p (o & -> & [Ho Hno]%elem_of_List_filter)%list_elem_of_fmap (vm & Hp & [Hvm _]%elem_of_List_filter)%list_elem_of_fmap.
    apply list_elem_of_fmap in Hvm as (s & -> & Hs). cbn in Hp.
    apply negb_true_iff, not_true_iff_false in Hno. rewrite shadowed_spec in Hno.
    destruct (m !! vm_Name o) as [po|] eqn:Hmo.
    + destruct (claimed_mount _ _ Hmo) as [Hko _]. destruct (operator_claim _ Ho Hko) as [-> Hd].
      eapply (Hdisj "/var/lib/cassandra"); [rewrite bool_decide_false by done; by left|].
      cbn in Hp. rewrite Hp. by apply list_elem_of_fmap_2.
    + destruct Hno. split; [done|]. exists (sc_Name s). rewrite Hp.
      apply (claim_in_map _ (storage_mount _ Hs) (storage_claim _ Hs)).
  - apply NoDup_filtered_paths. unfold generateStorageConfigVolumesMount. by rewrite <- list_fmap_compose.
Qed.
End one_cluster.

(** No volume of a mount that stays is removed. *)
Lemma kept_volume cc dcName claims (side more : list Container) cas vm :
  sound_volumes cc dcName →
  (∃ capacity, GetDataCapacityFromDCName cc dcName = Ret capacity ∧ (capacity = "" ∧ claims = [] ∨
     capacity ≠ "" ∧ claim_names claims = DataPVCName :: (sc_Name <$> StorageConfigs (cc_Spec cc)))) →
  side = SidecarConfigs (cc_Spec cc) → c_VolumeMounts cas = cassandra_mounts cc →
  Forall (λ c, c_Name c = "backrest-sidecar" ∧
      ∀ vm, vm ∈ c_VolumeMounts c → vm ∈ side_mounts cc ∨ vm ∈ cassandra_mounts cc) more →
  let m := foldl (λ m c, claim_path (cassandra_mounts cc) (m_Name (pvc_Meta c)) m) ∅ claims in
  vm ∈ cassandra_mounts cc → shadowed m vm = false →
  vm_Name vm ∉ shadowed_names m (all_mounts (side ++ cas :: more)).
Proof.
  intros Hsound Hnames -> Hcas Hmore m Hin Hns (vm' & Hn & [Hin' Hs]%elem_of_List_filter)%list_elem_of_fmap.
  assert (vm' ∈ cassandra_mounts cc) as Hin2.
  { assert (vm' ∈ side_mounts cc ∨ vm' ∈ cassandra_mounts cc) as [Hside|?]; [|pose proof (sv_side _ _ Hsound) as Hall|done].
    - unfold all_mounts in Hin'. rewrite bind_app in Hin'. cbn [mbind list_bind] in Hin'.
      rewrite !elem_of_app, Hcas in Hin'. destruct Hin' as [?|[?|Hb]]; [|by right|].
      + left. unfold side_mounts. apply elem_of_app. by left.
      + apply list_elem_of_bind in Hb as (c & Hc & Hcin). rewrite Forall_forall in Hmore. by eapply Hmore.
    - rewrite Forall_forall in Hall. destruct (Hall _ Hside) as [Hp|?]; [|done]. destruct Hp.
      apply shadowed_spec in Hs as [_ [key Hkey]]. by eapply claimed_path. }
  assert (vm = vm') as <- by (by eapply mount_eq; [apply Hsound|..]). congruence.
Qed.

(** C12: where the setting of the volumes is one the generator can honour
    ([sound_volumes]: storage of the user only where the data centre has a data
    capacity, distinct names of Cassandra's mounts and distinct paths of its storage, no
    side car called like the Cassandra container, and side cars that mount on a path of
    Cassandra's storage only what Cassandra mounts there), the Cassandra container in
    the statefulset of a rack mounts only what the statefulset declares, a volume or a
    claim template, and no two mounts are on the same path: the volumes of the operator
    give way to the storage the user configured on the same path.  (Without a capacity
    it does not: [storage_without_capacity].) *)
Theorem cassandra_mounts_declared (cc : CassandraCluster) (st : CassandraClusterStatus) (dcName k : string)
    (labels nodeSelector : gmap string string) (refs : list OwnerReference) (ss : StatefulSet)
    (Hgen : generateCassandraStatefulSet cc st dcName k labels nodeSelector refs = Ret (Ok ss))
    (Hsound : sound_volumes cc dcName) :
  ∃ c, c ∈ t_Containers (sts_Template ss) ∧ c_Name c = CassandraContainerName ∧
    (∀ vm, vm ∈ c_VolumeMounts c → vm_Name vm ∈ declared ss) ∧
    NoDup (vm_MountPath <$> c_VolumeMounts c) ∧
    (∀ s, s ∈ StorageConfigs (cc_Spec cc) → mkVolumeMount (sc_Name s) (sc_MountPath s) ∈ c_VolumeMounts c).
Proof.
  destruct (generate_pieces _ _ _ _ _ _ _ _ Hgen) as (containers & base & init & boot & P).
  pose proof (generateVolumeClaimTemplate_Ok _ _ _ _ (pc_claims _ _ _ _ _ _ _ _ _ _ _ _ P)) as Hnames.
  destruct (generateContainers_Ret _ _ _ (pc_containers _ _ _ _ _ _ _ _ _ _ _ _ P)) as (cas & more & Hcas & -> & Hmore).
  apply createCassandraContainer_Ret in Hcas as (Hname & Hm & _).
  pose proof (pc_deduped _ _ _ _ _ _ _ _ _ _ _ _ P) as Hcs. pose proof (pc_volumes _ _ _ _ _ _ _ _ _ _ _ _ P) as Hvols.
  unfold RemoveDuplicateVolumesAndVolumeMounts in Hcs, Hvols. unfold volumeClaimMapNameMountPath in Hcs, Hvols.
  rewrite cassandra_mounts_found, Hm in Hcs, Hvols by (done || by (eapply Forall_impl; [exact Hmore|]; intros ? [-> _])).
  change (foldl _ ∅ _) with (foldl (λ m c, claim_path (cassandra_mounts cc) (m_Name (pvc_Meta c)) m) ∅
    (sts_VolumeClaimTemplates ss)) in Hcs, Hvols.
  set (m := foldl _ ∅ _) in *. rewrite removeDuplicate_fold0 in Hcs, Hvols. cbn in Hcs, Hvols.
  exists (unshadow m cas).
  assert (unshadow m cas = cas <| c_VolumeMounts := List.filter (λ vm, negb (shadowed m vm)) (cassandra_mounts cc) |>) as E.
  { unfold unshadow. rewrite bool_decide_true by done. rewrite <- Hm. by destruct cas. }
  split_and!.
  - rewrite Hcs. apply list_elem_of_fmap. exists (unshadow m cas). rewrite E. cbn. rewrite Hname. split; [by rewrite bool_decide_true|].
    apply list_elem_of_fmap. exists cas. split; [done|]. set_solver.
  - by rewrite E.
  - rewrite E. cbn. intros vm [Hin Hns]%elem_of_List_filter. apply negb_true_iff in Hns. unfold declared. rewrite elem_of_app, Hvols.
    destruct (mount_source _ _ _ Hsound Hnames _ Hin) as [?|Hop]; [by right|left].
    eapply volumesWoDupes_keep; [exact Hop|]. by eapply kept_volume.
  - rewrite E. cbn. by eapply unshadowed_paths.
  - rewrite E. cbn. intros s Hs. apply elem_of_List_filter. pose proof (storage_mount _ _ Hs) as Hin. split; [done|].
    apply negb_true_iff, not_true_iff_false. rewrite shadowed_spec. intros [Hnone _].
    pose proof (claim_in_map _ _ _ Hsound _ Hin (storage_claim _ _ _ Hsound Hnames _ Hs)) as Hsome.
    cbn in Hnone, Hsome. fold m in Hsome. congruence.
Qed.
End mounts.

(** ** The result does not depend on the order of maps

    What gabs documents of [SetP] for paths of two steps: it changes what is at its
    path only, and two of them on different paths can be exchanged. *)
Definition no_dot (s : string) : Prop := "."%char ∉ chars s.
Definition path2 (k s : string) : string := k +:+ "." +:+ s.

Class GabsLaws (Gab : GabsLib) := {
  SetP_frame c v k s k' s' :
    no_dot k → no_dot s → no_dot k' → no_dot s' → (k, s) ≠ (k', s') →
    gabs_Path (gabs_SetP c v (path2 k s)) (path2 k' s') = gabs_Path c (path2 k' s');
  SetP_comm c v v' k s k' s' :
    no_dot k → no_dot s → no_dot k' → no_dot s' → (k, s) ≠ (k', s') →
    gabs_SetP (gabs_SetP c v (path2 k s)) v' (path2 k' s') =
    gabs_SetP (gabs_SetP c v' (path2 k' s')) v (path2 k s);
}.

Section order.
Context {QL : QuantityLib}.

Lemma map_range_perm2 {A} (O1 O2 : MapOrder) (m : gmap string A) : map_range (MapOrder:=O1) m ≡ₚ map_range (MapOrder:=O2) m.
Proof. by rewrite !map_range_perm. Qed.

Lemma sorted_keys_order {A} (O1 O2 : MapOrder) (m : gmap string A) :
  merge_sort String.le (map_range (MapOrder:=O1) m).*1 = merge_sort String.le (map_range (MapOrder:=O2) m).*1.
Proof.
  apply (Sorted_unique String.le); [apply Sorted_merge_sort, _..|].
  rewrite !merge_sort_Permutation. by rewrite (map_range_perm2 O1 O2).
Qed.

Lemma createNodeAffinity_order (O1 O2 : MapOrder) labels :
  createNodeAffinity (Ord:=O1) labels = createNodeAffinity (Ord:=O2) labels.
Proof. unfold createNodeAffinity. by rewrite (sorted_keys_order O1 O2). Qed.

Context {Gab : GabsLib} {GLaws : GabsLaws Gab}.

(** One default, and all of them in the order of the nested loops. *)
Definition set_default (c : Gabs) (d : string * string * scalar) : Gabs :=
  let '(k, s, v) := d in
  if gabs_unset c (path2 k s) then gabs_SetP c (GData_of v) (path2 k s) else c.
Definition flat_config `{MapOrder} (d : NodeConfig) : list (string * string * scalar) :=
  map_range d ≫= λ '(k, v), (λ '(s, x), (k, s, x)) <$> map_range v.

Lemma setDefaultConfig_flat `{MapOrder} d c : setDefaultConfig d c = foldl set_default c (flat_config d).
Proof.
  unfold setDefaultConfig, flat_config. generalize (map_range d) as l. revert c.
  assert (∀ k (r : list (string * scalar)) c,
    foldl (λ c '(s, x), if gabs_unset c (k +:+ "." +:+ s) then gabs_SetP c (GData_of x) (k +:+ "." +:+ s) else c) c r
    = foldl set_default c ((λ '(s, x), (k, s, x)) <$> r)) as Hin.
  { intros k r. induction r as [|[s x] r IH]; intros c; [done|]. cbn. apply IH. }
  intros c l. revert c. induction l as [|[k v] l IH]; intros c; [done|].
  cbn. rewrite foldl_app, <- IH. by rewrite Hin.
Qed.

Lemma elem_of_flat `{MapOrder} (d : NodeConfig) k s x :
  (k, s, x) ∈ flat_config d ↔ ∃ v, d !! k = Some v ∧ v !! s = Some x.
Proof.
  unfold flat_config. rewrite list_elem_of_bind. split.
  - intros ([k' v] & Hin & Hk%elem_of_map_range). apply list_elem_of_fmap in Hin as ([s' x'] & [= -> -> ->] & Hs%elem_of_map_range). eauto.
  - intros (v & Hk & Hs). exists (k, v). split; [|by apply elem_of_map_range].
    apply list_elem_of_fmap. exists (s, x). split; [done|]. by apply elem_of_map_range.
Qed.

Lemma flat_config_order (O1 O2 : MapOrder) d : flat_config (H:=O1) d ≡ₚ flat_config (H:=O2) d.
Proof.
  unfold flat_config. rewrite (map_range_perm2 O1 O2 d). apply bind_Permutation_ext.
  intros [k v]. by rewrite (map_range_perm2 O1 O2 v).
Qed.

Lemma NoDup_flat `{MapOrder} (d : NodeConfig) : NoDup (flat_config d).*1.
Proof.
  unfold flat_config. pose proof (NoDup_map_range d) as Hnd. revert Hnd. generalize (map_range d) as l.
  induction l as [|[k v] l IH]; intros Hnd; cbn; [constructor|].
  apply NoDup_cons in Hnd as [Hk Hnd]. rewrite fmap_app. apply NoDup_app. split_and!; [| |by apply IH].
  - rewrite <- list_fmap_compose.
    assert (fst ∘ (λ '(s, x), (k, s, x)) <$> map_range v = pair k <$> (map_range v).*1) as ->.
    { rewrite <- list_fmap_compose. apply list_fmap_ext. by intros ? [s x]. }
    apply NoDup_fmap; [intros ??; congruence|]. apply NoDup_map_range.
  - intros [k' s'] Hl Hr. apply list_elem_of_fmap in Hl as (p1 & E1 & ([s1 x1] & -> & _)%list_elem_of_fmap).
    apply list_elem_of_fmap in Hr as (p2 & E2 & ([k2 v2] & Hin & Hl)%list_elem_of_bind).
    apply list_elem_of_fmap in Hin as ([s3 x3] & -> & _). simplify_eq/=. apply Hk.
    apply list_elem_of_fmap. eexists (_, v2). split; [|exact Hl]. done.
Qed.

(** The keys and subkeys of a configuration. *)
Definition no_dots (d : NodeConfig) : Prop :=
  map_Forall (λ k v, no_dot k ∧ map_Forall (λ s _, no_dot s) v) d.

Lemma set_default_comm c k s x k' s' x' :
  no_dot k → no_dot s → no_dot k' → no_dot s' → (k, s) ≠ (k', s') →
  set_default (set_default c (k, s, x)) (k', s', x') = set_default (set_default c (k', s', x')) (k, s, x).
Proof.
  intros Hk Hs Hk' Hs' Hne. unfold set_default, gabs_unset.
  assert ((k', s') ≠ (k, s)) as Hne' by congruence.
  destruct (gabs_Path c (path2 k s)) as [d|] eqn:E, (gabs_Path c (path2 k' s')) as [d'|] eqn:E';
    try destruct (GData_nil d) eqn:Hd; try destruct (GData_nil d') eqn:Hd';
    rewrite ?SetP_frame, ?E, ?E', ?Hd, ?Hd' by done; try done; by apply SetP_comm.
Qed.

Lemma setDefaultConfig_order (O1 O2 : MapOrder) d c :
  no_dots d → setDefaultConfig (Ord:=O1) d c = setDefaultConfig (Ord:=O2) d c.
Proof.
  intros Hd. rewrite !setDefaultConfig_flat. apply foldl_exchange; [|apply flat_config_order].
  intros j1 [[k1 s1] x1] j2 [[k2 s2] x2] b Hne H1 H2.
  assert (∀ j k s x, flat_config (H:=O1) d !! j = Some (k, s, x) → no_dot k ∧ no_dot s) as Hdots.
  { intros j k s x Hj%list_elem_of_lookup_2. rewrite elem_of_flat in Hj. destruct Hj as (v & Hk & Hs).
    destruct (Hd _ _ Hk) as [? Hv]. split; [done|]. exact (Hv _ _ Hs). }
  destruct (Hdots _ _ _ _ H1), (Hdots _ _ _ _ H2). apply set_default_comm; [done..|].
  intros [= -> ->]. apply Hne. eapply NoDup_lookup; [apply (NoDup_flat (H:=O1) d)|..];
    rewrite list_lookup_fmap; [by rewrite H1|by rewrite H2].
Qed.
End order.

Ltac dotless := apply (bool_decide_unpack _); vm_compute; exact I.

(** The quantities written into the source are well formed. *)
Class QuantityConstants (QL : QuantityLib) := {
  parse_half : is_Some (ParseQuantity "0.5");
  parse_halfGi : is_Some (ParseQuantity "0.5Gi");
}.

Section theorems.
Context {QL : QuantityLib}.

Lemma heap_default_no_dots cc resources : no_dots (defaultNodeConfig cc resources).
Proof.
  unfold defaultNodeConfig, jvmOptionName, no_dots, no_dot. apply map_Forall_insert_2; [|dotless].
  split; [case_match; dotless|].
  repeat (apply map_Forall_insert_2; [dotless|]). apply map_Forall_empty.
Qed.

Section deterministic.
Context {Gab : GabsLib} {GLaws : GabsLaws Gab} {Annot : AnnotatorLib}.

(** C39: two runs of the generator on the same resource and status give the same
    statefulset, whatever the order in which Go goes through its maps: the node
    selectors, the volumes and the configuration of the nodes do not depend on it,
    so a reconcile loop without a change does not see one. *)
Theorem generator_deterministic (O1 O2 : MapOrder) (cc : CassandraCluster) (st : CassandraClusterStatus)
    (dcName k : string) (labels nodeSelector : gmap string string) (refs : list OwnerReference) :
  generateCassandraStatefulSet (Ord:=O1) cc st dcName k labels nodeSelector refs =
  generateCassandraStatefulSet (Ord:=O2) cc st dcName k labels nodeSelector refs.
Proof.
  assert (∀ resources, nodeConfigData (Ord:=O1) cc st resources k = nodeConfigData (Ord:=O2) cc st resources k) as Hcfg.
  { intros resources. unfold nodeConfigData.
    destruct (GetDCNameFromDCRackName k); [|done]. cbn -[setDefaultConfig].
    destruct (GetDCFromDCRackName cc k) as [[d|]|]; [|by destruct (GetRackFromDCRackName cc k)|done].
    cbn -[setDefaultConfig]. destruct (GetRackFromDCRackName cc k) as [[r|]|]; [|done..]. cbn -[setDefaultConfig].
    by rewrite (setDefaultConfig_order O1 O2) by apply heap_default_no_dots. }
  assert (createInitConfigContainer (Ord:=O1) cc st k = createInitConfigContainer (Ord:=O2) cc st k) as Hinit.
  { unfold createInitConfigContainer, initContainerEnvVar. by rewrite Hcfg. }
  unfold generateCassandraStatefulSet, RemoveDuplicateVolumesAndVolumeMounts.
  rewrite Hinit, (createNodeAffinity_order O1 O2).
  destruct (generateVolumeClaimTemplate cc labels dcName) as [[claims|]|]; [|done..]. cbn -[find_map].
  destruct (generateContainers cc k) as [cs|]; [|done]. cbn -[find_map].
  by rewrite !removeDuplicate_fold0.
Qed.
End deterministic.

(** ** The generator returns *)
Section total.
Context {Ord : MapOrder} {Gab : GabsLib} {Annot : AnnotatorLib} {Consts : QuantityConstants QL}.

Lemma initContainerResources_Ret : ∃ r, initContainerResources = Ret r.
Proof.
  unfold initContainerResources, MustParse, defaultInitContainerLimitsCPU, defaultInitContainerLimitsMemory,
    defaultInitContainerRequestsCPU, defaultInitContainerRequestsMemory.
  destruct parse_half as [q ->], parse_halfGi as [q' ->]. cbn. eauto.
Qed.

(** What the generator dereferences. *)
Definition defaulted (s : CassandraClusterSpec) : Prop :=
  Forall is_Some [ReadinessInitialDelaySeconds s; ReadinessHealthCheckTimeout s; ReadinessHealthCheckPeriod s;
    LivenessInitialDelaySeconds s; LivenessHealthCheckTimeout s; LivenessHealthCheckPeriod s] ∧
  is_Some (spec_BackRestSidecar s).

Lemma CheckDefaults_defaulted cc : defaulted (cc_Spec (CheckDefaults cc)).
Proof.
  split; [repeat constructor; eexists; reflexivity|].
  destruct (spec_BackRestSidecar (cc_Spec cc)) as [br|] eqn:E; cbn; rewrite E; eauto.
Qed.

Lemma scriptProbe_Ret script d t p f s : is_Some d → is_Some t → is_Some p → ∃ pr, scriptProbe script d t p f s = Ret pr.
Proof. intros [? ->] [? ->] [? ->]. by eexists. Qed.

Lemma containers_Ret cc k d :
  GetDCFromDCRackName cc k = Ret (Some d) → defaulted (cc_Spec cc) → ∃ cs, generateContainers cc k = Ret cs.
Proof.
  intros Hd [Hprobes [br Hbr]]. rewrite !Forall_cons in Hprobes. destruct Hprobes as (? & ? & ? & ? & ? & ? & _).
  assert (∃ c, createCassandraContainer cc k = Ret c) as [c Hc].
  { unfold createCassandraContainer, cassandraResources. rewrite Hd. cbn -[scriptProbe].
    destruct (scriptProbe_Ret "/etc/cassandra/readiness-probe.sh" (ReadinessInitialDelaySeconds (cc_Spec cc))
      (ReadinessHealthCheckTimeout (cc_Spec cc)) (ReadinessHealthCheckPeriod (cc_Spec cc))
      (ReadinessFailureThreshold (cc_Spec cc)) (ReadinessSuccessThreshold (cc_Spec cc))) as [p1 ->]; [done..|].
    cbn -[scriptProbe].
    destruct (scriptProbe_Ret "/etc/cassandra/liveness-probe.sh" (LivenessInitialDelaySeconds (cc_Spec cc))
      (LivenessHealthCheckTimeout (cc_Spec cc)) (LivenessHealthCheckPeriod (cc_Spec cc))
      (LivenessFailureThreshold (cc_Spec cc)) (LivenessSuccessThreshold (cc_Spec cc))) as [p2 ->]; [done..|]. by eexists. }
  unfold generateContainers, backrestSidecarContainer. rewrite Hc, Hbr. cbn. case_match; by eexists.
Qed.

Section one_rack.
Context (cc : CassandraCluster) (Hwf : wf_topology (topology cc)).
Context (dc rack : nat) (d : DC) (r : Rack) (Hd : topology cc !! dc = Some d) (Hr : dc_Rack d !! rack = Some r).
Let k := GetDCRackName (dc_Name d) (rack_Name r).

Lemma claims_Ret labels : ∃ res, generateVolumeClaimTemplate cc labels (dc_Name d) = Ret res ∧
  ((∃ e, res = Err e) ↔ (dc_DataCapacity d ≠ "" ∨ DataCapacity (cc_Spec cc) ≠ "") ∧
     Exists (λ s, sc_PVCSpec s = None) (StorageConfigs (cc_Spec cc))).
Proof.
  unfold generateVolumeClaimTemplate, generateStorageConfigVolumeClaimTemplates.
  rewrite (wf_capacity cc Hwf dc d Hd). destruct (wf_storage_class cc Hwf dc d Hd) as [cls ->]. cbn -[bool_decide].
  set (cap := if dc_DataCapacity d != "" then _ else _).
  assert (cap ≠ "" ↔ dc_DataCapacity d ≠ "" ∨ DataCapacity (cc_Spec cc) ≠ "") as Hne.
  { subst cap. case_bool_decide; cbn; naive_solver. }
  setoid_rewrite <- Hne. setoid_rewrite <- (storage_claims_Err labels). case_bool_decide as Ec.
  - eexists. split; [done|]. naive_solver.
  - destruct (storage_claims labels _) as [pvcs|e]; eexists; (split; [done|]); naive_solver.
Qed.

Lemma config_Ret st : ∃ b, createInitConfigContainer cc st k = Ret b.
Proof.
  unfold createInitConfigContainer, initContainerEnvVar, nodeConfigData, GetDCNameFromDCRackName. unfold k.
  rewrite (wf_split_name cc Hwf dc rack d r Hd Hr), (wf_dc_of_name cc Hwf dc rack d r Hd Hr),
    (wf_rack_of_name cc Hwf dc rack d r Hd Hr).
  destruct initContainerResources_Ret as [res ->]. cbn. eauto.
Qed.

Lemma generate_Ret st labels nodeSelector refs claims :
  defaulted (cc_Spec cc) → generateVolumeClaimTemplate cc labels (dc_Name d) = Ret (Ok claims) →
  ∃ ss, generateCassandraStatefulSet cc st (dc_Name d) k labels nodeSelector refs = Ret (Ok ss).
Proof.
  intros Hdef Hclaims. unfold generateCassandraStatefulSet. rewrite Hclaims. cbn -[find_map].
  destruct (containers_Ret cc k d (wf_dc_of_name cc Hwf dc rack d r Hd Hr) Hdef) as [cs ->]. cbn -[find_map].
  destruct (RemoveDuplicateVolumesAndVolumeMounts _ _ _). destruct (config_Ret st) as [init ->].
  unfold createBaseConfigBuilderContainer, createCassandraBootstrapContainer.
  destruct initContainerResources_Ret as [res ->]. by eexists.
Qed.
End one_rack.

(** C38: for a rack of a well-formed topology and a resource with its defaults the
    generator always returns, without panic; it reports an error exactly when the
    data centre has a capacity and some storage of the user has no claim
    specification. *)
Theorem generator_total (cc : CassandraCluster) (st : CassandraClusterStatus) (dc rack : nat) (d : DC) (r : Rack)
    (labels nodeSelector : gmap string string) (refs : list OwnerReference)
    (Hwf : wf_topology (topology cc)) (Hd : topology cc !! dc = Some d) (Hr : dc_Rack d !! rack = Some r) :
  ∃ res, generateCassandraStatefulSet (CheckDefaults cc) st (dc_Name d) (GetDCRackName (dc_Name d) (rack_Name r))
           labels nodeSelector refs = Ret res ∧
    ((∃ e, res = Err e) ↔
     (dc_DataCapacity d ≠ "" ∨ DataCapacity (cc_Spec cc) ≠ "") ∧
     Exists (λ s, sc_PVCSpec s = None) (StorageConfigs (cc_Spec cc))).
Proof.
  destruct (claims_Ret (CheckDefaults cc) Hwf dc d Hd labels) as ([claims|e] & Hclaims & Herr).
  - destruct (generate_Ret (CheckDefaults cc) Hwf dc rack d r Hd Hr st labels nodeSelector refs claims
      (CheckDefaults_defaulted cc) Hclaims) as [ss Hss]. exists (Ok ss). split; [exact Hss|].
    split; [by intros [? ?]|]. intros H. apply Herr in H as [? ?]. done.
  - exists (Err e). split; [unfold generateCassandraStatefulSet; by rewrite Hclaims|].
    split; [intros _; apply Herr; eauto|eauto].
Qed.
End total.

(** ** The heap *)
Lemma float64_near v : (0 ≤ v < 2 ^ 63)%Z → (Z.abs (float64_of_int64 v - v) ≤ 512)%Z.
Proof.
  intros Hv. unfold float64_of_int64. case_bool_decide as Hs; [lia|]. rewrite (Z.abs_eq v) in * by lia.
  assert (Z.log2 v ≤ 62)%Z as Hl by (apply Z.lt_succ_r; change (Z.succ 62) with 63%Z; apply Z.log2_lt_pow2; lia).
  assert (53 ≤ Z.log2 v)%Z as Hl' by (apply Z.log2_le_pow2; lia).
  set (u := (2 ^ (Z.log2 v - 52))%Z).
  assert (0 < u ≤ 1024)%Z as Hu.
  { split; [apply Z.pow_pos_nonneg; lia|]. change 1024%Z with (2 ^ 10)%Z. apply Z.pow_le_mono_r; lia. }
  pose proof (Z.div_mod v u ltac:(lia)) as Hdm. pose proof (Z.mod_pos_bound v u ltac:(lia)) as Hr.
  rewrite Z.sgn_pos by lia. set (q := (v / u)%Z) in *. set (rm := (v `mod` u)%Z) in *.
  repeat case_bool_decide; cbn; try destruct (Z.odd q); nia.
Qed.

(** C40: the heap the operator gives Cassandra is a quarter of the memory limit in
    whole megabytes, and the initial heap a quarter of it: for every limit an int64
    can hold the rounding of the floating point division costs at most 512 bytes,
    and none below 2^53. *)
Theorem heap_bounds (resources : ResourceRequirements) (memory : Quantity)
    (Hmemory : default ∅ (Limits resources) !! "memory" = Some memory)
    (Hnonzero : Quantity_IsZero memory = false) (Hvalue : (0 ≤ Quantity_Value memory < 2 ^ 63)%Z) :
  ∃ max initial slack, defineJvmMemory resources = mkJvmMemory (Itoa max +:+ "M") (Itoa initial +:+ "M") ∧
    (4 * max * 2 ^ 20 ≤ Quantity_Value memory + slack)%Z ∧
    (Quantity_Value memory - slack < 4 * (max + 1) * 2 ^ 20)%Z ∧
    (4 * initial ≤ max < 4 * (initial + 1))%Z ∧ (0 ≤ initial)%Z ∧
    (0 ≤ slack ≤ 512)%Z ∧ (Quantity_Value memory < 2 ^ 53 → slack = 0)%Z.
Proof.
  unfold defineJvmMemory, resource_get. rewrite Hmemory. cbn -[Z.mul Itoa]. rewrite Hnonzero. cbn -[Z.mul Itoa].
  set (v := Quantity_Value memory) in *. set (f := float64_of_int64 v). change (4 * (1024 * 1024))%Z with (2 ^ 22)%Z.
  assert (Z.abs (f - v) ≤ 512)%Z as Hnear by by apply float64_near.
  assert (v < 2 ^ 53 → f = v)%Z as Hexact.
  { intros. subst f. unfold float64_of_int64. rewrite bool_decide_true by lia. done. }
  assert (0 ≤ f)%Z as Hf by (destruct (decide (v < 2 ^ 53)%Z); [rewrite Hexact; lia|lia]).
  rewrite Z.quot_div_nonneg by lia. set (max := (f / 2 ^ 22)%Z).
  assert (0 ≤ max)%Z by (apply Z.div_pos; lia). rewrite (Z.quot_div_nonneg max) by lia.
  exists max, (max / 4)%Z, (Z.abs (f - v)). pose proof (Z.div_mod f (2 ^ 22) ltac:(lia)) as Hdm.
  pose proof (Z.mod_pos_bound f (2 ^ 22) ltac:(lia)). pose proof (Z.div_mod max 4 ltac:(lia)).
  pose proof (Z.mod_pos_bound max 4 ltac:(lia)). fold max in Hdm. split; [done|].
  split_and!; lia.
Qed.

(** ** Labels and selectors *)
Definition reserved_labels : list string := ["dc-rack"; dcLabel; rackLabel].

(** The keys a service or a budget of the cluster selects on. *)
Lemma cluster_labels_in_rack cc dcName rackName :
  Forall (λ k, m_Labels (cc_Meta cc) !! k = None) reserved_labels →
  LabelsForCassandra cc ⊆ LabelsForCassandraDCRack cc dcName rackName.
Proof.
  unfold reserved_labels. intros Hres. rewrite !Forall_cons in Hres. destruct Hres as (H1 & H2 & H3 & _).
  unfold LabelsForCassandra, LabelsForCassandraDCRack, MergeLabels. cbn [foldl]. rewrite !list_to_map_cons, list_to_map_nil.
  rewrite !(right_id_L ∅ (∪)). apply map_subseteq_spec. intros k v. rewrite !lookup_union_Some_raw.
  intros [Hk|[Hnone Hk]].
  - left. apply lookup_insert_Some in Hk as [[<- <-]|[Hne Hk]]; [by rewrite lookup_insert_eq|].
    rewrite lookup_insert_ne by done.
    apply lookup_insert_Some in Hk as [[<- <-]|[Hne' Hk]]; [by rewrite lookup_insert_eq|]. by rewrite lookup_empty in Hk.
  - right. split; [|done]. rewrite !lookup_insert_None in Hnone. destruct Hnone as [[_ ?] ?].
    rewrite !lookup_insert_None, lookup_empty. naive_solver.
Qed.

Lemma rack_labels_in_template cc dc rack d r :
  topology cc !! dc = Some d → dc_Rack d !! rack = Some r →
  LabelsForCassandraDCRack cc (dc_Name d) (rack_Name r) = (DCRackLabelsAndNodeSelectorForStatefulSet cc dc rack).1.
Proof.
  intros Hd Hr. unfold DCRackLabelsAndNodeSelectorForStatefulSet. rewrite Hd, Hr. cbn -[LabelsForCassandraDCRack].
  unfold MergeLabels. cbn [foldl]. rewrite (right_id_L ∅ (∪)). unfold LabelsForCassandraDCRack, MergeLabels. cbn [foldl].
  rewrite !(right_id_L ∅ (∪)), (assoc_L (∪)). by f_equal.
Qed.

(** The selectors meet the pods: the statefulset selects the labels of its own
    template, the service, the exporter service and the disruption budget of the
    cluster select its pods, and so do the lists the operator makes of the pods of
    the rack; the labels from which a node learns its data centre and rack carry
    their names. *)
Theorem selectors_match_pods `{Ord : MapOrder} `{Gab : GabsLib} {Annot : AnnotatorLib} {Laws : AnnotatorLaws Annot}
    (cc : CassandraCluster) (st : CassandraClusterStatus) (dc rack : nat) (d : DC) (r : Rack)
    (refs : list OwnerReference) (ss : StatefulSet)
    (Hd : topology cc !! dc = Some d) (Hr : dc_Rack d !! rack = Some r)
    (Hreserved : Forall (λ k, m_Labels (cc_Meta cc) !! k = None) reserved_labels)
    (Hgen : generateCassandraStatefulSet cc st (dc_Name d) (GetDCRackName (dc_Name d) (rack_Name r))
              (DCRackLabelsAndNodeSelectorForStatefulSet cc dc rack).1
              (DCRackLabelsAndNodeSelectorForStatefulSet cc dc rack).2 refs = Ret (Ok ss)) :
  let pods := t_Labels (sts_Template ss) in
  sts_MatchLabels ss = pods ∧
  svc_Selector (generateCassandraService cc (LabelsForCassandra cc) []) ⊆ pods ∧
  svc_Selector (generateCassandraExporterService cc (LabelsForCassandra cc) []) ⊆ pods ∧
  (∀ owner max, pdb_MatchLabels (generatePodDisruptionBudget (cc_Name cc) (cc_Namespace cc)
                                   (LabelsForCassandra cc) owner max) ⊆ pods) ∧
  LabelsForCassandraDCRack cc (dc_Name d) (rack_Name r) ⊆ pods ∧
  pods !! dcLabel = Some (dc_Name d) ∧ pods !! rackLabel = Some (rack_Name r).
Proof.
  destruct (generate_pieces _ _ _ _ _ _ _ _ Hgen) as (containers & base & init & boot & P).
  destruct (pc_labels _ _ _ _ _ _ _ _ _ _ _ _ P) as (_ & Hm & Ht). cbn zeta. rewrite Hm, Ht.
  rewrite <- (rack_labels_in_template cc dc rack d r Hd Hr).
  pose proof (cluster_labels_in_rack cc (dc_Name d) (rack_Name r) Hreserved) as Hsub.
  assert (∀ k v, (list_to_map [("app", "cassandracluster"); ("cassandracluster", cc_Name cc);
      ("dc-rack", GetDCRackName (dc_Name d) (rack_Name r)); (dcLabel, dc_Name d); (rackLabel, rack_Name r)]
      : gmap string string) !! k = Some v → LabelsForCassandraDCRack cc (dc_Name d) (rack_Name r) !! k = Some v) as Hlk.
  { intros k v Hk. unfold LabelsForCassandraDCRack, MergeLabels. cbn [foldl]. rewrite (right_id_L ∅ (∪)).
    by apply lookup_union_Some_l. }
  split; [reflexivity|]. split; [exact Hsub|]. split; [exact Hsub|]. split; [intros; exact Hsub|].
  split; [reflexivity|]. split; apply Hlk; reflexivity.
Qed.

(** ** The configuration of the user *)
Section config.
Context {Ord : MapOrder} {Gab : GabsLib} {GLaws : GabsLaws Gab}.

Lemma set_default_keeps c k s k' s' x :
  no_dot k → no_dot s → no_dot k' → no_dot s' →
  gabs_unset c (path2 k s) = false → gabs_Path (set_default c (k', s', x)) (path2 k s) = gabs_Path c (path2 k s).
Proof.
  intros Hk Hs Hk' Hs' Hset. unfold set_default.
  destruct (decide ((k', s') = (k, s))) as [[= -> ->]|Hne]; [by rewrite Hset|].
  case_match; [|done]. by apply SetP_frame.
Qed.

(** What the resource configures stays: where the merged configuration of
    cluster, data centre and rack has a value, the defaults of the operator leave
    it as it is. *)
Theorem user_config_kept (cc : CassandraCluster) (resources : ResourceRequirements) (merged : Gabs) (k s : string)
    (Hk : no_dot k) (Hs : no_dot s) (Hset : gabs_unset merged (path2 k s) = false) :
  gabs_Path (setDefaultConfig (defaultNodeConfig cc resources) merged) (path2 k s) = gabs_Path merged (path2 k s).
Proof.
  rewrite setDefaultConfig_flat.
  assert (∀ k s x, (k, s, x) ∈ flat_config (defaultNodeConfig cc resources) → no_dot k ∧ no_dot s) as Hdots.
  { intros k' s' x (v & Hv & Hx)%elem_of_flat. destruct (heap_default_no_dots cc resources _ _ Hv) as [? Hall].
    split; [done|]. exact (Hall _ _ Hx). }
  revert merged Hset Hdots. generalize (flat_config (defaultNodeConfig cc resources)).
  induction l as [|[[k' s'] x] l IH]; intros merged Hset Hdots; [done|]. cbn [foldl].
  destruct (Hdots k' s' x ltac:(left)) as [Hk' Hs'].
  pose proof (set_default_keeps merged k s k' s' x Hk Hs Hk' Hs' Hset) as Hkeep.
  rewrite IH; [done| |].
  - unfold gabs_unset in *. by rewrite Hkeep.
  - intros k2 s2 x2 Hin. eapply Hdots. by right.
Qed.
End config.
End theorems.

(** ** Instances

    Concrete libraries: maps in the order of [map_to_list] and in the reverse one;
    configurations as texts "path=value;path=value" read into a flat map; an
    annotator that marks the statefulset. *)
#[global] Instance SampleOrder : MapOrder.
Proof. exists (λ A m, map_to_list m). by intros. Defined.
Definition ReverseOrder : MapOrder.
Proof. exists (λ A m, reverse (map_to_list m)). intros. apply reverse_Permutation. Defined.

Definition scalar_text (v : scalar) : string :=
  match v with VStr s => s | VInt z => Itoa z | VBool b => FormatBool b end.
Definition read_assignments (t : string) : gmap string scalar :=
  list_to_map (omap (λ w, match Split w "="%char with [k; v] => Some (k, VStr v) | _ => None end) (Split t ";"%char)).
Definition write_assignments (m : list (string * scalar)) : string :=
  Join ((λ '(k, v), k +:+ "=" +:+ scalar_text v) <$> m) ";".
Definition SampleGabs : GabsLib := {|
  Gabs := gmap string scalar; GData := scalar;
  GData_nil _ := false; GData_of v := v;
  NodeConfig_Marshal d := write_assignments (map_to_list d ≫= λ '(k, v), (λ '(s, x), (path2 k s, x)) <$> map_to_list v);
  ParseJSON := read_assignments;
  gabs_Path c p := c !! p;
  gabs_SetP c v p := <[p := v]> c;
  gabs_DeleteP c p := delete p c;
  gabs_MergeSource c s := s ∪ c;
  gabs_String c := write_assignments (map_to_list c) |}.

Lemma path2_inj k s k' s' : no_dot k → no_dot s → no_dot k' → no_dot s' → path2 k s = path2 k' s' → (k, s) = (k', s').
Proof.
  unfold path2. intros Hk Hs Hk' Hs' E. apply (f_equal (λ p, Split p "."%char)) in E.
  change (Split (k +:+ String "." s) "."%char = Split (k' +:+ String "." s') "."%char) in E.
  rewrite !Split_app, !Split_no_sep in E by done. congruence.
Qed.

#[export] Instance SampleGabs_laws : GabsLaws SampleGabs.
Proof.
  split; intros ??????; cbn; intros.
  - apply lookup_insert_ne. intros E. by apply path2_inj in E.
  - intros. apply insert_insert_ne. intros E. by apply path2_inj in E.
Qed.

Section instances.
#[local] Existing Instance SampleQuantities.
#[local] Existing Instance SampleGabs.
Definition SampleAnnotator : AnnotatorLib := {|
  SetLastAppliedAnnotation s := s <| sts_Meta ::= λ m, m <| m_Annotations := {[ "last-applied" := "x" ]} |> |> |}.
#[local] Existing Instance SampleAnnotator.
#[local] Instance SampleAnnotator_laws : AnnotatorLaws SampleAnnotator.
Proof. split. intros s. eexists. reflexivity. Qed.
#[local] Instance SampleConstants : QuantityConstants SampleQuantities.
Proof. split; eexists; vm_compute; reflexivity. Qed.

(** A cluster with one rack, persistent data, and a storage for the logs. *)
Definition user_storage (name path : string) : StorageConfig :=
  mkStorageConfig path name (Some (mkPVCSpec ["ReadWriteOnce"] None None None)).
Definition gen_cc : CassandraCluster :=
  CheckDefaults ((simple_cluster 1 [simple_dc "dc1" ["rack1"]]) <| cc_Spec ::= λ s, s
    <| DataCapacity := "20Gi" |> <| StorageConfigs := [user_storage "gc-logs" "/var/log/cassandra"] |>
    <| Resources := mkResourceRequirements (Some {[ "memory" := generateResourceQuantity "16Gi" ]}) None |> |>).
Definition gen_status : CassandraClusterStatus := Status_zero <| s_SeedList := Some ["seed-0"; "seed-1"] |>.
Abbreviation gen cc := (generateCassandraStatefulSet cc gen_status "dc1" "dc1-rack1"
    (DCRackLabelsAndNodeSelectorForStatefulSet cc 0 0).1 (DCRackLabelsAndNodeSelectorForStatefulSet cc 0 0).2 []).
Definition seen {A} (f : StatefulSet → A) (o : outcome (result StatefulSet)) : option A :=
  match o with Ret (Ok ss) => Some (f ss) | _ => None end.
Lemma seen_Some {A} (f : StatefulSet → A) o a : seen f o = Some a → ∃ ss, o = Ret (Ok ss) ∧ f ss = a.
Proof. destruct o as [[ss|]|]; cbn; [|done..]. intros [= <-]. eauto. Qed.

(** The mounts of a container and the dangling ones, by name. *)
Definition mounts_of (n : string) (ss : StatefulSet) : list string :=
  (λ vm, vm_Name vm +:+ ":" +:+ vm_MountPath vm) <$>
    all_mounts (List.filter (λ c, c_Name c == n) (t_Containers (sts_Template ss))).
Definition dangling (ss : StatefulSet) : list (string * string) :=
  t_Containers (sts_Template ss) ≫= λ c,
    (λ vm, (c_Name c, vm_Name vm)) <$>
      List.filter (λ vm, negb (bool_decide (vm_Name vm ∈ declared ss))) (c_VolumeMounts c).

(** The storage takes the place of the volume of the logs. *)
Example storage_replaces_log :
  seen (mounts_of "cassandra") (gen gen_cc) =
    Some ["bootstrap:/etc/cassandra"; "extra-lib:/extra-lib"; "tools:/opt/bin"; "data:/var/lib/cassandra";
          "tmp:/tmp"; "gc-logs:/var/log/cassandra"] ∧
  seen dangling (gen gen_cc) = Some [].
Proof. vm_compute. auto. Qed.

Lemma cassandra_mounts_declared_witness :
  ∃ ss, gen gen_cc = Ret (Ok ss) ∧
    ∃ c, c ∈ t_Containers (sts_Template ss) ∧ (∀ vm, vm ∈ c_VolumeMounts c → vm_Name vm ∈ declared ss).
Proof.
  destruct (seen_Some (λ _, tt) (gen gen_cc) tt) as (ss & Hgen & _); [vm_compute; reflexivity|].
  exists ss. split; [exact Hgen|].
  destruct (cassandra_mounts_declared gen_cc gen_status "dc1" "dc1-rack1" _ _ [] ss Hgen) as (c & Hc & _ & Hm & _).
  - split.
    + right. exists "20Gi". split; [vm_compute; reflexivity|discriminate].
    + apply (bool_decide_unpack _). vm_compute. exact I.
    + apply (bool_decide_unpack _). vm_compute. exact I.
    + apply (bool_decide_unpack _). vm_compute. exact I.
    + apply (bool_decide_unpack _). vm_compute. exact I.
  - exists c. split; [exact Hc|exact Hm].
Defined.

Lemma removeDuplicate_reference_example :
  snd (removeDuplicateVolumeMountsFromContainers
    [Container_zero <| c_Name := "cassandra" |> <| c_VolumeMounts := [mkVolumeMount "log" "/var/log/cassandra"] |>]
    {[ "gc-logs" := "/var/log/cassandra" ]}) = {[ "log" ]}.
Proof. vm_compute. reflexivity. Qed.

Lemma generator_deterministic_witness :
  generateCassandraStatefulSet (Ord:=SampleOrder) gen_cc gen_status "dc1" "dc1-rack1" ∅ {[ "b" := "2"; "a" := "1" ]} [] =
  generateCassandraStatefulSet (Ord:=ReverseOrder) gen_cc gen_status "dc1" "dc1-rack1" ∅ {[ "b" := "2"; "a" := "1" ]} [].
Proof. apply generator_deterministic. Defined.

Definition plain_cc : CassandraCluster := simple_cluster 1 [simple_dc "dc1" ["rack1"]].
Lemma generator_total_witness :
  ∃ res, generateCassandraStatefulSet (CheckDefaults plain_cc) gen_status "dc1" "dc1-rack1" ∅ ∅ [] = Ret res.
Proof.
  destruct (generator_total plain_cc gen_status 0 0 (simple_dc "dc1" ["rack1"]) (Rack_zero <| rack_Name := "rack1" |>)
    ∅ ∅ []) as (res & Hres & _); [|reflexivity|reflexivity|exists res; exact Hres].
  apply (bool_decide_unpack _). vm_compute. exact I.
Defined.

Lemma heap_bounds_witness :
  ∃ max, maxHeapSize (defineJvmMemory (Resources (cc_Spec gen_cc))) = Itoa max +:+ "M" ∧ (4 * max * 2 ^ 20 ≤ 2 ^ 34)%Z.
Proof.
  destruct (heap_bounds (Resources (cc_Spec gen_cc)) (generateResourceQuantity "16Gi")) as (max & ini & slack & E & H1 & _ & _ & _ & _ & H0);
    [vm_compute; reflexivity|vm_compute; reflexivity|vm_compute; split; [discriminate|reflexivity]|].
  assert (Quantity_Value (generateResourceQuantity "16Gi") = (2 ^ 34)%Z) as Hv by (vm_compute; reflexivity).
  rewrite Hv in H1, H0. rewrite H0 in H1 by lia. exists max. rewrite E. split; [reflexivity|lia].
Defined.

Lemma selectors_match_pods_witness :
  ∃ ss, gen gen_cc = Ret (Ok ss) ∧ sts_MatchLabels ss = t_Labels (sts_Template ss) ∧
    t_Labels (sts_Template ss) !! rackLabel = Some "rack1".
Proof.
  destruct (seen_Some (λ _, tt) (gen gen_cc) tt) as (ss & Hgen & _); [vm_compute; reflexivity|].
  exists ss. split; [exact Hgen|].
  destruct (selectors_match_pods gen_cc gen_status 0 0 (simple_dc "dc1" ["rack1"]) (Rack_zero <| rack_Name := "rack1" |>) [] ss)
    as (H1 & _ & _ & _ & _ & _ & H2); [reflexivity|reflexivity|repeat constructor|exact Hgen|].
  split; [exact H1|exact H2].
Defined.

Lemma user_config_kept_witness :
  gabs_Path (setDefaultConfig (defaultNodeConfig gen_cc (Resources (cc_Spec gen_cc)))
               (ParseJSON "jvm-options.max_heap_size=1G")) "jvm-options.max_heap_size" = Some (VStr "1G").
Proof.
  exact (user_config_kept gen_cc (Resources (cc_Spec gen_cc)) (ParseJSON "jvm-options.max_heap_size=1G")
    "jvm-options" "max_heap_size" ltac:(dotless) ltac:(dotless) eq_refl).
Defined.

(** *** What the theorems leave out *)

(** A storage on the path of a volume that a side car mounts too: the volume goes,
    the side car keeps its mount, since its new mounts are as many as the old ones
    and are not stored.  The backup side car is enabled by default. *)
Example sidecar_mount_dangles :
  seen dangling (gen (gen_cc <| cc_Spec ::= λ s, s <| StorageConfigs := [user_storage "scratch" "/tmp"] |> |>)) =
  Some [("backrest-sidecar", "tmp")].
Proof. vm_compute. reflexivity. Qed.

(** A data centre with a capacity of its own and none for the cluster: the claim is
    there and nothing mounts it. *)
Example data_claim_not_mounted :
  seen (λ ss, (claim_names (sts_VolumeClaimTemplates ss), bool_decide ("data:/var/lib/cassandra" ∈ mounts_of "cassandra" ss)))
    (gen (gen_cc <| cc_Spec ::= λ s, s <| StorageConfigs := [] |> <| DataCapacity := "" |>
            <| spec_Topology ::= fmap (λ d, d <| dc_DataCapacity := "20Gi" |>) |> |>)) =
  Some (["data"], false).
Proof. vm_compute. reflexivity. Qed.

(** A storage without a data capacity: it is mounted and has no claim. *)
Example storage_without_capacity :
  seen dangling (gen (gen_cc <| cc_Spec ::= λ s, s <| DataCapacity := "" |> |>)) = Some [("cassandra", "gc-logs")].
Proof. vm_compute. reflexivity. Qed.

(** The heap comes from the limits of the cluster, also where the container has the
    limits of its data centre: here four gigabytes in a container of two. *)
Example heap_ignores_dc_limits :
  let cc := gen_cc <| cc_Spec ::= λ s, s <| spec_Topology ::= fmap (λ d, d <| dc_Resources :=
    mkResourceRequirements (Some {[ "memory" := generateResourceQuantity "2Gi" ]}) None |>) |> |> in
  (nodeConfigData cc gen_status (Resources (cc_Spec cc)) "dc1-rack1" ≫=
     λ c, mret (gabs_Path c "jvm-options.max_heap_size")) = Ret (Some (VStr "4096M")) ∧
  (cassandraResources cc "dc1-rack1" ≫= λ r, mret (Quantity_Value (resource_get (default ∅ (Limits r)) "memory"))) =
    Ret (2048 * 2 ^ 20)%Z.
Proof. vm_compute. auto. Qed.

(** With the version taken from the image, the defaults go under another key than
    the options of the user. *)
Example jvm_options_split :
  let cc := gen_cc <| cc_Spec ::= λ s, s <| CassandraImage := "cassandra:4.0.1" |>
    <| spec_Config := Some "jvm-options=user" |> |> in
  detectServerVersion cc = "4.0.1" ∧
  (nodeConfigData cc gen_status (Resources (cc_Spec cc)) "dc1-rack1" ≫=
     λ c, mret (gabs_Path c "jvm-server-options", gabs_Path c "jvm-options.max_heap_size")) =
  Ret (Some (VStr "user"), Some (VStr "4096M")).
Proof. vm_compute. auto. Qed.
End instances.
