(* ===== verification/PodExec.v ===== *)
(** * Commands on pods (src/pkg/k8s/client_util.go)

    A second client of the API server, made on demand from the environment, and the
    execution of a command in the Cassandra container of a pod.  The state is the
    environment of the process and the two package variables [clientset] and [cfg]; the
    requests made with the client are collected in a log.  client-go is the interface
    [ClientGo]. *)
From S2P Require Import Prelude KubeObjects Types ClusterApi Server K8sUtil Generator.

(** What is read of a pod: its name, its phase and the containers of its specification,
    by name *)
Record ExecPodInfo := mkExecPodInfo { ep_Name : string; ep_Phase : string; ep_Containers : list string }.

(** [v1.PodExecOptions] *)
Record PodExecOptions := mkExecOptions {
  eo_Container : string; eo_Command : list string; eo_Stdin : bool; eo_Stdout : bool; eo_Stderr : bool; eo_TTY : bool }.

Inductive ExecRequest :=
| GetPodInfo (ns name : string)
| NewSPDYExecutor (ns name : string) (opts : PodExecOptions)
| Stream (ns name : string) (opts : PodExecOptions).

(** ** Third-party code *)
Class ClientGo := {
  Config : Type;
  LookupHost : string → result (list string);
  (** reads KUBERNETES_SERVICE_HOST and KUBERNETES_SERVICE_PORT *)
  InClusterConfig : gmap string string → result Config;
  BuildConfigFromFlags : string → result Config;
  (** NewForConfigOrDie panics on a configuration it refuses. *)
  valid_config : Config → bool;
  get_pod : string → string → result ExecPodInfo;
  executor : string → string → PodExecOptions → option error;
  stream : string → string → PodExecOptions → string * string * option error;
}.

Record Globals `{ClientGo} := mkGlobals {
  g_env : gmap string string; g_clientset : option Config; g_cfg : option Config; g_log : list ExecRequest }.
Arguments mkGlobals {_} _ _ _ _.
#[export] Instance eta_Globals `{ClientGo} : Eta Globals := λ x, mkGlobals (g_env x) (g_clientset x) (g_cfg x) (g_log x).

Section client.
Context {Go : ClientGo}.
Abbreviation GM := (GoM Globals).

(** [os.Getenv]: the empty string for a variable that is not set *)
Definition Getenv (k : string) : GM string := gets (λ g, default "" (g_env g !! k)).
Definition Setenv (k v : string) : GM unit := modify (λ g, g <| g_env ::= <[k := v]> |>).
Definition KubeConfigEnvVar : string := "KUBECONFIG".

Definition inClusterConfig : GM (result Config) :=
  host ← Getenv "KUBERNETES_SERVICE_HOST";
  err ← (if bool_decide (String.length host = 0) then
           match LookupHost "kubernetes.default.svc" with
           | Err e => mret (Some e)
           | Ok addrs =>
               addr ← lift (index addrs 0);
               _ ← Setenv "KUBERNETES_SERVICE_HOST" addr; mret None
           end
         else mret None);
  match err with
  | Some e => mret (Err e)
  | None =>
      port ← Getenv "KUBERNETES_SERVICE_PORT";
      _ ← (if bool_decide (String.length port = 0) then Setenv "KUBERNETES_SERVICE_PORT" "443" else mret tt);
      gets (λ g, InClusterConfig (g_env g))
  end.

Definition outOfClusterConfig : GM (result Config) :=
  kubeconfig ← Getenv KubeConfigEnvVar; mret (BuildConfigFromFlags kubeconfig).

(** The package variable [cfg] is assigned before the error is looked at. *)
Definition MustNewKubeClientAndConfig : GM (Config * Config) :=
  kubeconfig ← Getenv KubeConfigEnvVar;
  r ← (if kubeconfig != "" then outOfClusterConfig else inClusterConfig);
  _ ← modify (λ g : Globals, g <| g_cfg := match r with Ok c => Some c | Err _ => None end |>);
  match r with
  | Err _ => panic
  | Ok c => if valid_config c then mret (c, c) else panic
  end.

Definition InitClient : GM unit :=
  clientset ← gets g_clientset;
  match clientset with
  | Some _ => mret tt
  | None =>
      '(c, cfg) ← MustNewKubeClientAndConfig;
      modify (λ g, g <| g_clientset := Some c |> <| g_cfg := Some cfg |>)
  end.

Definition request {A} (r : ExecRequest) (a : A) : GM A := λ g, Ret (a, g <| g_log ::= λ l, l ++ [r] |>).

Definition execOptions (cmd : list string) : PodExecOptions := mkExecOptions "cassandra" cmd false true true false.

Definition ExecPod (namespace : string) (pod : ExecPodInfo) (cmd : list string) : GM (string * string * option error) :=
  if bool_decide (length (ep_Containers pod) ≠ 1)
  then mret ("", "", Some (OtherError "could not determine which container to use"))
  else
    clientset ← gets g_clientset;
    _ ← lift (deref clientset);
    let opts := execOptions cmd in
    err ← request (NewSPDYExecutor namespace (ep_Name pod) opts) (executor namespace (ep_Name pod) opts);
    match err with
    | Some _ => mret ("", "", Some (OtherError "could not init remote executor"))
    | None => request (Stream namespace (ep_Name pod) opts) (stream namespace (ep_Name pod) opts)
    end.

Definition ExecPodFromName (namespace name : string) (cmd : list string) : GM (string * string * option error) :=
  clientset ← gets g_clientset;
  _ ← lift (deref clientset);
  r ← request (GetPodInfo namespace name) (get_pod namespace name);
  match r with
  | Err _ => mret ("", "", Some (OtherError "could not get pod info"))
  | Ok pod =>
      if (ep_Phase pod == "Succeeded") || (ep_Phase pod == "Failed")
      then mret ("", "", Some (OtherError "cannot exec into a container in a completed pod"))
      else ExecPod namespace pod cmd
  end.

(** ** Properties *)

(** A pod that a command may be run in *)
Definition can_exec (pod : ExecPodInfo) : Prop :=
  ep_Phase pod ≠ "Succeeded" ∧ ep_Phase pod ≠ "Failed" ∧ length (ep_Containers pod) = 1.

Ltac refused reqs :=
  do 3 eexists; exists reqs; split; [unfold upd; cbn; rewrite <- ?(assoc_L (++)); reflexivity|]; right;
  split_and!; [done|done|by eexists|set_solver].

(** With a client, the command is run exactly when the pod was read, has not completed,
    has a single container and the executor could be made; it is then run in the
    container "cassandra" of that pod and its outputs are returned.  In every other case
    both outputs are empty, an error is returned and nothing is run. *)
Theorem exec_guarded (ns name : string) (cmd : list string) (g : Globals) (Hclient : is_Some (g_clientset g)) :
  ∃ out err e reqs, ExecPodFromName ns name cmd g = Ret ((out, err, e), g <| g_log ::= λ l, l ++ reqs |>) ∧
    ((∃ pod, get_pod ns name = Ok pod ∧ can_exec pod ∧ executor ns (ep_Name pod) (execOptions cmd) = None ∧
        (out, err, e) = stream ns (ep_Name pod) (execOptions cmd) ∧
        reqs = [GetPodInfo ns name; NewSPDYExecutor ns (ep_Name pod) (execOptions cmd); Stream ns (ep_Name pod) (execOptions cmd)]) ∨
     (out = "" ∧ err = "" ∧ is_Some e ∧ (∀ ns' name' opts, Stream ns' name' opts ∉ reqs))).
Proof.
  destruct Hclient as [c Hc]. unfold ExecPodFromName, ExecPod, request, gets, lift, mbind, GoM_bind. rewrite Hc. cbn.
  destruct (get_pod ns name) as [pod|e] eqn:Hpod; cbn; [|refused [GetPodInfo ns name]].
  case_bool_decide as H1; cbn; [refused [GetPodInfo ns name]|]. case_bool_decide as H2; cbn; [refused [GetPodInfo ns name]|].
  case_bool_decide as H3; cbn; [refused [GetPodInfo ns name]|]. rewrite Hc. cbn.
  destruct (executor ns (ep_Name pod) (execOptions cmd)) as [e|] eqn:Hex.
  { refused [GetPodInfo ns name; NewSPDYExecutor ns (ep_Name pod) (execOptions cmd)]. }
  destruct (stream ns (ep_Name pod) (execOptions cmd)) as [[out err] e] eqn:Hst.
  exists out, err, e. eexists. split; [unfold upd; cbn; by rewrite <- !(assoc_L (++))|].
  left. exists pod. split_and!; done.
Qed.

(** The environment [inClusterConfig] leaves *)
Record in_cluster_env (env env' : gmap string string) : Prop := {
  ic_host : is_Some (env' !! "KUBERNETES_SERVICE_HOST");
  ic_port : is_Some (env' !! "KUBERNETES_SERVICE_PORT");
  ic_rest k : k ≠ "KUBERNETES_SERVICE_HOST" → k ≠ "KUBERNETES_SERVICE_PORT" → env' !! k = env !! k }.

(** A variable that is not empty is set. *)
Lemma getenv_set (env : gmap string string) k : String.length (default "" (env !! k)) ≠ 0 → is_Some (env !! k).
Proof. destruct (env !! k); [by eexists|done]. Qed.

Lemma inClusterConfig_Ok g c g' :
  inClusterConfig g = Ret (Ok c, g') →
  ∃ env', g' = g <| g_env := env' |> ∧ in_cluster_env (g_env g) env' ∧ InClusterConfig env' = Ok c.
Proof.
  unfold inClusterConfig, Getenv, Setenv, gets, modify, lift, mbind, GoM_bind. destruct g as [env cs cf lg]. cbn -[insert lookup].
  case_bool_decide as Hh; cbn -[insert lookup].
  - destruct (LookupHost _) as [addrs|e]; [|done]. destruct (index addrs 0) as [a|]; [|done]. cbn -[insert lookup].
    case_bool_decide as Hp; cbn -[insert lookup]; intros [= Hc <-]; (eexists; split; [reflexivity|]; split; [|done]); split.
    all: unfold upd in *; cbn -[insert lookup] in *.
    1,4: rewrite ?(lookup_insert_ne _ "KUBERNETES_SERVICE_PORT") by done; rewrite lookup_insert_eq; by eexists.
    1: rewrite lookup_insert_eq; by eexists.
    2: by apply getenv_set.
    all: intros k H1 H2; by rewrite !lookup_insert_ne by done.
  - case_bool_decide as Hp; cbn -[insert lookup]; intros [= Hc <-]; (eexists; split; [reflexivity|]; split; [|done]); split.
    all: unfold upd in *; cbn -[insert lookup] in *.
    1: rewrite lookup_insert_ne by done; by apply getenv_set.
    1: rewrite lookup_insert_eq; by eexists.
    1: intros k H1 H2; by rewrite lookup_insert_ne by done.
    1,2: by apply getenv_set.
    done.
Qed.

(** What [InitClient] leaves: a client that was there is kept; a new one is made from the
    file KUBECONFIG names when it is set, and else from the environment of the pod, in
    which the address and the port of the API server are then set. *)
Theorem init_client_source (g g' : Globals) (Hrun : InitClient g = Ret (tt, g')) :
  (is_Some (g_clientset g) ∧ g' = g) ∨
  ∃ c, g_clientset g = None ∧ g_clientset g' = Some c ∧ g_cfg g' = Some c ∧ valid_config c = true ∧ g_log g' = g_log g ∧
    ((default "" (g_env g !! KubeConfigEnvVar) ≠ "" ∧ g_env g' = g_env g ∧
      BuildConfigFromFlags (default "" (g_env g !! KubeConfigEnvVar)) = Ok c) ∨
     (default "" (g_env g !! KubeConfigEnvVar) = "" ∧ InClusterConfig (g_env g') = Ok c ∧
      in_cluster_env (g_env g) (g_env g'))).
Proof.
  unfold InitClient, gets, mbind, GoM_bind in Hrun. destruct (g_clientset g) as [c0|] eqn:Hc; cbn in Hrun.
  { left. split; [done|]. revert Hrun. by intros [= <-]. }
  right. unfold MustNewKubeClientAndConfig, Getenv, gets, mbind, GoM_bind in Hrun. cbn in Hrun.
  case_bool_decide as Hk; cbn in Hrun.
  - destruct (inClusterConfig g) as [[[c|] g1]|] eqn:Hin; [|done..]. destruct (valid_config c) eqn:Hv; [|done].
    apply inClusterConfig_Ok in Hin as (env' & -> & Henv & Hcfg). revert Hrun. intros [= <-].
    exists c. destruct g. split_and!; [done..|]. by right.
  - unfold outOfClusterConfig, Getenv, gets, mbind, GoM_bind in Hrun. cbn in Hrun.
    destruct (BuildConfigFromFlags _) as [c|] eqn:Hb; [|done]. cbn in Hrun. destruct (valid_config c) eqn:Hv; [|done].
    revert Hrun. intros [= <-]. exists c. destruct g. split_and!; [done..|]. by left.
Qed.
End client.

(** ** The pods of the operator *)
Section generated.
Context {QL : QuantityLib} {Ord : MapOrder} {Gab : GabsLib} {Annot : AnnotatorLib} {Laws : AnnotatorLaws Annot}.
Context {Go : ClientGo}.

(** The containers of a generated statefulset: the side cars of the user, Cassandra,
    and the backup side car unless it is disabled. *)
Lemma generated_container_count cc st dcName k labels nodeSelector refs ss :
  generateCassandraStatefulSet cc st dcName k labels nodeSelector refs = Ret (Ok ss) →
  ∃ br, spec_BackRestSidecar (cc_Spec cc) = Some br ∧
    length (t_Containers (sts_Template ss)) =
      length (SidecarConfigs (cc_Spec cc)) + 1 + (if default true (br_Enabled br) then 1 else 0).
Proof.
  intros (containers & base & init & boot & P)%generate_pieces.
  rewrite (pc_deduped _ _ _ _ _ _ _ _ _ _ _ _ P), length_fmap. unfold RemoveDuplicateVolumesAndVolumeMounts.
  rewrite removeDuplicate_fold0. cbn. rewrite length_fmap.
  pose proof (pc_containers _ _ _ _ _ _ _ _ _ _ _ _ P) as Hc. revert Hc. unfold generateContainers.
  destruct (createCassandraContainer cc k) as [cas|]; [|done]. cbn.
  destruct (spec_BackRestSidecar (cc_Spec cc)) as [br|] eqn:Hbr; [|done]. cbn.
  destruct (default true (br_Enabled br)) eqn:Hen.
  - destruct (backrestSidecarContainer cc) as [b|]; [|done]. cbn. inv_ret. exists br. rewrite Hen, !length_app. cbn. split; [done|lia].
  - inv_ret. exists br. rewrite Hen, length_app. cbn. split; [done|lia].
Qed.

(** A command can be run in the pods of a rack only when the user disabled the backup
    side car and has no side car: otherwise [ExecPod] refuses every pod made from the
    rack's template, before any request.  By default the backup side car is enabled. *)
Theorem exec_refused_on_racks (cc : CassandraCluster) (st : CassandraClusterStatus) (dcName k : string)
    (labels nodeSelector : gmap string string) (refs : list OwnerReference) (ss : StatefulSet)
    (ns : string) (pod : ExecPodInfo) (cmd : list string) (g : Globals)
    (Hgen : generateCassandraStatefulSet cc st dcName k labels nodeSelector refs = Ret (Ok ss))
    (Hpod : ep_Containers pod = c_Name <$> t_Containers (sts_Template ss))
    (Hside : SidecarConfigs (cc_Spec cc) ≠ [] ∨ spec_BackRestSidecar (cc_Spec cc) ≫= br_Enabled ≠ Some false) :
  ExecPod ns pod cmd g = Ret (("", "", Some (OtherError "could not determine which container to use")), g).
Proof.
  destruct (generated_container_count _ _ _ _ _ _ _ _ Hgen) as (br & Hbr & Hlen). unfold ExecPod.
  rewrite bool_decide_true; [done|]. rewrite Hpod, length_fmap, Hlen. rewrite Hbr in Hside. cbn in Hside.
  destruct Hside as [Hs|Hs]; [destruct (SidecarConfigs (cc_Spec cc)); [done|cbn; lia]|].
  destruct (br_Enabled br) as [[]|]; cbn; [lia|done|lia].
Qed.
End generated.

(** ** An instance: one pod of a cluster without side cars *)
Module SampleExec.
Definition single_pod : ExecPodInfo := mkExecPodInfo "cc-dc1-rack1-0" "Running" ["cassandra"].
Definition two_containers : ExecPodInfo := mkExecPodInfo "cc-dc1-rack2-0" "Running" ["cassandra"; "backrest-sidecar"].
#[local] Instance sample_client_go : ClientGo := {|
  Config := string;
  LookupHost _ := Ok ["10.0.0.1"];
  InClusterConfig env := match env !! "KUBERNETES_SERVICE_HOST" with
                         | Some host => Ok host | None => Err (OtherError "not in a cluster") end;
  BuildConfigFromFlags path := Ok path;
  valid_config _ := true;
  get_pod ns name := if name == ep_Name single_pod then Ok single_pod
                     else if name == ep_Name two_containers then Ok two_containers else Err NotFound;
  executor _ _ _ := None;
  stream _ name opts := (name +:+ ": " +:+ Join (eo_Command opts) " ", "", None) |}.

Definition no_client : Globals := mkGlobals ∅ None None [].
Definition with_client : Globals := mkGlobals ∅ (Some "10.0.0.1") (Some "10.0.0.1") [].

(** The client is made from the environment of the pod. *)
Example init_in_cluster :
  InitClient no_client =
    Ret (tt, mkGlobals {[ "KUBERNETES_SERVICE_HOST" := "10.0.0.1"; "KUBERNETES_SERVICE_PORT" := "443" ]}
               (Some "10.0.0.1") (Some "10.0.0.1") []).
Proof. reflexivity. Qed.

(** Without [InitClient] the package variable is nil. *)
Example exec_needs_client : ExecPodFromName "ns" (ep_Name single_pod) ["nodetool"; "status"] no_client = Panic.
Proof. reflexivity. Qed.

Lemma exec_guarded_witness :
  is_Some (g_clientset with_client) ∧
  ∃ out err e reqs,
    ExecPodFromName "ns" "cc-dc1-rack1-0" ["nodetool"; "status"] with_client =
      Ret ((out, err, e), with_client <| g_log ::= λ l, l ++ reqs |>) ∧
    out = "cc-dc1-rack1-0: nodetool status" ∧ length reqs = 3.
Proof.
  split; [by eexists|].
  destruct (exec_guarded "ns" "cc-dc1-rack1-0" ["nodetool"; "status"] with_client) as (out & err & e & reqs & Hrun & Hcase);
    [by eexists|].
  exists out, err, e, reqs. split; [exact Hrun|].
  destruct Hcase as [(pod & Hp & _ & _ & Hst & ->)|(-> & _)].
  - cbn in Hp. injection Hp as <-. cbn in Hst. injection Hst as -> -> ->. done.
  - vm_compute in Hrun. discriminate.
Defined.
End SampleExec.
