(* ===== verification/NodeOperations.v ===== *)
(** * Jolokia requests to a Cassandra node (src/controllers/cassandracluster/node_operations.go)

    A node answers with an error text and a decoded JSON value; the code checks
    the dynamic type of the value, and an unchecked type assertion panics. *)
From S2P Require Import Prelude KubeObjects Types ClusterApi K8sUtil Server Pods.

Definition NORMAL : string := "NORMAL".
Definition LEAVING : string := "LEAVING".
Definition DECOMMISSIONED : string := "DECOMMISSIONED".
Definition UNKNOWN : string := "UNKNOWN".

Definition localSystemKeyspaces : list string := ["system"; "system_schema"].
Definition StorageService : string := "org.apache.cassandra.db:type=StorageService".

Definition checkJolokiaErrors (r : result JolokiaResponse) : result JValue :=
  match r with
  | Err e => Err e
  | Ok resp => if jr_Error resp != "" then Err (OtherError (jr_Error resp)) else Ok (jr_Value resp)
  end.

(** The strings of a slice; elements of another type are skipped. *)
Definition strings_of (l : list JValue) : list string :=
  omap (λ v, match v with JString s => Some s | _ => None end) l.

(** [v, _ := x.([]interface{})] and [v, _ := x.(string)] *)
Definition as_slice (v : JValue) : list JValue := match v with JList l => l | _ => [] end.
Definition as_string (v : JValue) : string := match v with JString s => s | _ => "" end.

(** Does the regular expression "datacenter:<dc>" match somewhere in the text?
    Names of data centres and label values hold no special character except the
    dot, which matches any character. *)
Fixpoint match_here (re text : list ascii) : bool :=
  match re, text with
  | [], _ => true
  | c :: re, t :: text => ((c == "."%char) && (t != "010"%char) || (c == t)) && match_here re text
  | _, [] => false
  end.
Fixpoint match_anywhere (re text : list ascii) : bool :=
  match_here re text || match text with [] => false | _ :: text => match_anywhere re text end.
Definition MatchString (re text : string) : bool := match_anywhere (chars re) (chars text).

Section jolokia.
Context {QL : QuantityLib} {W : Type} {Srv : ApiServer W}.

Definition NewJolokiaClient (host secretRef namespace : string) : M W (result JolokiaClient) :=
  if secretRef != "" then
    r ← call (ApiGetSecret namespace secretRef);
    mret match r with
         | Err e => Err e
         | Ok data => Ok (mkJolokiaClient host
                            (Some (default "" (data !! "username"), default "" (data !! "password"))))
         end
  else mret (Ok (mkJolokiaClient host None)).

Definition read (jc : JolokiaClient) (mbean attribute : string) : M W (result JValue) :=
  r ← call (JolokiaRead jc mbean attribute); mret (checkJolokiaErrors r).
Definition executeOperation (jc : JolokiaClient) (operation : string) (args : list string)
  : M W (result JValue) :=
  r ← call (JolokiaExec jc StorageService operation args); mret (checkJolokiaErrors r).

Definition leavingNodes (jc : JolokiaClient) : M W (result (list string)) :=
  r ← read jc StorageService "LeavingNodes";
  mret match r with
       | Err _ => Err (OtherError "cannot get list of leaving nodes")
       | Ok (JList v) => Ok (strings_of v)
       | Ok _ => Err (OtherError "value returned by Jolokia is not a slice")
       end.

Definition hostIDMap (jc : JolokiaClient) : M W (result (gmap string string)) :=
  r ← read jc StorageService "HostIdMap";
  mret match r with
       | Err _ => Err (OtherError "cannot get host id map")
       | Ok (JMap m) =>
           Ok (list_to_map (omap (λ '(k, v), match v with JString s => Some (k, s) | _ => None end) m))
       | Ok _ => Err (OtherError "value returned by Jolokia is not a map")
       end.

Definition keyspaces (jc : JolokiaClient) : M W (result (list string)) :=
  r ← read jc StorageService "Keyspaces";
  mret match r with
       | Err _ => Err (OtherError "cannot get list of keyspaces")
       | Ok (JList v) => Ok (strings_of v)
       | Ok _ => Err (OtherError "value returned by Jolokia is not a slice")
       end.

Definition nonLocalKeyspaces (jc : JolokiaClient) : M W (result (list string)) :=
  r ← keyspaces jc;
  mret match r with
       | Err e => Err e
       | Ok ks => Ok (List.filter (λ k, negb (Contains localSystemKeyspaces k)) ks)
       end.

(** The loops over the keyspaces stop at the first error. *)
Definition NodeCleanupKeyspaces (jc : JolokiaClient) (threads : Z) (ks : list string) : M W (option error) :=
  range_return ks (λ k,
    r ← executeOperation jc "forceKeyspaceCleanup(int,java.lang.String,[Ljava.lang.String;)" [Itoa threads; k; "[]"];
    mret match r with Err e => Some e | Ok _ => None end).

Definition NodeCleanup (jc : JolokiaClient) (threads : Z) : M W (option error) :=
  r ← nonLocalKeyspaces jc;
  match r with Err e => mret (Some e) | Ok ks => NodeCleanupKeyspaces jc threads ks end.

Definition NodeUpgradeSSTablesKeyspaces (jc : JolokiaClient) (ks : list string) (threads : Z)
  : M W (option error) :=
  range_return ks (λ k,
    r ← executeOperation jc "upgradeSSTables(java.lang.String,boolean,int,[Ljava.lang.String;)"
          [k; "true"; Itoa threads; "[]"];
    mret match r with Err e => Some e | Ok _ => None end).

Definition NodeUpgradeSSTables (jc : JolokiaClient) (threads : Z) : M W (option error) :=
  r ← keyspaces jc;
  match r with Err e => mret (Some e) | Ok ks => NodeUpgradeSSTablesKeyspaces jc ks threads end.

Definition NodeRebuild (jc : JolokiaClient) (dc : string) : M W (option error) :=
  r ← executeOperation jc "rebuild(java.lang.String)" [dc];
  mret match r with Err _ => Some (OtherError ("cannot rebuild from " +:+ dc)) | Ok _ => None end.

Definition NodeDecommission (jc : JolokiaClient) (v4 : bool) : M W (option error) :=
  r ← executeOperation jc "decommission" (if v4 then ["true"] else []);
  mret match r with Err _ => Some (OtherError "cannot decommission") | Ok _ => None end.

Definition NodeRemove (jc : JolokiaClient) (hostid : string) : M W (option error) :=
  r ← executeOperation jc "removeNode" [hostid];
  mret match r with Err _ => Some (OtherError ("cannot remove node " +:+ hostid)) | Ok _ => None end.

Definition NodeOperationMode (jc : JolokiaClient) : M W (string * option error) :=
  r ← read jc StorageService "OperationMode";
  mret match r with
       | Err _ => (UNKNOWN, Some (OtherError "cannot get OperationMode"))
       | Ok v => (as_string v, None)
       end.

Definition hasStreamingSessions (jc : JolokiaClient) : M W (bool * option error) :=
  r ← read jc "org.apache.cassandra.net:type=StreamManager" "CurrentStreams";
  mret match r with
       | Err _ => (true, Some (OtherError "cannot get list of current streams"))
       | Ok v => (bool_decide (0 < length (as_slice v)), None)
       end.

(** An element of the list that is not a map panics. *)
Definition hasCompactions (jc : JolokiaClient) (name : string) : M W (bool * option error) :=
  r ← read jc "org.apache.cassandra.db:type=CompactionManager" "Compactions";
  match r with
  | Err _ => mret (true, Some (OtherError "cannot get list of current compactions"))
  | Ok v =>
      found ← range_return (as_slice v) (λ c,
        match c with
        | JMap m =>
            mret match (list_to_map m : gmap string JValue) !! "taskType" with
                 | Some (JString t) => if t == name then Some (true, None) else None
                 | _ => None
                 end
        | _ => panic
        end);
      mret (default (false, None) found)
  end.

Definition hasCleanupCompactions (jc : JolokiaClient) : M W (bool * option error) :=
  hasCompactions jc "Cleanup".
Definition hasUpgradeSSTablesCompactions (jc : JolokiaClient) : M W (bool * option error) :=
  hasCompactions jc "Upgrade sstables".

Definition hasLeavingNodes (jc : JolokiaClient) : M W (bool * option error) :=
  r ← leavingNodes jc;
  mret match r with Err e => (false, Some e) | Ok l => (bool_decide (0 < length l), None) end.

(** A token range that is not a string panics. *)
Definition hasKeyspaceDataInDC (jc : JolokiaClient) (keyspace dc : string) : M W (result bool) :=
  r ← executeOperation jc "describeRingJMX" [keyspace];
  match r with
  | Err _ => mret (Err (OtherError ("cannot describe ring using keyspace " +:+ keyspace)))
  | Ok v =>
      found ← range_return (as_slice v) (λ tokenRange,
        match tokenRange with
        | JString s => mret (if MatchString ("datacenter:" +:+ dc) s then Some true else None)
        | _ => panic
        end);
      mret (Ok (default false found))
  end.

Fixpoint keyspacesWithDataInDC (jc : JolokiaClient) (dc : string) (ks acc : list string)
  : M W (result (list string)) :=
  match ks with
  | [] => mret (Ok acc)
  | k :: ks =>
      r ← hasKeyspaceDataInDC jc k dc;
      match r with
      | Err e => mret (Err e)
      | Ok dataFound => keyspacesWithDataInDC jc dc ks (if dataFound : bool then acc ++ [k] else acc)
      end
  end.

Definition NonLocalKeyspacesInDC (jc : JolokiaClient) (dc : string) : M W (result (list string)) :=
  r ← nonLocalKeyspaces jc;
  match r with Err e => mret (Err e) | Ok ks => keyspacesWithDataInDC jc dc ks [] end.

Definition hasJoiningNodes_node (jc : JolokiaClient) : M W (bool * option error) :=
  r ← read jc StorageService "JoiningNodes";
  mret match r with
       | Err _ => (true, Some (OtherError "cannot check if there are joining nodes"))
       | Ok v => (bool_decide (0 < length (as_slice v)), None)
       end.
End jolokia.
