(* ===== verification/StorageUpsize.v ===== *)
(** * Storage upsize (src/controllers/cassandracluster/storageupsize, storage_upsize_adapter.go)

    A statefulset cannot change the size of its volume claims, so growing the
    storage of a rack deletes the statefulset without its pods, recreates it
    from a snapshot with the new size, grows the claims and waits for the file
    systems and the pods.  [Reconcile_upsize] runs the seven steps in order; a
    step that is already done passes, a step that did something ends the loop.

    The rack view of the source gives access to [rcc.storedStatefulSet] and to the
    status entry of the rack; here both are read from the environment. *)
From S2P Require Import Prelude KubeObjects Types ClusterApi K8sUtil Server Pods FakeCluster Samples Generator.

(** ** actionstep *)
Inductive StepResult :=
| StepError (err : error)
| Break
| Pass.

Definition HasError (r : StepResult) : bool := match r with StepError _ => true | _ => false end.
Definition step_error (r : StepResult) : option error :=
  match r with StepError e => Some e | _ => None end.
Definition ShouldBreakReconcileLoop (r : StepResult) : bool := match r with Pass => false | _ => true end.

(** ** cc.go *)
Inductive CapacityChange := CapacityNoChange | CapacitySyntacticChange | CapacityUpsize | CapacityDownsize.

Section upsize.
Context {QL : QuantityLib} {Codec : StsCodec} {W : Type} {Srv : ApiServer W}.

Definition storage : string := "storage".

Definition silentParseResourceQuantity (qs : string) : Quantity := default Quantity_zero (ParseQuantity qs).

Definition AnalyzeDataCapacityChange (oldCapacity newCapacity : string) : CapacityChange :=
  let oldParsed := silentParseResourceQuantity oldCapacity in
  let newParsed := silentParseResourceQuantity newCapacity in
  if oldCapacity == newCapacity then CapacityNoChange
  else match Quantity_cmp newParsed oldParsed with
       | Eq => CapacitySyntacticChange
       | Gt => CapacityUpsize
       | Lt => CapacityDownsize
       end.

(** ** pvc.go *)

(** The index of the claim template called "data", with its size. *)
Fixpoint findDataCapacity_from (i : Z) (pvc : list PersistentVolumeClaim) : Z * Quantity :=
  match pvc with
  | [] => ((-1)%Z, Quantity_zero)
  | template :: pvc =>
      if m_Name (pvc_Meta template) == DataPVCName then
        match pvc_Requests (pvc_Spec template) with
        | None => (i, Quantity_zero)
        | Some requests => (i, resource_get requests storage)
        end
      else findDataCapacity_from (i + 1) pvc
  end.
Definition findDataCapacity (pvc : list PersistentVolumeClaim) : Z * Quantity := findDataCapacity_from 0 pvc.

Definition set_storage (q : Quantity) (pvc : PersistentVolumeClaim) : PersistentVolumeClaim :=
  pvc <| pvc_Spec ::= λ s, s <| pvc_Requests ::= λ r, Some (<[storage := q]> (default ∅ r)) |> |>.

(** ** sts.go *)
Definition prepareStatefulSetSnapshot (livingStatefulSet : StatefulSet) : result string :=
  Marshal_sts (livingStatefulSet
    <| sts_Meta ::= λ m, m
         <| m_GenerateName := "" |> <| m_SelfLink := "" |> <| m_UID := "" |>
         <| m_ResourceVersion := "" |> <| m_Generation := 0%Z |> <| m_CreationTimestamp := None |>
         <| m_DeletionTimestamp := None |> <| m_DeletionGracePeriodSeconds := None |>
         <| m_ManagedFields := [] |> |>
    <| sts_TypeMeta := ("", "") |>
    <| sts_Status := StsStatus_zero |>).

Definition no_data_pvc : error := OtherError "no data pvc found in statefulSet".

(** The first claim template called "data" gets the size; writing into its nil
    map of requests panics. *)
Fixpoint setNewDataCapacity_templates (q : Quantity) (l : list PersistentVolumeClaim)
  : outcome (option (list PersistentVolumeClaim)) :=
  match l with
  | [] => mret None
  | template :: l =>
      if m_Name (pvc_Meta template) == DataPVCName then
        match pvc_Requests (pvc_Spec template) with
        | None => Panic
        | Some _ => mret (Some (set_storage q template :: l))
        end
      else
        r ← setNewDataCapacity_templates q l;
        mret (option_map (cons template) r)
  end.
Definition setNewDataCapacity (sts : StatefulSet) (dataCapacity : Quantity) : outcome (result StatefulSet) :=
  r ← setNewDataCapacity_templates dataCapacity (sts_VolumeClaimTemplates sts);
  mret match r with
       | Some l => Ok (sts <| sts_VolumeClaimTemplates := l |>)
       | None => Err no_data_pvc
       end.

Definition GetOriginalSts (sts : StatefulSet) : result StatefulSet :=
  Unmarshal_sts (GetOriginalConfiguration sts).

Definition EncodeLastAppliedConfigAnnotation (originalStatefulSet : StatefulSet) : result string :=
  match Marshal_sts originalStatefulSet with
  | Err e => Err e
  | Ok marshal =>
      match DeleteNullInJson marshal with
      | Err e => Err e
      | Ok withoutNulls => zipAndBase64 withoutNulls
      end
  end.

(** Every error is swallowed: the annotation then stays as it is. *)
Definition enrichWithCleanLastAppliedAnnotation (newStatefulSet : StatefulSet) (newDataCapacity : Quantity)
  : outcome StatefulSet :=
  match GetOriginalSts newStatefulSet with
  | Err _ => mret newStatefulSet
  | Ok originalStatefulSet =>
      r ← setNewDataCapacity originalStatefulSet newDataCapacity;
      mret match r with
           | Err _ => newStatefulSet
           | Ok original =>
               match EncodeLastAppliedConfigAnnotation original with
               | Err _ => newStatefulSet
               | Ok lastApplied =>
                   newStatefulSet <| sts_Meta ::= λ m, m
                     <| m_Annotations ::= <[LastAppliedConfig := lastApplied]> |> |>
               end
           end
  end.

Definition applyPVCModification (newStatefulSet : StatefulSet) (newDataCapacity : Quantity)
  : outcome (result StatefulSet) :=
  r ← setNewDataCapacity newStatefulSet newDataCapacity;
  match r with
  | Err e => mret (Err e)
  | Ok sts => sts' ← enrichWithCleanLastAppliedAnnotation sts newDataCapacity; mret (Ok sts')
  end.

Definition doesStatefulSetHaveNewCapacity (cc : CassandraCluster) (livingStatefulSet : StatefulSet) : bool :=
  let requested := silentParseResourceQuantity (DataCapacity (cc_Spec cc)) in
  let '(_, current) := findDataCapacity (sts_VolumeClaimTemplates livingStatefulSet) in
  Quantity_equal requested current.

Definition IsStatefulSetReady (sts : StatefulSet) : bool :=
  bool_decide (st_ReadyReplicas (sts_Status sts) = sts_Replicas sts).
Definition IsStatefulSetNotReady (sts : StatefulSet) : bool := negb (IsStatefulSetReady sts).

(** ** The rack view *)
Definition LivingStatefulSet : M W (option StatefulSet) := gets rcc_storedStatefulSet.
(** Dereferencing it when there is none panics. *)
Definition living : M W StatefulSet := o ← LivingStatefulSet; lift (deref o).
Definition rack_labels (n : CompleteRackName) : M W (gmap string string) :=
  cc ← get_cc; mret (LabelsForCassandraDCRack cc (crn_DcName n) (crn_RackName n)).

(** ** sts_client.go *)
Definition CreateStatefulSet (sts : StatefulSet) : M W (option error) :=
  err ← call (ApiCreateStatefulSet sts);
  mret match err with
       | None => None
       | Some e => if IsAlreadyExists e then Some (OtherError "statefulset already exists")
                   else Some (OtherError "failed to create cassandra statefulset")
       end.

Definition DeleteStatefulSetWithOrphanOption (ns name : string) : M W (option error) :=
  call (ApiDeleteStatefulSet ns name true).

(** ** rackstatus.go *)
Definition isStatefulSetSnapshottedAlready (dcRackStatus : CassandraRackStatus) : bool :=
  rs_Snapshot dcRackStatus != "".

Definition makeOldStatefulSetSnapshot (n : CompleteRackName) : M W StepResult :=
  rs ← rack_status (crn_DcRackName n);
  if isStatefulSetSnapshottedAlready rs then mret Pass
  else
    o ← LivingStatefulSet;
    match o with
    | None => mret (StepError (OtherError "StatefulSet snapshot not exist and StatefulSet itself is not found"))
    | Some livingStatefulSet =>
        match prepareStatefulSetSnapshot livingStatefulSet with
        | Err e => mret (StepError e)
        | Ok json => _ ← set_rack (crn_DcRackName n) (λ r, r <| rs_Snapshot := json |>); mret Break
        end
    end.

Definition unmarshallSnapshottedStatefulSet (n : CompleteRackName) : M W (result StatefulSet) :=
  rs ← rack_status (crn_DcRackName n);
  mret match Unmarshal_sts (rs_Snapshot rs) with
       | Ok sts => Ok sts
       | Err _ => Err (OtherError "cannot unmarshall snapshotted statefulSet for storage upsize")
       end.

Definition startUpsizeAction (n : CompleteRackName) : M W unit :=
  now ← call Now;
  set_rack (crn_DcRackName n) (λ r, r
    <| rs_Phase := Name ClusterPhasePending |>
    <| rs_LastAction ::= λ a, a <| la_Status := StatusOngoing |> <| la_Name := Name ActionStorageUpsize |>
         <| la_StartTime := Some now |> <| la_EndTime := None |> |>).

Definition finalizeUpsizeAction (n : CompleteRackName) : M W unit :=
  now ← call Now;
  set_rack (crn_DcRackName n) (λ r, r
    <| rs_LastAction ::= λ a, a <| la_Status := StatusDone |> <| la_Name := Name ActionStorageUpsize |>
         <| la_EndTime := Some now |> |>
    <| rs_Snapshot := "" |>).

(** ** Steps *)
Definition removeStatefulSetOrphan : M W StepResult :=
  cc ← get_cc;
  o ← LivingStatefulSet;
  match o with
  | None => mret Pass
  | Some sts =>
      if doesStatefulSetHaveNewCapacity cc sts then mret Pass
      else
        err ← DeleteStatefulSetWithOrphanOption (cc_Namespace cc) (m_Name (sts_Meta sts));
        mret match err with Some e => StepError e | None => Break end
  end.

Definition recreateStatefulSetWithNewCapacity (n : CompleteRackName) (newDataCapacity : Quantity)
  : M W StepResult :=
  o ← LivingStatefulSet;
  match o with
  | Some _ => mret Pass
  | None =>
      r ← unmarshallSnapshottedStatefulSet n;
      match r with
      | Err e => mret (StepError e)
      | Ok newStatefulSet =>
          r ← lift (applyPVCModification newStatefulSet newDataCapacity);
          match r with
          | Err e => mret (StepError e)
          | Ok newStatefulSet =>
              err ← CreateStatefulSet newStatefulSet;
              mret match err with Some e => StepError e | None => Break end
          end
      end
  end.

Definition getAllDataPvcs (n : CompleteRackName) : M W (result (list PersistentVolumeClaim)) :=
  cc ← get_cc;
  o ← LivingStatefulSet;
  match o with
  | None => mret (Err (OtherError "cannot fetch PVC list for storage upsize because livingStatefulSet is nil"))
  | Some sts =>
      labels ← rack_labels n;
      '(pvcs, err) ← ListPVC (cc_Namespace cc) labels;
      match err with
      | Some e => mret (Err e)
      | None =>
          let dataPVCs := List.filter
            (λ pvc, HasPrefix (m_Name (pvc_Meta pvc)) (DataPVCName +:+ "-" +:+ m_Name (sts_Meta sts))) pvcs in
          mret (if bool_decide (Z.of_nat (length dataPVCs) = sts_Replicas sts) then Ok dataPVCs
                else Err (OtherError "Number of Data PVCs different than expected Replicas"))
      end
  end.

Definition fetchDataPvcs (n : CompleteRackName) (outputPVCs : list PersistentVolumeClaim)
  : M W (StepResult * list PersistentVolumeClaim) :=
  r ← getAllDataPvcs n;
  mret match r with Err e => (StepError e, outputPVCs) | Ok dataPVCs => (Pass, dataPVCs) end.

Definition requestedCapacity (n : CompleteRackName) : M W Quantity :=
  cc ← get_cc;
  s ← lift (GetDataCapacityFromDCName cc (crn_DcName n));
  mret (silentParseResourceQuantity s).

(** [multierr.Append] *)
Definition multierr_Append (l r : option error) : option error :=
  match l, r with
  | None, _ => r
  | _, None => l
  | Some _, Some _ => Some (OtherError "multiple errors")
  end.

(** [pvc.Spec.Resources.Requests["storage"]]; a nil map reads as empty. *)
Definition requested_storage (pvc : PersistentVolumeClaim) : Quantity :=
  resource_get (default ∅ (pvc_Requests (pvc_Spec pvc))) storage.

Fixpoint ensureAllPVCs_loop (q : Quantity) (pvcs : list PersistentVolumeClaim)
    (anythingChanged : bool) (multiError : option error) : M W (bool * option error) :=
  match pvcs with
  | [] => mret (anythingChanged, multiError)
  | pvc :: pvcs =>
      if requested_storage pvc != q then
        err ← UpdatePVC (set_storage q pvc);
        ensureAllPVCs_loop q pvcs true (multierr_Append multiError err)
      else ensureAllPVCs_loop q pvcs anythingChanged multiError
  end.

Definition ensureAllPVCsHaveNewCapacity (n : CompleteRackName) (dataPVCs : list PersistentVolumeClaim)
  : M W StepResult :=
  q ← requestedCapacity n;
  '(anythingChanged, multiError) ← ensureAllPVCs_loop q dataPVCs false None;
  mret match multiError with
       | Some e => StepError e
       | None => if anythingChanged : bool then Break else Pass
       end.

Definition waitTillAllFilesystemsHaveNewCapacity (n : CompleteRackName)
    (dataPVCs : list PersistentVolumeClaim) : M W StepResult :=
  q ← requestedCapacity n;
  let notResizedYet :=
    List.filter (λ pvc, negb (Quantity_equal (resource_get (pvc_Capacity pvc) storage) q)) dataPVCs in
  mret (if bool_decide (length notResizedYet = 0) then Pass else Break).

Definition waitTillStatefulSetAndAllPodsAreReady (n : CompleteRackName) : M W StepResult :=
  cc ← get_cc;
  sts ← living;
  if negb (doesStatefulSetHaveNewCapacity cc sts) then mret Break
  else if IsStatefulSetReady sts then
    labels ← rack_labels n;
    '(podList, err) ← ListPods (cc_Namespace cc) labels;
    match err with
    | Some e => mret (StepError e)
    | None =>
        if negb (bool_decide (Z.of_nat (length podList) = sts_Replicas sts))
        then mret (StepError (OtherError "Number of pods different than expected Replicas"))
        else if allPodsReady podList then _ ← finalizeUpsizeAction n; mret Pass
        else mret Break
    end
  else mret Break.

(** ** action_api.go *)
Definition ShouldBeStarted (requestedCapacity : string) : M W bool :=
  let requested := silentParseResourceQuantity requestedCapacity in
  sts ← living;
  let '(_, current) := findDataCapacity (sts_VolumeClaimTemplates sts) in
  mret (negb (Quantity_equal requested current)).

Definition IsStarted (dcRackStatus : CassandraRackStatus) : bool :=
  (la_Name (rs_LastAction dcRackStatus) == Name ActionStorageUpsize) &&
  (la_Status (rs_LastAction dcRackStatus) != StatusDone).

(** The steps share the variable [dataPVCs]. *)
Definition upsize_step : Type := list PersistentVolumeClaim → M W (StepResult * list PersistentVolumeClaim).
Definition plain (m : M W StepResult) : upsize_step := λ pvcs, r ← m; mret (r, pvcs).

Definition upsize_steps (n : CompleteRackName) (newDataCapacity : Quantity) : list upsize_step :=
  [ plain (makeOldStatefulSetSnapshot n);
    plain removeStatefulSetOrphan;
    plain (recreateStatefulSetWithNewCapacity n newDataCapacity);
    fetchDataPvcs n;
    λ dataPVCs, plain (ensureAllPVCsHaveNewCapacity n dataPVCs) dataPVCs;
    λ dataPVCs, plain (waitTillAllFilesystemsHaveNewCapacity n dataPVCs) dataPVCs;
    plain (waitTillStatefulSetAndAllPodsAreReady n) ].

Fixpoint run_steps (steps : list upsize_step) (dataPVCs : list PersistentVolumeClaim) : M W (option error) :=
  match steps with
  | [] => mret None
  | executeStep :: steps =>
      '(r, dataPVCs) ← executeStep dataPVCs;
      if HasError r then mret (step_error r)
      else if ShouldBreakReconcileLoop r then mret None
      else run_steps steps dataPVCs
  end.

Definition Reconcile_upsize (n : CompleteRackName) (newDataCapacity : Quantity) : M W (option error) :=
  run_steps (upsize_steps n newDataCapacity) [].

(** The storage of the new statefulset is put back to what the stored one has,
    unless an upsize is running.  Without a "data" claim template the index is
    -1 and the access panics. *)
Definition RevertAnyStorageUpsizeBeyondUpsizeAction (dcRackStatus : CassandraRackStatus)
    (stored newStatefulSet : StatefulSet) : outcome StatefulSet :=
  if negb (IsStarted dcRackStatus) then
    let '(_, current) := findDataCapacity (sts_VolumeClaimTemplates stored) in
    let '(i, requested) := findDataCapacity (sts_VolumeClaimTemplates newStatefulSet) in
    if negb (Quantity_equal requested current) then
      _ ← index (sts_VolumeClaimTemplates newStatefulSet) i;
      mret (newStatefulSet <| sts_VolumeClaimTemplates ::= alter (set_storage current) (Z.to_nat i) |>)
    else mret newStatefulSet
  else mret newStatefulSet.

(** ** storage_upsize_adapter.go *)
Definition UpdateStatusIfStorageUpsize (n : CompleteRackName) : M W bool :=
  _ ← rack_status (crn_DcRackName n);
  cc ← get_cc;
  requested ← lift (GetDataCapacityFromDCName cc (crn_DcName n));
  b ← ShouldBeStarted requested;
  if b : bool then
    _ ← startUpsizeAction n;
    _ ← call (PhaseMetric ClusterPhasePending (cc_Name cc));
    _ ← call (ActionMetric ActionStorageUpsize (cc_Name cc));
    mret true
  else mret false.

Definition ReconcileStorageUpsize (n : CompleteRackName) : M W (option error) :=
  cc ← get_cc;
  _ ← set_rack (crn_DcRackName n) (λ r, r <| rs_Phase := Name ClusterPhasePending |>);
  _ ← call (PhaseMetric ClusterPhasePending (cc_Name cc));
  s ← lift (GetDataCapacityFromDCName cc (crn_DcName n));
  Reconcile_upsize n (generateResourceQuantity s).
End upsize.

(** ** Lemmas *)
Lemma findDataCapacity_from_shift `{QuantityLib} i pvc :
  findDataCapacity_from i pvc =
  (if bool_decide ((findDataCapacity pvc).1 = -1)%Z then (-1)%Z else (i + (findDataCapacity pvc).1)%Z,
   (findDataCapacity pvc).2).
Proof.
  unfold findDataCapacity. assert (∀ j, (0 ≤ j)%Z → ∀ i,
    findDataCapacity_from (i + j) pvc =
    (if bool_decide ((findDataCapacity_from j pvc).1 = -1)%Z then (-1)%Z
     else (i + (findDataCapacity_from j pvc).1)%Z, (findDataCapacity_from j pvc).2)) as Hshift.
  { induction pvc as [|t pvc IH]; intros j Hj k; simpl; [done|].
    case_bool_decide.
    - destruct (pvc_Requests _); simpl; rewrite bool_decide_false by lia; done.
    - rewrite <- IH by lia. f_equal. lia. }
  rewrite <- (Z.add_0_r i) at 1. apply Hshift. lia.
Qed.

Section data_claim.
Context {QL : QuantityLib}.
Implicit Types l : list PersistentVolumeClaim.

(** The claim template whose size the operator manages. *)
Definition is_data (pvc : PersistentVolumeClaim) : Prop := m_Name (pvc_Meta pvc) = DataPVCName.

Lemma findDataCapacity_cons_data pvc l :
  is_data pvc → findDataCapacity (pvc :: l) = (0%Z, requested_storage pvc).
Proof.
  intros Hd. unfold findDataCapacity, is_data, requested_storage in *. simpl.
  rewrite bool_decide_true by done.
  destruct (pvc_Requests _); [done|]. simpl. unfold resource_get. by rewrite lookup_empty.
Qed.

Lemma findDataCapacity_cons_other pvc l :
  ¬ is_data pvc →
  findDataCapacity (pvc :: l) =
  (if bool_decide ((findDataCapacity l).1 = -1)%Z then (-1)%Z else ((findDataCapacity l).1 + 1)%Z,
   (findDataCapacity l).2).
Proof.
  intros Hd. unfold findDataCapacity at 1. simpl. rewrite bool_decide_false by done.
  rewrite findDataCapacity_from_shift. f_equal. case_bool_decide; lia.
Qed.

Lemma findDataCapacity_index l :
  (findDataCapacity l).1 = (-1)%Z ∨ (0 ≤ (findDataCapacity l).1 < Z.of_nat (length l))%Z.
Proof.
  induction l as [|t l IH]; [by left|]. destruct (decide (is_data t)).
  - rewrite findDataCapacity_cons_data by done. simpl. lia.
  - rewrite findDataCapacity_cons_other by done. simpl. case_bool_decide; lia.
Qed.

Lemma requested_storage_set q pvc : requested_storage (set_storage q pvc) = q.
Proof. unfold requested_storage, resource_get. cbn. by rewrite lookup_insert_eq. Qed.

Lemma is_data_set q pvc : is_data (set_storage q pvc) ↔ is_data pvc.
Proof. done. Qed.

(** Changing the size of the template found gives a list with that size. *)
Lemma findDataCapacity_alter q l i c :
  findDataCapacity l = (i, c) → (0 ≤ i)%Z →
  findDataCapacity (alter (set_storage q) (Z.to_nat i) l) = (i, q).
Proof.
  revert i c. induction l as [|t l IH]; intros i c Hf Hi; [unfold findDataCapacity in Hf; simplify_eq/=; lia|].
  destruct (decide (is_data t)) as [Hd|Hd].
  - rewrite findDataCapacity_cons_data in Hf by done. simplify_eq. simpl.
    rewrite findDataCapacity_cons_data by by apply is_data_set. by rewrite requested_storage_set.
  - rewrite findDataCapacity_cons_other in Hf by done.
    destruct (findDataCapacity l) as [j c'] eqn:E. simpl in Hf. case_bool_decide; simplify_eq; [lia|].
    pose proof (findDataCapacity_index l) as Hidx. rewrite E in Hidx. simpl in Hidx.
    replace (Z.to_nat (j + 1)) with (S (Z.to_nat j)) by lia.
    change (alter ?f (S ?k) (t :: l)) with (t :: alter f k l).
    rewrite findDataCapacity_cons_other by done.
    rewrite (IH j c) by (done || lia). simpl. by rewrite bool_decide_false by lia.
Qed.

Lemma setNewDataCapacity_templates_spec q l l' :
  setNewDataCapacity_templates q l = Ret (Some l') →
  (findDataCapacity l').2 = q ∧ length l' = length l ∧
  ∀ i pvc, l !! i = Some pvc → l' !! i = Some pvc ∨ (is_data pvc ∧ l' !! i = Some (set_storage q pvc)).
Proof.
  revert l'. induction l as [|t l IH]; intros l' H; simpl in H; [done|].
  case_bool_decide as Hd.
  - destruct (pvc_Requests _); [|done]. injection H as <-.
    rewrite findDataCapacity_cons_data by by apply is_data_set. simpl.
    rewrite requested_storage_set. split; [done|]. split; [done|].
    intros [|i] pvc Hi; simplify_eq/=; auto.
  - destruct (setNewDataCapacity_templates q l) as [[l1|]|] eqn:E; try done. injection H as <-.
    destruct (IH l1 eq_refl) as (Hq & Hlen & Hl). rewrite findDataCapacity_cons_other by done. simpl.
    split; [done|]. split; [by rewrite Hlen|]. intros [|i] pvc Hi; simplify_eq/=; auto.
Qed.
End data_claim.

Section steps.
Context {QL : QuantityLib} {Codec : StsCodec} {W : Type} {Srv : ApiServer W}.
Implicit Types e : Env W.

Lemma wp_run_steps_cons (step : upsize_step) steps pvcs Q e :
  wp (step pvcs) (λ '(r, p) e',
    if HasError r then Q (step_error r) e'
    else if ShouldBreakReconcileLoop r then Q None e'
    else wp (run_steps steps p) Q e') e →
  wp (run_steps (step :: steps) pvcs) Q e.
Proof.
  intros H. cbn [run_steps]. apply wp_bind. eapply wp_mono; [exact H|].
  intros [r p] e' Hr. cbn beta iota in Hr |- *.
  destruct (HasError r); [by apply wp_ret|]. destruct (ShouldBreakReconcileLoop r); [by apply wp_ret|done].
Qed.

Lemma wp_plain (m : M W StepResult) pvcs Q e :
  wp m (λ r e', Q (r, pvcs) e') e → wp (plain m pvcs) Q e.
Proof. intros H. unfold plain. apply wp_bind. eapply wp_mono; [exact H|]. intros. by apply wp_ret. Qed.

Lemma ensureAllPVCs_loop_quiet (P : Event → Prop) q pvcs b err :
  (∀ pvc a, requested_storage pvc = q → P (Ev _ (ApiUpdatePVC pvc) a)) →
  keeps (quiet P) (ensureAllPVCs_loop (W:=W) q pvcs b err).
Proof.
  intros HP. revert b err. induction pvcs as [|pvc pvcs IH]; intros b err; simpl; keeps_steps; auto.
  apply keeps_quiet_call. intros. apply HP, requested_storage_set.
Qed.

(** ** The recreated statefulset *)
Lemma enrich_spec s q s' :
  enrichWithCleanLastAppliedAnnotation s q = Ret s' →
  sts_VolumeClaimTemplates s' = sts_VolumeClaimTemplates s ∧ sts_Template s' = sts_Template s ∧
  sts_Replicas s' = sts_Replicas s ∧ sts_Partition s' = sts_Partition s ∧
  m_Name (sts_Meta s') = m_Name (sts_Meta s) ∧ m_Namespace (sts_Meta s') = m_Namespace (sts_Meta s).
Proof.
  unfold enrichWithCleanLastAppliedAnnotation. destruct (GetOriginalSts s); [|by intros [= <-]].
  destruct (setNewDataCapacity _ _) as [[o|]|]; [|by intros [= <-]|done].
  cbn. destruct (EncodeLastAppliedConfigAnnotation _); by intros [= <-].
Qed.

(** Only the size of the data claim and the annotation change. *)
Definition resized (s0 s : StatefulSet) (q : Quantity) : Prop :=
  (findDataCapacity (sts_VolumeClaimTemplates s)).2 = q ∧
  length (sts_VolumeClaimTemplates s) = length (sts_VolumeClaimTemplates s0) ∧
  (∀ i pvc, sts_VolumeClaimTemplates s0 !! i = Some pvc →
     sts_VolumeClaimTemplates s !! i = Some pvc ∨
     (is_data pvc ∧ sts_VolumeClaimTemplates s !! i = Some (set_storage q pvc))) ∧
  sts_Template s = sts_Template s0 ∧ sts_Replicas s = sts_Replicas s0 ∧
  sts_Partition s = sts_Partition s0 ∧
  m_Name (sts_Meta s) = m_Name (sts_Meta s0) ∧ m_Namespace (sts_Meta s) = m_Namespace (sts_Meta s0).

Lemma applyPVCModification_resized s0 q s :
  applyPVCModification s0 q = Ret (Ok s) → resized s0 s q.
Proof.
  unfold applyPVCModification, setNewDataCapacity. intros H.
  destruct (setNewDataCapacity_templates _ _) as [[l|]|] eqn:E; try done. cbn in H.
  destruct (enrichWithCleanLastAppliedAnnotation _ _) as [s1|] eqn:E1; [|done]. injection H as <-.
  unfold resized. apply enrich_spec in E1 as (-> & -> & -> & -> & -> & ->). cbn.
  apply setNewDataCapacity_templates_spec in E as (? & ? & ?). repeat split; try done.
Qed.

(** ** What the upsize asks of the API server *)
Definition upsize_request e (n : CompleteRackName) (newDataCapacity : Quantity) (ev : Event) : Prop :=
  match ev with
  | Ev _ r _ =>
      match r with
      | ApiDeleteStatefulSet ns name orphan =>
          orphan = true ∧ ∃ rs sts,
            s_RackStatus (status e) !! crn_DcRackName n = Some rs ∧ rs_Snapshot rs ≠ "" ∧
            rcc_storedStatefulSet e = Some sts ∧ name = m_Name (sts_Meta sts)
      | ApiCreateStatefulSet sts =>
          rcc_storedStatefulSet e = None ∧ ∃ rs s0,
            s_RackStatus (status e) !! crn_DcRackName n = Some rs ∧
            Unmarshal_sts (rs_Snapshot rs) = Ok s0 ∧ resized s0 sts newDataCapacity
      | ApiUpdatePVC pvc =>
          ∃ s, GetDataCapacityFromDCName (rcc_cc e) (crn_DcName n) = Ret s ∧
               requested_storage pvc = silentParseResourceQuantity s
      | ApiListPVC _ _ | ApiListPods _ _ | Now => True
      | _ => False
      end
  end.

Ltac leaf :=
  first [ by apply logs_same
        | eexists; split; [cbn; rewrite <- ?(assoc_L (++)); reflexivity|repeat constructor; eauto 10] ].
Ltac next_step := apply wp_run_steps_cons; try apply wp_plain.
Ltac passes := apply wp_ret; cbn [HasError ShouldBreakReconcileLoop].

Lemma getAllDataPvcs_quiet (P : Event → Prop) n :
  (∀ ns l a, P (Ev _ (ApiListPVC ns l) a)) → keeps (quiet P) (getAllDataPvcs (W:=W) n).
Proof.
  intros HP. unfold getAllDataPvcs, LivingStatefulSet, rack_labels, ListPVC.
  keeps_steps. by apply keeps_quiet_call.
Qed.

(** Once the statefulset lives with its new size the rest of the steps touch
    claims only. *)
Lemma upsize_tail_log n q e pvcs :
  wp (run_steps (drop 3 (upsize_steps n q)) pvcs) (λ _ e', logs (upsize_request e n q) e e') e.
Proof.
  cbn [drop upsize_steps]. next_step. unfold fetchDataPvcs. apply wp_bind.
  eapply wp_keeps; [by apply (getAllDataPvcs_quiet (upsize_request e n q))|].
  intros [dataPVCs|err] e1 (Hlog1 & Hcc1 & _); passes; [|done].
  next_step. unfold ensureAllPVCsHaveNewCapacity, requestedCapacity.
  apply wp_bind, wp_bind, wp_gets, wp_bind, wp_lift. intros s Hs. apply wp_ret. apply wp_bind.
  rewrite Hcc1 in Hs.
  eapply wp_keeps; [apply (ensureAllPVCs_loop_quiet (upsize_request e n q)); simpl; eauto|].
  intros [b [err|]] e2 (Hlog2 & Hcc2 & _); passes; [by etrans|].
  assert (logs (upsize_request e n q) e e2) as Hlog by by etrans.
  destruct b; [done|]. cbn [HasError ShouldBreakReconcileLoop].
  next_step. unfold waitTillAllFilesystemsHaveNewCapacity, requestedCapacity.
  apply wp_bind, wp_bind, wp_gets, wp_bind, wp_lift. intros s' _. apply wp_ret. passes.
  case_bool_decide; cbn [HasError ShouldBreakReconcileLoop]; [|done].
  next_step. eapply wp_mono with (Q := λ _ e3, logs (upsize_request e n q) e2 e3).
  { unfold waitTillStatefulSetAndAllPodsAreReady, living, LivingStatefulSet, rack_labels, ListPods,
      finalizeUpsizeAction. wp_steps; leaf. }
  intros [err| |] e3 Hlog3; cbn [HasError ShouldBreakReconcileLoop run_steps]; try apply wp_ret; by etrans.
Qed.

Lemma Reconcile_upsize_log n q e :
  wp (Reconcile_upsize n q) (λ _ e', logs (upsize_request e n q) e e') e.
Proof.
  unfold Reconcile_upsize, upsize_steps.
  next_step. unfold makeOldStatefulSetSnapshot.
  apply wp_bind, wp_rack_status. intros rs Hrs.
  unfold isStatefulSetSnapshottedAlready. case_bool_decide as Hsnap; cbn [negb].
  { unfold LivingStatefulSet. wp_steps; cbn; leaf. }
  passes. next_step.
  unfold removeStatefulSetOrphan, LivingStatefulSet, DeleteStatefulSetWithOrphanOption.
  apply wp_bind, wp_gets, wp_bind, wp_gets.
  destruct (rcc_storedStatefulSet e) as [sts|] eqn:Ests.
  - destruct (doesStatefulSetHaveNewCapacity (rcc_cc e) sts).
    2: { apply wp_bind, wp_call. intros [err|] w; passes; leaf. }
    passes. next_step. unfold recreateStatefulSetWithNewCapacity, LivingStatefulSet.
    apply wp_bind, wp_gets. rewrite Ests. passes. apply upsize_tail_log.
  - passes. next_step. unfold recreateStatefulSetWithNewCapacity, LivingStatefulSet.
    apply wp_bind, wp_gets. rewrite Ests.
    unfold unmarshallSnapshottedStatefulSet. apply wp_bind, wp_bind, wp_rack_status.
    rewrite Hrs. intros ? [= <-]. apply wp_ret.
    destruct (Unmarshal_sts (rs_Snapshot rs)) as [s0|] eqn:Eu; [|by passes].
    apply wp_bind, wp_lift. intros [s|err] Happly; [|by passes].
    apply applyPVCModification_resized in Happly. unfold CreateStatefulSet.
    apply wp_bind, wp_bind, wp_call. intros [err|] w; apply wp_ret; [destruct (IsAlreadyExists err)|];
      passes; leaf.
Qed.

(** ** Completion *)

(** Evidence, in the answers of the API server, that the rack is resized. *)
Definition upsize_evidence (n : CompleteRackName) e e' : Prop :=
  ∃ sts cap pvcs pods lv lp ns,
    rcc_storedStatefulSet e = Some sts ∧
    doesStatefulSetHaveNewCapacity (rcc_cc e) sts = true ∧ IsStatefulSetReady sts = true ∧
    GetDataCapacityFromDCName (rcc_cc e) (crn_DcName n) = Ret cap ∧
    Ev _ (ApiListPVC ns lv) (Ok pvcs) ∈ log e' ∧
    (let dataPVCs := List.filter (λ pvc, HasPrefix (m_Name (pvc_Meta pvc))
                       (DataPVCName +:+ "-" +:+ m_Name (sts_Meta sts))) pvcs in
     Z.of_nat (length dataPVCs) = sts_Replicas sts ∧
     ∀ pvc, pvc ∈ dataPVCs →
       Quantity_equal (resource_get (pvc_Capacity pvc) storage) (silentParseResourceQuantity cap) = true) ∧
    Ev _ (ApiListPods ns lp) (Ok pods) ∈ log e' ∧
    Z.of_nat (length pods) = sts_Replicas sts ∧ Forall (λ p, IsReady p = true) pods.

Lemma getAllDataPvcs_ok n e :
  wp (getAllDataPvcs n) (λ r e1, quiet (λ _, True) e e1 ∧
    match r with
    | Err _ => True
    | Ok dataPVCs => ∃ sts pvcs lv, rcc_storedStatefulSet e = Some sts ∧
        Ev _ (ApiListPVC (cc_Namespace (rcc_cc e)) lv) (Ok pvcs) ∈ log e1 ∧
        dataPVCs = List.filter (λ pvc, HasPrefix (m_Name (pvc_Meta pvc))
                     (DataPVCName +:+ "-" +:+ m_Name (sts_Meta sts))) pvcs ∧
        Z.of_nat (length dataPVCs) = sts_Replicas sts
    end) e.
Proof.
  apply wp_and; [by apply (getAllDataPvcs_quiet (λ _, True))|].
  unfold getAllDataPvcs, LivingStatefulSet, rack_labels, ListPVC.
  apply wp_bind, wp_gets, wp_bind, wp_gets. destruct (rcc_storedStatefulSet e) as [sts|]; [|done].
  apply wp_bind, wp_bind, wp_gets, wp_ret, wp_bind, wp_bind, wp_call.
  intros [pvcs|err] w; apply wp_ret; cbn [got]; apply wp_ret; [|done].
  case_bool_decide; [|done]. eexists _, _, _. repeat split; [|done].
  cbn. apply elem_of_app. right. by left.
Qed.

Definition not_done (n : CompleteRackName) e : Prop :=
  ∀ rs, s_RackStatus (status e) !! crn_DcRackName n = Some rs → la_Status (rs_LastAction rs) ≠ StatusDone.
Definition done_justified (n : CompleteRackName) e e' : Prop := not_done n e' ∨ upsize_evidence n e e'.

Lemma upsize_tail_done n q e pvcs :
  not_done n e →
  wp (run_steps (drop 3 (upsize_steps n q)) pvcs) (λ _ e', done_justified n e e') e.
Proof.
  intros Hnd. assert (∀ e', status e' = status e → done_justified n e e') as Hsame.
  { intros e' Hst. left. intros rs. rewrite Hst. apply Hnd. }
  cbn [drop upsize_steps]. next_step. unfold fetchDataPvcs. apply wp_bind.
  eapply wp_mono; [apply getAllDataPvcs_ok|]. intros [dataPVCs|err] e1 [Hq1 Hr]; passes.
  2: { apply Hsame. by destruct Hq1 as (_ & _ & ? & _). }
  destruct Hr as (sts & all & lv & Hsts & Hall & -> & Hlen).
  destruct Hq1 as (_ & Hcc1 & Hst1 & Hsto1 & _).
  next_step. unfold ensureAllPVCsHaveNewCapacity, requestedCapacity.
  apply wp_bind, wp_bind, wp_gets, wp_bind, wp_lift. intros cap Hcap. apply wp_ret. apply wp_bind.
  eapply wp_keeps; [by apply (ensureAllPVCs_loop_quiet (λ _, True))|].
  intros [b [err|]] e2 Hq2; passes; [apply Hsame; destruct Hq2 as (_ & _ & ? & _); congruence|].
  pose proof (quiet_log _ _ _ _ Hq2 Hall) as Hall2. destruct Hq2 as (_ & Hcc2 & Hst2 & Hsto2 & _).
  destruct b; cbn [HasError ShouldBreakReconcileLoop]; [apply Hsame; congruence|].
  next_step. unfold waitTillAllFilesystemsHaveNewCapacity, requestedCapacity.
  apply wp_bind, wp_bind, wp_gets, wp_bind, wp_lift. intros cap' Hcap'. apply wp_ret. passes.
  case_bool_decide as Hresized; cbn [HasError ShouldBreakReconcileLoop]; [|apply Hsame; congruence].
  next_step. unfold waitTillStatefulSetAndAllPodsAreReady, living, LivingStatefulSet, rack_labels, ListPods.
  apply wp_bind, wp_gets, wp_bind, wp_bind, wp_gets, wp_lift. intros sts' Hsts'.
  rewrite Hsto2, Hsto1, Hsts in Hsts'. injection Hsts' as <-.
  destruct (doesStatefulSetHaveNewCapacity (rcc_cc e2) sts) eqn:Hcapok; [|passes; apply Hsame; congruence].
  destruct (IsStatefulSetReady sts) eqn:Hready; cbn [negb]; [|passes; apply Hsame; congruence].
  apply wp_bind, wp_bind, wp_gets, wp_ret, wp_bind, wp_bind, wp_call.
  intros [pods|err] w; apply wp_ret; cbn [got]; [|passes; apply Hsame; cbn; congruence].
  case_bool_decide as Hcount; cbn [negb]; [|passes; apply Hsame; cbn; congruence].
  destruct (allPodsReady pods) eqn:Hpods; [|passes; apply Hsame; cbn; congruence].
  unfold finalizeUpsizeAction. apply wp_bind, wp_bind, wp_call. intros t w'. apply wp_set_rack. intros rs Hrs.
  passes. cbn [run_steps]. apply wp_ret. right.
  exists sts, cap, all, pods, lv, (LabelsForCassandraDCRack (rcc_cc e2) (crn_DcName n) (crn_RackName n)),
    (cc_Namespace (rcc_cc e)).
  rewrite Hcc1 in Hcap. rewrite Hcc2, Hcc1 in Hcap', Hcapok |- *. rewrite Hcap' in Hcap. injection Hcap as <-.
  repeat split; try done; cbn; rewrite ?elem_of_app; try by (left; left).
  - intros pvc Hpvc. destruct (Quantity_equal _ _) eqn:Heq; [done|].
    apply nil_length_inv in Hresized. assert (pvc ∈ ([] : list PersistentVolumeClaim)) as Hin.
    { rewrite <- Hresized. apply elem_of_List_filter. by rewrite Heq. }
    by apply elem_of_nil in Hin.
  - left. right. by left.
  - apply Forall_forall. intros p Hp. unfold allPodsReady in Hpods. rewrite forallb_forall in Hpods.
    apply Hpods. by apply list_elem_of_In.
Qed.

Lemma Reconcile_upsize_done n q e :
  not_done n e → wp (Reconcile_upsize n q) (λ _ e', done_justified n e e') e.
Proof.
  intros Hnd. assert (∀ e', status e' = status e → done_justified n e e') as Hsame.
  { intros e' Hst. left. intros rs. rewrite Hst. apply Hnd. }
  unfold Reconcile_upsize, upsize_steps. next_step. unfold makeOldStatefulSetSnapshot.
  apply wp_bind, wp_rack_status. intros rs Hrs.
  destruct (isStatefulSetSnapshottedAlready rs).
  2: { unfold LivingStatefulSet. apply wp_bind, wp_gets.
       destruct (rcc_storedStatefulSet e); [|passes; by apply Hsame].
       destruct (prepareStatefulSetSnapshot _); [|passes; by apply Hsame].
       apply wp_bind, wp_set_rack. intros ? Hrs2. passes. left. intros rs'. cbn [status upd].
       rewrite (on_rack_lookup _ _ _ _ Hrs). intros [= <-]. cbn. by apply Hnd. }
  passes. next_step. unfold removeStatefulSetOrphan, LivingStatefulSet, DeleteStatefulSetWithOrphanOption.
  apply wp_bind, wp_gets, wp_bind, wp_gets.
  destruct (rcc_storedStatefulSet e) as [sts|] eqn:Ests.
  - destruct (doesStatefulSetHaveNewCapacity (rcc_cc e) sts).
    2: { apply wp_bind, wp_call. intros [err|] w; passes; by apply Hsame. }
    passes. next_step. unfold recreateStatefulSetWithNewCapacity, LivingStatefulSet.
    apply wp_bind, wp_gets. rewrite Ests. passes. by apply upsize_tail_done.
  - passes. next_step. unfold recreateStatefulSetWithNewCapacity, LivingStatefulSet.
    apply wp_bind, wp_gets. rewrite Ests. unfold unmarshallSnapshottedStatefulSet, CreateStatefulSet.
    apply wp_bind, wp_bind, wp_rack_status. intros rs1 _. apply wp_ret.
    destruct (Unmarshal_sts _); [|passes; by apply Hsame].
    apply wp_bind, wp_lift. intros [s|err] _; [|passes; by apply Hsame].
    apply wp_bind, wp_bind, wp_call. intros [err|] w; apply wp_ret; [destruct (IsAlreadyExists err)|];
      passes; by apply Hsame.
Qed.
End steps.

(** ** Theorems *)
Section theorems.
Context {QL : QuantityLib} {Codec : StsCodec} {W : Type} {Srv : ApiServer W}.
Implicit Types e : Env W.

(** C10: whatever the API server answers, a loop of the storage upsize deletes a
    statefulset only with the orphan option (its pods keep running) and only when
    a snapshot of it was already stored before the loop began; it creates a
    statefulset only when there is none, and then the one of the snapshot with
    nothing changed but the size of the data claim; it changes claims only to the
    requested size, and makes no other write. *)
Theorem upsize_requests_safe (n : CompleteRackName) (q : Quantity) (e : Env W) (r : option error) (e' : Env W)
    (Hrun : Reconcile_upsize n q e = Ret (r, e')) :
  logs (upsize_request e n q) e e'.
Proof. exact (wp_run _ _ _ _ _ (Reconcile_upsize_log n q e) Hrun). Qed.

(** C26: the upsize of a rack is declared done only on evidence: the statefulset
    that lives has the new size and all its replicas ready, and in this very loop
    the API server listed one data claim per replica, each with a file system of
    the requested size, and one pod per replica, each ready. *)
Theorem upsize_done_justified (n : CompleteRackName) (q : Quantity) (e : Env W) (r : option error)
    (e' : Env W) (rs' : CassandraRackStatus)
    (Hstarted : not_done n e) (Hrun : Reconcile_upsize n q e = Ret (r, e'))
    (Hrs' : s_RackStatus (status e') !! crn_DcRackName n = Some rs')
    (Hdone : la_Status (rs_LastAction rs') = StatusDone) :
  upsize_evidence n e e'.
Proof.
  destruct (wp_run _ _ _ _ _ (Reconcile_upsize_done n q e Hstarted) Hrun) as [Hnd|]; [|done].
  by destruct (Hnd _ Hrs').
Qed.

(** C37: the snapshot a rack stores before its statefulset is deleted brings the
    statefulset back: replicas, pod template, claim templates, update partition,
    names, labels, annotations and owners are those of the living one. *)
Theorem upsize_snapshot_roundtrip (Hjson : StsCodecLaws) (n : CompleteRackName) (e e' : Env W)
    (sts : StatefulSet) (rs : CassandraRackStatus)
    (Hliving : rcc_storedStatefulSet e = Some sts)
    (Hrs : s_RackStatus (status e) !! crn_DcRackName n = Some rs) (Hnone : rs_Snapshot rs = "")
    (Hrun : makeOldStatefulSetSnapshot n e = Ret (Break, e')) :
  ∃ s, unmarshallSnapshottedStatefulSet n e' = Ret (Ok s, e') ∧
    sts_Replicas s = sts_Replicas sts ∧ sts_Template s = sts_Template sts ∧
    sts_VolumeClaimTemplates s = sts_VolumeClaimTemplates sts ∧ sts_Partition s = sts_Partition sts ∧
    m_Name (sts_Meta s) = m_Name (sts_Meta sts) ∧ m_Namespace (sts_Meta s) = m_Namespace (sts_Meta sts) ∧
    m_Labels (sts_Meta s) = m_Labels (sts_Meta sts) ∧
    m_Annotations (sts_Meta s) = m_Annotations (sts_Meta sts) ∧
    m_OwnerReferences (sts_Meta s) = m_OwnerReferences (sts_Meta sts).
Proof.
  revert Hrun. unfold makeOldStatefulSetSnapshot, set_rack, rack_status, get_status, LivingStatefulSet.
  unfold mbind, GoM_bind, gets, lift. cbn. rewrite Hrs. cbn.
  unfold isStatefulSetSnapshottedAlready. rewrite Hnone, bool_decide_true by done. cbn. rewrite Hliving.
  unfold prepareStatefulSetSnapshot.
  match goal with |- context [Marshal_sts ?x] =>
    destruct (Marshal_sts_roundtrip x) as (t & -> & _ & Hback) end.
  cbn. rewrite Hrs. cbn. intros [= <-]. eexists. split.
  - unfold unmarshallSnapshottedStatefulSet, rack_status, get_status, mbind, GoM_bind, gets, lift. cbn.
    rewrite lookup_alter_eq, Hrs. cbn. by rewrite Hback.
  - done.
Qed.

Lemma revert_storage {Laws : QuantityLaws QL} (rs : CassandraRackStatus) (stored new new' : StatefulSet) :
  IsStarted rs = false →
  RevertAnyStorageUpsizeBeyondUpsizeAction rs stored new = Ret new' →
  Quantity_equal (findDataCapacity (sts_VolumeClaimTemplates new')).2
                 (findDataCapacity (sts_VolumeClaimTemplates stored)).2 = true ∧
  sts_Replicas new' = sts_Replicas new ∧ sts_Template new' = sts_Template new ∧
  sts_Meta new' = sts_Meta new ∧ sts_Partition new' = sts_Partition new ∧
  length (sts_VolumeClaimTemplates new') = length (sts_VolumeClaimTemplates new).
Proof.
  intros Hnot. unfold RevertAnyStorageUpsizeBeyondUpsizeAction. rewrite Hnot. cbn [negb].
  destruct (findDataCapacity (sts_VolumeClaimTemplates stored)) as [j current] eqn:Es.
  destruct (findDataCapacity (sts_VolumeClaimTemplates new)) as [i requested] eqn:En.
  destruct (Quantity_equal requested current) eqn:Eq; cbn [negb].
  - intros [= <-]. by rewrite En.
  - destruct (index _ i) as [x|] eqn:Ei; [|done]. apply index_spec in Ei as [Hi _].
    intros [= <-].
    change (sts_VolumeClaimTemplates (upd _ _ new)) with
      (alter (set_storage current) (Z.to_nat i) (sts_VolumeClaimTemplates new)).
    rewrite (findDataCapacity_alter _ _ _ _ En Hi). unfold Quantity_equal. simpl.
    rewrite Quantity_cmp_refl. by rewrite length_alter.
Qed.

(** While no upsize is running the operator never asks for another data
    size than the stored statefulset has: the generated statefulset is put back
    to it (the API server would refuse the change), and nothing else of it is
    touched. *)
Theorem revert_storage_spec (Hlaws : QuantityLaws QL) (rs : CassandraRackStatus) (stored new new' : StatefulSet)
    (Hnot : IsStarted rs = false)
    (Hrun : RevertAnyStorageUpsizeBeyondUpsizeAction rs stored new = Ret new') :
  Quantity_equal (findDataCapacity (sts_VolumeClaimTemplates new')).2
                 (findDataCapacity (sts_VolumeClaimTemplates stored)).2 = true ∧
  sts_Replicas new' = sts_Replicas new ∧ sts_Template new' = sts_Template new ∧
  sts_Meta new' = sts_Meta new ∧ sts_Partition new' = sts_Partition new ∧
  length (sts_VolumeClaimTemplates new') = length (sts_VolumeClaimTemplates new).
Proof. exact (revert_storage rs stored new new' Hnot Hrun). Qed.

(** A data centre with its own capacity is never recognised as resized: the
    statefulset recreated with that capacity is deleted again in the next loop. *)
Lemma upsize_dc_capacity_deleted_again (e : Env W) (sts : StatefulSet) :
  rcc_storedStatefulSet e = Some sts →
  Quantity_equal (silentParseResourceQuantity (DataCapacity (cc_Spec (rcc_cc e))))
    (findDataCapacity (sts_VolumeClaimTemplates sts)).2 = false →
  wp removeStatefulSetOrphan (λ r e', r ≠ Pass ∧
    ∃ ns a, Ev _ (ApiDeleteStatefulSet ns (m_Name (sts_Meta sts)) true) a ∈ log e') e.
Proof.
  intros Hsts Hcap. unfold removeStatefulSetOrphan, LivingStatefulSet, DeleteStatefulSetWithOrphanOption.
  apply wp_bind, wp_gets, wp_bind, wp_gets. rewrite Hsts.
  unfold doesStatefulSetHaveNewCapacity. destruct (findDataCapacity _) as [i c]. simpl in Hcap. rewrite Hcap.
  apply wp_bind, wp_call. intros a w. apply wp_ret. split; [by destruct a|].
  eexists _, _. cbn. apply elem_of_app. right. by left.
Qed.
End theorems.

(** ** Instances

    A rack with two nodes whose data grows from 10Gi to 20Gi, run on the in-memory
    API server. *)
Section instances.
#[local] Existing Instance SampleQuantities.

Definition demo_rack : CompleteRackName := mkCompleteRackName "dc1" "rack1" "dc1-rack1".
Definition claim (name : string) (labels : gmap string string) (size : string) : PersistentVolumeClaim :=
  set_storage (silentParseResourceQuantity size)
    (mkPVC ((named "ns" name) <| m_Labels := labels |>) (mkPVCSpec [] (Some ∅) None None)
       {[ storage := silentParseResourceQuantity size ]}).
Definition demo_sts (size : string) : StatefulSet :=
  mkSts ("", "") (named "ns" "cassandra-demo-dc1-rack1") 2 "cassandra-demo" "" 0 ∅
    PodTemplate_zero [claim "data" ∅ size] (mkStsStatus 2 2 "" "").
Definition upsize_cc : CassandraCluster :=
  (simple_cluster 2 [simple_dc "dc1" ["rack1"]])
    <| cc_Spec ::= λ s, s <| DataCapacity := "20Gi" |> |>
    <| cc_Status ::= λ s, s <| s_RackStatus :=
         {[ "dc1-rack1" := mkRackStatus (Name ClusterPhasePending)
              (mkLastAction StatusOngoing (Name ActionStorageUpsize) (Some 0%Z) None [])
              PodLastOperation_zero "" ]} |> |>.
Definition demo_labels : gmap string string := LabelsForCassandraDCRack upsize_cc "dc1" "rack1".
Definition ready_pod (name : string) : Pod :=
  mkPod ((named "ns" name) <| m_Labels := demo_labels |>) name "cassandra-demo" PodRunning "10.0.0.1" None
    [mkContainerStatus CassandraContainerName true 0 None].
Definition upsize_world (size : string) : FakeCluster :=
  empty_cluster
    <| f_sts := {[ "cassandra-demo-dc1-rack1" := demo_sts size ]} |>
    <| f_pods := list_to_map ((λ n, (n, ready_pod n)) <$> ["cassandra-demo-dc1-rack1-0"; "cassandra-demo-dc1-rack1-1"]) |>
    <| f_pvcs := list_to_map ((λ n, (n, claim n demo_labels size)) <$>
         ["data-cassandra-demo-dc1-rack1-0"; "data-cassandra-demo-dc1-rack1-1"]) |>.

(** A codec for the statefulset of the demonstration only. *)
Definition demo_codec : StsCodec := {|
  Marshal_sts _ := Ok "snapshot";
  Unmarshal_sts t := if t == "snapshot" then Ok ((demo_sts "10Gi") <| sts_Status := StsStatus_zero |>)
                     else Err (OtherError "cannot unmarshal");
  GetOriginalConfiguration _ := "";
  LastAppliedConfig := "banzaicloud.com/last-applied";
  DeleteNullInJson t := Ok t;
  zipAndBase64 t := Ok t |}.
#[local] Existing Instance demo_codec.

(** One reconcile loop of the rack: the statefulset is read, then the upsize
    runs. *)
Definition upsize_loop (e : Env FakeCluster) : outcome (option error * Env FakeCluster) :=
  (r ← call (ApiGetStatefulSet "ns" "cassandra-demo-dc1-rack1");
   _ ← modify (λ e : Env FakeCluster, e <| rcc_storedStatefulSet := match r with Ok s => Some s | Err _ => None end |>);
   ReconcileStorageUpsize demo_rack) e.
Fixpoint upsize_loops (k : nat) (e : Env FakeCluster) : outcome (Env FakeCluster) :=
  match k with
  | 0 => Ret e
  | S k => '(_, e) ← upsize_loop e; upsize_loops k e
  end.
Definition last_status (e : Env FakeCluster) : option string :=
  (la_Status ∘ rs_LastAction) <$> s_RackStatus (status e) !! "dc1-rack1".

Definition snapshotted : Env FakeCluster :=
  (start (upsize_world "10Gi") upsize_cc)
    <| status ::= on_rack "dc1-rack1" (λ r, r <| rs_Snapshot := "snapshot" |>) |>
    <| rcc_storedStatefulSet := Some (demo_sts "10Gi") |>.
Definition resized_env : Env FakeCluster :=
  (start (upsize_world "20Gi") upsize_cc)
    <| status ::= on_rack "dc1-rack1" (λ r, r <| rs_Snapshot := "x" |>) |>
    <| rcc_storedStatefulSet := Some (demo_sts "20Gi") |>.

(** Five loops (snapshot, delete, recreate, grow the claims, wait) finish the
    upsize and leave the statefulset with the new size. *)
Example upsize_demo_done :
  match upsize_loops 5 (start (upsize_world "10Gi") upsize_cc) with
  | Ret e => last_status e = Some StatusDone ∧
             (λ s, Quantity_Value (findDataCapacity (sts_VolumeClaimTemplates s)).2) <$>
               f_sts (world e) !! "cassandra-demo-dc1-rack1" = Some (20 * 2 ^ 30)%Z
  | Panic => False
  end.
Proof. vm_compute. done. Qed.

Lemma upsize_requests_safe_witness :
  ∃ r e', Reconcile_upsize demo_rack (silentParseResourceQuantity "20Gi") snapshotted = Ret (r, e') ∧
    logs (upsize_request snapshotted demo_rack (silentParseResourceQuantity "20Gi")) snapshotted e' ∧
    length (log e') = 1.
Proof.
  destruct (observe_Some (λ _ e', length (log e'))
    (Reconcile_upsize demo_rack (silentParseResourceQuantity "20Gi")) snapshotted 1) as (r & e' & Hrun & Hlen).
  { vm_compute. reflexivity. }
  exists r, e'. split; [exact Hrun|]. split; [|exact Hlen]. eapply upsize_requests_safe. exact Hrun.
Defined.

Lemma upsize_done_justified_witness :
  ∃ e', upsize_evidence demo_rack resized_env e' ∧ last_status e' = Some StatusDone.
Proof.
  destruct (observe_Some (λ _ e', last_status e')
    (Reconcile_upsize demo_rack (silentParseResourceQuantity "20Gi")) resized_env (Some StatusDone))
    as (r & e' & Hrun & Hlast).
  { vm_compute. reflexivity. }
  exists e'. split; [|exact Hlast]. unfold last_status in Hlast.
  destruct (s_RackStatus (status e') !! "dc1-rack1") as [rs'|] eqn:Hrs'; [|discriminate Hlast].
  injection Hlast as Hdone.
  eapply (upsize_done_justified demo_rack (silentParseResourceQuantity "20Gi") resized_env r e' rs');
    [|exact Hrun|exact Hrs'|exact Hdone].
  intros rs Hrs Hst. assert (last_status resized_env = Some StatusOngoing) as Hl by (vm_compute; reflexivity).
  unfold last_status in Hl. change (crn_DcRackName demo_rack) with "dc1-rack1" in Hrs. rewrite Hrs in Hl.
  injection Hl as Hl. rewrite Hl in Hst. discriminate Hst.
Defined.

Lemma revert_storage_spec_witness :
  ∃ new', RevertAnyStorageUpsizeBeyondUpsizeAction initialRackStatus (demo_sts "10Gi") (demo_sts "20Gi") = Ret new' ∧
    Quantity_equal (findDataCapacity (sts_VolumeClaimTemplates new')).2
      (findDataCapacity (sts_VolumeClaimTemplates (demo_sts "10Gi"))).2 = true.
Proof.
  eexists. split; [reflexivity|].
  eapply (revert_storage_spec _ initialRackStatus (demo_sts "10Gi") (demo_sts "20Gi")); reflexivity.
Defined.
End instances.

Section roundtrip_instance.
#[local] Existing Instance SampleQuantities.

Lemma upsize_snapshot_roundtrip_witness :
  ∃ (e' : Env FakeCluster) s, unmarshallSnapshottedStatefulSet (Codec:=SampleCodec) demo_rack e' = Ret (Ok s, e') ∧ sts_Replicas s = 2%Z.
Proof.
  set (e := (start (upsize_world "10Gi") upsize_cc) <| rcc_storedStatefulSet := Some (demo_sts "10Gi") |>).
  destruct (upsize_snapshot_roundtrip (Codec:=SampleCodec) SampleCodec_laws demo_rack e
    (e <| status ::= on_rack "dc1-rack1" (λ r, r <| rs_Snapshot := text_of
           ((demo_sts "10Gi") <| sts_Status := StsStatus_zero |>) |>) |>)
    (demo_sts "10Gi") (mkRackStatus (Name ClusterPhasePending)
              (mkLastAction StatusOngoing (Name ActionStorageUpsize) (Some 0%Z) None [])
              PodLastOperation_zero "")) as (s & H1 & H2 & _); try reflexivity.
  eexists _, s. split; [exact H1|exact H2].
Defined.
End roundtrip_instance.
