(* ===== verification/StatefulSets.v ===== *)
(** * Statefulsets, disruption budgets, services
    (src/controllers/cassandracluster: statefulset.go, cassandra_util.go,
    poddisruptionbudget.go, deploy_cassandra.go)

    [CreateOrUpdateStatefulSet] is the only place where an existing statefulset is
    written: it decides what of the generated statefulset may go out now. *)
From S2P Require Import Prelude KubeObjects Types ClusterApi K8sUtil Server Pods FakeCluster Samples Generator StorageUpsize.

(** ** Third-party code *)
Class PatchLib {QL : QuantityLib} := {
  (** [patch.DefaultPatchMaker.Calculate(a, b)] gives no error and an empty patch *)
  patch_IsEmpty : StatefulSet → StatefulSet → bool;
}.

(** ** The generator of statefulsets

    What [ensureCassandraStatefulSet] needs from generator.go.  The callers are
    verified for every generator; [GeneratedSets] has the instance. *)
Class StatefulSetGenerator {QL : QuantityLib} := {
  generated_sts :
    CassandraCluster → CassandraClusterStatus → (* dcName *) string → (* dcRackName *) string →
    (* labels *) gmap string string → (* nodeSelector *) gmap string string → outcome (result StatefulSet);
}.

Definition CASSANDRA_SEEDS : string := "CASSANDRA_SEEDS".
Definition bootstrap : string := "bootstrap".

Section statefulsets.
Context {QL : QuantityLib} {Codec : StsCodec} {Patch : PatchLib} {Gen : StatefulSetGenerator}.
Context {W : Type} {Srv : ApiServer W}.

(** ** cassandra_util.go *)
Definition no_disruption (pdb : PodDisruptionBudget) : bool :=
  bool_decide (0 < pdb_DisruptionsAllowed pdb)%Z || bool_decide (pdb_ExpectedPods pdb = 0%Z).

Definition hasNoPodDisruption : M W bool :=
  o ← gets rcc_storedPdb; pdb ← lift (deref o); mret (no_disruption pdb).

Definition weAreScalingDown (dcRackStatus : CassandraRackStatus) : bool :=
  let a := rs_LastAction dcRackStatus in
  (la_Name a == Name ActionScaleDown) &&
  ((la_Status a == StatusToDo) || (la_Status a == StatusOngoing) || (la_Status a == StatusContinue)).

(** ** Access to statefulsets *)
Definition emptySts (ns name : string) : StatefulSet :=
  mkSts ("", "") (named ns name) 0 "" "" 0 ∅ PodTemplate_zero [] StsStatus_zero.

Definition GetStatefulSet (ns name : string) : M W (StatefulSet * option error) :=
  r ← call (ApiGetStatefulSet ns name); mret (got (emptySts ns name) r).

Definition DeleteStatefulSet (ns name : string) : M W (option error) :=
  call (ApiDeleteStatefulSet ns name false).

(** [wait.Poll(1s, 5s, ...)]: at most five readings. *)
Fixpoint pollRevision (fuel : nat) (revision ns name : string) : M W unit :=
  match fuel with
  | 0 => mret tt
  | S fuel =>
      '(newSts, err) ← GetStatefulSet ns name;
      match err with
      | Some NotFound | None =>
          if revision != m_ResourceVersion (sts_Meta newSts) then mret tt
          else pollRevision fuel revision ns name
      | Some _ => mret tt
      end
  end.

Definition UpdateStatefulSet (sts : StatefulSet) : M W (option error) :=
  let revision := m_ResourceVersion (sts_Meta sts) in
  err ← call (ApiUpdateStatefulSet sts);
  match err with
  | Some e => mret (wrap_create_update (Some e))
  | None =>
      _ ← pollRevision 5 revision (m_Namespace (sts_Meta sts)) (m_Name (sts_Meta sts));
      mret None
  end.

(** ** Comparison *)
Definition name_le {A} (name : A → string) (a b : A) : Prop := String.leb (name a) (name b) = true.
#[global] Instance name_le_dec {A} (name : A → string) : RelDecision (name_le name).
Proof. intros a b. unfold name_le. apply _. Defined.
Definition sortPVCs (pvcs : list PersistentVolumeClaim) : list PersistentVolumeClaim :=
  merge_sort (name_le (λ p, m_Name (pvc_Meta p))) pvcs.
Definition sortContainers (containers : list Container) : list Container :=
  merge_sort (name_le c_Name) containers.

(** The claim templates of the second statefulset take the status of the first
    one, and its volume mode if they have none. *)
Definition adopt_pvc (p1 p2 : PersistentVolumeClaim) : PersistentVolumeClaim :=
  p2 <| pvc_Capacity := pvc_Capacity p1 |>
     <| pvc_Spec ::= λ s, s <| pvc_VolumeMode ::= λ o, match o with None => pvc_VolumeMode (pvc_Spec p1) | _ => o end |> |>.

Definition statefulSetsAreEqual (sts1 sts2 : StatefulSet) : bool :=
  let sts1 := sts1 <| sts_Template ::= λ t, t
    <| t_SchedulerName := t_SchedulerName (sts_Template sts2) |>
    <| t_DNSPolicy := t_DNSPolicy (sts_Template sts2) |> |> in
  if negb (bool_decide (length (t_Containers (sts_Template sts1)) = length (t_Containers (sts_Template sts2))))
  then false
  else if negb (bool_decide (length (sts_VolumeClaimTemplates sts1) = length (sts_VolumeClaimTemplates sts2)))
  then false
  else
    let sorted := λ s : StatefulSet, s
      <| sts_VolumeClaimTemplates ::= sortPVCs |>
      <| sts_Template ::= λ t, t <| t_Containers ::= sortContainers |> |> in
    let sts1 := sorted sts1 in
    let sts2 := sorted sts2 in
    let sts2 := sts2
      <| sts_VolumeClaimTemplates := zip_with adopt_pvc (sts_VolumeClaimTemplates sts1) (sts_VolumeClaimTemplates sts2) |>
      <| sts_Status ::= λ t, t <| st_Replicas := st_Replicas (sts_Status sts1) |> |> in
    patch_IsEmpty sts1 sts2.

(** ** Seeds in a statefulset *)
Definition getBootstrapContainerFromStatefulset (sts : StatefulSet) : option Container :=
  find_map (λ c, if c_Name c == bootstrap then Some c else None) (t_InitContainers (sts_Template sts)).

Definition seeds_of (env : list EnvVar) : option string :=
  find_map (λ v, if env_Name v == CASSANDRA_SEEDS then Some (env_Value v) else None) env.

Definition getStoredSeedList (sts : StatefulSet) : list string :=
  match getBootstrapContainerFromStatefulset sts with
  | Some c => match seeds_of (c_Env c) with Some v => Split v ","%char | None => [] end
  | None => []
  end.

(** Every CASSANDRA_SEEDS variable takes the value the old container has. *)
Definition keep_seed (oldEnv : list EnvVar) (env : EnvVar) : EnvVar :=
  if env_Name env == CASSANDRA_SEEDS then
    env <| env_Value := foldl (λ v oldEnv,
             if (env_Name oldEnv == CASSANDRA_SEEDS) && (env_Value env != env_Value oldEnv)
             then env_Value oldEnv else v) (env_Value env) oldEnv |>
  else env.

Fixpoint alter_first {A} (f : A → bool) (g : A → A) (l : list A) : list A :=
  match l with
  | [] => []
  | x :: l => if f x then g x :: l else x :: alter_first f g l
  end.

(** The old container is only looked at when the new one has the variable. *)
Definition keepSeedList (stored sts : StatefulSet) : outcome StatefulSet :=
  new ← deref (getBootstrapContainerFromStatefulset sts);
  if existsb (λ v, env_Name v == CASSANDRA_SEEDS) (c_Env new) then
    old ← deref (getBootstrapContainerFromStatefulset stored);
    mret (sts <| sts_Template ::= λ t, t <| t_InitContainers ::=
            alter_first (λ c, c_Name c == bootstrap) (λ c, c <| c_Env ::= fmap (keep_seed (c_Env old)) |>) |> |>)
  else mret sts.

(** ** Scaling one node at a time (int32 arithmetic) *)
Definition limitReplicas (stored wanted : Z) : Z :=
  let replicaCountDiff := wrap32 (wanted - stored) in
  if bool_decide (1 < Z.abs replicaCountDiff)%Z then
    let incrementValue := (if bool_decide (replicaCountDiff < 0) then -1 else 1)%Z in
    wrap32 (stored + incrementValue)
  else wanted.

(** ** CreateOrUpdateStatefulSet *)
Definition updatesSeedList (a : CassandraLastAction) : bool :=
  (la_Name a == Name ActionUpdateSeedList) &&
  ((la_Status a == StatusToDo) || (la_Status a == StatusConfiguring)).

Definition setOngoing (now : Z) (a : CassandraLastAction) : CassandraLastAction :=
  a <| la_Status := StatusOngoing |> <| la_StartTime := Some now |>.

(** The end of [updateExisting]: the statefulset [s] is written or not, and the
    last action becomes Ongoing. *)
Definition writeExisting (s stored : StatefulSet) (now : Z) (k : string) : M W (bool * option error) :=
  cc ← get_cc;
  if negb (NoCheckStsAreEqual (cc_Spec cc)) && statefulSetsAreEqual stored s then
    mret (ContinueResyncLoop, None)
  else
    rs ← rack_status k;
    _ ← (if la_Status (rs_LastAction rs) == StatusToDo then
           set_action k (λ a, (setOngoing now a) <| la_EndTime := None |>)
         else mret tt);
    rs ← rack_status k;
    _ ← (if negb (NoCheckStsAreEqual (cc_Spec cc)) && (la_Status (rs_LastAction rs) == StatusDone) then
           set_action k (λ a, (setOngoing now a) <| la_Name := Name ActionUpdateStatefulSet |> <| la_EndTime := None |>)
         else mret tt);
    err ← UpdateStatefulSet s;
    mret (BreakResyncLoop, err).

(** What follows the reading of the stored statefulset. *)
Definition updateExisting (sts stored : StatefulSet) (now : Z) (k : string) : M W (bool * option error) :=
  let sts := sts
    <| sts_Meta ::= λ m, m <| m_ResourceVersion := m_ResourceVersion (sts_Meta stored) |> |>
    <| sts_Template ::= λ t, t <| t_Labels := t_Labels (sts_Template stored) |> |>
    <| sts_Status := sts_Status stored |> in
  rs ← rack_status k;
  sts ← (if updatesSeedList (rs_LastAction rs) then
           _ ← set_action k (setOngoing now); mret sts
         else lift (keepSeedList stored sts));
  let sts := sts <| sts_Replicas ::= limitReplicas (sts_Replicas stored) |> in
  rs ← rack_status k;
  sts ← lift (RevertAnyStorageUpsizeBeyondUpsizeAction rs stored sts);
  sts ← (if (la_Name (rs_LastAction rs) == Name ActionRollingRestart) &&
            (la_Status (rs_LastAction rs) == StatusToDo) then
           t ← call Now;
           _ ← set_action k (setOngoing now);
           mret (sts <| sts_Template ::= λ t0, t0 <| t_Labels ::= λ l,
                   MergeLabels [l; {[ "rolling-restart" := LabelTime t ]}] |> |>)
         else mret sts);
  writeExisting sts stored now k.

Definition CreateOrUpdateStatefulSet (sts : StatefulSet) (n : CompleteRackName) : M W (bool * option error) :=
  calm ← hasNoPodDisruption;
  cc ← get_cc;
  if negb calm && negb (UnlockNextOperation (cc_Spec cc)) then mret (ContinueResyncLoop, None)
  else
    now ← call Now;
    '(stored, err) ← GetStatefulSet (m_Namespace (sts_Meta sts)) (m_Name (sts_Meta sts));
    _ ← modify (λ e : Env W, e <| rcc_storedStatefulSet := Some stored |>);
    match err with
    | Some e =>
        if IsNotFound e then
          err ← CreateStatefulSet sts; mret (BreakResyncLoop, err)
        else mret (ContinueResyncLoop, Some e)
    | None => updateExisting sts stored now (crn_DcRackName n)
    end.

(** ** poddisruptionbudget.go *)
Definition emptyPDB (ns name : string) : PodDisruptionBudget := mkPDB (named ns name) 0 ∅ 0 0.

Definition GetPodDisruptionBudget (ns name : string) : M W (PodDisruptionBudget * option error) :=
  r ← call (ApiGetPDB ns name); mret (got (emptyPDB ns name) r).

Definition CreatePodDisruptionBudget (pdb : PodDisruptionBudget) : M W (option error) :=
  err ← call (ApiCreatePDB pdb); mret (wrap_create_update err).

Definition DeletePodDisruptionBudget (pdb : PodDisruptionBudget) : M W (option error) :=
  err ← call (ApiDeletePDB pdb);
  mret match err with None => None | Some _ => Some (OtherError "failed to delete cassandra PodDisruptionBudget") end.

Definition UpdatePodDisruptionBudget (pdb : PodDisruptionBudget) : M W (option error) :=
  err ← call (ApiUpdatePDB pdb); mret (wrap_create_update err).

Definition CreateOrUpdatePodDisruptionBudget (pdb : PodDisruptionBudget) : M W (option error) :=
  '(stored, err) ← GetPodDisruptionBudget (m_Namespace (pdb_Meta pdb)) (m_Name (pdb_Meta pdb));
  _ ← modify (λ e : Env W, e <| rcc_storedPdb := Some stored |>);
  match err with
  | Some e => if IsNotFound e then CreatePodDisruptionBudget pdb else mret (Some e)
  | None =>
      if negb (bool_decide (pdb_MaxUnavailable stored = pdb_MaxUnavailable pdb)) then
        _ ← DeletePodDisruptionBudget pdb;
        CreatePodDisruptionBudget pdb
      else mret None
  end.

(** ** deploy_cassandra.go *)
Definition podDisruptionBudgetEnvelope (cc : CassandraCluster) : PodDisruptionBudget :=
  generatePodDisruptionBudget (cc_Name cc) (cc_Namespace cc) (LabelsForCassandra cc) (AsOwner cc)
    (MaxPodUnavailable (cc_Spec cc)).

Definition ensureCassandraPodDisruptionBudget : M W (option error) :=
  cc ← get_cc; CreateOrUpdatePodDisruptionBudget (podDisruptionBudgetEnvelope cc).

(** A service of the cluster belongs to the resource; one that exists already is
    left alone. *)
Definition create_service (cc : CassandraCluster) (svc : Service) (msg : string) : M W (option error) :=
  err ← call (ApiCreateService (svc <| svc_Meta ::= λ m, AddOwnerRefToObject m (AsOwner cc) |>));
  mret match err with
       | Some e => if negb (IsAlreadyExists e) then Some (OtherError msg) else None
       | None => None
       end.
Definition ensureCassandraService : M W (option error) :=
  cc ← get_cc;
  create_service cc (generateCassandraService cc (LabelsForCassandra cc) [])
    "failed to create cassandra service".
Definition ensureCassandraServiceMonitoring : M W (option error) :=
  cc ← get_cc;
  create_service cc (generateCassandraExporterService cc (LabelsForCassandra cc) [])
    "failed to create cassandra service Monitoring".

Definition ensureCassandraStatefulSet (n : CompleteRackName) (dc rack : nat) : M W (bool * option error) :=
  cc ← get_cc;
  st ← get_status;
  let '(labels, nodeSelector) := DCRackLabelsAndNodeSelectorForStatefulSet cc dc rack in
  generated ← lift (generated_sts cc st (crn_DcName n) (crn_DcRackName n) labels nodeSelector);
  match generated with
  | Err e => mret (true, Some e)
  | Ok ss =>
      let ss := ss <| sts_Meta ::= λ m, AddOwnerRefToObject m (AsOwner cc) |> in
      '(breakResyncloop, err) ← CreateOrUpdateStatefulSet ss n;
      mret (breakResyncloop,
            match err with
            | Some e => if negb (IsAlreadyExists e)
                        then Some (OtherError "failed to create cassandra statefulset") else None
            | None => None
            end)
  end.
End statefulsets.

(** ** Lemmas *)
Lemma limitReplicas_step stored wanted :
  (0 ≤ stored < 2 ^ 31)%Z → (0 ≤ wanted < 2 ^ 31)%Z →
  (Z.abs (limitReplicas stored wanted - stored) ≤ 1)%Z ∧
  (Z.abs (wanted - limitReplicas stored wanted) ≤ Z.abs (wanted - stored))%Z ∧
  (stored ≠ wanted → limitReplicas stored wanted ≠ stored) ∧
  (0 ≤ limitReplicas stored wanted < 2 ^ 31)%Z.
Proof.
  intros Hs Hw. unfold limitReplicas. rewrite (wrap32_id (wanted - stored)) by (unfold int32_range; lia).
  repeat case_bool_decide; rewrite ?wrap32_id by (unfold int32_range; lia); lia.
Qed.

Section seeds.
Context {QL : QuantityLib}.

Lemma seeds_of_cons v env :
  seeds_of (v :: env) = if env_Name v == CASSANDRA_SEEDS then Some (env_Value v) else seeds_of env.
Proof. unfold seeds_of. simpl. by case_bool_decide. Qed.

Lemma seeds_of_None env : seeds_of env = None ↔ CASSANDRA_SEEDS ∉ env_Name <$> env.
Proof.
  unfold seeds_of. rewrite find_map_None, list_elem_of_fmap. split.
  - intros H (v & Hv & Hin). specialize (H v Hin). by rewrite bool_decide_true in H.
  - intros H v Hin. rewrite bool_decide_false; [done|]. intros Hv. apply H. eauto.
Qed.

(** With one CASSANDRA_SEEDS variable in the old container its value wins. *)
Lemma keep_seed_fold (x : string) acc old :
  NoDup (env_Name <$> old) →
  foldl (λ v oldEnv, if (env_Name oldEnv == CASSANDRA_SEEDS) && (x != env_Value oldEnv)
                     then env_Value oldEnv else v) acc old =
  match seeds_of old with Some v => if x == v then acc else v | None => acc end.
Proof.
  revert acc. induction old as [|o old IH]; intros acc Hnd; simpl; [done|].
  inversion Hnd as [|? ? Hnin Hnd']; subst. rewrite IH by done. rewrite seeds_of_cons.
  destruct (decide (env_Name o = CASSANDRA_SEEDS)) as [Ho|Ho].
  - rewrite Ho in Hnin. apply seeds_of_None in Hnin. rewrite Hnin, bool_decide_true by done. simpl.
    destruct (decide (x = env_Value o)); [by rewrite bool_decide_true|by rewrite !bool_decide_false].
  - by rewrite bool_decide_false.
Qed.

Lemma keep_seed_value old env v :
  NoDup (env_Name <$> old) → seeds_of old = Some v → env_Name env = CASSANDRA_SEEDS →
  env_Value (keep_seed old env) = v.
Proof.
  intros Hnd Hv He. unfold keep_seed. rewrite bool_decide_true by done. cbn.
  rewrite keep_seed_fold, Hv by done. by case_bool_decide.
Qed.

Lemma keep_seed_name old env : env_Name (keep_seed old env) = env_Name env.
Proof. unfold keep_seed. by case_bool_decide. Qed.

Lemma seeds_of_keep old env v :
  NoDup (env_Name <$> old) → seeds_of old = Some v → is_Some (seeds_of env) →
  seeds_of (keep_seed old <$> env) = Some v.
Proof.
  intros Hnd Hv. induction env as [|x env IH]; [by intros [? ?]|].
  rewrite fmap_cons, !seeds_of_cons, keep_seed_name. case_bool_decide; [|done].
  intros _. by erewrite keep_seed_value.
Qed.

Lemma getBootstrap_alter_first g sts c :
  (∀ c, c_Name (g c) = c_Name c) →
  getBootstrapContainerFromStatefulset sts = Some c →
  getBootstrapContainerFromStatefulset
    (sts <| sts_Template ::= λ t, t <| t_InitContainers ::= alter_first (λ c, c_Name c == bootstrap) g |> |>)
  = Some (g c).
Proof.
  intros Hg. unfold getBootstrapContainerFromStatefulset. cbn.
  induction (t_InitContainers (sts_Template sts)) as [|x l IH]; simpl; [done|].
  case_bool_decide as Hx; simpl.
  - intros [= ->]. rewrite Hg, bool_decide_true by done. done.
  - rewrite bool_decide_false by done. apply IH.
Qed.

Lemma existsb_seeds env : existsb (λ v, env_Name v == CASSANDRA_SEEDS) env = true ↔ is_Some (seeds_of env).
Proof.
  induction env as [|v env IH]; simpl; [split; [done|by intros []]|].
  rewrite seeds_of_cons. case_bool_decide; simpl; [split; eauto|done].
Qed.

(** The containers whose seeds decide. *)
Definition has_seeds (sts : StatefulSet) (v : string) : Prop :=
  ∃ c, getBootstrapContainerFromStatefulset sts = Some c ∧ NoDup (env_Name <$> c_Env c) ∧
       seeds_of (c_Env c) = Some v.

Lemma has_seeds_list sts v : has_seeds sts v → getStoredSeedList sts = Split v ","%char.
Proof. intros (c & Hc & _ & Hv). unfold getStoredSeedList. by rewrite Hc, Hv. Qed.

Lemma keepSeedList_seeds stored sts v w kept :
  has_seeds stored v → has_seeds sts w → keepSeedList stored sts = Ret kept →
  getStoredSeedList kept = Split v ","%char.
Proof.
  intros (old & Hold & Hnd & Hv) (new & Hnew & _ & Hw). unfold keepSeedList. rewrite Hnew, Hold. simpl.
  assert (existsb (λ v, env_Name v == CASSANDRA_SEEDS) (c_Env new) = true) as -> by by apply existsb_seeds.
  simpl. intros [= <-]. unfold getStoredSeedList.
  rewrite (getBootstrap_alter_first (λ c, c <| c_Env ::= fmap (keep_seed (c_Env old)) |>) sts new) by done.
  cbn. by erewrite seeds_of_keep by eauto.
Qed.

(** [getStoredSeedList] looks at the init containers only. *)
Lemma getStoredSeedList_ext s s' :
  t_InitContainers (sts_Template s) = t_InitContainers (sts_Template s') →
  getStoredSeedList s = getStoredSeedList s'.
Proof. intros H. unfold getStoredSeedList, getBootstrapContainerFromStatefulset. by rewrite H. Qed.

Lemma keepSeedList_frame stored sts kept :
  keepSeedList stored sts = Ret kept →
  sts_Replicas kept = sts_Replicas sts ∧ sts_Meta kept = sts_Meta sts ∧
  sts_VolumeClaimTemplates kept = sts_VolumeClaimTemplates sts ∧
  t_Labels (sts_Template kept) = t_Labels (sts_Template sts).
Proof.
  unfold keepSeedList. destruct (getBootstrapContainerFromStatefulset sts); simpl; [|done].
  destruct (existsb _ _); [|by intros [= <-]].
  destruct (getBootstrapContainerFromStatefulset stored); simpl; by intros [= <-].
Qed.
End seeds.

(** ** What an update may not choose

    [frame s]: [s] without what an update takes from the stored statefulset or limits:
    the resource version, the status, the replicas, the labels of the template, the
    seeds of the bootstrap container and the size of the data claim. *)
Section frame.
Context {QL : QuantityLib}.

Definition forget_seed (v : EnvVar) : EnvVar :=
  if env_Name v == CASSANDRA_SEEDS then v <| env_Value := "" |> else v.
Definition forget_seeds (c : Container) : Container := c <| c_Env ::= fmap forget_seed |>.
Definition forget_size (pvc : PersistentVolumeClaim) : PersistentVolumeClaim :=
  if m_Name (pvc_Meta pvc) == DataPVCName
  then pvc <| pvc_Spec ::= λ s, s <| pvc_Requests ::= λ r, Some (delete storage (default ∅ r)) |> |> else pvc.
Definition frame (s : StatefulSet) : StatefulSet :=
  s <| sts_Meta ::= λ m, m <| m_ResourceVersion := "" |> |> <| sts_Replicas := 0%Z |>
    <| sts_Template ::= λ t, t <| t_Labels := ∅ |>
         <| t_InitContainers ::= alter_first (λ c, c_Name c == bootstrap) forget_seeds |> |>
    <| sts_VolumeClaimTemplates ::= fmap forget_size |> <| sts_Status := StsStatus_zero |>.

(** What an update takes from the stored statefulset as it is. *)
Definition observed (s : StatefulSet) : string * StatefulSetStatus := (m_ResourceVersion (sts_Meta s), sts_Status s).

Lemma frame_ext s s' :
  sts_TypeMeta s = sts_TypeMeta s' → sts_ServiceName s = sts_ServiceName s' →
  sts_UpdateStrategy s = sts_UpdateStrategy s' → sts_Partition s = sts_Partition s' → sts_MatchLabels s = sts_MatchLabels s' →
  (sts_Meta s) <| m_ResourceVersion := "" |> = (sts_Meta s') <| m_ResourceVersion := "" |> →
  sts_Template (frame s) = sts_Template (frame s') →
  sts_VolumeClaimTemplates (frame s) = sts_VolumeClaimTemplates (frame s') → frame s = frame s'.
Proof.
  assert (∀ x : StatefulSet, x = eta x) as Heta by by intros [].
  intros H1 H2 H3 H4 H5 H6 H7 H8. rewrite (Heta (frame s)), (Heta (frame s')).
  unfold eta, eta_Sts. f_equal; assumption || reflexivity.
Qed.

Lemma forget_keep_seed old v : forget_seed (keep_seed old v) = forget_seed v.
Proof. unfold forget_seed. rewrite keep_seed_name. unfold keep_seed. case_bool_decide; done. Qed.

Lemma alter_first_twice {A} (f : A → bool) (g h : A → A) l :
  (∀ x, f (g x) = f x) → (∀ x, h (g x) = h x) → alter_first f h (alter_first f g l) = alter_first f h l.
Proof.
  intros Hf Hh. induction l as [|x l IH]; simpl; [done|]. destruct (f x) eqn:E; simpl; rewrite ?Hf, E; [by rewrite Hh|].
  by rewrite IH.
Qed.

Lemma keepSeedList_keeps_frame stored sts kept : keepSeedList stored sts = Ret kept → frame kept = frame sts ∧ observed kept = observed sts.
Proof.
  unfold keepSeedList. destruct (getBootstrapContainerFromStatefulset sts); simpl; [|done].
  destruct (existsb _ _); [|by intros [= <-]].
  destruct (getBootstrapContainerFromStatefulset stored) as [old|]; simpl; [|done]. intros [= <-].
  split; [|done]. apply frame_ext; try done. set (keep := λ c, c <| c_Env ::= fmap (keep_seed (c_Env old)) |>).
  set (put := λ l, (sts_Template sts) <| t_Labels := ∅ |> <| t_InitContainers := l |>).
  set (isb := λ c, c_Name c == bootstrap). set (l := t_InitContainers (sts_Template sts)).
  change (put (alter_first isb forget_seeds (alter_first isb keep l)) = put (alter_first isb forget_seeds l)).
  rewrite alter_first_twice; [done|done|]. intros c'.
  change (c' <| c_Env := forget_seed <$> (keep_seed (c_Env old) <$> c_Env c') |> = forget_seeds c').
  unfold forget_seeds. rewrite <- list_fmap_compose. rewrite (list_fmap_ext (forget_seed ∘ keep_seed (c_Env old)) forget_seed); [done|].
  intros ? v _. apply forget_keep_seed.
Qed.

Lemma forget_set_storage q pvc : is_data pvc → forget_size (set_storage q pvc) = forget_size pvc.
Proof.
  intros Hd. unfold forget_size. rewrite !bool_decide_true by exact Hd. 
  set (put := λ r, pvc <| pvc_Spec ::= λ s, s <| pvc_Requests := Some r |> |>).
  set (r := default ∅ (pvc_Requests (pvc_Spec pvc))).
  change (put (delete storage (<[storage := q]> r)) = put (delete storage r)). f_equal.
  apply map_eq. intros k. destruct (decide (k = storage)) as [->|Hk]; [by rewrite !lookup_delete_eq|].
  by rewrite !lookup_delete_ne, lookup_insert_ne by done.
Qed.

Lemma forget_size_alter q l i c :
  findDataCapacity l = (i, c) → (0 ≤ i)%Z → forget_size <$> alter (set_storage q) (Z.to_nat i) l = forget_size <$> l.
Proof.
  revert i c. induction l as [|t l IH]; intros i c Hf Hi; [done|]. destruct (decide (m_Name (pvc_Meta t) = DataPVCName)) as [Hd|Hd].
  - rewrite findDataCapacity_cons_data in Hf by done. simplify_eq. csimpl. by rewrite forget_set_storage.
  - rewrite findDataCapacity_cons_other in Hf by done.
    destruct (findDataCapacity l) as [j c'] eqn:E. simpl in Hf.
    pose proof (findDataCapacity_index l) as Hidx. rewrite E in Hidx. simpl in Hidx.
    destruct (decide (j = -1)%Z); [rewrite bool_decide_true in Hf by done; simplify_eq; lia|
      rewrite bool_decide_false in Hf by done; simplify_eq].
    replace (Z.to_nat (j + 1)) with (S (Z.to_nat j)) by lia. csimpl. f_equal. eapply IH; [done|lia].
Qed.

Lemma Revert_keeps_frame rs stored new new' :
  RevertAnyStorageUpsizeBeyondUpsizeAction rs stored new = Ret new' → frame new' = frame new ∧ observed new' = observed new.
Proof.
  unfold RevertAnyStorageUpsizeBeyondUpsizeAction. destruct (negb (IsStarted rs)); [|by intros [= <-]].
  destruct (findDataCapacity (sts_VolumeClaimTemplates stored)) as [j current].
  destruct (findDataCapacity (sts_VolumeClaimTemplates new)) as [i requested] eqn:En.
  destruct (negb _); [|by intros [= <-]].
  destruct (index _ i) as [x|] eqn:Ei; [|done]. apply index_spec in Ei as [Hi _]. intros [= <-].
  split; [|done]. apply frame_ext; try done. by eapply forget_size_alter.
Qed.
End frame.

(** ** What may be written *)
Section writes.
Context {QL : QuantityLib} {Laws : QuantityLaws QL} {Codec : StsCodec} {Patch : PatchLib}.
Context {Gen : StatefulSetGenerator} {W : Type} {Srv : ApiServer W}.
Implicit Types e : Env W.

(** [s] is a permitted update of [stored] on the way to the generated [sts], for
    a rack whose status is [rs]. *)
Definition permitted (stored sts : StatefulSet) (rs : CassandraRackStatus) (s : StatefulSet) : Prop :=
  sts_Replicas s = limitReplicas (sts_Replicas stored) (sts_Replicas sts) ∧
  (updatesSeedList (rs_LastAction rs) = false →
     ∀ v w, has_seeds stored v → has_seeds sts w → getStoredSeedList s = Split v ","%char) ∧
  (IsStarted rs = false →
     Quantity_equal (findDataCapacity (sts_VolumeClaimTemplates s)).2
                    (findDataCapacity (sts_VolumeClaimTemplates stored)).2 = true) ∧
  (∀ k, k ≠ "rolling-restart" →
     t_Labels (sts_Template s) !! k = t_Labels (sts_Template stored) !! k) ∧
  (updatesSeedList (rs_LastAction rs) = true →
     t_InitContainers (sts_Template s) = t_InitContainers (sts_Template sts)) ∧
  frame s = frame sts ∧ observed s = observed stored.

Definition update_request (stored sts : StatefulSet) (rs : CassandraRackStatus) (ev : Event) : Prop :=
  match ev with
  | Ev _ r _ =>
      match r with
      | ApiUpdateStatefulSet s => permitted stored sts rs s
      | ApiGetStatefulSet _ _ | Now => True
      | _ => False
      end
  end.

Lemma pollRevision_quiet (P : Event → Prop) fuel revision ns name :
  (∀ ns name a, P (Ev _ (ApiGetStatefulSet ns name) a)) →
  keeps (quiet P) (pollRevision (W:=W) fuel revision ns name).
Proof.
  intros HP. induction fuel as [|fuel IH]; simpl; unfold GetStatefulSet; keeps_steps; auto using keeps_quiet_call.
Qed.

Lemma UpdateStatefulSet_quiet (P : Event → Prop) s :
  (∀ ns name a, P (Ev _ (ApiGetStatefulSet ns name) a)) →
  (∀ a, P (Ev _ (ApiUpdateStatefulSet s) a)) → keeps (quiet P) (UpdateStatefulSet (W:=W) s).
Proof.
  intros Hget Hupd. unfold UpdateStatefulSet. keeps_steps; auto using keeps_quiet_call, pollRevision_quiet.
Qed.

Lemma RevertAny_frame rs stored new new' :
  RevertAnyStorageUpsizeBeyondUpsizeAction rs stored new = Ret new' →
  sts_Replicas new' = sts_Replicas new ∧ sts_Template new' = sts_Template new ∧
  (IsStarted rs = false →
     Quantity_equal (findDataCapacity (sts_VolumeClaimTemplates new')).2
                    (findDataCapacity (sts_VolumeClaimTemplates stored)).2 = true).
Proof.
  intros H. destruct (IsStarted rs) eqn:E.
  - unfold RevertAnyStorageUpsizeBeyondUpsizeAction in H. rewrite E in H. by injection H as <-.
  - pose proof (revert_storage rs stored new new' E H) as (? & ? & ? & _). auto.
Qed.

(** The statefulset after its metadata came from the stored one. *)
Lemma has_seeds_ext s s' v :
  t_InitContainers (sts_Template s) = t_InitContainers (sts_Template s') → has_seeds s v → has_seeds s' v.
Proof. intros H (c & Hc & ?). exists c. unfold getBootstrapContainerFromStatefulset in *. by rewrite <- H. Qed.

(** Seeds, replicas and storage of the statefulset that goes out. *)
Lemma permitted_intro stored sts rs s1 s2 s :
  t_InitContainers (sts_Template s1) = t_InitContainers (sts_Template sts) →
  t_Labels (sts_Template s1) = t_Labels (sts_Template stored) →
  sts_Replicas s1 = sts_Replicas sts →
  (updatesSeedList (rs_LastAction rs) = true ∧ s2 = s1 ∨
   updatesSeedList (rs_LastAction rs) = false ∧ keepSeedList stored s1 = Ret s2) →
  sts_Replicas s = limitReplicas (sts_Replicas stored) (sts_Replicas s2) →
  t_InitContainers (sts_Template s) = t_InitContainers (sts_Template s2) →
  (∀ k, k ≠ "rolling-restart" → t_Labels (sts_Template s) !! k = t_Labels (sts_Template s2) !! k) →
  (IsStarted rs = false →
     Quantity_equal (findDataCapacity (sts_VolumeClaimTemplates s)).2
                    (findDataCapacity (sts_VolumeClaimTemplates stored)).2 = true) →
  frame s1 = frame sts → frame s = frame s2 → observed s1 = observed stored → observed s = observed s2 →
  permitted stored sts rs s.
Proof.
  intros Hi1 Hl1 Hr1 H2 Hr Hi Hl Hq Hf1 Hf Ho1 Ho.
  assert (sts_Replicas s2 = sts_Replicas s1 ∧ t_Labels (sts_Template s2) = t_Labels (sts_Template s1)) as [Hr2 Hl2].
  { destruct H2 as [[_ ->]|[_ H2]]; [done|]. apply keepSeedList_frame in H2. naive_solver. }
  split; [by rewrite Hr, Hr2, Hr1|].
  split; [|split; [done|split; [intros k Hk; by rewrite Hl, Hl2, Hl1|split]]].
  - intros Hu v w Hv Hw. rewrite (getStoredSeedList_ext _ _ Hi).
    destruct H2 as [[Hu' _]|[_ H2]]; [congruence|].
    eapply keepSeedList_seeds; [exact Hv|exact (has_seeds_ext _ _ _ (eq_sym Hi1) Hw)|exact H2].
  - intros Hu. destruct H2 as [[_ ->]|[Hu' _]]; [|congruence]. by rewrite Hi, Hi1.
  - rewrite Hf, Ho, <- Hf1, <- Ho1. destruct H2 as [[_ ->]|[_ H2]]; [done|]. by eapply keepSeedList_keeps_frame.
Qed.

Lemma IsStarted_setOngoing rs f :
  (∀ a, la_Name (f a) = la_Name a) → la_Name (rs_LastAction rs) ≠ Name ActionStorageUpsize →
  IsStarted (rs <| rs_LastAction ::= f |>) = false.
Proof. intros Hf Hn. unfold IsStarted. cbn. rewrite Hf. by rewrite bool_decide_false. Qed.

Lemma writeExisting_log (P : Event → Prop) s stored now k :
  (∀ ns name a, P (Ev _ (ApiGetStatefulSet ns name) a)) → (∀ a, P (Ev _ (ApiUpdateStatefulSet s) a)) →
  keeps (logs P) (writeExisting (W:=W) s stored now k).
Proof.
  intros Hget Hupd. unfold writeExisting.
  assert (∀ f, keeps (logs P) (set_action (W:=W) k f)) as Hset
    by (intros f; apply keeps_set_rack; intros; by apply logs_same).
  assert (keeps (logs P) (UpdateStatefulSet (W:=W) s)) as Hu.
  { intros e. eapply wp_keeps; [by apply (UpdateStatefulSet_quiet P)|]. by intros a e' [? _]. }
  keeps_steps; auto.
Qed.

Lemma updateExisting_log sts stored now k rs e :
  s_RackStatus (status e) !! k = Some rs →
  wp (updateExisting sts stored now k) (λ _ e', logs (update_request stored sts rs) e e') e.
Proof.
  intros Hrs. unfold updateExisting.
  set (s1 := sts <| sts_Meta ::= _ |> <| sts_Template ::= _ |> <| sts_Status := _ |>).
  apply wp_bind, wp_rack_status. rewrite Hrs. intros ? [= <-]. apply wp_bind.
  set (Inv := λ (s2 : StatefulSet) (e1 : Env W), log e1 = log e ∧
    (updatesSeedList (rs_LastAction rs) = true ∧ s2 = s1 ∨
     updatesSeedList (rs_LastAction rs) = false ∧ keepSeedList stored s1 = Ret s2) ∧
    ∃ rs1, s_RackStatus (status e1) !! k = Some rs1 ∧ (IsStarted rs = false → IsStarted rs1 = false)).
  apply wp_mono with (Q := Inv); unfold Inv; clear Inv.
  { destruct (updatesSeedList (rs_LastAction rs)) eqn:Hu.
    - apply wp_bind, wp_set_rack. intros r _. apply wp_ret. split; [done|]. split; [by left|].
      eexists. split; [by apply on_rack_lookup|]. intros _. apply IsStarted_setOngoing; [done|].
      unfold updatesSeedList in Hu. apply andb_true_iff in Hu as [Hu%bool_decide_eq_true _]. by rewrite Hu.
    - apply wp_lift. intros s2 Hs2. split; [done|]. split; [by right|]. by exists rs. }
  intros s2 e1 (Hlog1 & Hs2 & rs1 & Hrs1 & Hst1).
  apply wp_bind, wp_rack_status. rewrite Hrs1. intros ? [= <-].
  apply wp_bind, wp_lift. intros s3 Hs3. pose proof (Revert_keeps_frame _ _ _ _ Hs3) as [Hf3 Ho3].
  apply RevertAny_frame in Hs3 as (Hr3 & Ht3 & Hq3).
  assert (∀ s4 e2, logs (update_request stored sts rs) e e2 →
    sts_Replicas s4 = sts_Replicas s3 → sts_VolumeClaimTemplates s4 = sts_VolumeClaimTemplates s3 →
    t_InitContainers (sts_Template s4) = t_InitContainers (sts_Template s3) →
    (∀ k, k ≠ "rolling-restart" → t_Labels (sts_Template s4) !! k = t_Labels (sts_Template s3) !! k) →
    frame s4 = frame s3 → observed s4 = observed s3 →
    wp (writeExisting s4 stored now k) (λ _ e', logs (update_request stored sts rs) e e') e2) as Hend.
  { intros s4 e2 Hl Hr4 Hv4 Hi4 Hl4 Hf4 Ho4. eapply wp_keeps; [apply writeExisting_log with (P := update_request stored sts rs)|].
    - done.
    - intros a. apply (permitted_intro stored sts rs s1 s2); try done; rewrite ?Hr4, ?Hv4, ?Hi4, ?Hr3, ?Ht3; auto.
      + intros kk Hkk. by rewrite Hl4, Ht3.
      + by rewrite Hf4, Hf3.
      + by rewrite Ho4, Ho3.
    - intros ? e3 Hl3. by etrans. }
  apply wp_bind. destruct (_ && _).
  - apply wp_bind, wp_call. intros t w. apply wp_bind, wp_set_rack. intros r _. apply wp_ret.
    apply Hend; try done.
    + exists [Ev _ Now t]. split; [cbn; by rewrite Hlog1|]. by repeat constructor.
    + intros kk Hkk. cbn. unfold MergeLabels. simpl. rewrite map_union_empty.
      rewrite lookup_union_r; [done|]. by rewrite lookup_singleton_ne.
  - apply wp_ret. apply Hend; try done. by apply logs_same.
Qed.

(** The requests of a whole call: nothing under a disruption; otherwise the
    statefulset is read, and created, updated or left alone. *)
Definition sts_requests e (sts : StatefulSet) (n : CompleteRackName) (l : list Event) : Prop :=
  l = [] ∨
  ∃ t g l', l = Ev _ Now t :: Ev _ (ApiGetStatefulSet (m_Namespace (sts_Meta sts)) (m_Name (sts_Meta sts))) g :: l' ∧
    match g with
    | Ok stored => ∃ rs, s_RackStatus (status e) !! crn_DcRackName n = Some rs ∧
                         Forall (update_request stored sts rs) l'
    | Err err => if IsNotFound err then ∃ a, l' = [Ev _ (ApiCreateStatefulSet sts) a] else l' = []
    end.

Lemma CreateOrUpdateStatefulSet_log sts n e :
  wp (CreateOrUpdateStatefulSet sts n)
     (λ _ e', ∃ l, log e' = log e ++ l ∧ sts_requests e sts n l) e.
Proof.
  unfold CreateOrUpdateStatefulSet, hasNoPodDisruption.
  apply wp_bind, wp_bind, wp_gets, wp_bind, wp_lift. intros pdb _. apply wp_ret.
  apply wp_bind, wp_gets. destruct (_ && _).
  { apply wp_ret. exists []. rewrite app_nil_r. split; [done|by left]. }
  apply wp_bind, wp_call. intros t w. unfold GetStatefulSet. apply wp_bind, wp_bind, wp_call.
  intros g w'. apply wp_ret. destruct g as [stored|err]; cbn [got]; apply wp_bind, wp_modify.
  - destruct (s_RackStatus (status e) !! crn_DcRackName n) as [rs|] eqn:Hrs.
    + eapply wp_mono; [by apply updateExisting_log|]. intros r e' (l & Hl & HP).
      exists (Ev _ Now t :: Ev _ (ApiGetStatefulSet (m_Namespace (sts_Meta sts)) (m_Name (sts_Meta sts))) (Ok stored) :: l).
      split; [rewrite Hl; cbn; by rewrite <- !(assoc_L (++))|].
      right. eexists _, _, _. split; [reflexivity|]. exists rs. split; [exact Hrs|exact HP].
    + unfold updateExisting. apply wp_bind, wp_rack_status. cbn. rewrite Hrs. intros ? [=].
  - destruct (IsNotFound err) eqn:Enf.
    + unfold CreateStatefulSet. apply wp_bind, wp_bind, wp_call. intros a w''. do 2 apply wp_ret.
      eexists. split; [cbn; rewrite <- !(assoc_L (++)); reflexivity|]. right. eexists _, _, _.
      split; [reflexivity|]. cbn. rewrite Enf. eauto.
    + apply wp_ret. eexists. split; [cbn; rewrite <- !(assoc_L (++)); reflexivity|].
      right. eexists _, _, _. split; [reflexivity|]. cbn. by rewrite Enf.
Qed.

(** An update among these requests is a permitted one. *)
Lemma sts_requests_update e sts n l s a :
  sts_requests e sts n l → Ev _ (ApiUpdateStatefulSet s) a ∈ l →
  ∃ stored rs, Ev _ (ApiGetStatefulSet (m_Namespace (sts_Meta sts)) (m_Name (sts_Meta sts))) (Ok stored) ∈ l ∧
    s_RackStatus (status e) !! crn_DcRackName n = Some rs ∧ permitted stored sts rs s.
Proof.
  intros [->|(t & g & l' & -> & Hg)] Hin; [by apply elem_of_nil in Hin|].
  rewrite !elem_of_cons in Hin. destruct Hin as [Heq|[Heq|Hin]].
  - apply (f_equal (λ ev : Event, match ev with Ev _ r _ => match r with Now => true | _ => false end end)) in Heq.
    done.
  - apply (f_equal (λ ev : Event, match ev with Ev _ r _ =>
      match r with ApiGetStatefulSet _ _ => true | _ => false end end)) in Heq. done.
  - destruct g as [stored|err].
    + destruct Hg as (rs & Hrs & HP). exists stored, rs. rewrite Forall_forall in HP. specialize (HP _ Hin).
      split; [|done]. right. by left.
    + exfalso. destruct (IsNotFound err); [destruct Hg as [b ->]|subst l'; by apply elem_of_nil in Hin].
      apply list_elem_of_singleton in Hin.
      apply (f_equal (λ ev : Event, match ev with Ev _ r _ =>
        match r with ApiCreateStatefulSet _ => true | _ => false end end)) in Hin. done.
Qed.

(** A creation among them is the one of the generated statefulset. *)
Lemma sts_requests_create e sts n l s a :
  sts_requests e sts n l → Ev _ (ApiCreateStatefulSet s) a ∈ l → s = sts.
Proof.
  set (created := λ ev : Event, match ev with Ev _ r _ =>
    match r with ApiCreateStatefulSet s => Some s | _ => None end end).
  intros [->|(t & g & l' & -> & Hg)] Hin; [by apply elem_of_nil in Hin|].
  rewrite !elem_of_cons in Hin. destruct Hin as [Heq|[Heq|Hin]]; [by apply (f_equal created) in Heq..|].
  destruct g as [stored|err].
  - destruct Hg as (rs & Hrs & HP). rewrite Forall_forall in HP. by specialize (HP _ Hin).
  - destruct (IsNotFound err); [destruct Hg as [b ->]|subst l'; by apply elem_of_nil in Hin].
    apply list_elem_of_singleton in Hin. apply (f_equal created) in Hin. by injection Hin as ->.
Qed.
End writes.

(** ** Theorems *)
Section theorems.
Context {QL : QuantityLib} {Laws : QuantityLaws QL} {Codec : StsCodec} {Patch : PatchLib}.
Context {Gen : StatefulSetGenerator} {W : Type} {Srv : ApiServer W}.
Implicit Types e : Env W.

(** C3: a statefulset is scaled one node at a time: whatever the wanted number of
    nodes, an update asks for at most one replica more or less than the stored
    statefulset has, always towards the wanted number, and makes progress when
    they differ (for replica counts in the range of int32). *)
Theorem sts_scaled_one_by_one (sts : StatefulSet) (n : CompleteRackName) (e : Env W) (r : bool * option error)
    (e' : Env W) (l : list Event) (s : StatefulSet) (a : option error)
    (Hrun : CreateOrUpdateStatefulSet sts n e = Ret (r, e')) (Hlog : log e' = log e ++ l)
    (Hupdate : Ev _ (ApiUpdateStatefulSet s) a ∈ l) (Hwanted : (0 ≤ sts_Replicas sts < 2 ^ 31)%Z) :
  ∃ stored,
    Ev _ (ApiGetStatefulSet (m_Namespace (sts_Meta sts)) (m_Name (sts_Meta sts))) (Ok stored) ∈ l ∧
    ((0 ≤ sts_Replicas stored < 2 ^ 31)%Z →
     (Z.abs (sts_Replicas s - sts_Replicas stored) ≤ 1)%Z ∧
     (Z.abs (sts_Replicas sts - sts_Replicas s) ≤ Z.abs (sts_Replicas sts - sts_Replicas stored))%Z ∧
     (sts_Replicas stored ≠ sts_Replicas sts → sts_Replicas s ≠ sts_Replicas stored)).
Proof.
  destruct (wp_run _ _ _ _ _ (CreateOrUpdateStatefulSet_log sts n e) Hrun) as (l0 & Hl0 & Hreq).
  rewrite Hlog in Hl0. apply (inj _) in Hl0 as <-.
  destruct (sts_requests_update _ _ _ _ _ _ Hreq Hupdate) as (stored & rs & Hget & _ & Hrep & _).
  exists stored. split; [done|]. intros Hst. rewrite Hrep.
  destruct (limitReplicas_step (sts_Replicas stored) (sts_Replicas sts)) as (? & ? & ? & _); auto.
Qed.

(** C32: unless the rack is in the middle of an UpdateSeedList action, an update
    keeps the seed list that is in the stored statefulset, whatever seed list the
    generated one has, so no pod restarts because of a seed. *)
Theorem sts_seeds_kept (sts : StatefulSet) (n : CompleteRackName) (e : Env W) (r : bool * option error)
    (e' : Env W) (l : list Event) (s : StatefulSet) (a : option error) (w : string) (rs : CassandraRackStatus)
    (Hrun : CreateOrUpdateStatefulSet sts n e = Ret (r, e')) (Hlog : log e' = log e ++ l)
    (Hupdate : Ev _ (ApiUpdateStatefulSet s) a ∈ l) (Hgenerated : has_seeds sts w)
    (Hrs : s_RackStatus (status e) !! crn_DcRackName n = Some rs)
    (Haction : updatesSeedList (rs_LastAction rs) = false) :
  ∃ stored,
    Ev _ (ApiGetStatefulSet (m_Namespace (sts_Meta sts)) (m_Name (sts_Meta sts))) (Ok stored) ∈ l ∧
    ∀ v, has_seeds stored v → getStoredSeedList s = getStoredSeedList stored.
Proof.
  destruct (wp_run _ _ _ _ _ (CreateOrUpdateStatefulSet_log sts n e) Hrun) as (l0 & Hl0 & Hreq).
  rewrite Hlog in Hl0. apply (inj _) in Hl0 as <-.
  destruct (sts_requests_update _ _ _ _ _ _ Hreq Hupdate) as (stored & rs' & Hget & Hrs' & _ & Hseeds & _).
  rewrite Hrs in Hrs'. injection Hrs' as <-.
  exists stored. split; [done|]. intros v Hv. rewrite (has_seeds_list _ _ Hv). by eapply Hseeds.
Qed.

(** C34: outside a storage upsize an update never asks for another size of the data
    claim, and it never drops a label of the pod template (only the label of a
    rolling restart is set). *)
Theorem sts_storage_and_labels_kept (sts : StatefulSet) (n : CompleteRackName) (e : Env W)
    (r : bool * option error) (e' : Env W) (l : list Event) (s : StatefulSet) (a : option error)
    (rs : CassandraRackStatus)
    (Hrun : CreateOrUpdateStatefulSet sts n e = Ret (r, e')) (Hlog : log e' = log e ++ l)
    (Hupdate : Ev _ (ApiUpdateStatefulSet s) a ∈ l)
    (Hrs : s_RackStatus (status e) !! crn_DcRackName n = Some rs) (Hupsize : IsStarted rs = false) :
  ∃ stored,
    Ev _ (ApiGetStatefulSet (m_Namespace (sts_Meta sts)) (m_Name (sts_Meta sts))) (Ok stored) ∈ l ∧
    Quantity_equal (findDataCapacity (sts_VolumeClaimTemplates s)).2
                   (findDataCapacity (sts_VolumeClaimTemplates stored)).2 = true ∧
    (∀ k, k ≠ "rolling-restart" → t_Labels (sts_Template s) !! k = t_Labels (sts_Template stored) !! k).
Proof.
  destruct (wp_run _ _ _ _ _ (CreateOrUpdateStatefulSet_log sts n e) Hrun) as (l0 & Hl0 & Hreq).
  rewrite Hlog in Hl0. apply (inj _) in Hl0 as <-.
  destruct (sts_requests_update _ _ _ _ _ _ Hreq Hupdate) as (stored & rs' & Hget & Hrs' & _ & _ & Hq & Hl & _).
  rewrite Hrs in Hrs'. injection Hrs' as <-. eauto.
Qed.

(** While the disruption budget reports a disruption and the user did not unlock
    the next operation, [CreateOrUpdateStatefulSet] changes nothing: no
    request goes out, the status stays, and the loop goes on. *)
Lemma sts_untouched_under_disruption (sts : StatefulSet) (n : CompleteRackName) (e : Env W)
    (pdb : PodDisruptionBudget)
    (Hpdb : rcc_storedPdb e = Some pdb) (Hdisrupted : no_disruption pdb = false)
    (Hlocked : UnlockNextOperation (cc_Spec (rcc_cc e)) = false) :
  CreateOrUpdateStatefulSet sts n e = Ret ((ContinueResyncLoop, None), e).
Proof.
  unfold CreateOrUpdateStatefulSet, hasNoPodDisruption, mbind, GoM_bind, gets, get_cc, gets, lift.
  rewrite Hpdb. cbn. rewrite Hdisrupted, Hlocked. done.
Qed.
End theorems.

(** ** Instances

    A stored statefulset with two replicas while five are wanted, with another
    seed list and another size. *)
Section instances.
#[local] Existing Instance SampleQuantities.
#[local] Existing Instance demo_codec.
#[local] Instance demo_patch : PatchLib := {| patch_IsEmpty a b := bool_decide (a = b) |}.

Definition bootstrap_container (seeds : string) : Container :=
  Container_zero <| c_Name := bootstrap |> <| c_Env := [mkEnvVar CASSANDRA_SEEDS seeds None] |>.
Definition seeded (replicas : Z) (seeds size : string) : StatefulSet :=
  (demo_sts size) <| sts_Replicas := replicas |>
    <| sts_Template ::= λ t, t <| t_InitContainers := [bootstrap_container seeds] |> |>.
Definition scale_env : Env FakeCluster :=
  start (empty_cluster <| f_sts := {[ "cassandra-demo-dc1-rack1" := seeded 2 "a,b" "10Gi" ]} |>)
    (upsize_cc <| cc_Status ::= λ s, s <| s_RackStatus := {[ "dc1-rack1" :=
       mkRackStatus (Name ClusterPhaseRunning) (mkLastAction StatusToDo (Name ActionScaleUp) None None [])
         PodLastOperation_zero "" ]} |> |>).
Definition scale_run : outcome (bool * option error * Env FakeCluster) :=
  CreateOrUpdateStatefulSet (seeded 5 "a,b,c" "20Gi") demo_rack scale_env.

(** The statefulset that was written in a log, with its answer. *)
Definition written (l : list (Event (QL:=SampleQuantities))) : option (StatefulSet * option error) :=
  find_map (λ ev, match ev with
                  | Ev _ r a => match r in Req A return A → option (StatefulSet * option error) with
                                | ApiUpdateStatefulSet s => λ a, Some (s, a)
                                | _ => λ _, None
                                end a
                  end) l.

Lemma written_elem l s a : written l = Some (s, a) → Ev _ (ApiUpdateStatefulSet s) a ∈ l.
Proof.
  intros H. apply find_map_Some in H as ([A r x] & Hin & Hr). destruct r; try discriminate Hr.
  injection Hr as <- <-. exact Hin.
Qed.

Lemma scale_written :
  ∃ r e' s, scale_run = Ret (r, e') ∧ written (log e') = Some (s, None) ∧ sts_Replicas s = 3%Z ∧
            getStoredSeedList s = ["a"; "b"].
Proof.
  destruct (observe_Some (λ _ e', (λ '(s, a), (sts_Replicas s, a, getStoredSeedList s)) <$> written (log e'))
    (CreateOrUpdateStatefulSet (seeded 5 "a,b,c" "20Gi") demo_rack) scale_env
    (Some (3%Z, None, ["a"; "b"]))) as (r & e' & Hrun & Hw); [vm_compute; reflexivity|].
  destruct (written (log e')) as [[s a]|] eqn:E; [|discriminate Hw]. injection Hw as Hs -> Hseeds.
  exists r, e', s. auto.
Qed.

Lemma scale_has_seeds : has_seeds (seeded 5 "a,b,c" "20Gi") "a,b,c".
Proof. exists (bootstrap_container "a,b,c"). repeat split. repeat constructor. set_solver. Qed.

Definition scale_rack : CassandraRackStatus :=
  mkRackStatus (Name ClusterPhaseRunning) (mkLastAction StatusToDo (Name ActionScaleUp) None None [])
    PodLastOperation_zero "".

Lemma sts_scaled_one_by_one_witness :
  ∃ s stored : StatefulSet, sts_Replicas s = 3%Z ∧
    ((0 ≤ sts_Replicas stored < 2 ^ 31)%Z → (Z.abs (sts_Replicas s - sts_Replicas stored) ≤ 1)%Z).
Proof.
  destruct scale_written as (r & e' & s & Hrun & Hw & Hs & _).
  destruct (sts_scaled_one_by_one (seeded 5 "a,b,c" "20Gi") demo_rack scale_env r e' (log e') s None Hrun
    eq_refl (written_elem _ _ _ Hw) ltac:(vm_compute; split; [discriminate|reflexivity])) as (stored & _ & H).
  exists s, stored. split; [exact Hs|]. intros Hst. apply (H Hst).
Defined.

Lemma sts_seeds_kept_witness :
  ∃ s stored : StatefulSet, getStoredSeedList s = ["a"; "b"] ∧
    ∀ v, has_seeds stored v → getStoredSeedList s = getStoredSeedList stored.
Proof.
  destruct scale_written as (r & e' & s & Hrun & Hw & _ & Hs).
  destruct (sts_seeds_kept (seeded 5 "a,b,c" "20Gi") demo_rack scale_env r e' (log e') s None "a,b,c" scale_rack
    Hrun eq_refl (written_elem _ _ _ Hw) scale_has_seeds ltac:(vm_compute; reflexivity)
    ltac:(vm_compute; reflexivity)) as (stored & _ & H).
  exists s, stored. split; [exact Hs|exact H].
Defined.

Lemma sts_storage_and_labels_kept_witness :
  ∃ s stored : StatefulSet,
    Quantity_equal (findDataCapacity (sts_VolumeClaimTemplates s)).2
                   (findDataCapacity (sts_VolumeClaimTemplates stored)).2 = true.
Proof.
  destruct scale_written as (r & e' & s & Hrun & Hw & _ & _).
  destruct (sts_storage_and_labels_kept (seeded 5 "a,b,c" "20Gi") demo_rack scale_env r e' (log e') s None scale_rack
    Hrun eq_refl (written_elem _ _ _ Hw) ltac:(vm_compute; reflexivity)
    ltac:(vm_compute; reflexivity)) as (stored & _ & H & _).
  exists s, stored. exact H.
Defined.
End instances.
