(* ===== verification/ClusterPods.v ===== *)
(** * The pods of a cluster (src/controllers/cassandracluster: reconcile.go, pod_operation.go)

    Listing the pods of all racks, following the Cassandra host id of every pod,
    deleting a pod that took over the address of another node, asking whether
    nodes are joining, and labelling pods for an operation. *)
From S2P Require Import Prelude KubeObjects Types ClusterApi K8sUtil Server Pods NodeOperations.
From S2P Require Import FakeCluster StorageUpsize.

Section cluster_pods.
Context {QL : QuantityLib} {W : Type} {Srv : ApiServer W}.

(** The indices the loops
    [for dc := 0; dc < cc.GetDCSize(); dc++ { for rack := 0; rack < cc.GetRackSize(dc); rack++ {...}}]
    go through, in their order. *)
Definition rack_indices (cc : CassandraCluster) : list (nat * nat) :=
  concat ((λ dc, pair dc <$> seq 0 (GetRackSize cc dc)) <$> seq 0 (GetDCSize cc)).

Definition rackNameAt (cc : CassandraCluster) (i : nat * nat) : CompleteRackName :=
  let dcName := GetDCName cc i.1 in
  let rackName := GetRackName cc i.1 i.2 in
  mkCompleteRackName dcName rackName (GetDCRackName dcName rackName).

Definition bad_names : error := OtherError "name used for DC and/or Rack are not good".

(** ** ListCassandraClusterPods *)
Fixpoint listRacksPods (cc : CassandraCluster) (racks : list (nat * nat)) (podsList : list Pod)
  : M W (result (list Pod)) :=
  match racks with
  | [] => mret (Ok podsList)
  | i :: racks =>
      let n := rackNameAt cc i in
      if crn_DcRackName n == "" then mret (Err bad_names)
      else
        '(pods, err) ← ListPods (cc_Namespace cc) (LabelsForCassandraDCRack cc (crn_DcName n) (crn_RackName n));
        match err with
        | Some e => mret (Err e)
        | None => listRacksPods cc racks (podsList ++ pods)
        end
  end.
Definition ListCassandraClusterPods (cc : CassandraCluster) : M W (result (list Pod)) :=
  listRacksPods cc (rack_indices cc) [].

(** ** Host ids *)

(** Writing into the map when it is nil panics. *)
Definition updateCassandraNodesStatusForPod (hostIDMap : gmap string string) (pod : Pod) : M W unit :=
  match hostIDMap !! pod_PodIP pod with
  | Some hostId =>
      if IsReady pod then
        st ← get_status;
        _ ← lift (deref (s_NodesStatus st));
        modify_status (λ st, st <| s_NodesStatus ::=
          fmap (<[pod_Name pod := mkNodeStatus hostId (pod_PodIP pod)]>) |>)
      else mret tt
  | None => mret tt
  end.

(** The pod itself when the address it has belongs to another host id. *)
Definition checkPodCrossIpUseCaseForPod (hostIDMap : gmap string string) (pod : Pod)
    (st : CassandraClusterStatus) : option Pod :=
  let statusHostId := match default ∅ (s_NodesStatus st) !! pod_Name pod with
                      | Some ns => HostId ns
                      | None => ""
                      end in
  match hostIDMap !! pod_PodIP pod with
  | Some hostId => if statusHostId != hostId then Some pod else None
  | None => None
  end.

(** The first pod that restarted too often ends the loop. *)
Fixpoint processingPods (hostIDMap : gmap string string) (restartCountBeforePodDeletion : Z)
    (podsList : list Pod) : M W (option Pod) :=
  match podsList with
  | [] => mret None
  | pod :: podsList =>
      if bool_decide (0 < restartCountBeforePodDeletion)%Z &&
         bool_decide (restartCountBeforePodDeletion < RestartCount pod)%Z then
        st ← get_status; mret (checkPodCrossIpUseCaseForPod hostIDMap pod st)
      else
        _ ← updateCassandraNodesStatusForPod hostIDMap pod;
        processingPods hostIDMap restartCountBeforePodDeletion podsList
  end.

Definition CheckPodsState : M W (option error) :=
  cc ← get_cc;
  r ← ListCassandraClusterPods cc;
  match r with
  | Err e => mret (Some e)
  | Ok podsList =>
      _ ← modify_status (λ st, st <| s_NodesStatus ::= λ o, Some (default ∅ o) |>);
      if bool_decide (length podsList < 1) then mret None
      else match GetLastOrFirstPodReady podsList false with
           | Err e => mret (Some e)
           | Ok firstPod =>
               let hostName := PodHostname firstPod in
               r ← NewJolokiaClient hostName (ImageJolokiaSecret (cc_Spec cc)) (cc_Namespace cc);
               match r with
               | Err e => mret (Some e)
               | Ok jolokiaClient =>
                   r ← hostIDMap jolokiaClient;
                   match r with
                   | Err e => mret (Some e)
                   | Ok m =>
                       podToDelete ← processingPods m (RestartCountBeforePodDeletion (cc_Spec cc)) podsList;
                       match podToDelete with
                       | Some pod => call (ApiDeletePod pod None)
                       | None => mret None
                       end
                   end
               end
           end
  end.

(** ** hasJoiningNodes (pod_operation.go) *)
Definition hasJoiningNodes (cc : CassandraCluster) : M W (bool * option error) :=
  r ← ListCassandraClusterPods cc;
  match r with
  | Err e => mret (false, Some e)
  | Ok podsList =>
      match GetLastOrFirstPodReady podsList false with
      | Err e => mret (false, Some e)
      | Ok firstPod =>
          r ← NewJolokiaClient (PodHostname firstPod) (ImageJolokiaSecret (cc_Spec cc)) (cc_Namespace cc);
          match r with
          | Err e => mret (false, Some e)
          | Ok jolokiaClient => hasJoiningNodes_node jolokiaClient
          end
      end
  end.

(** A pod that runs and is not being deleted. *)
Definition alive (pod : Pod) : bool := (pod_Phase pod == PodRunning) && (pod_DeletionTimestamp pod == None).

(** ** addPodOperationLabels (pod_operation.go); errors are only logged *)
Definition addPodOperationLabels (cc : CassandraCluster) (n : CompleteRackName) (labels : gmap string string)
  : M W unit :=
  let selector := MergeLabels [LabelsForCassandraDCRack cc (crn_DcName n) (crn_RackName n)] in
  '(podsList, err) ← ListPods (cc_Namespace cc) selector;
  match err with
  | Some _ => mret tt
  | None =>
      range_do podsList (λ pod,
        if alive pod then
          _ ← UpdatePod (with_labels (MergeLabels [pod_Labels pod; labels]) pod); mret tt
        else mret tt)
  end.
End cluster_pods.

(** ** Lemmas: these procedures only read *)
Section reading.
Context {QL : QuantityLib} {W : Type} {Srv : ApiServer W}.
Implicit Types e : Env W.

Lemma ListPods_quiet ns sel : keeps (quiet read_only) (ListPods (W:=W) ns sel).
Proof. unfold ListPods. keeps_steps. by apply keeps_quiet_call. Qed.
Lemma ListPodsSorted_quiet ns sel : keeps (quiet read_only) (ListPodsOrderByNameAscending (W:=W) ns sel).
Proof. unfold ListPodsOrderByNameAscending. keeps_steps. apply ListPods_quiet. Qed.
Lemma GetPod_quiet ns name : keeps (quiet read_only) (GetPod (W:=W) ns name).
Proof. unfold GetPod. keeps_steps. by apply keeps_quiet_call. Qed.
Lemma GetPVC_quiet ns name : keeps (quiet read_only) (GetPVC (W:=W) ns name).
Proof. unfold GetPVC. keeps_steps. by apply keeps_quiet_call. Qed.
Lemma GetLastPod_quiet ns sel : keeps (quiet read_only) (GetLastPod (W:=W) ns sel).
Proof. unfold GetLastPod. keeps_steps. apply ListPods_quiet. Qed.
Lemma hasUnschedulablePod_quiet n : keeps (quiet read_only) (hasUnschedulablePod (W:=W) n).
Proof. unfold hasUnschedulablePod. keeps_steps. apply ListPods_quiet. Qed.
Lemma NewJolokiaClient_quiet h s ns : keeps (quiet read_only) (NewJolokiaClient (W:=W) h s ns).
Proof. unfold NewJolokiaClient. keeps_steps. by apply keeps_quiet_call. Qed.
Lemma read_quiet jc b a : keeps (quiet read_only) (read (W:=W) jc b a).
Proof. unfold read. keeps_steps. by apply keeps_quiet_call. Qed.
Lemma hostIDMap_quiet jc : keeps (quiet read_only) (hostIDMap (W:=W) jc).
Proof. unfold hostIDMap. keeps_steps. apply read_quiet. Qed.
Lemma NodeOperationMode_quiet jc : keeps (quiet read_only) (NodeOperationMode (W:=W) jc).
Proof. unfold NodeOperationMode. keeps_steps. apply read_quiet. Qed.
Lemma hasJoiningNodes_node_quiet jc : keeps (quiet read_only) (hasJoiningNodes_node (W:=W) jc).
Proof. unfold hasJoiningNodes_node. keeps_steps. apply read_quiet. Qed.
Lemma listRacksPods_quiet cc racks acc : keeps (quiet read_only) (listRacksPods (W:=W) cc racks acc).
Proof.
  revert acc. induction racks as [|i racks IH]; intros acc; simpl; keeps_steps; auto using ListPods_quiet.
Qed.
Lemma ListCassandraClusterPods_quiet cc : keeps (quiet read_only) (ListCassandraClusterPods (W:=W) cc).
Proof. apply listRacksPods_quiet. Qed.
Lemma hasJoiningNodes_quiet cc : keeps (quiet read_only) (hasJoiningNodes (W:=W) cc).
Proof.
  unfold hasJoiningNodes.
  keeps_steps; auto using ListCassandraClusterPods_quiet, NewJolokiaClient_quiet, hasJoiningNodes_node_quiet.
Qed.
End reading.
#[export] Hint Resolve ListPods_quiet ListPodsSorted_quiet GetPod_quiet GetPVC_quiet GetLastPod_quiet
  hasUnschedulablePod_quiet NewJolokiaClient_quiet read_quiet hostIDMap_quiet NodeOperationMode_quiet
  hasJoiningNodes_node_quiet ListCassandraClusterPods_quiet hasJoiningNodes_quiet : keeps.

(** ** Pods that are deleted *)
Section crossip.
Context {QL : QuantityLib} {W : Type} {Srv : ApiServer W}.
Implicit Types e : Env W.

Lemma checkPodCross_self m p st q : checkPodCrossIpUseCaseForPod m p st = Some q → q = p.
Proof. unfold checkPodCrossIpUseCaseForPod. destruct (m !! _); [|done]. case_bool_decide; simpl; congruence. Qed.

Lemma processingPods_spec m t pods e :
  wp (processingPods m t pods) (λ r e1, log e1 = log e ∧
    ∀ p, r = Some p → p ∈ pods ∧ (0 < t < RestartCount p)%Z ∧
                      checkPodCrossIpUseCaseForPod m p (status e1) = Some p) e.
Proof.
  revert e. induction pods as [|pod pods IH]; intros e; cbn [processingPods]; [by apply wp_ret|].
  destruct (_ && _) eqn:Ht.
  - apply wp_bind, wp_gets, wp_ret. split; [done|]. intros p Hp.
    pose proof (checkPodCross_self _ _ _ _ Hp) as ->.
    apply andb_true_iff in Ht as [?%bool_decide_eq_true ?%bool_decide_eq_true]. split; [by left|done].
  - apply wp_bind. apply wp_mono with (Q := λ _ e1, log e1 = log e).
    { unfold updateCassandraNodesStatusForPod. wp_steps; done. }
    intros _ e1 Hlog1. eapply wp_mono; [apply IH|]. intros r e2 [Hlog2 Hr]. split; [by rewrite Hlog2|].
    intros p Hp. destruct (Hr p Hp) as (? & ? & ?). split; [by right|done].
Qed.

(** Reading, or deleting a pod that restarted more than [t] times and whose
    address Cassandra knows under another host id than the status [st]. *)
Definition pods_request (t : Z) (st : CassandraClusterStatus) (ev : Event) : Prop :=
  match ev with
  | Ev _ r _ =>
      match r with
      | ApiDeletePod p grace =>
          grace = None ∧ (0 < t < RestartCount p)%Z ∧
          ∃ hostIDs, checkPodCrossIpUseCaseForPod hostIDs p st = Some p
      | _ => read_only ev
      end
  end.

Lemma read_only_pods_request t st ev : read_only ev → pods_request t st ev.
Proof. destruct ev as [A r a]. by destruct r. Qed.

Lemma logs_pods_request t st e e1 e2 :
  quiet read_only e e1 → logs (pods_request t st) e1 e2 → logs (pods_request t st) e e2.
Proof. intros H1 H2. etrans; [|exact H2]. eapply logs_mono; [apply read_only_pods_request|by apply quiet_logs]. Qed.

Lemma CheckPodsState_log e :
  wp CheckPodsState (λ _ e',
    logs (pods_request (RestartCountBeforePodDeletion (cc_Spec (rcc_cc e))) (status e')) e e') e.
Proof.
  unfold CheckPodsState. apply wp_bind, wp_gets, wp_bind.
  eapply wp_keeps; [apply ListCassandraClusterPods_quiet|]. intros [pods|err] e1 Hq1; [|apply wp_ret; by eapply logs_pods_request].
  apply wp_bind, wp_modify. set (e1' := e1 <| status ::= _ |>).
  assert (∀ st, logs (pods_request (RestartCountBeforePodDeletion (cc_Spec (rcc_cc e))) st) e e1') as Hl1.
  { intros st. eapply logs_pods_request; [done|]. by apply logs_same. }
  case_bool_decide; [by apply wp_ret|].
  destruct (GetLastOrFirstPodReady pods false) as [firstPod|err]; [|by apply wp_ret].
  apply wp_bind. eapply wp_keeps; [apply NewJolokiaClient_quiet|]. intros [jc|err] e2 Hq2.
  2: { apply wp_ret. etrans; [apply Hl1|]. by eapply logs_pods_request. }
  apply wp_bind. eapply wp_keeps; [apply hostIDMap_quiet|]. intros [m|err] e3 Hq3.
  2: { apply wp_ret. etrans; [apply Hl1|]. eapply logs_pods_request; [done|]. by eapply logs_pods_request. }
  apply wp_bind. eapply wp_mono; [apply processingPods_spec|]. intros r e4 [Hlog4 Hr].
  assert (∀ st, logs (pods_request (RestartCountBeforePodDeletion (cc_Spec (rcc_cc e))) st) e e4) as Hl4.
  { intros st. etrans; [apply Hl1|]. eapply logs_pods_request; [done|]. eapply logs_pods_request; [done|].
    by apply logs_same. }
  destruct r as [p|]; [|by apply wp_ret].
  apply wp_call. intros a w. etrans; [apply Hl4|]. apply logs_call. destruct (Hr p eq_refl) as (_ & ? & ?).
  split; [done|]. split; [done|]. by exists m.
Qed.

(** ** Theorems *)

(** [CheckPodsState] deletes a pod only in the cross-IP situation: the pod
    restarted more often than the configured (positive) limit, and the address it
    has is known to Cassandra under a host id other than the one recorded for the
    pod; apart from that it only reads. *)
Theorem pod_deleted_only_on_cross_ip (e : Env W) (r : option error) (e' : Env W)
    (Hrun : CheckPodsState e = Ret (r, e')) :
  logs (pods_request (RestartCountBeforePodDeletion (cc_Spec (rcc_cc e))) (status e')) e e'.
Proof. exact (wp_run _ _ _ _ _ (CheckPodsState_log e) Hrun). Qed.
End crossip.

Section instances.
#[local] Existing Instance SampleQuantities.
Definition crash_cc : CassandraCluster :=
  upsize_cc <| cc_Spec ::= λ s, s <| RestartCountBeforePodDeletion := 3%Z |> |>
            <| cc_Status ::= λ s, s <| s_NodesStatus := Some {[ "c-0" := mkNodeStatus "mine" "10.0.0.9" ]} |> |>.
Definition crash_pod : Pod :=
  (ready_pod "c-0") <| pod_ContainerStatuses := [mkContainerStatus CassandraContainerName true 5 None] |>.
Definition crash_env : Env FakeCluster :=
  start (empty_cluster <| f_pods := {[ "c-0" := crash_pod ]} |>
           <| f_jolokia := {[ "HostIdMap" := JMap [("10.0.0.1", JString "other")] ]} |>) crash_cc.

(** The pod is deleted in this situation, and only under it. *)
Lemma pod_deleted_only_on_cross_ip_witness :
  ∃ r e', CheckPodsState crash_env = Ret (r, e') ∧ f_pods (world e') !! "c-0" = None ∧
    logs (pods_request 3 (status e')) crash_env e'.
Proof.
  destruct (observe_Some (λ _ e', f_pods (world e') !! "c-0") CheckPodsState crash_env None)
    as (r & e' & Hrun & Hgone); [vm_compute; reflexivity|].
  exists r, e'. split; [exact Hrun|]. split; [exact Hgone|].
  exact (pod_deleted_only_on_cross_ip crash_env r e' Hrun).
Defined.
End instances.
