(* ===== verification/Status.v ===== *)
(** * The action state machine of a rack (src/controllers/cassandracluster/cassandra_status.go)

    Every reconcile loop compares the resource with the stored statefulset of a
    rack, ends the action that is over, or starts the next one; one action at a
    time.  The clock is read where the source calls [metav1.Now]. *)
From S2P Require Import Prelude KubeObjects Types ClusterApi K8sUtil Server Pods NodeOperations.
From S2P Require Import FakeCluster Generator StorageUpsize StatefulSets ClusterPods.


Section status.
Context {QL : QuantityLib} {Codec : StsCodec} {CfgCodec : ConfigCodec} {Diff : SliceDiff}.
Context {W : Type} {Srv : ApiServer W}.

(** ** Last applied configuration *)
Definition ComputeLastAppliedConfiguration (cc : CassandraCluster) : string :=
  default "" (Marshal_cc (cc
    <| cc_Meta ::= λ m, m <| m_Annotations := ∅ |> <| m_ResourceVersion := "" |> |>
    <| cc_Status := Status_zero |>)).

Definition last_applied (cc : CassandraCluster) : string :=
  default "" (m_Annotations (cc_Meta cc) !! AnnotationLastApplied).

(** [updateCassandraStatus] for a resource and a status given by the caller; the
    resource as the API server left it comes back. *)
Definition writeStatus (cc : CassandraCluster) (st : CassandraClusterStatus)
  : M W (CassandraCluster * option error) :=
  let lastApplied := ComputeLastAppliedConfiguration cc in
  nu ← gets needUpdate;
  if negb nu && (cc_Status cc == st) && (last_applied cc == lastApplied) && (last_applied cc != "")
  then mret (cc, None)
  else
    _ ← modify (λ e : Env W, e <| needUpdate := false |>);
    let cc := cc <| cc_Meta ::= λ m, m <| m_Annotations ::= <[AnnotationLastApplied := lastApplied]> |> |> in
    r ← call (ApiUpdateCC cc);
    let cc := match r with
              | Ok (rv, stored) => cc <| cc_Meta ::= λ m, m <| m_ResourceVersion := rv |> |> <| cc_Status := stored |>
              | Err _ => cc
              end in
    let cc := cc <| cc_Status := st |> in
    r ← call (ApiUpdateCCStatus cc);
    mret match r with
         | Ok rv => (cc <| cc_Meta ::= λ m, m <| m_ResourceVersion := rv |> |>, None)
         | Err e => (cc, Some e)
         end.

Definition updateCassandraStatus : M W (option error) :=
  cc ← get_cc;
  st ← get_status;
  '(cc, err) ← writeStatus cc st;
  _ ← modify_cc (λ _, cc);
  mret err.

(** ** Waiting *)
Definition needToWaitDelayBeforeCheck (k : string) : M W bool :=
  rs ← rack_status k;
  match la_StartTime (rs_LastAction rs) with
  | None => mret false
  | Some t => now ← call Now; mret (bool_decide (now < t + DefaultDelayWait * second)%Z)
  end.

(** ** Detection of changes *)
Definition setAction (k statusName actionName : string) : M W unit :=
  set_action k (λ a, a <| la_Status := statusName |> <| la_Name := actionName |>
                       <| la_StartTime := None |> <| la_EndTime := None |>).

Definition configMapChanged (cc : CassandraCluster) (sts : StatefulSet) : bool :=
  let wanted := ConfigMapName (cc_Spec cc) in
  match t_Volumes (sts_Template sts) with
  | None => wanted != ""
  | Some volumes =>
      match find_map (λ v, if vol_Name v == cassandraConfigMapName then Some v else None) volumes with
      | Some v => match vol_ConfigMap v with Some name => name != wanted | None => false end
      | None => wanted != ""
      end
  end.

Definition UpdateStatusIfconfigMapHasChanged (k : string) (sts : StatefulSet) : M W bool :=
  cc ← get_cc;
  if configMapChanged cc sts then
    _ ← setAction k StatusToDo (Name ActionUpdateConfigMap);
    _ ← call (ActionMetric ActionUpdateConfigMap (cc_Name cc));
    mret true
  else mret false.

Definition dockerImageChanged (cc : CassandraCluster) (sts : StatefulSet) : bool :=
  existsb (λ c, (c_Name c == CassandraContainerName) && (CassandraImage (cc_Spec cc) != c_Image c))
    (t_Containers (sts_Template sts)).

Definition UpdateStatusIfDockerImageHasChanged (k : string) (sts : StatefulSet) : M W bool :=
  cc ← get_cc;
  if dockerImageChanged cc sts then
    _ ← setAction k StatusToDo (Name ActionUpdateDockerImage);
    _ ← call (ActionMetric ActionUpdateDockerImage (cc_Name cc));
    mret true
  else mret false.

(** The flag is cleared in the specification of the resource. *)
Definition clear_restart (dc rack : nat) (cc : CassandraCluster) : CassandraCluster :=
  cc <| cc_Spec ::= λ s, s <| spec_Topology ::=
    alter (λ d, d <| dc_Rack ::= alter (λ r, r <| RollingRestart := false |>) rack |>) dc |> |>.

Definition UpdateStatusIfRollingRestart (dc rack : nat) (k : string) : M W bool :=
  cc ← get_cc;
  d ← lift (index (topology cc) (Z.of_nat dc));
  r ← lift (index (dc_Rack d) (Z.of_nat rack));
  if RollingRestart r then
    _ ← setAction k StatusToDo (Name ActionRollingRestart);
    _ ← call (ActionMetric ActionRollingRestart (cc_Name cc));
    _ ← modify_cc (clear_restart dc rack);
    mret true
  else mret false.

Definition UpdateStatusIfSeedListHasChanged (k : string) (sts : StatefulSet) : M W bool :=
  cc ← get_cc;
  let storedSeedList := getStoredSeedList sts in
  _ ← (if AutoUpdateSeedList (cc_Spec cc) then
         let seedList := InitSeedList cc in
         if slices_differ storedSeedList seedList
         then modify_status (λ st, st <| s_SeedList := appended (MergeSlice storedSeedList seedList) |>)
         else mret tt
       else mret tt);
  st ← get_status;
  if s_SeedList st != Some storedSeedList then
    _ ← setAction k StatusConfiguring (Name ActionUpdateSeedList);
    _ ← call (ActionMetric ActionUpdateSeedList (cc_Name cc));
    mret true
  else mret false.

Definition setDecommissionStatus (k : string) : M W unit :=
  now ← call Now;
  set_rack k (λ r, r
    <| rs_Phase := Name ClusterPhasePending |>
    <| rs_LastAction ::= λ a, a <| la_StartTime := Some now |> <| la_Status := StatusToDo |>
                                <| la_Name := Name ActionScaleDown |> |>
    <| rs_PodLastOperation ::= λ p, p <| po_Status := StatusToDo |> <| po_Name := OperationDecommission |>
         <| po_StartTime := Some now |> <| po_EndTime := None |>
         <| po_Pods := Some [] |> <| po_PodsOK := Some [] |> <| po_PodsKO := Some [] |> |>).

Definition UpdateStatusIfScaling (k : string) (sts : StatefulSet) : M W bool :=
  cc ← get_cc;
  let nodesPerRacks := GetNodesPerRacks cc k in
  if negb (bool_decide (nodesPerRacks = sts_Replicas sts)) then
    _ ← set_action k (λ a, a <| la_Status := StatusToDo |>);
    _ ← (if bool_decide (sts_Replicas sts < nodesPerRacks)%Z then
           _ ← set_action k (λ a, a <| la_Name := Name ActionScaleUp |>);
           call (ActionMetric ActionScaleUp (cc_Name cc))
         else
           _ ← call (ActionMetric ActionScaleDown (cc_Name cc));
           _ ← setDecommissionStatus k;
           call (PhaseMetric ClusterPhasePending (cc_Name cc)));
    _ ← set_action k (λ a, a <| la_StartTime := None |> <| la_EndTime := None |>);
    mret true
  else mret false.

Definition UpdateStatusIfStatefulSetChanged (k : string) (sts : StatefulSet) : M W bool :=
  _ ← rack_status k;
  if st_CurrentRevision (sts_Status sts) != st_UpdateRevision (sts_Status sts) then
    now ← call Now;
    _ ← set_action k (λ a, a <| la_Name := Name ActionUpdateStatefulSet |> <| la_Status := StatusOngoing |>
                             <| la_StartTime := Some now |> <| la_EndTime := None |>);
    mret true
  else mret false.

(** ** End of actions *)
Definition setDone (k : string) (now : Z) : M W unit :=
  set_action k (λ a, a <| la_Status := StatusDone |> <| la_EndTime := Some now |>).

Definition cleanupLabels (autoPilot : bool) : gmap string string :=
  {[ "operation-name" := OperationCleanup;
     "operation-status" := if autoPilot then StatusToDo else StatusManual ]}.

Definition endScaleUp (n : CompleteRackName) (sts : StatefulSet) (now : Z) : M W bool :=
  cc ← get_cc;
  let nodesPerRacks := GetNodesPerRacks cc (crn_DcRackName n) in
  '(podsList, err) ← ListPodsOrderByNameAscending (cc_Namespace cc)
                       (LabelsForCassandraDCRack cc (crn_DcName n) (crn_RackName n));
  if bool_decide (err ≠ None) || bool_decide (length podsList < 1) then mret false
  else if bool_decide (Z.of_nat (length podsList) < nodesPerRacks)%Z then mret false
  else
    pod ← lift (index podsList (nodesPerRacks - 1));
    if IsReady pod then
      '(joining, err) ← hasJoiningNodes cc;
      if bool_decide (err ≠ None) || joining then mret false
      else
        _ ← setDone (crn_DcRackName n) now;
        _ ← addPodOperationLabels cc n (cleanupLabels (AutoPilot (cc_Spec cc)));
        mret true
    else mret false.

Definition endScaleDown (n : CompleteRackName) (now : Z) : M W bool :=
  cc ← get_cc;
  rs ← lift (deref (s_RackStatus (cc_Status cc) !! crn_DcRackName n));
  if (po_Name (rs_PodLastOperation rs) == OperationDecommission) &&
     (po_Status (rs_PodLastOperation rs) == StatusDone) then
    _ ← setDone (crn_DcRackName n) now; mret true
  else mret false.

Definition UpdateStatusIfActionEnded (n : CompleteRackName) (sts : StatefulSet) : M W bool :=
  let k := crn_DcRackName n in
  rs ← rack_status k;
  now ← call Now;
  let a := rs_LastAction rs in
  if (la_Status a == StatusOngoing) || (la_Status a == StatusContinue) then
    cc ← get_cc;
    let nodesPerRacks := GetNodesPerRacks cc k in
    if la_Name a == Name ActionScaleUp then
      if bool_decide (nodesPerRacks = st_Replicas (sts_Status sts)) then endScaleUp n sts now else mret false
    else if la_Name a == Name ActionScaleDown then
      if bool_decide (nodesPerRacks = st_Replicas (sts_Status sts)) then endScaleDown n now else mret false
    else if la_Name a == Name ClusterPhaseInitial then
      _ ← call (PhaseMetric ClusterPhaseInitial (cc_Name cc)); mret false
    else if la_Name a == Name ActionStorageUpsize then mret false
    else if st_CurrentRevision (sts_Status sts) == st_UpdateRevision (sts_Status sts) then
      now ← call Now; _ ← setDone k now; mret true
    else mret false
  else mret false.

(** ** The next action *)

(** The tests of [getNextCassandraClusterStatus], in their order; the first that
    answers true ends the search. *)
Definition detections (n : CompleteRackName) (dc rack : nat) (sts : StatefulSet) : list (M W bool) :=
  let k := crn_DcRackName n in
  [ UpdateStatusIfconfigMapHasChanged k sts;
    UpdateStatusIfDockerImageHasChanged k sts;
    (_ ← modify (λ e : Env W, e <| rcc_storedStatefulSet := Some sts |>); UpdateStatusIfStorageUpsize n);
    UpdateStatusIfScaling k sts;
    UpdateStatusIfSeedListHasChanged k sts;
    UpdateStatusIfRollingRestart dc rack k;
    UpdateStatusIfStatefulSetChanged k sts ].

Fixpoint first_true (l : list (M W bool)) : M W bool :=
  match l with
  | [] => mret false
  | m :: l => b ← m; if b : bool then mret true else first_true l
  end.

Definition startUpdateResources (k : string) : M W unit :=
  rs ← rack_status k;
  if (la_Status (rs_LastAction rs) == StatusToDo) && (la_Name (rs_LastAction rs) == Name ActionUpdateResources) then
    now ← call Now;
    set_action k (λ a, a <| la_StartTime := Some now |> <| la_Status := StatusOngoing |>)
  else mret tt.

(** No other action is started while one is planned, running or finalising. *)
Definition busy (a : CassandraLastAction) : bool :=
  (la_Status a == StatusOngoing) || (la_Status a == StatusToDo) || (la_Status a == StatusFinalizing).

(** [unlockNextOperation || (hasNoPodDisruption() && ...)]: the disruption budget
    is not looked at when unlocked. *)
Definition mayStartAction (unlock : bool) (a : CassandraLastAction) : M W bool :=
  if unlock then mret true
  else calm ← hasNoPodDisruption; mret (calm && negb (busy a)).

Definition getNextCassandraClusterStatus (n : CompleteRackName) (dc rack : nat) (sts : StatefulSet) : M W unit :=
  let k := crn_DcRackName n in
  cc ← get_cc;
  wait ← needToWaitDelayBeforeCheck k;
  if wait : bool then mret tt
  else
    ended ← UpdateStatusIfActionEnded n sts;
    if ended : bool then mret tt
    else
      unlock ← (if UnlockNextOperation (cc_Spec cc) then hasUnschedulablePod n else mret false);
      rs ← rack_status k;
      if (rs_Phase rs == Name ClusterPhaseInitial) && negb unlock then
        call (PhaseMetric ClusterPhaseInitial (cc_Name cc))
      else
        _ ← (if rs_Phase rs == Name ClusterPhaseInitial then
               _ ← set_rack k (λ r, r <| rs_Phase := Name ClusterPhasePending |>);
               call (PhaseMetric ClusterPhasePending (cc_Name cc))
             else mret tt);
        rs ← rack_status k;
        check ← mayStartAction unlock (rs_LastAction rs);
        changed ← (if check : bool then first_true (detections n dc rack sts) else mret false);
        if changed : bool then mret tt else startUpdateResources k.

(** ** The phase of a rack *)
Definition initializing (n : CompleteRackName) (sts : StatefulSet) : M W bool :=
  let k := crn_DcRackName n in
  cc ← get_cc;
  let nodesPerRacks := GetNodesPerRacks cc k in
  if bool_decide (nodesPerRacks ≤ 0)%Z then
    _ ← setDecommissionStatus k;
    _ ← call (PhaseMetric ClusterPhasePending (cc_Name cc));
    mret true
  else
    _ ← call (PhaseMetric ClusterPhaseInitial (cc_Name cc));
    if IsStatefulSetNotReady sts then mret true
    else
      '(podsList, err) ← ListPodsOrderByNameAscending (cc_Namespace cc)
                           (LabelsForCassandraDCRack cc (crn_DcName n) (crn_RackName n));
      if bool_decide (err ≠ None) || bool_decide (length podsList < 1) then mret true
      else
        (* too few pods is only logged: the index panics *)
        pod ← lift (index podsList (nodesPerRacks - 1));
        _ ← (if IsReady pod then
               _ ← set_rack k (λ r, r <| rs_Phase := Name ClusterPhaseRunning |>);
               _ ← call (PhaseMetric ClusterPhaseRunning (cc_Name cc));
               now ← call Now;
               set_action k (λ a, a <| la_EndTime := Some now |> <| la_Status := StatusDone |>)
             else mret tt);
        mret false.

Definition UpdateCassandraRackStatusPhase (n : CompleteRackName) (sts : StatefulSet) : M W unit :=
  let k := crn_DcRackName n in
  cc ← get_cc;
  rs ← rack_status k;
  returned ← (if rs_Phase rs == Name ClusterPhaseInitial then initializing n sts else mret false);
  if returned : bool then mret tt
  else if IsStatefulSetNotReady sts then
    _ ← set_rack k (λ r, r <| rs_Phase := Name ClusterPhasePending |>);
    call (PhaseMetric ClusterPhasePending (cc_Name cc))
  else
    rs ← rack_status k;
    if rs_Phase rs != Name ClusterPhaseRunning then
      _ ← set_rack k (λ r, r <| rs_Phase := Name ClusterPhaseRunning |>);
      call (PhaseMetric ClusterPhaseRunning (cc_Name cc))
    else mret tt.
End status.


(** ** What a step of the state machine may touch *)
Section frame.
Context {QL : QuantityLib} {Codec : StsCodec} {Diff : SliceDiff}.
Context {W : Type} {Srv : ApiServer W}.
Implicit Types e : Env W.

(** Reads, and the labels of pods. *)
Definition labels_only (ev : Event) : Prop :=
  match ev with Ev _ r _ => match r with ApiUpdatePod _ => True | _ => read_only ev end end.

Lemma read_only_labels_only ev : read_only ev → labels_only ev.
Proof. destruct ev as [A r a]. by destruct r. Qed.

(** Between [e] and [e'] only the entry of rack [k] and the seed list of the status
    changed, and nothing but pod labels outside. *)
Definition only_rack (k : string) (e e' : Env W) : Prop :=
  logs labels_only e e' ∧
  (∀ k', k' ≠ k → s_RackStatus (status e') !! k' = s_RackStatus (status e) !! k') ∧
  (is_Some (s_RackStatus (status e) !! k) → is_Some (s_RackStatus (status e') !! k)) ∧
  s_Phase (status e') = s_Phase (status e) ∧
  s_LastClusterAction (status e') = s_LastClusterAction (status e) ∧
  s_LastClusterActionStatus (status e') = s_LastClusterActionStatus (status e) ∧
  s_NodesStatus (status e') = s_NodesStatus (status e) ∧
  tasks e' = tasks e ∧ needUpdate e' = needUpdate e ∧ rcc_storedPdb e' = rcc_storedPdb e ∧
  chanRunningOp e' = chanRunningOp e.
#[global] Instance only_rack_preorder k : PreOrder (only_rack k).
Proof.
  split; [intros e; repeat split; auto; by apply logs_same|].
  intros e1 e2 e3 (L1 & E1 & I1 & R1) (L2 & E2 & I2 & R2). split; [by etrans|].
  split; [intros k' Hk; by rewrite E2, E1|]. split; [auto|]. destruct_and!. repeat split; congruence.
Qed.

Lemma quiet_only_rack k e e' : quiet read_only e e' → only_rack k e e'.
Proof.
  intros (L & Ecc & Est & Ests & Epdb & Et & Ec & En). split; [by eapply logs_mono; [apply read_only_labels_only|]|].
  rewrite Est. auto 20.
Qed.
Lemma keeps_only_rack {A} k (m : M W A) : keeps (quiet read_only) m → keeps (only_rack k) m.
Proof. intros Hm. exact (keeps_mono _ _ _ (quiet_only_rack k) Hm). Qed.

Lemma only_rack_call {A} k (r : Req A) : (∀ a, labels_only (Ev _ r a)) → keeps (only_rack k) (call r).
Proof. intros Hr. apply keeps_call. intros e a w. repeat split; auto. by apply logs_call. Qed.

Lemma only_rack_set k f : keeps (only_rack k) (set_rack k f).
Proof.
  apply keeps_set_rack. intros e. split; [by apply logs_same|].
  split; [intros k' Hk; by apply on_rack_lookup_ne|]. split; [|done].
  intros [r Hr]. exists (f r). by apply on_rack_lookup.
Qed.
Lemma only_rack_set_action k f : keeps (only_rack k) (set_action k f).
Proof. apply only_rack_set. Qed.
Lemma only_rack_stored k o : keeps (only_rack k) (modify (λ e : Env W, e <| rcc_storedStatefulSet := o |>)).
Proof. apply keeps_modify. intros e. repeat split; auto. by apply logs_same. Qed.
Lemma only_rack_cc k f : keeps (only_rack k) (modify_cc f).
Proof. apply keeps_modify. intros e. repeat split; auto. by apply logs_same. Qed.
Lemma only_rack_seeds k (g : option (list string)) :
  keeps (only_rack k) (modify_status (W:=W) (λ st, st <| s_SeedList := g |>)).
Proof. apply keeps_modify. intros e. repeat split; auto. by apply logs_same. Qed.
Lemma only_rack_labels k cc n l : keeps (only_rack k) (addPodOperationLabels cc n l).
Proof.
  unfold addPodOperationLabels, UpdatePod. keeps_steps.
  - apply keeps_only_rack, ListPods_quiet.
  - by apply only_rack_call.
Qed.
End frame.
#[export] Hint Resolve only_rack_set only_rack_set_action only_rack_stored only_rack_cc only_rack_seeds
  only_rack_labels : keeps.
#[export] Hint Extern 5 (keeps (only_rack _) (call _)) => by apply only_rack_call : keeps.
#[export] Hint Extern 9 (keeps (only_rack _) _) => apply keeps_only_rack; solve [eauto with keeps] : keeps.

Section step_frame.
Context {QL : QuantityLib} {Codec : StsCodec} {Diff : SliceDiff}.
Context {W : Type} {Srv : ApiServer W}.

Lemma setDecommissionStatus_frame k : keeps (only_rack k) (setDecommissionStatus (W:=W) k).
Proof. unfold setDecommissionStatus. keeps_steps. Qed.
#[local] Hint Resolve setDecommissionStatus_frame : keeps.

Lemma ended_frame n sts : keeps (only_rack (crn_DcRackName n)) (UpdateStatusIfActionEnded (W:=W) n sts).
Proof. unfold UpdateStatusIfActionEnded, endScaleUp, endScaleDown, setDone. keeps_steps. Qed.

Lemma first_true_frame k (l : list (M W bool)) : Forall (keeps (only_rack k)) l → keeps (only_rack k) (first_true l).
Proof. induction 1 as [|m l Hm _ IH]; simpl; keeps_steps; auto. Qed.

Lemma detections_frame n dc rack sts :
  Forall (keeps (only_rack (crn_DcRackName n))) (detections (W:=W) n dc rack sts).
Proof.
  unfold detections. repeat constructor;
    unfold UpdateStatusIfconfigMapHasChanged, UpdateStatusIfDockerImageHasChanged, UpdateStatusIfStorageUpsize,
      UpdateStatusIfScaling, UpdateStatusIfSeedListHasChanged, UpdateStatusIfRollingRestart,
      UpdateStatusIfStatefulSetChanged, ShouldBeStarted, living, LivingStatefulSet, startUpsizeAction, setAction;
    keeps_steps.
Qed.

Lemma next_frame n dc rack sts :
  keeps (only_rack (crn_DcRackName n)) (getNextCassandraClusterStatus (W:=W) n dc rack sts).
Proof.
  unfold getNextCassandraClusterStatus, needToWaitDelayBeforeCheck, mayStartAction, hasNoPodDisruption,
    startUpdateResources.
  keeps_steps; auto using ended_frame, first_true_frame, detections_frame.
Qed.

Lemma phase_frame n sts :
  keeps (only_rack (crn_DcRackName n)) (UpdateCassandraRackStatusPhase (W:=W) n sts).
Proof. unfold UpdateCassandraRackStatusPhase, initializing. keeps_steps. Qed.
End step_frame.


(** ** When an action is over *)
Section ending.
Context {QL : QuantityLib} {W : Type} {Srv : ApiServer W}.
Implicit Types e : Env W.

Definition done_at (now : Z) (a : CassandraLastAction) : CassandraLastAction :=
  a <| la_Status := StatusDone |> <| la_EndTime := Some now |>.

(** [ended_because e e' n sts a]: the evidence on which a run from [e] to [e'] declares the
    action [a] of the rack over; the answers are those of the run. *)
Definition ended_because e (e' : Env W) (n : CompleteRackName) (sts : StatefulSet) (a : CassandraLastAction) : Prop :=
  let cc := rcc_cc e in
  let nodes := GetNodesPerRacks cc (crn_DcRackName n) in
  (la_Status a = StatusOngoing ∨ la_Status a = StatusContinue) ∧
  if la_Name a == Name ActionScaleUp then
    nodes = st_Replicas (sts_Status sts) ∧
    (∃ pods pod,
       since e e' (Ev _ (ApiListPods (cc_Namespace cc) (LabelsForCassandraDCRack cc (crn_DcName n) (crn_RackName n))) (Ok pods)) ∧
       (nodes ≤ Z.of_nat (length pods))%Z ∧
       index (sortPodsList pods) (nodes - 1) = Ret pod ∧ IsReady pod = true) ∧
    (∃ e1 e2, quiet read_only e e1 ∧ hasJoiningNodes cc e1 = Ret ((false, None), e2) ∧ logs labels_only e2 e')
  else if la_Name a == Name ActionScaleDown then
    nodes = st_Replicas (sts_Status sts) ∧
    ∃ rs, s_RackStatus (cc_Status cc) !! crn_DcRackName n = Some rs ∧
          po_Name (rs_PodLastOperation rs) = OperationDecommission ∧
          po_Status (rs_PodLastOperation rs) = StatusDone
  else la_Name a ≠ Name ClusterPhaseInitial ∧ la_Name a ≠ Name ActionStorageUpsize ∧
       st_CurrentRevision (sts_Status sts) = st_UpdateRevision (sts_Status sts).

(** What the test for the end of an action leaves. *)
Definition ended_post e (n : CompleteRackName) (sts : StatefulSet) (a : CassandraLastAction)
    (b : bool) (e' : Env W) : Prop :=
  rcc_cc e' = rcc_cc e ∧ rcc_storedPdb e' = rcc_storedPdb e ∧
  if b then (∃ now, status e' = on_action (crn_DcRackName n) (done_at now) (status e)) ∧ ended_because e e' n sts a
  else status e' = status e.

Lemma ended_post_false e n sts a e' : quiet read_only e e' → ended_post e n sts a false e'.
Proof. intros (_ & ? & ? & _ & ? & _). by repeat split. Qed.

Lemma addPodOperationLabels_quiet cc n l : keeps (quiet labels_only) (addPodOperationLabels (W:=W) cc n l).
Proof.
  unfold addPodOperationLabels, UpdatePod. keeps_steps.
  - intros e. eapply wp_keeps; [apply ListPods_quiet|]. intros ? ? ?.
    eapply quiet_mono; [apply read_only_labels_only|done].
  - by apply keeps_quiet_call.
Qed.

(** Listing pods: the answer is in the log. *)
Lemma wp_ListPodsSorted ns sel Q e :
  (∀ pods e1, quiet read_only e e1 → since e e1 (Ev _ (ApiListPods ns sel) (Ok pods)) → Q (sortPodsList pods, None) e1) →
  (∀ l err e1, quiet read_only e e1 → Q (l, Some err) e1) →
  wp (ListPodsOrderByNameAscending ns sel) Q e.
Proof.
  intros HOk HErr. unfold ListPodsOrderByNameAscending, ListPods.
  do 2 apply wp_bind. apply wp_call. intros r w. do 2 apply wp_ret.
  assert (quiet read_only e (e <| world := w |> <| log ::= λ l, l ++ [Ev _ (ApiListPods ns sel) r] |>))
    by (repeat split; by apply logs_call).
  destruct r as [pods|err]; simpl; [|by apply HErr].
  apply HOk; [done|]. apply since_call.
Qed.

Lemma endScaleUp_spec n sts now a e0 e :
  quiet read_only e0 e → la_Name a = Name ActionScaleUp → la_Status a = StatusOngoing ∨ la_Status a = StatusContinue →
  GetNodesPerRacks (rcc_cc e0) (crn_DcRackName n) = st_Replicas (sts_Status sts) →
  wp (endScaleUp n sts now) (ended_post e0 n sts a) e.
Proof.
  intros Hq Hname Hst Hnodes. pose proof Hq as (_ & Hcc & _). unfold endScaleUp. apply wp_bind, wp_gets.
  rewrite Hcc. apply wp_bind, wp_ListPodsSorted; [|intros ? ? e1 Hq1; rewrite bool_decide_true by done;
    apply wp_ret, ended_post_false; by etrans].
  intros pods e1 Hq1 Hlisted. assert (quiet read_only e0 e1) as Hq01 by by etrans.
  rewrite (bool_decide_false (None ≠ None)) by naive_solver. cbn [orb]. rewrite sortPodsList_length.
  case_bool_decide; [by apply wp_ret, ended_post_false|].
  case_bool_decide; [by apply wp_ret, ended_post_false|].
  apply wp_bind, wp_lift. intros pod Hpod. destruct (IsReady pod) eqn:Hready; [|by apply wp_ret, ended_post_false].
  apply wp_bind, wp_intro. intros [joining err] e2 Hj.
  pose proof (wp_run _ _ _ _ _ (hasJoiningNodes_quiet (rcc_cc e0) e1) Hj) as Hq2.
  assert (quiet read_only e0 e2) as Hq02 by by etrans.
  destruct (_ || joining) eqn:Hor; [by apply wp_ret, ended_post_false|].
  apply orb_false_iff in Hor as [Herr%bool_decide_eq_false ->]. apply dec_stable in Herr as ->.
  apply wp_bind, wp_set_rack. intros r _.
  apply wp_bind. eapply wp_keeps; [apply addPodOperationLabels_quiet|]. intros _ e3 (Hl3 & Hcc3 & Hst3 & _ & Hpdb3 & _).
  apply wp_ret. destruct Hq02 as (_ & ? & Hst2 & _ & ? & _). destruct Hq2 as [Hl2 _]. unfold ended_post. rewrite Hcc3, Hpdb3. split; [done|]. split; [done|].
  split; [exists now; rewrite Hst3; cbn; by rewrite Hst2|].
  split; [done|]. rewrite bool_decide_true by done. split; [done|].
  split; [|exists e1, e2; split; [done|]; split; [done|exact Hl3]].
  exists pods, pod. split; [|split; [lia|done]].
  eapply since_logs_l; [apply Hq|]. eapply since_logs_r; [etrans; [eapply logs_mono; [apply read_only_labels_only|exact Hl2]|exact Hl3]|done].
Qed.

Lemma UpdateStatusIfActionEnded_spec n sts e rs :
  s_RackStatus (status e) !! crn_DcRackName n = Some rs →
  wp (UpdateStatusIfActionEnded n sts) (ended_post e n sts (rs_LastAction rs)) e.
Proof.
  intros Hrs. unfold UpdateStatusIfActionEnded. apply wp_bind, wp_rack_status. rewrite Hrs. intros ? [= <-].
  apply wp_bind, wp_call. intros now w. set (e1 := e <| world := w |> <| log ::= _ |>).
  assert (quiet read_only e e1) as Hq1 by (repeat split; by apply logs_call).
  destruct (_ || _) eqn:Hst; [|by apply wp_ret, ended_post_false].
  apply orb_true_iff in Hst. rewrite !bool_decide_eq_true in Hst.
  apply wp_bind, wp_gets. change (rcc_cc e1) with (rcc_cc e).
  case_bool_decide as Hup; [case_bool_decide; [by apply endScaleUp_spec|by apply wp_ret, ended_post_false]|].
  case_bool_decide as Hdown.
  { case_bool_decide as Hn; [|by apply wp_ret, ended_post_false]. unfold endScaleDown.
    apply wp_bind, wp_gets, wp_bind, wp_lift. change (rcc_cc e1) with (rcc_cc e). intros rs1 Hrs1.
    destruct (s_RackStatus (cc_Status (rcc_cc e)) !! _) as [r|] eqn:Hlook; simplify_eq/=.
    destruct (_ && _) eqn:Hdone; [|by apply wp_ret, ended_post_false].
    apply andb_true_iff in Hdone as [?%bool_decide_eq_true ?%bool_decide_eq_true].
    apply wp_bind, wp_set_rack. intros r' _. apply wp_ret. split; [done|]. split; [done|]. split; [by exists now|].
    split; [done|]. rewrite bool_decide_false, bool_decide_true by done. split; [done|]. by exists rs1. }
  case_bool_decide as Hinit.
  { apply wp_bind, wp_call. intros [] w'. by apply wp_ret. }
  case_bool_decide as Hups; [by apply wp_ret, ended_post_false|].
  case_bool_decide as Hrev; [|by apply wp_ret, ended_post_false].
  apply wp_bind, wp_call. intros now' w'. apply wp_bind, wp_set_rack. intros r' _. apply wp_ret.
  split; [done|]. split; [done|]. split; [by exists now'|]. split; [done|].
  by rewrite !bool_decide_false by done.
Qed.
End ending.


(** The entry of the rack after a few assignments through its pointer. *)
Ltac entry Hrs := repeat (apply on_rack_lookup); exact Hrs.

(** ** Which action comes next *)
Section planning.
Context {QL : QuantityLib} {Diff : SliceDiff} {W : Type} {Srv : ApiServer W}.
Implicit Types e : Env W.

(** The seed list of the status after the automatic update. *)
Definition wantedSeeds (cc : CassandraCluster) (st : CassandraClusterStatus) (sts : StatefulSet)
  : option (list string) :=
  let stored := getStoredSeedList sts in
  if AutoUpdateSeedList (cc_Spec cc) && slices_differ stored (InitSeedList cc)
  then appended (MergeSlice stored (InitSeedList cc)) else s_SeedList st.

Definition capacityChanged (capacity : string) (sts : StatefulSet) : bool :=
  negb (Quantity_equal (silentParseResourceQuantity capacity) (findDataCapacity (sts_VolumeClaimTemplates sts)).2).

Definition scaling (nodes replicas : Z) : ClusterStateInfo * string :=
  (if bool_decide (replicas < nodes)%Z then ActionScaleUp else ActionScaleDown, StatusToDo).

(** The specification of the search: the kind of change that wins, with the state
    it puts the action in. *)
Definition planned (cc : CassandraCluster) (st : CassandraClusterStatus) (n : CompleteRackName) (dc rack : nat)
    (sts : StatefulSet) : outcome (option (ClusterStateInfo * string)) :=
  let nodes := GetNodesPerRacks cc (crn_DcRackName n) in
  if configMapChanged cc sts then mret (Some (ActionUpdateConfigMap, StatusToDo))
  else if dockerImageChanged cc sts then mret (Some (ActionUpdateDockerImage, StatusToDo))
  else
    capacity ← GetDataCapacityFromDCName cc (crn_DcName n);
    if capacityChanged capacity sts then mret (Some (ActionStorageUpsize, StatusOngoing))
    else if negb (bool_decide (nodes = sts_Replicas sts)) then mret (Some (scaling nodes (sts_Replicas sts)))
    else if wantedSeeds cc st sts != Some (getStoredSeedList sts)
    then mret (Some (ActionUpdateSeedList, StatusConfiguring))
    else
      d ← index (topology cc) (Z.of_nat dc);
      r ← index (dc_Rack d) (Z.of_nat rack);
      if RollingRestart r then mret (Some (ActionRollingRestart, StatusToDo))
      else if st_CurrentRevision (sts_Status sts) != st_UpdateRevision (sts_Status sts)
      then mret (Some (ActionUpdateStatefulSet, StatusOngoing))
      else mret None.

(** What the search leaves for the plan [p]: the action of the rack has the planned
    name and state, a scale down also orders a decommission, a rolling restart
    clears its flag; no plan leaves the rack as it was. *)
Definition planned_post (cc : CassandraCluster) (n : CompleteRackName) (dc rack : nat) (rs : CassandraRackStatus)
    (p : option (ClusterStateInfo * string)) (b : bool) (e' : Env W) : Prop :=
  match p with
  | None => b = false ∧ s_RackStatus (status e') !! crn_DcRackName n = Some rs ∧ rcc_cc e' = cc
  | Some (action, state) =>
      b = true ∧
      rcc_cc e' = (if Name action == Name ActionRollingRestart then clear_restart dc rack cc else cc) ∧
      ∃ rs', s_RackStatus (status e') !! crn_DcRackName n = Some rs' ∧
        la_Name (rs_LastAction rs') = Name action ∧ la_Status (rs_LastAction rs') = state ∧
        (is_Some (la_StartTime (rs_LastAction rs')) ↔ state = StatusOngoing) ∧
        la_EndTime (rs_LastAction rs') = None ∧
        (if Name action == Name ActionScaleDown then
           po_Name (rs_PodLastOperation rs') = OperationDecommission ∧
           po_Status (rs_PodLastOperation rs') = StatusToDo ∧
           po_Pods (rs_PodLastOperation rs') = Some [] ∧ po_PodsOK (rs_PodLastOperation rs') = Some [] ∧
           po_PodsKO (rs_PodLastOperation rs') = Some []
         else rs_PodLastOperation rs' = rs_PodLastOperation rs)
  end.
End planning.

Section search.
Context {QL : QuantityLib} {Codec : StsCodec} {Diff : SliceDiff} {W : Type} {Srv : ApiServer W}.
Implicit Types e : Env W.

(** One test of the search: it answers [test], and plans [p] or leaves the resource,
    the rack entries and (but for the test of the seeds) the status alone. *)
Definition detected e n dc rack rs (test : bool) (p : ClusterStateInfo * string) (b : bool) (e' : Env W) : Prop :=
  b = test ∧
  if test then planned_post (rcc_cc e) n dc rack rs (Some p) true e'
  else rcc_cc e' = rcc_cc e ∧ s_RackStatus (status e') = s_RackStatus (status e) ∧
       s_SeedList (status e') = s_SeedList (status e).

Ltac planned_done Hrs :=
  split; [reflexivity|]; split; [reflexivity|]; split; [reflexivity|];
  eexists; split; [entry Hrs|]; cbn; naive_solver.

Lemma detect_configMap n dc rack sts e rs :
  s_RackStatus (status e) !! crn_DcRackName n = Some rs →
  wp (UpdateStatusIfconfigMapHasChanged (crn_DcRackName n) sts)
    (detected e n dc rack rs (configMapChanged (rcc_cc e) sts) (ActionUpdateConfigMap, StatusToDo)) e.
Proof.
  intros Hrs. unfold UpdateStatusIfconfigMapHasChanged, setAction. apply wp_bind, wp_gets.
  destruct (configMapChanged _ _); wp_steps; [planned_done Hrs|done].
Qed.

Lemma detect_dockerImage n dc rack sts e rs :
  s_RackStatus (status e) !! crn_DcRackName n = Some rs →
  wp (UpdateStatusIfDockerImageHasChanged (crn_DcRackName n) sts)
    (detected e n dc rack rs (dockerImageChanged (rcc_cc e) sts) (ActionUpdateDockerImage, StatusToDo)) e.
Proof.
  intros Hrs. unfold UpdateStatusIfDockerImageHasChanged, setAction. apply wp_bind, wp_gets.
  destruct (dockerImageChanged _ _); wp_steps; [planned_done Hrs|done].
Qed.

Lemma detect_storage n dc rack sts e rs :
  s_RackStatus (status e) !! crn_DcRackName n = Some rs →
  wp (_ ← modify (λ e : Env W, e <| rcc_storedStatefulSet := Some sts |>); UpdateStatusIfStorageUpsize n)
    (λ b e', ∃ capacity, GetDataCapacityFromDCName (rcc_cc e) (crn_DcName n) = Ret capacity ∧
       detected e n dc rack rs (capacityChanged capacity sts) (ActionStorageUpsize, StatusOngoing) b e') e.
Proof.
  intros Hrs. apply wp_bind, wp_modify.
  unfold UpdateStatusIfStorageUpsize, ShouldBeStarted, living, LivingStatefulSet, startUpsizeAction.
  apply wp_bind, wp_rack_status. intros rs' _. apply wp_bind, wp_gets, wp_bind, wp_lift. intros capacity Hcap.
  apply wp_mono with (Q := λ b e', detected e n dc rack rs (capacityChanged capacity sts)
    (ActionStorageUpsize, StatusOngoing) b e'); [|by intros; exists capacity].
  do 3 apply wp_bind. apply wp_gets, wp_lift. intros ? [= <-].
  unfold capacityChanged. destruct (findDataCapacity _) as [i current]. cbn [snd].
  apply wp_ret. destruct (negb _); wp_steps; [planned_done Hrs|done].
Qed.

Lemma detect_scaling n dc rack sts e rs :
  s_RackStatus (status e) !! crn_DcRackName n = Some rs →
  let nodes := GetNodesPerRacks (rcc_cc e) (crn_DcRackName n) in
  wp (UpdateStatusIfScaling (crn_DcRackName n) sts)
    (detected e n dc rack rs (negb (bool_decide (nodes = sts_Replicas sts))) (scaling nodes (sts_Replicas sts))) e.
Proof.
  intros Hrs nodes. unfold UpdateStatusIfScaling, setDecommissionStatus, scaling. apply wp_bind, wp_gets.
  subst nodes. destruct (negb _); [|wp_steps; done]. apply wp_bind, wp_set_rack. intros ? _.
  case_bool_decide; wp_steps; planned_done Hrs.
Qed.

Lemma detect_seeds n dc rack sts e rs :
  s_RackStatus (status e) !! crn_DcRackName n = Some rs →
  wp (UpdateStatusIfSeedListHasChanged (crn_DcRackName n) sts) (λ b e',
    b = (wantedSeeds (rcc_cc e) (status e) sts != Some (getStoredSeedList sts)) ∧
    if b then planned_post (rcc_cc e) n dc rack rs (Some (ActionUpdateSeedList, StatusConfiguring)) true e'
    else rcc_cc e' = rcc_cc e ∧ s_RackStatus (status e') = s_RackStatus (status e)) e.
Proof.
  intros Hrs. unfold UpdateStatusIfSeedListHasChanged, wantedSeeds, setAction. apply wp_bind, wp_gets, wp_bind.
  apply wp_mono with (Q := λ _ e1, rcc_cc e1 = rcc_cc e ∧ s_RackStatus (status e1) = s_RackStatus (status e) ∧
    s_SeedList (status e1) = wantedSeeds (rcc_cc e) (status e) sts).
  { unfold wantedSeeds. destruct (AutoUpdateSeedList _); [destruct (slices_differ _ _)|]; by wp_steps. }
  intros _ e1 (Hcc & Hracks & Hseeds). rewrite <- Hracks in Hrs. apply wp_bind, wp_gets. rewrite Hseeds.
  destruct (negb _) eqn:E; wp_steps; (split; [by rewrite <- E|]); [|done].
  split; [done|]. split; [done|]. eexists. split; [entry Hrs|]. cbn. naive_solver.
Qed.

Lemma detect_restart n dc rack e rs :
  s_RackStatus (status e) !! crn_DcRackName n = Some rs →
  wp (UpdateStatusIfRollingRestart dc rack (crn_DcRackName n)) (λ b e', ∃ d r,
    index (topology (rcc_cc e)) (Z.of_nat dc) = Ret d ∧ index (dc_Rack d) (Z.of_nat rack) = Ret r ∧
    detected e n dc rack rs (RollingRestart r) (ActionRollingRestart, StatusToDo) b e') e.
Proof.
  intros Hrs. unfold UpdateStatusIfRollingRestart, setAction.
  apply wp_bind, wp_gets, wp_bind, wp_lift. intros d Hd. apply wp_bind, wp_lift. intros r Hr.
  apply wp_mono with (Q := detected e n dc rack rs (RollingRestart r) (ActionRollingRestart, StatusToDo));
    [|by intros; exists d, r].
  destruct (RollingRestart r); wp_steps; [planned_done Hrs|done].
Qed.

Lemma detect_revision n dc rack sts e rs :
  s_RackStatus (status e) !! crn_DcRackName n = Some rs →
  wp (UpdateStatusIfStatefulSetChanged (crn_DcRackName n) sts)
    (detected e n dc rack rs (st_CurrentRevision (sts_Status sts) != st_UpdateRevision (sts_Status sts))
       (ActionUpdateStatefulSet, StatusOngoing)) e.
Proof.
  intros Hrs. unfold UpdateStatusIfStatefulSetChanged. apply wp_bind, wp_rack_status. intros ? _.
  destruct (negb _); wp_steps; [planned_done Hrs|done].
Qed.

Lemma wantedSeeds_ext cc st st' sts :
  s_SeedList st = s_SeedList st' → wantedSeeds cc st sts = wantedSeeds cc st' sts.
Proof. intros H. unfold wantedSeeds. by rewrite H. Qed.

Lemma first_true_detections n dc rack sts e rs :
  s_RackStatus (status e) !! crn_DcRackName n = Some rs →
  wp (first_true (detections n dc rack sts)) (λ b e',
    ∃ p, planned (rcc_cc e) (status e) n dc rack sts = Ret p ∧ planned_post (rcc_cc e) n dc rack rs p b e') e.
Proof.
  intros Hrs. unfold planned. cbn [first_true detections].
  apply wp_bind. eapply wp_mono; [exact (detect_configMap n dc rack sts e rs Hrs)|]. intros ? e1 [-> H1].
  destruct (configMapChanged _ _); [apply wp_ret; eauto|]. destruct H1 as (C1 & R1 & S1). rewrite <- R1 in Hrs.
  apply wp_bind. eapply wp_mono; [exact (detect_dockerImage n dc rack sts e1 rs Hrs)|]. rewrite <- C1.
  intros ? e2 [-> H2].
  destruct (dockerImageChanged _ _); [apply wp_ret; eauto|]. destruct H2 as (C2 & R2 & S2). rewrite <- R2 in Hrs.
  apply wp_bind. eapply wp_mono; [exact (detect_storage n dc rack sts e2 rs Hrs)|]. rewrite <- C2.
  intros ? e3 (capacity & Hcap & -> & H3). rewrite Hcap. cbn [mbind outcome_bind].
  destruct (capacityChanged _ _); [apply wp_ret; eauto|]. destruct H3 as (C3 & R3 & S3). rewrite <- R3 in Hrs.
  apply wp_bind. eapply wp_mono; [exact (detect_scaling n dc rack sts e3 rs Hrs)|]. rewrite <- C3.
  intros ? e4 [-> H4].
  destruct (negb _); [apply wp_ret; eauto|]. destruct H4 as (C4 & R4 & S4). rewrite <- R4 in Hrs.
  apply wp_bind. eapply wp_mono; [exact (detect_seeds n dc rack sts e4 rs Hrs)|]. rewrite <- C4.
  rewrite (wantedSeeds_ext _ (status e4) (status e)) by congruence. intros ? e5 [-> H5].
  destruct (negb _); [apply wp_ret; eauto|]. destruct H5 as (C5 & R5). rewrite <- R5 in Hrs.
  apply wp_bind. eapply wp_mono; [exact (detect_restart n dc rack e5 rs Hrs)|]. rewrite <- C5.
  intros ? e6 (d & r & Hd & Hr & -> & H6). rewrite Hd. cbn [mbind outcome_bind]. rewrite Hr. cbn [mbind outcome_bind].
  destruct (RollingRestart r); [apply wp_ret; eauto|]. destruct H6 as (C6 & R6 & S6). rewrite <- R6 in Hrs.
  apply wp_bind. eapply wp_mono; [exact (detect_revision n dc rack sts e6 rs Hrs)|]. rewrite <- C6.
  intros ? e7 [-> H7].
  destruct (negb _); [apply wp_ret; eauto|]. destruct H7 as (C7 & R7 & S7). rewrite <- R7 in Hrs.
  apply wp_ret. exists None. split; [done|]. split; [done|]. split; [done|]. congruence.
Qed.
End search.

(** ** Theorems *)
Section theorems.
Context {QL : QuantityLib} {Codec : StsCodec} {Diff : SliceDiff} {W : Type} {Srv : ApiServer W}.
Implicit Types e : Env W.

Lemma wait_quiet k : keeps (quiet read_only) (needToWaitDelayBeforeCheck (W:=W) k).
Proof. unfold needToWaitDelayBeforeCheck. keeps_steps. by apply keeps_quiet_call. Qed.

Lemma wait_spec k e rs :
  s_RackStatus (status e) !! k = Some rs →
  wp (needToWaitDelayBeforeCheck k) (λ b e', quiet read_only e e' ∧
    (b = true → ∃ t now, la_StartTime (rs_LastAction rs) = Some t ∧ Ev _ Now now ∈ log e' ∧
                         (now < t + DefaultDelayWait * second)%Z)) e.
Proof.
  intros Hrs. apply wp_and; [apply wait_quiet|].
  unfold needToWaitDelayBeforeCheck. apply wp_bind, wp_rack_status. rewrite Hrs. intros ? [= <-].
  destruct (la_StartTime _) as [t|]; [|by apply wp_ret].
  apply wp_bind, wp_call. intros now w. apply wp_ret. intros Hb%bool_decide_eq_true. exists t, now.
  split; [done|]. split; [cbn; apply elem_of_app; right; by left|done].
Qed.

(** The part of the step after the tests for waiting and for the end. *)
Lemma mayStartAction_locked a e pdb :
  rcc_storedPdb e = Some pdb →
  wp (mayStartAction false a) (λ b e', e' = e ∧ b = no_disruption pdb && negb (busy a)) e.
Proof.
  intros Hpdb. unfold mayStartAction, hasNoPodDisruption. wp_steps.
  rewrite Hpdb in *. by simplify_eq/=.
Qed.

(** How the action of a rack may change while it is busy. *)
Definition same_action (a a' : CassandraLastAction) : Prop :=
  la_Name a' = la_Name a ∧
  (a' = a ∨
   la_Status a = StatusOngoing ∧ la_Status a' = StatusDone ∨
   la_Status a = StatusToDo ∧ la_Name a = Name ActionUpdateResources ∧ la_Status a' = StatusOngoing).

(** A busy rack keeps its phase, its pod operation and its snapshot. *)
Definition same_rack (rs rs' : CassandraRackStatus) : Prop :=
  rs_Phase rs' = rs_Phase rs ∧ rs_PodLastOperation rs' = rs_PodLastOperation rs ∧
  rs_Snapshot rs' = rs_Snapshot rs ∧ same_action (rs_LastAction rs) (rs_LastAction rs').

Definition steady k (rs : CassandraRackStatus) e (e' : Env W) : Prop :=
  rcc_cc e' = rcc_cc e ∧ s_SeedList (status e') = s_SeedList (status e) ∧
  ∃ rs', s_RackStatus (status e') !! k = Some rs' ∧ same_rack rs rs'.

Lemma steady_status k rs e e' :
  s_RackStatus (status e) !! k = Some rs → rcc_cc e' = rcc_cc e → status e' = status e → steady k rs e e'.
Proof. intros Hrs Hcc Hst. split; [done|]. rewrite Hst. split; [done|]. exists rs. unfold same_rack, same_action. auto 10. Qed.

Lemma startUpdateResources_spec k e rs :
  s_RackStatus (status e) !! k = Some rs → wp (startUpdateResources k) (λ _ e', steady k rs e e') e.
Proof.
  intros Hrs. unfold startUpdateResources. apply wp_bind, wp_rack_status. rewrite Hrs. intros ? [= <-].
  destruct (_ && _) eqn:E; [|by apply wp_ret, steady_status].
  apply andb_true_iff in E as [?%bool_decide_eq_true ?%bool_decide_eq_true].
  apply wp_bind, wp_call. intros now w. apply wp_set_rack. intros r _. split; [done|]. split; [done|].
  eexists. split; [by apply on_rack_lookup|]. unfold same_rack, same_action. cbn. tauto.
Qed.

Lemma busy_ended a : busy a = true → la_Status a = StatusOngoing ∨ la_Status a = StatusContinue → la_Status a = StatusOngoing.
Proof. unfold busy. intros Hb [H|H]; [done|]. by rewrite H in Hb. Qed.

Lemma startUpdateResources_other k e rs :
  s_RackStatus (status e) !! k = Some rs → la_Name (rs_LastAction rs) ≠ Name ActionUpdateResources →
  wp (startUpdateResources k) (λ _ e', e' = e) e.
Proof.
  intros Hrs Hne. unfold startUpdateResources. apply wp_bind, wp_rack_status. rewrite Hrs. intros ? [= <-].
  rewrite (bool_decide_false (la_Name _ = _)), andb_false_r by done. by apply wp_ret.
Qed.

(** The decommission of the rack is done, as the resource has it. *)
Definition stored_done (cc : CassandraCluster) (k : string) : Prop :=
  ∃ rs, s_RackStatus (cc_Status cc) !! k = Some rs ∧
        po_Name (rs_PodLastOperation rs) = OperationDecommission ∧ po_Status (rs_PodLastOperation rs) = StatusDone.

Definition busy_post n (rs : CassandraRackStatus) e (e' : Env W) : Prop :=
  steady (crn_DcRackName n) rs e e' ∧
  (la_Name (rs_LastAction rs) = Name ActionScaleDown →
     stored_done (rcc_cc e) (crn_DcRackName n) ∨ s_RackStatus (status e') !! crn_DcRackName n = Some rs).

Lemma busy_post_status n rs e e' :
  s_RackStatus (status e) !! crn_DcRackName n = Some rs → rcc_cc e' = rcc_cc e → status e' = status e → busy_post n rs e e'.
Proof. intros Hrs Hcc Hst. split; [by apply steady_status|]. rewrite Hst. auto. Qed.

Lemma next_busy n dc rack sts e rs pdb :
  s_RackStatus (status e) !! crn_DcRackName n = Some rs → busy (rs_LastAction rs) = true →
  UnlockNextOperation (cc_Spec (rcc_cc e)) = false → rcc_storedPdb e = Some pdb →
  wp (getNextCassandraClusterStatus n dc rack sts) (λ _ e', busy_post n rs e e') e.
Proof.
  intros Hrs Hbusy Hlock Hpdb. unfold getNextCassandraClusterStatus. apply wp_bind, wp_gets, wp_bind.
  eapply wp_mono; [by apply wait_spec|]. intros wait e1 [(_ & Hcc1 & Hst1 & _ & Hpdb1 & _) _].
  destruct wait; [by apply wp_ret, busy_post_status|].
  apply wp_bind. eapply wp_mono; [apply UpdateStatusIfActionEnded_spec; by rewrite Hst1|].
  intros ended e2 (Hcc2 & Hpdb2 & Hend). destruct ended.
  { apply wp_ret. destruct Hend as [[now Hst2] [Hongoing Hwhy]]. split; [split; [congruence|]|].
    - rewrite Hst2, Hst1. split; [done|].
      eexists. split; [by apply on_rack_lookup|]. pose proof (busy_ended _ Hbusy Hongoing).
      unfold same_rack, same_action. cbn. tauto.
    - intros Hdown. left. rewrite Hdown, Hcc1 in Hwhy. exact (proj2 Hwhy). }
  rewrite Hlock. apply wp_bind, wp_ret, wp_bind, wp_rack_status. rewrite Hend, Hst1, Hrs. intros ? [= <-].
  assert (∀ e3, rcc_cc e3 = rcc_cc e2 → status e3 = status e2 → busy_post n rs e e3) as Hsame
    by (intros; apply busy_post_status; congruence).
  destruct (rs_Phase rs == Name ClusterPhaseInitial); cbn [negb andb].
  { apply wp_call. intros. by apply Hsame. }
  apply wp_bind, wp_ret, wp_bind, wp_rack_status. rewrite Hend, Hst1, Hrs. intros ? [= <-].
  apply wp_bind. eapply wp_mono; [apply (mayStartAction_locked _ _ pdb); congruence|]. intros b e3 [-> ->].
  rewrite Hbusy, andb_false_r. apply wp_bind, wp_ret.
  destruct (decide (la_Name (rs_LastAction rs) = Name ActionUpdateResources)) as [Hres|Hres].
  - eapply wp_mono; [apply startUpdateResources_spec; by rewrite Hend, Hst1|].
    intros _ e4 (Hcc4 & Hseeds4 & Hrs4). split; [|by rewrite Hres]. split; [congruence|]. split; [congruence|done].
  - eapply wp_mono; [eapply startUpdateResources_other; [by rewrite Hend, Hst1|done]|]. intros _ e4 ->. by apply Hsame.
Qed.

Lemma next_idle n dc rack sts e rs pdb :
  s_RackStatus (status e) !! crn_DcRackName n = Some rs →
  la_Status (rs_LastAction rs) = StatusDone → rs_Phase rs ≠ Name ClusterPhaseInitial →
  UnlockNextOperation (cc_Spec (rcc_cc e)) = false → rcc_storedPdb e = Some pdb → no_disruption pdb = true →
  wp (getNextCassandraClusterStatus n dc rack sts) (λ _ e',
    (quiet read_only e e' ∧ ∃ t now, la_StartTime (rs_LastAction rs) = Some t ∧ Ev _ Now now ∈ log e' ∧
                                     (now < t + DefaultDelayWait * second)%Z) ∨
    ∃ p b, planned (rcc_cc e) (status e) n dc rack sts = Ret p ∧ planned_post (rcc_cc e) n dc rack rs p b e') e.
Proof.
  intros Hrs Hdone Hphase Hlock Hpdb Hcalm. unfold getNextCassandraClusterStatus. apply wp_bind, wp_gets, wp_bind.
  eapply wp_mono; [by apply wait_spec|]. intros wait e1 [Hq1 Hwait].
  destruct wait; [apply wp_ret; left; auto|]. destruct Hq1 as (_ & Hcc1 & Hst1 & _ & Hpdb1 & _).
  apply wp_bind. eapply wp_mono; [apply UpdateStatusIfActionEnded_spec; by rewrite Hst1|].
  intros ended e2 (Hcc2 & Hpdb2 & Hend). destruct ended.
  { destruct Hend as [_ [[H|H] _]]; rewrite Hdone in H; discriminate H. }
  rewrite Hlock. apply wp_bind, wp_ret, wp_bind, wp_rack_status. rewrite Hend, Hst1, Hrs. intros ? [= <-].
  rewrite bool_decide_false by done. cbn [andb].
  apply wp_bind, wp_ret, wp_bind, wp_rack_status. rewrite Hend, Hst1, Hrs. intros ? [= <-].
  apply wp_bind. eapply wp_mono; [apply (mayStartAction_locked _ _ pdb); congruence|]. intros b e3 [-> ->].
  rewrite Hcalm. unfold busy. rewrite Hdone. cbn [andb negb orb].
  change (negb (_ || _)) with true. cbn iota.
  apply wp_bind. eapply wp_mono; [apply first_true_detections; by rewrite Hend, Hst1|].
  intros b e4 (p & Hp & Hpost). rewrite Hcc2, Hcc1 in *. rewrite Hend, Hst1 in *.
  destruct p as [[action state]|].
  - pose proof Hpost as [-> _]. apply wp_ret. right. eauto.
  - destruct Hpost as (-> & Hrs4 & Hcc4). eapply wp_mono; [by apply startUpdateResources_spec|].
    intros _ e5 (Hcc5 & _ & rs5 & Hrs5 & Hp5 & Hpo5 & Hsn5 & Hn5 & Ha5). right. exists None, false. split; [done|].
    split; [done|]. split; [|congruence]. rewrite Hrs5. f_equal.
    destruct Ha5 as [Ha5|[[H _]|[H _]]]; [|by rewrite Hdone in H..].
    destruct rs, rs5; cbn in *; congruence.
Qed.
(** The phase of a rack after a loop: Pending or Running by the ready replicas of
    its statefulset; a rack that is still initialising waits for them, or is
    given up when no node is wanted any more. *)
Definition phase_post (nodes : Z) (sts : StatefulSet) (rs rs' : CassandraRackStatus) : Prop :=
  if rs_Phase rs == Name ClusterPhaseInitial then
    if bool_decide (nodes ≤ 0)%Z then
      rs_Phase rs' = Name ClusterPhasePending ∧
      la_Name (rs_LastAction rs') = Name ActionScaleDown ∧ la_Status (rs_LastAction rs') = StatusToDo ∧
      po_Name (rs_PodLastOperation rs') = OperationDecommission ∧ po_Status (rs_PodLastOperation rs') = StatusToDo
    else if IsStatefulSetNotReady sts then rs' = rs
    else rs' = rs ∨
         rs' = rs <| rs_Phase := Name ClusterPhaseRunning |> ∨
         ∃ now, rs' = rs <| rs_Phase := Name ClusterPhaseRunning |> <| rs_LastAction ::= done_at now |>
  else rs' = rs <| rs_Phase := if IsStatefulSetReady sts then Name ClusterPhaseRunning else Name ClusterPhasePending |>.

Lemma phase_post_initial nodes sts rs rs' :
  (0 < nodes)%Z → IsStatefulSetReady sts = true → rs_Phase rs = Name ClusterPhaseInitial →
  (rs' = rs <| rs_Phase := Name ClusterPhaseRunning |> ∨
   ∃ now, rs' = rs <| rs_Phase := Name ClusterPhaseRunning |> <| rs_LastAction ::= done_at now |>) →
  phase_post nodes sts rs rs'.
Proof.
  intros Hn Hr Hi H. unfold phase_post, IsStatefulSetNotReady. rewrite Hr.
  rewrite bool_decide_true, bool_decide_false by (done || lia). by right.
Qed.

Lemma phase_post_same nodes sts rs :
  (0 < nodes)%Z → rs_Phase rs = Name ClusterPhaseInitial → phase_post nodes sts rs rs.
Proof.
  intros Hn Hi. unfold phase_post. rewrite bool_decide_true, bool_decide_false by (done || lia).
  destruct (IsStatefulSetNotReady sts); auto.
Qed.

Definition entry_post k (P : CassandraRackStatus → Prop) e : Prop :=
  ∃ rs', s_RackStatus (status e) !! k = Some rs' ∧ P rs'.

Lemma phase_rest n sts e name rs P :
  s_RackStatus (status e) !! crn_DcRackName n = Some rs →
  P (rs <| rs_Phase := if IsStatefulSetReady sts then Name ClusterPhaseRunning else Name ClusterPhasePending |>) →
  wp (if IsStatefulSetNotReady sts then
        _ ← set_rack (crn_DcRackName n) (λ r, r <| rs_Phase := Name ClusterPhasePending |>);
        call (PhaseMetric ClusterPhasePending name)
      else
        rs ← rack_status (crn_DcRackName n);
        if rs_Phase rs != Name ClusterPhaseRunning then
          _ ← set_rack (crn_DcRackName n) (λ r, r <| rs_Phase := Name ClusterPhaseRunning |>);
          call (PhaseMetric ClusterPhaseRunning name)
        else mret tt) (λ _ e', entry_post (crn_DcRackName n) P e') e.
Proof.
  intros Hrs HP. unfold IsStatefulSetNotReady. destruct (IsStatefulSetReady sts); cbn [negb].
  - apply wp_bind, wp_rack_status. rewrite Hrs. intros ? [= <-]. case_bool_decide as Hrun; cbn [negb].
    + apply wp_ret. exists rs. split; [done|]. rewrite <- Hrun in HP. by destruct rs.
    + wp_steps. eexists. split; [entry Hrs|exact HP].
  - wp_steps. eexists. split; [entry Hrs|exact HP].
Qed.

Lemma initializing_spec n sts e rs :
  s_RackStatus (status e) !! crn_DcRackName n = Some rs → rs_Phase rs = Name ClusterPhaseInitial →
  let nodes := GetNodesPerRacks (rcc_cc e) (crn_DcRackName n) in
  wp (initializing n sts) (λ returned e',
    if returned then entry_post (crn_DcRackName n) (phase_post nodes sts rs) e'
    else (0 < nodes)%Z ∧ IsStatefulSetReady sts = true ∧
         (s_RackStatus (status e') !! crn_DcRackName n = Some rs ∨
          ∃ now, s_RackStatus (status e') !! crn_DcRackName n =
            Some (rs <| rs_Phase := Name ClusterPhaseRunning |> <| rs_LastAction ::= done_at now |>))) e.
Proof.
  intros Hrs Hinit nodes. unfold initializing, setDecommissionStatus. apply wp_bind, wp_gets.
  fold nodes. case_bool_decide as Hn.
  { wp_steps. eexists. split; [entry Hrs|]. unfold phase_post. rewrite !bool_decide_true by done. by repeat split. }
  assert (phase_post nodes sts rs rs) as Hsame by (apply phase_post_same; [lia|done]).
  apply wp_bind, wp_call. intros [] w. destruct (IsStatefulSetNotReady sts) eqn:Hready.
  { apply wp_ret. by exists rs. }
  apply wp_bind, wp_ListPodsSorted.
  2: { intros l err e1 (_ & _ & Hst & _). rewrite bool_decide_true by done. apply wp_ret. exists rs. by rewrite Hst. }
  intros pods e1 (_ & _ & Hst & _) _. rewrite (bool_decide_false (None ≠ None)) by naive_solver. cbn [orb].
  case_bool_decide; [apply wp_ret; exists rs; by rewrite Hst|].
  apply wp_bind, wp_lift. intros pod _. unfold IsStatefulSetNotReady in Hready. apply negb_false_iff in Hready.
  destruct (IsReady pod); wp_steps; (split; [lia|]; split; [done|]); [right|left; by rewrite Hst].
  eexists. repeat (apply on_rack_lookup). rewrite Hst. exact Hrs.
Qed.

Lemma phase_spec n sts e rs :
  s_RackStatus (status e) !! crn_DcRackName n = Some rs →
  wp (UpdateCassandraRackStatusPhase n sts) (λ _ e', entry_post (crn_DcRackName n)
    (phase_post (GetNodesPerRacks (rcc_cc e) (crn_DcRackName n)) sts rs) e') e.
Proof.
  intros Hrs. unfold UpdateCassandraRackStatusPhase. apply wp_bind, wp_gets, wp_bind, wp_rack_status.
  rewrite Hrs. intros ? [= <-]. apply wp_bind. case_bool_decide as Hinit.
  - eapply wp_mono; [by apply initializing_spec|]. intros [] e1 H1; [by apply wp_ret|].
    destruct H1 as (Hn & Hready & Hrs1).
    destruct Hrs1 as [Hrs1|[now Hrs1]]; (eapply phase_rest; [exact Hrs1|]); rewrite Hready;
      apply phase_post_initial; eauto.
  - apply wp_ret. apply phase_rest with (rs := rs); [done|]. unfold phase_post. by rewrite bool_decide_false.
Qed.
(** C5: one action at a time.  While an action of a rack is planned, running or
    finalising, and the user did not unlock the next operation, a step of the state
    machine starts no other action: the name of the action stays, its state only
    goes from Ongoing to Done or (UpdateResources) from ToDo to Ongoing, and the
    phase, the pod operation, the seed list and the specification stay. *)
Theorem one_action_at_a_time (n : CompleteRackName) (dc rack : nat) (sts : StatefulSet) (e e' : Env W)
    (rs : CassandraRackStatus) (pdb : PodDisruptionBudget)
    (Hrun : getNextCassandraClusterStatus n dc rack sts e = Ret (tt, e'))
    (Hrs : s_RackStatus (status e) !! crn_DcRackName n = Some rs)
    (Hbusy : busy (rs_LastAction rs) = true)
    (Hlocked : UnlockNextOperation (cc_Spec (rcc_cc e)) = false)
    (Hpdb : rcc_storedPdb e = Some pdb) :
  rcc_cc e' = rcc_cc e ∧ s_SeedList (status e') = s_SeedList (status e) ∧
  ∃ rs', s_RackStatus (status e') !! crn_DcRackName n = Some rs' ∧ same_rack rs rs'.
Proof. exact (proj1 (wp_run _ _ _ _ _ (next_busy n dc rack sts e rs pdb Hrs Hbusy Hlocked Hpdb) Hrun)). Qed.

(** C23: the next action is the first change in the fixed order (config map, image,
    storage, scaling, seeds, rolling restart, statefulset), as the specification
    [planned] computes it; a scale down orders a decommission with it, and nothing
    is planned when nothing changed.  The only other outcome is to wait, when the
    last action started less than the delay ago. *)
Theorem next_action_is_planned (n : CompleteRackName) (dc rack : nat) (sts : StatefulSet) (e e' : Env W)
    (rs : CassandraRackStatus) (pdb : PodDisruptionBudget)
    (Hrun : getNextCassandraClusterStatus n dc rack sts e = Ret (tt, e'))
    (Hrs : s_RackStatus (status e) !! crn_DcRackName n = Some rs)
    (Hdone : la_Status (rs_LastAction rs) = StatusDone) (Hphase : rs_Phase rs ≠ Name ClusterPhaseInitial)
    (Hlocked : UnlockNextOperation (cc_Spec (rcc_cc e)) = false)
    (Hpdb : rcc_storedPdb e = Some pdb) (Hcalm : no_disruption pdb = true) :
  (quiet read_only e e' ∧ ∃ t now, la_StartTime (rs_LastAction rs) = Some t ∧ Ev _ Now now ∈ log e' ∧
                                   (now < t + DefaultDelayWait * second)%Z) ∨
  ∃ p b, planned (rcc_cc e) (status e) n dc rack sts = Ret p ∧ planned_post (rcc_cc e) n dc rack rs p b e'.
Proof. exact (wp_run _ _ _ _ _ (next_idle n dc rack sts e rs pdb Hrs Hdone Hphase Hlocked Hpdb Hcalm) Hrun). Qed.

(** C24: an action is declared over only on evidence: a scale up when the statefulset
    has the wanted replicas, the pod of the last node is ready and no node is
    joining; a scale down when the statefulset has the wanted replicas and the stored
    decommission is done; any other action when the statefulset has rolled out its
    revision; never an initialisation or a
    storage upsize.  Otherwise the status stays. *)
Theorem action_end_justified (n : CompleteRackName) (sts : StatefulSet) (e e' : Env W) (b : bool)
    (rs : CassandraRackStatus)
    (Hrun : UpdateStatusIfActionEnded n sts e = Ret (b, e'))
    (Hrs : s_RackStatus (status e) !! crn_DcRackName n = Some rs) :
  if b then (∃ now, status e' = on_action (crn_DcRackName n) (done_at now) (status e)) ∧
            ended_because e e' n sts (rs_LastAction rs)
  else status e' = status e.
Proof.
  pose proof (wp_run _ _ _ _ _ (UpdateStatusIfActionEnded_spec n sts e rs Hrs) Hrun) as (_ & _ & H). exact H.
Qed.

(** A step of the state machine of a rack, and the computation of its phase,
    touch nothing else: the entries of the other racks, the phase and the last
    action of the cluster and the nodes' host ids stay, no task is started, and
    outside only pod labels are written. *)
Theorem rack_step_frame (n : CompleteRackName) (dc rack : nat) (sts : StatefulSet) (e e1 e2 : Env W)
    (Hphase : UpdateCassandraRackStatusPhase n sts e = Ret (tt, e1))
    (Hnext : getNextCassandraClusterStatus n dc rack sts e1 = Ret (tt, e2)) :
  only_rack (crn_DcRackName n) e e2.
Proof.
  transitivity e1.
  - exact (wp_run _ _ _ _ _ (phase_frame n sts e) Hphase).
  - exact (wp_run _ _ _ _ _ (next_frame n dc rack sts e1) Hnext).
Qed.

(** The phase of a rack.  Outside initialisation it is Running exactly when all
    replicas of the statefulset are ready and Pending otherwise; an initialising
    rack stays so until the replicas are ready, and becomes a pending scale down
    when no node is wanted any more. *)
Theorem rack_phase_follows_replicas (n : CompleteRackName) (sts : StatefulSet) (e e' : Env W)
    (rs : CassandraRackStatus)
    (Hrun : UpdateCassandraRackStatusPhase n sts e = Ret (tt, e'))
    (Hrs : s_RackStatus (status e) !! crn_DcRackName n = Some rs) :
  ∃ rs', s_RackStatus (status e') !! crn_DcRackName n = Some rs' ∧
         phase_post (GetNodesPerRacks (rcc_cc e) (crn_DcRackName n)) sts rs rs'.
Proof. exact (wp_run _ _ _ _ _ (phase_spec n sts e rs Hrs) Hrun). Qed.
End theorems.

(** ** Instances *)
Section instances.
#[local] Existing Instance SampleQuantities.
#[local] Existing Instance demo_codec.
#[local] Instance demo_diff : SliceDiff := {| slices_differ a b := bool_decide (a ≠ b) |}.

Definition rack_in (phase : ClusterStateInfo) (a : CassandraLastAction) : CassandraRackStatus :=
  mkRackStatus (Name phase) a PodLastOperation_zero "".
Definition cc_in (rs : CassandraRackStatus) : CassandraCluster :=
  upsize_cc <| cc_Status ::= λ s, s <| s_RackStatus := {[ "dc1-rack1" := rs ]} |>
                                    <| s_SeedList := Some [] |> |>.
Definition env_in (rs : CassandraRackStatus) : Env FakeCluster := start (upsize_world "20Gi") (cc_in rs).
Definition idle : CassandraRackStatus :=
  rack_in ClusterPhaseRunning (mkLastAction StatusDone (Name ActionScaleUp) None None []).
Definition scaling_up : CassandraRackStatus :=
  rack_in ClusterPhasePending (mkLastAction StatusOngoing (Name ActionUpdateDockerImage) None None []).
Definition starting : CassandraRackStatus :=
  rack_in ClusterPhaseInitial (mkLastAction StatusOngoing (Name ClusterPhaseInitial) None None []).

(** [observe] on the action of the rack. *)
Definition action_after {A} (m : GoM (Env FakeCluster) A) (e : Env FakeCluster) : option (option (string * string)) :=
  observe (λ _ e', (λ rs, (la_Name (rs_LastAction rs), la_Status (rs_LastAction rs))) <$>
                     s_RackStatus (status e') !! "dc1-rack1") m e.
Definition rolling : StatefulSet :=
  (demo_sts "20Gi") <| sts_Status := mkStsStatus 2 2 "a" "b" |>.

Example next_scale_down :
  action_after (getNextCassandraClusterStatus demo_rack 0 0 ((demo_sts "20Gi") <| sts_Replicas := 3%Z |>)) (env_in idle)
  = Some (Some (Name ActionScaleDown, StatusToDo)).
Proof. vm_compute. reflexivity. Qed.

(** Two nodes are wanted, but only one pod is listed. *)
Definition few_pods : Env FakeCluster :=
  start ((upsize_world "20Gi") <| f_pods := {[ "cassandra-demo-dc1-rack1-0" := ready_pod "cassandra-demo-dc1-rack1-0" ]} |>)
    (cc_in starting).

(** While the pods of an initialising rack are fewer than the nodes it wants, the
    phase computation indexes past the end of the list. *)
Example phase_panics_on_few_pods :
  observe (λ _ _, tt) (UpdateCassandraRackStatusPhase demo_rack (demo_sts "20Gi")) few_pods = None.
Proof. vm_compute. reflexivity. Qed.

(** The pod of the last node is not ready although the statefulset counts it: the
    rack becomes Running, its action stays Ongoing, and since an initialisation is
    never declared over no other action is started from then on. *)
Definition unready_pod : Pod :=
  (ready_pod "cassandra-demo-dc1-rack1-1")
    <| pod_ContainerStatuses := [mkContainerStatus CassandraContainerName false 0 None] |>.
Definition unready_env : Env FakeCluster :=
  start ((upsize_world "20Gi") <| f_pods ::= <["cassandra-demo-dc1-rack1-1" := unready_pod]> |>) (cc_in starting).
Example running_but_initialising :
  observe (λ _ e', (λ rs, (rs_Phase rs, la_Name (rs_LastAction rs), la_Status (rs_LastAction rs))) <$>
                     s_RackStatus (status e') !! "dc1-rack1")
    (UpdateCassandraRackStatusPhase demo_rack (demo_sts "20Gi")) unready_env
  = Some (Some (Name ClusterPhaseRunning, Name ClusterPhaseInitial, StatusOngoing)).
Proof. vm_compute. reflexivity. Qed.

Lemma one_action_at_a_time_witness :
  ∃ e' rs', getNextCassandraClusterStatus demo_rack 0 0 rolling (env_in scaling_up) = Ret (tt, e') ∧
    s_RackStatus (status e') !! "dc1-rack1" = Some rs' ∧ same_rack scaling_up rs'.
Proof.
  destruct (observe_Some (λ _ _, tt) (getNextCassandraClusterStatus demo_rack 0 0 rolling) (env_in scaling_up) tt)
    as ([] & e' & Hrun & _); [vm_compute; reflexivity|].
  destruct (one_action_at_a_time demo_rack 0 0 rolling (env_in scaling_up) e' scaling_up
    (mkPDB (named "" "") 1 ∅ 1 1) Hrun eq_refl eq_refl eq_refl eq_refl) as (_ & _ & rs' & Hrs' & Hs).
  exists e', rs'. split; [exact Hrun|]. split; [exact Hrs'|exact Hs].
Defined.

Lemma next_action_is_planned_witness :
  ∃ e' p b, getNextCassandraClusterStatus demo_rack 0 0 rolling (env_in idle) = Ret (tt, e') ∧
    planned (cc_in idle) (cc_Status (cc_in idle)) demo_rack 0 0 rolling = Ret p ∧
    planned_post (cc_in idle) demo_rack 0 0 idle p b e'.
Proof.
  destruct (observe_Some (λ _ _, tt) (getNextCassandraClusterStatus demo_rack 0 0 rolling) (env_in idle) tt)
    as ([] & e' & Hrun & _); [vm_compute; reflexivity|].
  destruct (next_action_is_planned demo_rack 0 0 rolling (env_in idle) e' idle
    (mkPDB (named "" "") 1 ∅ 1 1) Hrun eq_refl eq_refl ltac:(discriminate) eq_refl eq_refl eq_refl)
    as [(_ & t & now & Ht & _)|(p & b & Hp & Hpost)].
  - discriminate Ht.
  - exists e', p, b. split; [exact Hrun|]. split; [exact Hp|exact Hpost].
Defined.

Definition rolled_out : StatefulSet := demo_sts "20Gi".
Lemma action_end_justified_witness :
  ∃ e', UpdateStatusIfActionEnded demo_rack rolled_out (env_in scaling_up) = Ret (true, e') ∧
    ended_because (env_in scaling_up) e' demo_rack rolled_out (rs_LastAction scaling_up).
Proof.
  destruct (observe_Some (λ b _, b) (UpdateStatusIfActionEnded demo_rack rolled_out) (env_in scaling_up) true)
    as (b & e' & Hrun & Hb); [vm_compute; reflexivity|]. cbn in Hb. subst b.
  exists e'. split; [exact Hrun|].
  pose proof (action_end_justified demo_rack rolled_out (env_in scaling_up) e' true scaling_up Hrun
eq_refl) as [_ H]. exact H.
Defined.

Lemma rack_step_frame_witness :
  ∃ e1 e2, UpdateCassandraRackStatusPhase demo_rack rolling (env_in idle) = Ret (tt, e1) ∧
    getNextCassandraClusterStatus demo_rack 0 0 rolling e1 = Ret (tt, e2) ∧ only_rack "dc1-rack1" (env_in idle) e2.
Proof.
  destruct (observe_Some (λ _ e1, observe (λ _ _, tt) (getNextCassandraClusterStatus demo_rack 0 0 rolling) e1)
    (UpdateCassandraRackStatusPhase demo_rack rolling) (env_in idle) (Some tt))
    as ([] & e1 & Hrun1 & Hobs); [vm_compute; reflexivity|].
  apply observe_Some in Hobs as ([] & e2 & Hrun2 & _). exists e1, e2. split; [exact Hrun1|]. split; [exact Hrun2|].
  exact (rack_step_frame demo_rack 0 0 rolling (env_in idle) e1 e2 Hrun1 Hrun2).
Defined.

Lemma rack_phase_follows_replicas_witness :
  ∃ e' rs', UpdateCassandraRackStatusPhase demo_rack rolling (env_in starting) = Ret (tt, e') ∧
    s_RackStatus (status e') !! "dc1-rack1" = Some rs' ∧ phase_post 2 rolling starting rs'.
Proof.
  destruct (observe_Some (λ _ _, tt) (UpdateCassandraRackStatusPhase demo_rack rolling) (env_in starting) tt)
    as ([] & e' & Hrun & _); [vm_compute; reflexivity|].
  destruct (rack_phase_follows_replicas demo_rack rolling (env_in starting) e' starting Hrun eq_refl)
    as (rs' & Hrs' & Hp).
  exists e', rs'. split; [exact Hrun|]. split; [exact Hrs'|exact Hp].
Defined.
End instances.
