(* ===== verification/Decommission.v ===== *)
(** * Decommission of a node (src/controllers/cassandracluster/pod_operation.go)

    A rack is scaled down one node at a time: the last node leaves the ring
    (ToDo, Ongoing), then the statefulset is scaled down (Finalizing), and when the
    pod is gone its claim is deleted (Done, or Continue for the next node).  The
    boolean result tells the caller to end the loop before the statefulset is
    touched. *)
From S2P Require Import Prelude KubeObjects Types ClusterApi K8sUtil Server Pods NodeOperations.
From S2P Require Import FakeCluster StorageUpsize StatefulSets ClusterPods Status.

Definition breakResyncLoop : bool := true.
Definition continueResyncLoop : bool := false.

Section decommission.
Context {QL : QuantityLib} {CfgCodec : ConfigCodec} {W : Type} {Srv : ApiServer W}.

(** [lastPod.Status.Conditions != nil && lastPod.Status.Conditions[0].Reason == ...]: an
    empty list of conditions panics. *)
Definition pendingUnschedulable (pod : Pod) : outcome bool :=
  if pod_Phase pod == PodPending then
    match pod_Conditions pod with
    | None => mret false
    | Some conditions => c ← index conditions 0; mret (cond_Reason c == "Unschedulable")
    end
  else mret false.

(** The node has left the ring or is on its way. *)
Definition leftRing (operationMode : string) : bool :=
  (operationMode == DECOMMISSIONED) || (operationMode == UNKNOWN).

Definition ensureDecommissionToDo (dcName rackName : string) : M W (bool * option error) :=
  cc ← get_cc;
  let k := GetDCRackName dcName rackName in
  _ ← rack_status k;
  r ← GetLastPod (cc_Namespace cc) (LabelsForCassandraDCRack cc dcName rackName);
  match r with
  | Err _ => mret (breakResyncLoop, Some (OtherError "failed to get last cassandra's pods"))
  | Ok lastPod =>
      bypass ← lift (pendingUnschedulable lastPod);
      if bypass : bool then
        _ ← set_podop k (λ p, p <| po_Status := StatusFinalizing |> <| po_PodsOK := Some [] |>
                                <| po_Pods := Some [pod_Name lastPod] |> <| po_PodsKO := Some [] |>);
        _ ← set_action k (λ a, a <| la_Status := StatusContinue |>);
        mret (continueResyncLoop, None)
      else if negb (alive lastPod) then mret (breakResyncLoop, Some (OtherError "pod is not running"))
      else
        r ← NewJolokiaClient (PodHostname lastPod) (ImageJolokiaSecret (cc_Spec cc)) (cc_Namespace cc);
        match r with
        | Err e => mret (breakResyncLoop, Some e)
        | Ok jolokiaClient =>
            '(operationMode, err) ← NodeOperationMode jolokiaClient;
            match err with
            | Some e => mret (breakResyncLoop, Some e)
            | None =>
                if leftRing operationMode || (operationMode == LEAVING) then mret (breakResyncLoop, None)
                else
                  now ← call Now;
                  _ ← UpdatePodLabel lastPod
                        {[ "operation-status" := StatusOngoing; "operation-start" := LabelTime now;
                           "operation-name" := OperationDecommission ]};
                  _ ← set_podop k (λ p, p <| po_Status := StatusOngoing |> <| po_Pods := Some [pod_Name lastPod] |>
                                          <| po_PodsOK := Some [] |> <| po_PodsKO := Some [] |>);
                  _ ← spawn (Decommission jolokiaClient (String.leb "4.0" (ServerVersion (cc_Spec cc))));
                  mret (breakResyncLoop, None)
            end
        end
  end.

Definition SetStatusForMoreDecommissions (moreDecommisions : bool) (p : PodLastOperation) : PodLastOperation :=
  p <| po_Status := if moreDecommisions then StatusContinue else StatusDone |>.

(** [podLastOperation.Pods[0]] *)
Definition first_pod (p : PodLastOperation) : outcome string := index (elems (po_Pods p)) 0.

Definition deletePodPVC (dcName rackName : string) (lastPod : Pod) (statefulsetIsReady : bool)
  : M W (bool * option error) :=
  cc ← get_cc;
  let k := GetDCRackName dcName rackName in
  rs ← rack_status k;
  name ← lift (first_pod (rs_PodLastOperation rs));
  '(pvc, err) ← GetPVC (cc_Namespace cc) ("data-" +:+ name);
  again ← match err with
          | None => _ ← deletePVC pvc; mret false
          | Some e => mret (negb (IsNotFound e))
          end;
  if again : bool then mret (breakResyncLoop, None)
  else
    now ← call Now;
    _ ← set_podop k (λ p, SetStatusForMoreDecommissions (negb statefulsetIsReady) p
          <| po_PodsOK := Some [pod_Name lastPod] |> <| po_EndTime := Some now |> <| po_Pods := Some [] |>);
    mret (breakResyncLoop, None).

(** Is it too early to ask the node to leave once more? *)
Definition justApplied (label : string) (now : Z) : bool :=
  let t := (LabelTime2Time label).1 in
  bool_decide ((LabelTime2Time (LabelTime now)).1 < t + DefaultDelayWaitForDecommission * second)%Z.

Definition ensureDecommissionOngoing (dcName rackName : string) : M W (bool * option error) :=
  cc ← get_cc;
  let k := GetDCRackName dcName rackName in
  rs ← rack_status k;
  missing ← lift (match po_Pods (rs_PodLastOperation rs) with
                  | None => mret true
                  | Some _ => name ← first_pod (rs_PodLastOperation rs); mret (name == "")
                  end);
  if missing : bool then
    mret (breakResyncLoop, Some (OtherError "status is Ongoing, we should have a PodLastOperation Pods item"))
  else
    name ← lift (first_pod (rs_PodLastOperation rs));
    '(lastPod, err) ← GetPod (cc_Namespace cc) name;
    match err with
    | Some _ => mret (breakResyncLoop, Some (OtherError "failed to get last pod"))
    | None =>
        r ← NewJolokiaClient (PodHostname lastPod) (ImageJolokiaSecret (cc_Spec cc)) (cc_Namespace cc);
        match r with
        | Err e => mret (breakResyncLoop, Some e)
        | Ok jolokiaClient =>
            '(operationMode, err) ← NodeOperationMode jolokiaClient;
            match err with
            | Some e => mret (breakResyncLoop, Some e)
            | None =>
                if operationMode == NORMAL then
                  now ← call Now;
                  _ ← (if justApplied (default "" (pod_Labels lastPod !! "operation-start")) now then mret tt
                       else set_podop k (λ p, p <| po_Status := StatusToDo |>));
                  mret (breakResyncLoop, None)
                else if leftRing operationMode then
                  _ ← set_podop k (λ p, p <| po_Status := StatusFinalizing |>);
                  err ← updateCassandraStatus;
                  mret (continueResyncLoop, err)
                else mret (breakResyncLoop, None)
            end
        end
    end.

Definition ensureDecommissionFinalizing (dcName rackName : string) (statefulsetIsReady : bool)
  : M W (bool * option error) :=
  cc ← get_cc;
  rs ← rack_status (GetDCRackName dcName rackName);
  name ← lift (first_pod (rs_PodLastOperation rs));
  '(lastPod, err) ← GetPod (cc_Namespace cc) name;
  match err with
  | None => mret (breakResyncLoop, None)
  | Some e => if IsNotFound e then deletePodPVC dcName rackName lastPod statefulsetIsReady
              else mret (breakResyncLoop, Some (OtherError "failed to get pod"))
  end.

Definition ensureDecommissionDone (dcName rackName : string) : M W (bool * option error) :=
  let k := GetDCRackName dcName rackName in
  rs ← rack_status k;
  missing ← lift (match po_PodsOK (rs_PodLastOperation rs) with
                  | None => mret true
                  | Some l => name ← index l 0; mret (name == "")
                  end);
  if missing : bool then
    mret (breakResyncLoop, Some (OtherError "for Status Done we should have a PodLastOperation.PodsOK item"))
  else _ ← set_action k (λ a, a <| la_Status := StatusContinue |>); mret (breakResyncLoop, None).

Definition ensureDecommission (dcName rackName : string) (statefulsetIsReady : bool) : M W (bool * option error) :=
  rs ← rack_status (GetDCRackName dcName rackName);
  let p := rs_PodLastOperation rs in
  if po_Name p != OperationDecommission then mret (continueResyncLoop, None)
  else if (po_Status p == StatusToDo) || (po_Status p == StatusContinue) then ensureDecommissionToDo dcName rackName
  else if po_Status p == StatusFinalizing then ensureDecommissionFinalizing dcName rackName statefulsetIsReady
  else if po_Status p == StatusOngoing then ensureDecommissionOngoing dcName rackName
  else if po_Status p == StatusDone then ensureDecommissionDone dcName rackName
  else mret (continueResyncLoop, None).
End decommission.


(** ** The state machine of a decommission *)
Section machine.
Context {QL : QuantityLib} {CfgCodec : ConfigCodec} {W : Type} {Srv : ApiServer W}.
Implicit Types e : Env W.

(** A Jolokia agent of [host] answered [mode] between [e] and [e']. *)
Definition answered_mode e e' (host mode : string) : Prop :=
  ∃ jc resp, jc_host jc = host ∧ since e e' (Ev _ (JolokiaRead jc StorageService "OperationMode") (Ok resp)) ∧
             jr_Error resp = "" ∧ as_string (jr_Value resp) = mode.

(** The claim of the removed pod [name] is read and deleted. *)
Definition claim_request e e' (ns name : string) (ev : Event) : Prop :=
  match ev with
  | Ev _ r _ =>
      match r with
      | ApiDeletePVC pvc => since e e' (Ev _ (ApiGetPVC ns ("data-" +:+ name)) (Ok pvc))
      | _ => read_only ev
      end
  end.

(** Reads and writes of the resource itself. *)
Definition resource_only (ev : Event) : Prop :=
  match ev with
  | Ev _ r _ => match r with ApiUpdateCC _ | ApiUpdateCCStatus _ => True | _ => read_only ev end
  end.

(** [pod] is the last pod of the rack in a listing made since [e]. *)
Definition last_listed e e' (cc : CassandraCluster) (dcName rackName : string) (pod : Pod) : Prop :=
  ∃ pods, since e e' (Ev _ (ApiListPods (cc_Namespace cc) (LabelsForCassandraDCRack cc dcName rackName)) (Ok pods)) ∧
          GetLastOrFirstPod pods true = Ok pod.

(** The steps, each with the evidence it rests on: the loop is ended or not, the
    rack's entry afterwards, and the tasks that were started. *)
Inductive decom_step e e' (cc : CassandraCluster) (dcName rackName : string) (ready : bool)
    (rs : CassandraRackStatus) : bool → CassandraRackStatus → list Task → Prop :=
| decom_wait (Hlog : logs read_only e e') (Hop : po_Name (rs_PodLastOperation rs) = OperationDecommission) :
    decom_step e e' cc dcName rackName ready rs breakResyncLoop rs []
| decom_other (Hlog : logs read_only e e')
    (Hother : po_Name (rs_PodLastOperation rs) ≠ OperationDecommission ∨
              po_Status (rs_PodLastOperation rs) ∉ [StatusToDo; StatusContinue; StatusFinalizing; StatusOngoing; StatusDone]) :
    decom_step e e' cc dcName rackName ready rs continueResyncLoop rs []
| decom_bypass pod (Hlog : logs read_only e e')
    (Hstate : po_Status (rs_PodLastOperation rs) = StatusToDo ∨ po_Status (rs_PodLastOperation rs) = StatusContinue)
    (Hlast : last_listed e e' cc dcName rackName pod) (Hpending : pendingUnschedulable pod = Ret true) :
    decom_step e e' cc dcName rackName ready rs continueResyncLoop
      (rs <| rs_PodLastOperation ::= λ p, p <| po_Status := StatusFinalizing |> <| po_PodsOK := Some [] |>
               <| po_Pods := Some [pod_Name pod] |> <| po_PodsKO := Some [] |> |>
          <| rs_LastAction ::= λ a, a <| la_Status := StatusContinue |> |>) []
| decom_launch pod jc mode (Hlog : logs labels_only e e')
    (Hstate : po_Status (rs_PodLastOperation rs) = StatusToDo ∨ po_Status (rs_PodLastOperation rs) = StatusContinue)
    (Hlast : last_listed e e' cc dcName rackName pod) (Halive : alive pod = true)
    (Hjc : jc_host jc = PodHostname pod) (Hmode : answered_mode e e' (PodHostname pod) mode)
    (Hin : mode ∉ [DECOMMISSIONED; UNKNOWN; LEAVING]) :
    decom_step e e' cc dcName rackName ready rs breakResyncLoop
      (rs <| rs_PodLastOperation ::= λ p, p <| po_Status := StatusOngoing |> <| po_Pods := Some [pod_Name pod] |>
               <| po_PodsOK := Some [] |> <| po_PodsKO := Some [] |> |>)
      [Decommission jc (String.leb "4.0" (ServerVersion (cc_Spec cc)))]
| decom_retry name pod (Hlog : logs read_only e e') (Hstate : po_Status (rs_PodLastOperation rs) = StatusOngoing)
    (Hname : first_pod (rs_PodLastOperation rs) = Ret name)
    (Hpod : since e e' (Ev _ (ApiGetPod (cc_Namespace cc) name) (Ok pod)))
    (Hmode : answered_mode e e' (PodHostname pod) NORMAL) :
    decom_step e e' cc dcName rackName ready rs breakResyncLoop
      (rs <| rs_PodLastOperation ::= λ p, p <| po_Status := StatusToDo |> |>) []
| decom_left name pod mode (Hlog : logs resource_only e e')
    (Hstate : po_Status (rs_PodLastOperation rs) = StatusOngoing)
    (Hname : first_pod (rs_PodLastOperation rs) = Ret name)
    (Hpod : since e e' (Ev _ (ApiGetPod (cc_Namespace cc) name) (Ok pod)))
    (Hmode : answered_mode e e' (PodHostname pod) mode) (Hleft : leftRing mode = true) :
    decom_step e e' cc dcName rackName ready rs continueResyncLoop
      (rs <| rs_PodLastOperation ::= λ p, p <| po_Status := StatusFinalizing |> |>) []
| decom_removed name now (Hlog : logs (claim_request e e' (cc_Namespace cc) name) e e')
    (Hstate : po_Status (rs_PodLastOperation rs) = StatusFinalizing)
    (Hname : first_pod (rs_PodLastOperation rs) = Ret name)
    (Hgone : since e e' (Ev _ (ApiGetPod (cc_Namespace cc) name) (Err NotFound))) :
    decom_step e e' cc dcName rackName ready rs breakResyncLoop
      (rs <| rs_PodLastOperation ::= λ p, SetStatusForMoreDecommissions (negb ready) p
               <| po_PodsOK := Some [name] |> <| po_EndTime := Some now |> <| po_Pods := Some [] |> |>) []
| decom_done (Hlog : logs read_only e e') (Hstate : po_Status (rs_PodLastOperation rs) = StatusDone) :
    decom_step e e' cc dcName rackName ready rs breakResyncLoop
      (rs <| rs_LastAction ::= λ a, a <| la_Status := StatusContinue |> |>) [].

Definition decom_post e (dcName rackName : string) (ready : bool) (rs : CassandraRackStatus)
    (r : bool * option error) e' : Prop :=
  ∃ rs' ts, s_RackStatus (status e') = <[GetDCRackName dcName rackName := rs']> (s_RackStatus (status e)) ∧
    tasks e' = tasks e ++ ts ∧ decom_step e e' (rcc_cc e) dcName rackName ready rs r.1 rs' ts.

(** *** The procedures it calls, with the answers they saw *)
Lemma wp_GetPod ns name Q e :
  (∀ r e1, quiet read_only e e1 → since e e1 (Ev _ (ApiGetPod ns name) r) → Q (got (emptyPod ns name) r) e1) →
  wp (GetPod ns name) Q e.
Proof.
  intros HQ. unfold GetPod. apply wp_bind, wp_call. intros r w. apply wp_ret, HQ; [|apply since_call].
  repeat split. by apply logs_call.
Qed.

Lemma wp_GetLastPod ns sel Q e :
  (∀ r e1, quiet read_only e e1 →
     (∀ pod, r = Ok pod → ∃ pods, since e e1 (Ev _ (ApiListPods ns sel) (Ok pods)) ∧ GetLastOrFirstPod pods true = Ok pod) →
     Q r e1) →
  wp (GetLastPod ns sel) Q e.
Proof.
  intros HQ. unfold GetLastPod, ListPods. do 2 apply wp_bind. apply wp_call. intros r w. apply wp_ret.
  assert (quiet read_only e (e <| world := w |> <| log ::= λ l, l ++ [Ev _ (ApiListPods ns sel) r] |>))
    by (repeat split; by apply logs_call).
  destruct r as [pods|err]; cbn [got]; apply wp_ret, HQ; try done.
  intros pod Hpod. exists pods. split; [apply since_call|done].
Qed.

Lemma wp_NewJolokiaClient host secret ns Q e :
  (∀ r e1, quiet read_only e e1 → (∀ jc, r = Ok jc → jc_host jc = host) → Q r e1) →
  wp (NewJolokiaClient host secret ns) Q e.
Proof.
  intros HQ. unfold NewJolokiaClient. destruct (negb _).
  - apply wp_bind, wp_call. intros r w. apply wp_ret, HQ; [repeat split; by apply logs_call|].
    destruct r; naive_solver.
  - apply wp_ret, HQ; [reflexivity|]. naive_solver.
Qed.

Lemma wp_NodeOperationMode jc Q e :
  (∀ mode err e1, quiet read_only e e1 → (err = None → answered_mode e e1 (jc_host jc) mode) → Q (mode, err) e1) →
  wp (NodeOperationMode jc) Q e.
Proof.
  intros HQ. unfold NodeOperationMode, read. do 2 apply wp_bind. apply wp_call. intros r w. do 2 apply wp_ret.
  set (e1 := e <| world := w |> <| log ::= _ |>).
  assert (quiet read_only e e1) as Hq by (repeat split; by apply logs_call).
  destruct r as [resp|err]; simpl; [|by apply HQ].
  case_bool_decide as He; simpl; [|by apply HQ]. apply HQ; [done|]. intros _. exists jc, resp.
  split; [done|]. split; [apply since_call|done].
Qed.

Lemma UpdatePodLabel_quiet pod labels : keeps (quiet labels_only) (UpdatePodLabel (W:=W) pod labels).
Proof.
  unfold UpdatePodLabel, UpdatePod. keeps_steps; [|by apply keeps_quiet_call].
  exact (keeps_mono _ _ _ (λ e e', quiet_mono _ _ e e' read_only_labels_only) (GetPod_quiet _ _)).
Qed.

Lemma updateCassandraStatus_post e :
  wp updateCassandraStatus (λ _ e', logs resource_only e e' ∧ status e' = status e ∧ tasks e' = tasks e) e.
Proof.
  unfold updateCassandraStatus, writeStatus. apply wp_bind, wp_gets, wp_bind, wp_gets. cbv zeta.
  apply wp_bind, wp_bind, wp_gets. destruct (_ && _).
  { apply wp_ret, wp_bind, wp_modify, wp_ret. split; [by apply logs_same|done]. }
  apply wp_bind, wp_modify, wp_bind, wp_call. intros r w. apply wp_bind, wp_call. intros r' w'. apply wp_ret.
  destruct r'; apply wp_bind, wp_modify, wp_ret; (split; [|done]);
    (eexists; split; [cbn; rewrite <- (assoc_L (++)); reflexivity|]); by repeat constructor.
Qed.
(** *** Evidence is kept *)
Lemma answered_mode_mono P P' e e1 e2 e3 host mode :
  logs P e e1 → logs P' e2 e3 → answered_mode e1 e2 host mode → answered_mode e e3 host mode.
Proof.
  intros Hl Hr (jc & resp & Hh & Hs & ? & ?). exists jc, resp. split; [done|]. split; [|done].
  eapply since_logs_l; [exact Hl|]. by eapply since_logs_r.
Qed.
Lemma last_listed_mono P e e1 e2 cc dcName rackName pod :
  logs P e1 e2 → last_listed e e1 cc dcName rackName pod → last_listed e e2 cc dcName rackName pod.
Proof. intros Hr (pods & Hs & Hl). exists pods. split; [|done]. by eapply since_logs_r. Qed.

Lemma on_rack_insert k f (st : CassandraClusterStatus) r :
  s_RackStatus st !! k = Some r → s_RackStatus (on_rack k f st) = <[k := f r]> (s_RackStatus st).
Proof.
  intros Hr. cbn. apply map_eq. intros i. destruct (decide (i = k)) as [->|Hne].
  - by rewrite lookup_alter_eq, lookup_insert_eq, Hr.
  - by rewrite lookup_alter_ne, lookup_insert_ne by done.
Qed.

Lemma on_rack_twice k f g (st : CassandraClusterStatus) r :
  s_RackStatus st !! k = Some r → s_RackStatus (on_rack k g (on_rack k f st)) = <[k := g (f r)]> (s_RackStatus st).
Proof.
  intros Hr. rewrite (on_rack_insert _ _ _ _ (on_rack_lookup _ f _ _ Hr)), (on_rack_insert _ _ _ _ Hr).
  apply insert_insert_eq.
Qed.

(** Nothing happened but reads. *)
Lemma post_wait e e' dcName rackName ready rs err :
  s_RackStatus (status e) !! GetDCRackName dcName rackName = Some rs →
  po_Name (rs_PodLastOperation rs) = OperationDecommission →
  quiet read_only e e' → decom_post e dcName rackName ready rs (breakResyncLoop, err) e'.
Proof.
  intros Hrs Hop (Hl & _ & Hst & _ & _ & Ht & _). exists rs, []. rewrite Hst, Ht, app_nil_r, insert_id by done.
  split; [done|]. split; [done|]. by constructor.
Qed.

(** One assignment after some reads. *)
Lemma post_assign e e1 e' dcName rackName ready rs f b err :
  s_RackStatus (status e) !! GetDCRackName dcName rackName = Some rs →
  status e1 = status e → tasks e1 = tasks e →
  status e' = on_rack (GetDCRackName dcName rackName) f (status e1) → tasks e' = tasks e1 →
  decom_step e e' (rcc_cc e) dcName rackName ready rs b (f rs) [] →
  decom_post e dcName rackName ready rs (b, err) e'.
Proof.
  intros Hrs Hst Ht Hst' Ht' Hstep. exists (f rs), []. rewrite Hst', Ht', Ht, Hst, app_nil_r.
  split; [by apply on_rack_insert|]. split; [done|exact Hstep].
Qed.

Lemma decommission_todo e dcName rackName ready rs :
  s_RackStatus (status e) !! GetDCRackName dcName rackName = Some rs →
  po_Name (rs_PodLastOperation rs) = OperationDecommission →
  po_Status (rs_PodLastOperation rs) = StatusToDo ∨ po_Status (rs_PodLastOperation rs) = StatusContinue →
  wp (ensureDecommissionToDo dcName rackName) (decom_post e dcName rackName ready rs) e.
Proof.
  intros Hrs Hop Hstate. unfold ensureDecommissionToDo. apply wp_bind, wp_gets, wp_bind, wp_rack_status. intros ? _.
  apply wp_bind, wp_GetLastPod. intros [pod|err] e1 Hq1 Hlast; [|by apply wp_ret, post_wait].
  assert (last_listed e e1 (rcc_cc e) dcName rackName pod) as Hlisted by (destruct (Hlast pod eq_refl); by eexists).
  pose proof Hq1 as (Hl1 & Hcc1 & Hst1 & _ & _ & Ht1 & _).
  apply wp_bind, wp_lift. intros [] Hpend.
  { apply wp_bind, wp_set_rack. intros r1 _. apply wp_bind, wp_set_rack. intros r2 _. apply wp_ret.
    eexists _, []. rewrite app_nil_r. split; [|split; [exact Ht1|apply (decom_bypass _ _ _ _ _ _ _ pod); try done]].
    etrans; [apply on_rack_twice; rewrite Hst1; exact Hrs|]. by rewrite Hst1. }
  assert (∀ err e', quiet read_only e e' → decom_post e dcName rackName ready rs (breakResyncLoop, err) e') as Hwait
    by (intros; by apply post_wait).
  destruct (alive pod) eqn:Halive; cbn [negb]; [|by apply wp_ret, Hwait].
  apply wp_bind, wp_NewJolokiaClient. intros [jc|err] e2 Hq2 Hjc; [|apply wp_ret, Hwait; by etrans].
  apply wp_bind, wp_NodeOperationMode. intros mode err e3 Hq3 Hmode. specialize (Hjc jc eq_refl).
  assert (quiet read_only e e3) as Hq by (etrans; [done|]; by etrans).
  destruct err as [err|]; [by apply wp_ret, Hwait|].
  destruct (leftRing mode || (mode == LEAVING)) eqn:Hleft; [by apply wp_ret, Hwait|].
  destruct Hq as (Hl3 & Hcc3 & Hst3 & _ & _ & Ht3 & _).
  apply wp_bind, wp_call. intros now w. apply wp_bind.
  eapply wp_keeps; [apply UpdatePodLabel_quiet|]. intros err4 e4 (Hl4 & _ & Hst4 & _ & _ & Ht4 & _).
  apply wp_bind, wp_set_rack. intros ? _. unfold spawn. apply wp_bind, wp_modify, wp_ret.
  eexists _, _. split; [|split].
  - etrans; [apply on_rack_insert; rewrite Hst4; cbn; rewrite Hst3; exact Hrs|]. rewrite Hst4. cbn. by rewrite Hst3.
  - cbn. rewrite Ht4. cbn. by rewrite Ht3.
  - assert (logs labels_only e3 e4) as Hl34.
    { etrans; [|exact Hl4]. by apply logs_call. }
    apply (decom_launch _ _ _ _ _ _ _ pod jc mode); try done.
    + etrans; [eapply logs_mono; [apply read_only_labels_only|exact Hl3]|]. exact Hl34.
    + eapply (last_listed_mono labels_only); [|exact Hlisted].
      etrans; [|exact Hl34]. eapply logs_mono; [apply read_only_labels_only|]. apply quiet_logs. by etrans.
    + rewrite <- Hjc. eapply (answered_mode_mono read_only labels_only _ e2 e3); [|exact Hl34|by apply Hmode].
      apply quiet_logs. by etrans.
    + apply orb_false_iff in Hleft as [Hleft Hne]. unfold leftRing in Hleft. apply orb_false_iff in Hleft as [H1 H2].
      apply bool_decide_eq_false in H1, H2, Hne. set_solver.
Qed.

Lemma claim_request_read e e' ns name ev : read_only ev → claim_request e e' ns name ev.
Proof. destruct ev as [A r x]. by destruct r. Qed.
Lemma claim_request_mono P e e1 e2 ns name ev :
  logs P e1 e2 → claim_request e e1 ns name ev → claim_request e e2 ns name ev.
Proof. intros Hl. destruct ev as [A r x]. destruct r; try done. cbn. intros Hs. by eapply since_logs_r. Qed.

(** The end of [deletePodPVC], once the claim is dealt with. *)
Lemma decommission_removed e e3 dcName rackName ready rs name err :
  s_RackStatus (status e) !! GetDCRackName dcName rackName = Some rs →
  po_Status (rs_PodLastOperation rs) = StatusFinalizing → first_pod (rs_PodLastOperation rs) = Ret name →
  logs (claim_request e e3 (cc_Namespace (rcc_cc e)) name) e e3 → status e3 = status e → tasks e3 = tasks e →
  since e e3 (Ev _ (ApiGetPod (cc_Namespace (rcc_cc e)) name) (Err NotFound)) →
  wp (now ← call Now;
      _ ← set_podop (GetDCRackName dcName rackName) (λ p, SetStatusForMoreDecommissions (negb ready) p
            <| po_PodsOK := Some [name] |> <| po_EndTime := Some now |> <| po_Pods := Some [] |>);
      mret (breakResyncLoop, err)) (decom_post e dcName rackName ready rs) e3.
Proof.
  intros Hrs Hstate Hname Hl Hst Ht Hgone. apply wp_bind, wp_call. intros now w. apply wp_bind, wp_set_rack. intros r _.
  apply wp_ret. set (e4 := e3 <| world := w |> <| log ::= _ |>).
  assert (logs read_only e3 e4) as Hl4 by by apply logs_call.
  eapply (post_assign e e4); try done. apply (decom_removed _ _ _ _ _ _ _ name now); try done.
  - apply (transitivity (y := e4)); [|by apply logs_same].
    etrans; [eapply logs_mono; [intros ev; exact (claim_request_mono read_only e e3 _ _ _ ev Hl4)|exact Hl]|].
    eapply logs_mono; [apply claim_request_read|exact Hl4].
  - by eapply since_logs_r.
Qed.

Lemma decommission_finalizing e dcName rackName ready rs :
  s_RackStatus (status e) !! GetDCRackName dcName rackName = Some rs →
  po_Name (rs_PodLastOperation rs) = OperationDecommission →
  po_Status (rs_PodLastOperation rs) = StatusFinalizing →
  wp (ensureDecommissionFinalizing dcName rackName ready) (decom_post e dcName rackName ready rs) e.
Proof.
  intros Hrs Hop Hstate. unfold ensureDecommissionFinalizing.
  apply wp_bind, wp_gets, wp_bind, wp_rack_status. rewrite Hrs. intros ? [= <-].
  apply wp_bind, wp_lift. intros name Hname.
  apply wp_bind, wp_GetPod. intros r e1 Hq1 Hget. pose proof Hq1 as (Hl1 & Hcc1 & Hst1 & _ & _ & Ht1 & _).
  destruct r as [pod|err]; cbn [got]; [by apply wp_ret, post_wait|].
  unfold IsNotFound. case_bool_decide as Hnf; [|by apply wp_ret, post_wait]. subst err.
  unfold deletePodPVC. apply wp_bind, wp_gets, wp_bind, wp_rack_status. rewrite Hst1, Hrs. intros ? [= <-].
  apply wp_bind, wp_lift. rewrite Hname. intros ? [= <-]. rewrite Hcc1.
  unfold GetPVC. apply wp_bind, wp_bind, wp_call. intros g w. apply wp_ret.
  set (e2 := e1 <| world := w |> <| log ::= _ |>).
  assert (since e e2 (Ev _ (ApiGetPod (cc_Namespace (rcc_cc e)) name) (Err NotFound))) as Hgone
    by (eapply (since_logs_r read_only); [by apply logs_call|exact Hget]).
  assert (quiet read_only e e2) as Hq2 by (etrans; [exact Hq1|]; repeat split; by apply logs_call).
  assert (logs (claim_request e e2 (cc_Namespace (rcc_cc e)) name) e e2) as Hl2
    by (eapply logs_mono; [apply claim_request_read|apply quiet_logs, Hq2]).
  pose proof Hq2 as (_ & _ & Hst2 & _ & _ & Ht2 & _).
  destruct g as [pvc|err]; cbn [got].
  - unfold deletePVC. apply wp_bind, wp_bind, wp_call. intros a w'. apply wp_ret. apply decommission_removed; try done.
    + etrans; [eapply logs_mono; [intros ev; apply (claim_request_mono (λ _, True) e e2); by apply logs_call|exact Hl2]|].
      apply logs_call. eapply (since_logs_l read_only); [apply quiet_logs, Hq1|].
      eapply (since_logs_r (λ _, True)); [by apply logs_call|apply since_call].
    + eapply (since_logs_r (λ _, True)); [by apply logs_call|exact Hgone].
  - apply wp_bind, wp_ret. unfold IsNotFound. case_bool_decide; [|by apply wp_ret, post_wait].
    by apply decommission_removed.
Qed.

Lemma decommission_done e dcName rackName ready rs :
  s_RackStatus (status e) !! GetDCRackName dcName rackName = Some rs →
  po_Name (rs_PodLastOperation rs) = OperationDecommission → po_Status (rs_PodLastOperation rs) = StatusDone →
  wp (ensureDecommissionDone dcName rackName) (decom_post e dcName rackName ready rs) e.
Proof.
  intros Hrs Hop Hstate. unfold ensureDecommissionDone. apply wp_bind, wp_rack_status. rewrite Hrs. intros ? [= <-].
  apply wp_bind, wp_lift. intros [] _; [by apply wp_ret, post_wait|].
  apply wp_bind, wp_set_rack. intros r _. apply wp_ret. eapply (post_assign e e); try done.
  apply decom_done; [by apply logs_same|done].
Qed.

Lemma decommission_ongoing e dcName rackName ready rs :
  s_RackStatus (status e) !! GetDCRackName dcName rackName = Some rs →
  po_Name (rs_PodLastOperation rs) = OperationDecommission → po_Status (rs_PodLastOperation rs) = StatusOngoing →
  wp (ensureDecommissionOngoing dcName rackName) (decom_post e dcName rackName ready rs) e.
Proof.
  intros Hrs Hop Hstate. unfold ensureDecommissionOngoing.
  assert (∀ err e', quiet read_only e e' → decom_post e dcName rackName ready rs (breakResyncLoop, err) e') as Hwait
    by (intros; by apply post_wait).
  apply wp_bind, wp_gets, wp_bind, wp_rack_status. rewrite Hrs. intros ? [= <-].
  apply wp_bind, wp_lift. intros [] _; [by apply wp_ret, Hwait|].
  apply wp_bind, wp_lift. intros name Hname. apply wp_bind, wp_GetPod. intros r e1 Hq1 Hget.
  destruct r as [pod|err]; cbn [got]; [|by apply wp_ret, Hwait].
  apply wp_bind, wp_NewJolokiaClient. intros [jc|err] e2 Hq2 Hjc; [|apply wp_ret, Hwait; by etrans].
  specialize (Hjc jc eq_refl). assert (quiet read_only e e2) as Hq02 by by etrans.
  apply wp_bind, wp_NodeOperationMode. intros mode err e3 Hq3 Hmode.
  assert (quiet read_only e e3) as Hq by by etrans.
  destruct err as [err|]; [by apply wp_ret, Hwait|]. specialize (Hmode eq_refl). rewrite Hjc in Hmode.
  assert (∀ P e4, logs P e3 e4 → since e e4 (Ev _ (ApiGetPod (cc_Namespace (rcc_cc e)) name) (Ok pod)) ∧
    answered_mode e e4 (PodHostname pod) mode) as Hev.
  { intros P e4 Hl. split; [|by eapply answered_mode_mono; [apply quiet_logs, Hq02|exact Hl|]].
    eapply since_logs_r; [exact Hl|]. eapply (since_logs_r read_only); [|exact Hget]. apply quiet_logs. by etrans. }
  pose proof Hq as (Hl3 & Hcc3 & Hst3 & _ & _ & Ht3 & _).
  case_bool_decide as Hnormal.
  - subst mode. apply wp_bind, wp_call. intros now w. apply wp_bind. set (e4 := e3 <| world := w |> <| log ::= _ |>).
    assert (logs read_only e3 e4) as Hl4 by by apply logs_call.
    destruct (justApplied _ _).
    { apply wp_ret, wp_ret, Hwait. etrans; [exact Hq|]. by repeat split. }
    apply wp_set_rack. intros r _. apply wp_ret. destruct (Hev read_only e4 Hl4).
    eapply (post_assign e e4); try done. apply (decom_retry _ _ _ _ _ _ _ name pod); try done. by etrans.
  - destruct (leftRing mode) eqn:Hleft; [|by apply wp_ret, Hwait].
    apply wp_bind, wp_set_rack. intros r _. apply wp_bind. eapply wp_mono; [apply updateCassandraStatus_post|].
    intros err e4 (Hl4 & Hst4 & Ht4). apply wp_ret.
    assert (logs resource_only e3 e4) as Hl34 by (etrans; [|exact Hl4]; by apply logs_same).
    destruct (Hev resource_only e4 Hl34). eapply (post_assign e e3); [done..|exact Hst4|exact Ht4|].
    apply (decom_left _ _ _ _ _ _ _ name pod mode); try done.
    etrans; [|exact Hl34]. eapply logs_mono; [|exact Hl3]. intros [A q x]. by destruct q.
Qed.

Lemma decommission_steps e dcName rackName ready rs :
  s_RackStatus (status e) !! GetDCRackName dcName rackName = Some rs →
  wp (ensureDecommission dcName rackName ready) (decom_post e dcName rackName ready rs) e.
Proof.
  intros Hrs. unfold ensureDecommission. apply wp_bind, wp_rack_status. rewrite Hrs. intros ? [= <-].
  assert (po_Name (rs_PodLastOperation rs) ≠ OperationDecommission ∨
      po_Status (rs_PodLastOperation rs) ∉ [StatusToDo; StatusContinue; StatusFinalizing; StatusOngoing; StatusDone] →
    decom_post e dcName rackName ready rs (continueResyncLoop, None) e) as Hother.
  { intros H. exists rs, []. rewrite app_nil_r, insert_id by done. split; [done|]. split; [done|].
    apply decom_other; [by apply logs_same|done]. }
  case_bool_decide as Hop; cbn [negb]; [|apply wp_ret, Hother; by left].
  case_bool_decide as Ha; [apply decommission_todo; auto|]. cbn [orb].
  case_bool_decide as Hb; [apply decommission_todo; auto|].
  case_bool_decide as Hc; [by apply decommission_finalizing|].
  case_bool_decide as Hd; [by apply decommission_ongoing|].
  case_bool_decide as He; [by apply decommission_done|].
  apply wp_ret, Hother. right. set_solver.
Qed.
End machine.

(** ** Theorems *)
Section theorems.
Context {QL : QuantityLib} {CfgCodec : ConfigCodec} {W : Type} {Srv : ApiServer W}.
Implicit Types e : Env W.

(** The states of a decommission. *)
Definition decommissioning (p : PodLastOperation) : Prop :=
  po_Name p = OperationDecommission ∧
  po_Status p ∈ [StatusToDo; StatusContinue; StatusFinalizing; StatusOngoing; StatusDone].

Lemma run_decommission e dcName rackName ready rs r e' :
  ensureDecommission dcName rackName ready e = Ret (r, e') →
  s_RackStatus (status e) !! GetDCRackName dcName rackName = Some rs →
  decom_post e dcName rackName ready rs r e'.
Proof. intros Hrun Hrs. exact (wp_run _ _ _ _ _ (decommission_steps e dcName rackName ready rs Hrs) Hrun). Qed.

(** The node that is to leave the rack is out of the ring, or never was in it: the agent
    of the recorded pod said so, or the last pod of the rack could not be scheduled. *)
Definition node_out e e' (cc : CassandraCluster) (dcName rackName : string) (rs : CassandraRackStatus) : Prop :=
  po_Status (rs_PodLastOperation rs) = StatusOngoing ∧
  (∃ name pod mode, first_pod (rs_PodLastOperation rs) = Ret name ∧
      since e e' (Ev _ (ApiGetPod (cc_Namespace cc) name) (Ok pod)) ∧
      answered_mode e e' (PodHostname pod) mode ∧ (mode = DECOMMISSIONED ∨ mode = UNKNOWN)) ∨
  po_Status (rs_PodLastOperation rs) ∈ [StatusToDo; StatusContinue] ∧
  (∃ pod, last_listed e e' cc dcName rackName pod ∧ pendingUnschedulable pod = Ret true).

Lemma node_out_mono P P' e e1 e2 e3 cc dcName rackName rs :
  logs P e e1 → logs P' e2 e3 → node_out e1 e2 cc dcName rackName rs → node_out e e3 cc dcName rackName rs.
Proof.
  intros Hl Hr [[Hst (name & pod & mode & Hn & Hp & Hm & Hmode)]|[Hst (pod & (pods & Hs & Hlast) & Hpend)]];
    [left|right]; (split; [exact Hst|]).
  - exists name, pod, mode. split; [done|]. split; [eapply since_logs_l; [done|]; by eapply since_logs_r|].
    split; [by eapply answered_mode_mono|done].
  - exists pod. split; [|done]. exists pods. split; [eapply since_logs_l; [done|]; by eapply since_logs_r|done].
Qed.

Lemma decommission_released e e' dcName rackName ready err rs :
  ensureDecommission dcName rackName ready e = Ret ((continueResyncLoop, err), e') →
  s_RackStatus (status e) !! GetDCRackName dcName rackName = Some rs → decommissioning (rs_PodLastOperation rs) →
  (∃ rs', s_RackStatus (status e') !! GetDCRackName dcName rackName = Some rs' ∧
          po_Status (rs_PodLastOperation rs') = StatusFinalizing) ∧
  node_out e e' (rcc_cc e) dcName rackName rs.
Proof.
  intros Hrun Hrs [Hname Hin].
  destruct (run_decommission _ _ _ _ _ _ _ Hrun Hrs) as (rs' & ts & Hracks & _ & Hstep).
  cbn [fst] in Hstep. rewrite Hracks. inversion Hstep; subst; try discriminate.
  - by destruct Hother.
  - split; [eexists; split; [apply lookup_insert_eq|done]|]. right. split; [|eauto]. set_solver.
  - split; [eexists; split; [apply lookup_insert_eq|done]|]. left. split; [done|]. exists name, pod, mode. repeat split; try done.
    unfold leftRing in Hleft. by apply orb_true_iff in Hleft as [?%bool_decide_eq_true|?%bool_decide_eq_true]; auto.
Qed.

(** C1: the statefulset of a rack that scales down is released only when its node is
    out of the ring.  [ensureDecommission] lets the loop go on to the statefulset only
    if the decommission runs and the agent of the pod being decommissioned answered that
    the node has left the ring, or if the decommission has not been asked for and the last
    pod of the rack never was scheduled; the operation is then Finalizing. *)
Theorem scale_down_after_leaving_ring (dcName rackName : string) (ready : bool) (e e' : Env W)
    (err : option error) (rs : CassandraRackStatus)
    (Hrun : ensureDecommission dcName rackName ready e = Ret ((continueResyncLoop, err), e'))
    (Hrs : s_RackStatus (status e) !! GetDCRackName dcName rackName = Some rs)
    (Hdecom : decommissioning (rs_PodLastOperation rs)) :
  (∃ rs', s_RackStatus (status e') !! GetDCRackName dcName rackName = Some rs' ∧
          po_Status (rs_PodLastOperation rs') = StatusFinalizing) ∧
  (po_Status (rs_PodLastOperation rs) = StatusOngoing ∧
   (∃ name pod mode, first_pod (rs_PodLastOperation rs) = Ret name ∧
      since e e' (Ev _ (ApiGetPod (cc_Namespace (rcc_cc e)) name) (Ok pod)) ∧
      answered_mode e e' (PodHostname pod) mode ∧ (mode = DECOMMISSIONED ∨ mode = UNKNOWN)) ∨
   po_Status (rs_PodLastOperation rs) ∈ [StatusToDo; StatusContinue] ∧
   (∃ pod, last_listed e e' (rcc_cc e) dcName rackName pod ∧ pendingUnschedulable pod = Ret true)).
Proof. exact (decommission_released _ _ _ _ _ _ _ Hrun Hrs Hdecom). Qed.

(** C8: the claim of a node is deleted only after the node's pod is gone: a deletion
    made by [ensureDecommission] is of the claim "data-<pod>" as it was read, for the
    pod recorded in the operation, in state Finalizing, after the API server answered
    that this pod does not exist.  (The comment of the function, pod_operation.go:325,
    has the claim deleted in state Done.) *)
Theorem claim_deleted_after_pod_gone (dcName rackName : string) (ready : bool) (e e' : Env W)
    (r : bool * option error) (rs : CassandraRackStatus) (pvc : PersistentVolumeClaim) (a : option error)
    (Hrun : ensureDecommission dcName rackName ready e = Ret (r, e'))
    (Hrs : s_RackStatus (status e) !! GetDCRackName dcName rackName = Some rs)
    (Hdelete : since e e' (Ev _ (ApiDeletePVC pvc) a)) :
  po_Status (rs_PodLastOperation rs) = StatusFinalizing ∧
  ∃ name, first_pod (rs_PodLastOperation rs) = Ret name ∧
    since e e' (Ev _ (ApiGetPod (cc_Namespace (rcc_cc e)) name) (Err NotFound)) ∧
    since e e' (Ev _ (ApiGetPVC (cc_Namespace (rcc_cc e)) ("data-" +:+ name)) (Ok pvc)).
Proof.
  destruct (run_decommission _ _ _ _ _ _ _ Hrun Hrs) as (rs' & ts & _ & _ & Hstep).
  inversion Hstep; subst; pose proof (logs_since _ _ _ _ Hlog Hdelete) as Hev; try contradiction.
  split; [done|]. by exists name.
Qed.

(** C7: one decommission at a time: a node is asked to leave only when no decommission
    is running, at most one node per loop, and that node is the last pod of the rack,
    alive and not leaving already; the pod is then recorded and the state is Ongoing,
    from which no other node is asked. *)
Theorem decommission_one_node (dcName rackName : string) (ready : bool) (e e' : Env W)
    (r : bool * option error) (rs : CassandraRackStatus)
    (Hrun : ensureDecommission dcName rackName ready e = Ret (r, e'))
    (Hrs : s_RackStatus (status e) !! GetDCRackName dcName rackName = Some rs) :
  tasks e' = tasks e ∨
  (po_Status (rs_PodLastOperation rs) = StatusToDo ∨ po_Status (rs_PodLastOperation rs) = StatusContinue) ∧
  ∃ pod jc v4 rs', tasks e' = tasks e ++ [Decommission jc v4] ∧ jc_host jc = PodHostname pod ∧
    last_listed e e' (rcc_cc e) dcName rackName pod ∧ alive pod = true ∧
    s_RackStatus (status e') !! GetDCRackName dcName rackName = Some rs' ∧
    po_Status (rs_PodLastOperation rs') = StatusOngoing ∧
    po_Pods (rs_PodLastOperation rs') = Some [pod_Name pod] ∧ r.1 = breakResyncLoop.
Proof.
  destruct (run_decommission _ _ _ _ _ _ _ Hrun Hrs) as (rs' & ts & Hracks & Ht & Hstep). rewrite Hracks.
  inversion Hstep; subst; try (left; by rewrite app_nil_r in Ht). right. split; [done|].
  eexists pod, jc, _, _. split; [exact Ht|]. split; [done|]. split; [done|]. split; [done|].
  split; [apply lookup_insert_eq|done].
Qed.


End theorems.

(** ** Instances

    A rack of three nodes that goes down to two. *)
Section instances.
#[local] Existing Instance SampleQuantities.
#[local] Instance demo_config : ConfigCodec := {| Marshal_cc _ := Some "{}"; Unmarshal_cc _ := None |}.

Definition third_pod : Pod := ready_pod "cassandra-demo-dc1-rack1-2".
Definition down_rack (state : string) (pods : list string) : CassandraRackStatus :=
  mkRackStatus (Name ClusterPhasePending) (mkLastAction StatusToDo (Name ActionScaleDown) None None [])
    (PodLastOperation_zero <| po_Name := OperationDecommission |> <| po_Status := state |> <| po_Pods := Some pods |>) "".
Definition down_cc (rs : CassandraRackStatus) : CassandraCluster :=
  upsize_cc <| cc_Status ::= λ s, s <| s_RackStatus := {[ "dc1-rack1" := rs ]} |> |>.
(** The pods of the rack, with the third or without. *)
Definition down_world (third : bool) (mode : string) : FakeCluster :=
  (upsize_world "20Gi")
    <| f_pods ::= λ m, if third then <["cassandra-demo-dc1-rack1-2" := third_pod]> m else m |>
    <| f_pvcs ::= <["data-cassandra-demo-dc1-rack1-2" := claim "data-cassandra-demo-dc1-rack1-2" demo_labels "20Gi"]> |>
    <| f_jolokia := {[ "OperationMode" := JString mode ]} |>
    <| f_cc := Some upsize_cc |>.
Definition down_env (third : bool) (mode state : string) (pods : list string) : Env FakeCluster :=
  start (down_world third mode) (down_cc (down_rack state pods)).

Definition podop_after (e : Env FakeCluster) : option (string * option (list string)) :=
  (λ rs, (po_Status (rs_PodLastOperation rs), po_Pods (rs_PodLastOperation rs))) <$>
    s_RackStatus (status e) !! "dc1-rack1".
Definition decommission_run third mode state pods : option (bool * option (string * option (list string)) * nat) :=
  observe (λ r e', (r.1, podop_after e', length (tasks e')))
    (ensureDecommission "dc1" "rack1" true) (down_env third mode state pods).

Example decommission_demo :
  decommission_run true "NORMAL" StatusToDo [] =
    Some (true, Some (StatusOngoing, Some ["cassandra-demo-dc1-rack1-2"]), 1) ∧
  decommission_run true "LEAVING" StatusOngoing ["cassandra-demo-dc1-rack1-2"] =
    Some (true, Some (StatusOngoing, Some ["cassandra-demo-dc1-rack1-2"]), 0) ∧
  decommission_run true "DECOMMISSIONED" StatusOngoing ["cassandra-demo-dc1-rack1-2"] =
    Some (false, Some (StatusFinalizing, Some ["cassandra-demo-dc1-rack1-2"]), 0) ∧
  decommission_run false "" StatusFinalizing ["cassandra-demo-dc1-rack1-2"] = Some (true, Some (StatusDone, Some []), 0).
Proof. vm_compute. auto. Qed.

(** An empty, but not nil, list of pods panics in state Ongoing. *)
Example ongoing_without_pod_panics : decommission_run true "NORMAL" StatusOngoing [] = None.
Proof. vm_compute. reflexivity. Qed.

Definition left_env : Env FakeCluster := down_env true "DECOMMISSIONED" StatusOngoing ["cassandra-demo-dc1-rack1-2"].
Lemma scale_down_after_leaving_ring_witness :
  ∃ err e', ensureDecommission "dc1" "rack1" true left_env = Ret ((continueResyncLoop, err), e') ∧
    ∃ rs', s_RackStatus (status e') !! "dc1-rack1" = Some rs' ∧
           po_Status (rs_PodLastOperation rs') = StatusFinalizing.
Proof.
  destruct (observe_Some (λ r _, r.1) (ensureDecommission "dc1" "rack1" true) left_env false)
    as ([b err] & e' & Hrun & Hb); [vm_compute; reflexivity|]. cbn in Hb. subst b.
  exists err, e'. split; [exact Hrun|].
  destruct (scale_down_after_leaving_ring "dc1" "rack1" true left_env e' err
    (down_rack StatusOngoing ["cassandra-demo-dc1-rack1-2"]) Hrun eq_refl) as [H _]; [|exact H].
  split; [reflexivity|]. apply list_elem_of_In. cbn. tauto.
Defined.

(** The claim that was deleted in a log, with the answer. *)
Definition deleted_claim (l : list (Event (QL:=SampleQuantities))) : option (PersistentVolumeClaim * option error) :=
  find_map (λ ev, match ev with
                  | Ev _ r a => match r in Req A return A → option (PersistentVolumeClaim * option error) with
                                | ApiDeletePVC p => λ a, Some (p, a)
                                | _ => λ _, None
                                end a
                  end) l.
Lemma deleted_claim_elem l p a : deleted_claim l = Some (p, a) → Ev _ (ApiDeletePVC p) a ∈ l.
Proof.
  intros H. apply find_map_Some in H as ([A r x] & Hin & Hr). destruct r; try discriminate Hr.
  injection Hr as <- <-. exact Hin.
Qed.

Definition gone_env : Env FakeCluster := down_env false "" StatusFinalizing ["cassandra-demo-dc1-rack1-2"].
Lemma claim_deleted_after_pod_gone_witness :
  ∃ r e' pvc a, ensureDecommission "dc1" "rack1" true gone_env = Ret (r, e') ∧
    since gone_env e' (Ev _ (ApiDeletePVC pvc) a) ∧
    ∃ name, since gone_env e' (Ev _ (ApiGetPod "ns" name) (Err NotFound)) ∧
            since gone_env e' (Ev _ (ApiGetPVC "ns" ("data-" +:+ name)) (Ok pvc)).
Proof.
  destruct (observe_Some (λ _ e', bool_decide (is_Some (deleted_claim (log e'))))
    (ensureDecommission "dc1" "rack1" true) gone_env true) as (r & e' & Hrun & Hd); [vm_compute; reflexivity|].
  apply bool_decide_eq_true in Hd as [[pvc a] Hd].
  assert (since gone_env e' (Ev _ (ApiDeletePVC pvc) a)) as Hs
    by (exists (log e'); split; [reflexivity|by apply deleted_claim_elem]).
  destruct (claim_deleted_after_pod_gone "dc1" "rack1" true gone_env e' r
    (down_rack StatusFinalizing ["cassandra-demo-dc1-rack1-2"]) pvc a Hrun eq_refl Hs) as (_ & name & _ & H1 & H2).
  exists r, e', pvc, a. split; [exact Hrun|]. split; [exact Hs|]. by exists name.
Defined.

Definition todo_env : Env FakeCluster := down_env true "NORMAL" StatusToDo [].
Lemma decommission_one_node_witness :
  ∃ r e', ensureDecommission "dc1" "rack1" true todo_env = Ret (r, e') ∧ length (tasks e') = 1 ∧
    ∃ pod jc v4, tasks e' = [Decommission jc v4] ∧ jc_host jc = PodHostname pod ∧ alive pod = true.
Proof.
  destruct (observe_Some (λ _ e', length (tasks e')) (ensureDecommission "dc1" "rack1" true) todo_env 1)
    as (r & e' & Hrun & Hlen); [vm_compute; reflexivity|].
  exists r, e'. split; [exact Hrun|]. split; [exact Hlen|].
  destruct (decommission_one_node "dc1" "rack1" true todo_env e' r (down_rack StatusToDo []) Hrun eq_refl)
    as [Ht|(_ & pod & jc & v4 & rs' & Ht & Hjc & _ & Ha & _)].
  - rewrite Ht in Hlen. discriminate Hlen.
  - exists pod, jc, v4. split; [exact Ht|]. split; [exact Hjc|exact Ha].
Defined.

End instances.
