(* ===== verification/PodOperations.v ===== *)
(** * Operations on pods (src/controllers/cassandracluster/pod_operation.go)

    Cleanup, rebuild, upgradesstables and remove run in goroutines on pods that
    carry the labels operation-name and operation-status=ToDo.  The reconcile loop
    starts them, the goroutines put their results into the channel
    [chanRunningOp], and a later loop finalises them. *)
From S2P Require Import Prelude KubeObjects Types ClusterApi K8sUtil Server Pods NodeOperations.
From S2P Require Import FakeCluster StorageUpsize StatefulSets ClusterPods Status Decommission.

(** [net.ParseIP] for addresses without a colon, which a label value cannot hold:
    four decimal numbers below 256 without leading zeros. *)
Definition octet (l : list ascii) : bool :=
  match l with
  | [] => false
  | c :: rest =>
      forallb is_digit l && bool_decide (length l ≤ 3) && bool_decide (digits_value l ≤ 255)%Z &&
      negb (bool_decide (c = "0"%char) && bool_decide (rest ≠ []))
  end.
Definition ParseIP (s : string) : bool :=
  let fields := split_chars "."%char (chars s) in
  bool_decide (length fields = 4) && forallb octet fields.

Section operations.
Context {QL : QuantityLib} {CfgCodec : ConfigCodec} {W : Type} {Srv : ApiServer W}.

(** ** Starting operations *)

(** The loop's status is written to the resource; errors are ignored here. *)
Definition saveStatus : M W unit := _ ← updateCassandraStatus; mret tt.

(** The pods a listing gave that run and are not being deleted. *)
Definition initOperation (dcName rackName operationName : string) : M W (list Pod) :=
  cc ← get_cc;
  let k := GetDCRackName dcName rackName in
  '(podsList, err) ← ListPods (cc_Namespace cc)
     (MergeLabels [LabelsForCassandraDCRack cc dcName rackName;
                   {[ "operation-name" := operationName; "operation-status" := StatusToDo ]}]);
  now ← call Now;
  rs ← rack_status k;
  let p := rs_PodLastOperation rs in
  if bool_decide (err ≠ None) || bool_decide (length podsList < 1) then
    _ ← (if (po_Name p == operationName) && (po_Status p == StatusOngoing) &&
            bool_decide (length (elems (po_Pods p)) < 1) then
           _ ← set_podop k (λ p, p <| po_Status := StatusDone |> <| po_EndTime := Some now |>);
           saveStatus
         else mret tt);
    mret []
  else
    _ ← (if po_Status p != StatusOngoing then
           _ ← set_podop k (λ p, p <| po_Name := operationName |> <| po_Status := StatusOngoing |>
                 <| po_StartTime := Some now |> <| po_EndTime := None |>
                 <| po_PodsOK := Some [] |> <| po_PodsKO := Some [] |> <| po_Pods := Some [] |>);
           saveStatus
         else mret tt);
    mret (List.filter alive podsList).

Definition startOperation (pod : Pod) (dcRackName : string) : M W (option error) :=
  now ← call Now;
  err ← UpdatePodLabel pod {[ "operation-status" := StatusOngoing; "operation-start" := LabelTime now;
                              "operation-end" := "" ]};
  match err with
  | Some e => mret (Some e)
  | None =>
      _ ← set_podop dcRackName (λ p, p
            <| po_Pods ::= λ l, Some (elems l ++ [pod_Name pod]) |>
            <| po_PodsOK ::= fmap (λ l, RemoveString l (pod_Name pod)) |>
            <| po_PodsKO ::= fmap (λ l, RemoveString l (pod_Name pod)) |>);
      _ ← saveStatus;
      mret None
  end.

(** The pods of the interrupted operation that are still there. *)
Fixpoint pods_by_name (ns : string) (names : list string) : M W (list Pod) :=
  match names with
  | [] => mret []
  | name :: names =>
      '(p, err) ← GetPod ns name;
      l ← pods_by_name ns names;
      mret (if bool_decide (err ≠ None) || negb (alive p) then l else p :: l)
  end.

(** [podLastOperation] is passed by value: the new operator name is stored in the
    copy only. *)
Definition podsSlice (p : PodLastOperation) (dcRackName operationName operatorName : string)
  : M W (list Pod * bool) :=
  cc ← get_cc;
  if (po_Name p == operationName) && (po_Status p == StatusOngoing) &&
     (po_OperatorName p != "") && (po_OperatorName p != operatorName)
  then l ← pods_by_name (cc_Namespace cc) (elems (po_Pods p)); mret (l, true)
  else
    '(dcName, rackName) ← lift (GetDCNameAndRackNameFromDCRackName dcRackName);
    l ← initOperation dcName rackName operationName;
    mret (l, false).

Definition getPodsToWorkOn (dcName rackName operationName : string) : M W (list Pod * bool) :=
  let k := GetDCRackName dcName rackName in
  operatorName ← call (Getenv "POD_NAME");
  if operatorName == "" then mret ([], false)
  else
    rs ← rack_status k;
    '(pods, checkOnly) ← podsSlice (rs_PodLastOperation rs) k operationName operatorName;
    _ ← (if checkOnly : bool then
           _ ← (if bool_decide (length pods = 0) then
                  now ← call Now;
                  set_podop k (λ p, p <| po_Status := StatusDone |> <| po_EndTime := Some now |>)
                else mret tt);
           saveStatus
         else mret tt);
    mret (pods, checkOnly).

Definition ensureOperation (dcName rackName operationName : string) : M W unit :=
  let k := GetDCRackName dcName rackName in
  '(pods, checkOnly) ← getPodsToWorkOn dcName rackName operationName;
  range_do pods (λ pod,
    let hostName := PodHostname pod in
    if checkOnly : bool then spawn (MonitorOperation hostName k pod operationName)
    else
      name ← call (Getenv "POD_NAME");
      _ ← set_podop k (λ p, p <| po_OperatorName := name |>);
      err ← startOperation pod k;
      match err with
      | Some _ => mret tt
      | None => spawn (RunOperation operationName hostName k pod)
      end).

(** ** Finalising operations *)
Definition updatePodLastOperation (podName : string) (err : option error) (p : PodLastOperation) : PodLastOperation :=
  (match err with
   | Some _ => p <| po_PodsKO ::= λ l, Some (elems l ++ [podName]) |>
   | None => p <| po_PodsOK ::= λ l, Some (elems l ++ [podName]) |>
   end) <| po_Pods ::= fmap (λ l, RemoveString l podName) |>.

(** The loop retries until both writes succeed; [false] stands for a loop that has
    not ended within the fuel. *)
Fixpoint finalize_loop (fuel : nat) (pod : Pod) (labels : gmap string string) (ccRefreshed : CassandraCluster)
  : M W bool :=
  match fuel with
  | 0 => mret false
  | S fuel =>
      err ← UpdatePodLabel pod labels;
      match err with
      | Some _ => finalize_loop fuel pod labels ccRefreshed
      | None =>
          cc ← get_cc;
          '(ccRefreshed, err) ← writeStatus ccRefreshed (cc_Status cc);
          match err with
          | None => mret true
          | Some _ =>
              r ← call (ApiGetCC (cc_Namespace cc) (cc_Name cc));
              finalize_loop fuel pod labels (match r with Ok cc => cc | Err _ => ccRefreshed end)
          end
      end
  end.

(** [status] is the status inside [rcc.cc] here, not the copy of the loop. *)
Definition finalizeOperation (fuel : nat) (op : finalizedOp) : M W bool :=
  now ← call Now;
  let labels := {[ "operation-status" := match fo_err op with None => StatusDone | Some _ => StatusError end;
                   "operation-end" := LabelTime now ]} in
  cc ← get_cc;
  _ ← lift (deref (s_RackStatus (cc_Status cc) !! fo_dcRackName op));
  _ ← modify_cc (λ cc, cc <| cc_Status ::=
        on_podop (fo_dcRackName op) (updatePodLastOperation (pod_Name (fo_pod op)) (fo_err op)) |>);
  finalize_loop fuel (fo_pod op) labels cc.

(** [for chanOp := 0; chanOp < len(chanRunningOp); chanOp++]: the length is read
    again in every round, and every round takes one operation out. *)
Fixpoint finalizeOperations_from (rounds fuel chanOp : nat) : M W bool :=
  match rounds with
  | 0 => mret true
  | S rounds =>
      q ← gets chanRunningOp;
      match q with
      | op :: q' =>
          if bool_decide (chanOp < length q) then
            _ ← modify (λ e : Env W, e <| chanRunningOp := q' |>);
            ended ← finalizeOperation fuel op;
            if ended : bool then finalizeOperations_from rounds fuel (S chanOp) else mret false
          else mret true
      | [] => mret true
      end
  end.
Definition finalizeOperations (fuel : nat) : M W bool :=
  q ← gets chanRunningOp; finalizeOperations_from (length q) fuel 0.

(** ** The operations themselves *)
Definition runUpgradeSSTables (hostName : string) (cc : CassandraCluster) (pod : Pod) : M W (option error) :=
  r ← NewJolokiaClient hostName (ImageJolokiaSecret (cc_Spec cc)) (cc_Namespace cc);
  match r with Err e => mret (Some e) | Ok jolokiaClient => NodeUpgradeSSTables jolokiaClient 0 end.

(** The error of [NewJolokiaClient] is dropped: the first use of the nil client
    panics. *)
Definition runRebuild (hostName : string) (cc : CassandraCluster) (pod : Pod) : M W (option error) :=
  r ← NewJolokiaClient hostName (ImageJolokiaSecret (cc_Spec cc)) (cc_Namespace cc);
  match pod_Labels pod !! "operation-argument" with
  | None => mret (Some (OtherError "operation-argument is needed to get the datacenter name to rebuild from"))
  | Some rebuildFrom =>
      match r with
      | Err _ => panic
      | Ok jolokiaClient =>
          ks ← NonLocalKeyspacesInDC jolokiaClient rebuildFrom;
          match ks with
          | Err e => mret (Some e)
          | Ok [] => mret (Some (OtherError (rebuildFrom +:+ "  has no keyspace to replicate data from")))
          | Ok _ => NodeRebuild jolokiaClient rebuildFrom
          end
      end
  end.

Definition runCleanup (hostName : string) (cc : CassandraCluster) (pod : Pod) : M W (option error) :=
  r ← NewJolokiaClient hostName (ImageJolokiaSecret (cc_Spec cc)) (cc_Namespace cc);
  match r with
  | Err e => mret (Some e)
  | Ok jolokiaClient => NodeCleanup jolokiaClient (KeyspaceCleanupThreads (cc_Spec cc))
  end.

(** [Name][_IP] *)
Definition podToRemove (label : string) : string := default "" (Split label "_"%char !! 0).
Definition podIPToRemove (label : string) : string :=
  match Split label "_"%char with [_; ip] => ip | _ => "" end.

(** The address of the node to remove: the given one, or that of the pod. *)
Definition addressToRemove (ns label : string) : M W (result string) :=
  let name := podToRemove label in
  let ip := podIPToRemove label in
  if name == "" then mret (Ok ip)
  else
    '(lostPod, err) ← GetPod ns name;
    mret match err with
         | Some e =>
             if negb (IsNotFound e) then Err (OtherError "failed to get pod")
             else if ip == "" then Err (OtherError "pod not found. You need to provide its old IP")
             else Ok ip
         | None =>
             if ip == "" then
               if pod_PodIP lostPod == "" then Err (OtherError "can't find an IP assigned to pod") else Ok (pod_PodIP lostPod)
             else Ok ip
         end.

Definition runRemove (hostName : string) (cc : CassandraCluster) (pod : Pod) : M W (option error) :=
  match pod_Labels pod !! "operation-argument" with
  | None => mret (Some (OtherError "operation-argument is needed to get the pod name to remove from the cluster"))
  | Some label =>
      if (podToRemove label == "") && (podIPToRemove label == "") then
        mret (Some (OtherError "expected format is [Name][_IP] with at least one value but none was found"))
      else if (podIPToRemove label != "") && negb (ParseIP (podIPToRemove label)) then
        mret (Some (OtherError "not an IP address"))
      else
        r ← addressToRemove (cc_Namespace cc) label;
        match r with
        | Err e => mret (Some e)
        | Ok ip =>
            r ← NewJolokiaClient hostName (ImageJolokiaSecret (cc_Spec cc)) (cc_Namespace cc);
            match r with
            | Err e => mret (Some e)
            | Ok jolokiaClient =>
                m ← hostIDMap jolokiaClient;
                match m with
                | Err e => mret (Some e)
                | Ok m =>
                    match m !! ip with
                    | None => mret (Some (OtherError "host not found in hostIdMap"))
                    | Some hostID => NodeRemove jolokiaClient hostID
                    end
                end
            end
        end
  end.

(** [wait.Poll(1s, 30s, ...)]: at most thirty readings; the caller drops the
    error of a timeout. *)
Fixpoint waitUntilPvcIsDeleted (polls : nat) (ns pvcName : string) : M W (option error) :=
  match polls with
  | 0 => mret (Some (OtherError "timed out waiting for the condition"))
  | S polls =>
      '(_, err) ← GetPVC ns pvcName;
      match err with
      | Some NotFound => mret None
      | _ => waitUntilPvcIsDeleted polls ns pvcName
      end
  end.
Definition deletedPvcPolls : nat := 30.

Definition postRunRemove (cc : CassandraCluster) (pod : Pod) : M W (option error) :=
  match pod_Labels pod !! "operation-argument" with
  | None => mret (Some (OtherError "operation-argument is needed to get the pod name to remove from the cluster"))
  | Some label =>
      let name := podToRemove label in
      if name == "" then mret None
      else
        '(pvc, err) ← GetPVC (cc_Namespace cc) ("data-" +:+ name);
        stop ← match err with
               | Some _ => mret None
               | None =>
                   err ← deletePVC pvc;
                   match err with
                   | Some e =>
                       if negb (IsNotFound e) then mret (Some e)
                       else _ ← waitUntilPvcIsDeleted deletedPvcPolls (cc_Namespace cc) ("data-" +:+ name); mret None
                   | None =>
                       _ ← waitUntilPvcIsDeleted deletedPvcPolls (cc_Namespace cc) ("data-" +:+ name); mret None
                   end
               end;
        match stop with
        | Some e => mret (Some e)
        | None =>
            '(lostPod, err) ← GetPod (cc_Namespace cc) name;
            match err with
            | Some e => if negb (IsNotFound e) then mret (Some (OtherError "failed to get pod"))
                        else ForceDeletePod lostPod
            | None => ForceDeletePod lostPod
            end
        end
  end.

(** [podOperationMap] *)
Record op := mkOp {
  Action : string → CassandraCluster → Pod → M W (option error);
  Monitor : JolokiaClient → M W (bool * option error);
  PostAction : option (CassandraCluster → Pod → M W (option error)) }.
Definition podOperationMap (name : string) : option op :=
  if name == OperationCleanup then Some (mkOp runCleanup hasCleanupCompactions None)
  else if name == OperationRebuild then Some (mkOp runRebuild hasStreamingSessions None)
  else if name == OperationUpgradeSSTables then Some (mkOp runUpgradeSSTables hasUpgradeSSTablesCompactions None)
  else if name == OperationRemove then Some (mkOp runRemove hasLeavingNodes (Some postRunRemove))
  else None.

(** A map is iterated in an unspecified order; with this one every key is reached
    by some answer of [rand.Intn]. *)
Definition podOperationKeys : list string :=
  [OperationCleanup; OperationRebuild; OperationUpgradeSSTables; OperationRemove].
Definition randomPodOperationKey : M W string :=
  r ← call (RandIntn (Z.of_nat (length podOperationKeys)));
  mret (if bool_decide (r < 0)%Z then "" else default "" (podOperationKeys !! Z.to_nat r)).

(** [chanRunningOp <- op]: a send that has to wait for room has not happened yet. *)
Definition send (op : finalizedOp) : M W unit := modify (λ e : Env W, e <| chanRunningOp ::= λ q, q ++ [op] |>).

Definition postAction (o : op) (cc : CassandraCluster) (pod : Pod) : M W (option error) :=
  match PostAction o with Some f => f cc pod | None => mret None end.

Definition runOperation (cc : CassandraCluster) (operationName hostName dcRackName : string) (pod : Pod) : M W unit :=
  o ← lift (deref (podOperationMap operationName));
  err ← Action o hostName cc pod;
  err ← match err with Some e => mret (Some e) | None => postAction o cc pod end;
  send (mkFinalizedOp err dcRackName pod operationName).

(** The polls of the monitoring goroutine, until the node answers that the
    operation is over; [false] stands for a loop that goes on. *)
Fixpoint monitor_loop (fuel : nat) (o : op) (cc : CassandraCluster) (hostName : string) : M W bool :=
  match fuel with
  | 0 => mret false
  | S fuel =>
      r ← NewJolokiaClient hostName (ImageJolokiaSecret (cc_Spec cc)) (cc_Namespace cc);
      match r with
      | Err _ => monitor_loop fuel o cc hostName
      | Ok jolokiaClient =>
          '(running, err) ← Monitor o jolokiaClient;
          if bool_decide (err ≠ None) || running then monitor_loop fuel o cc hostName else mret true
      end
  end.
Definition monitorOperation (fuel : nat) (cc : CassandraCluster) (hostName dcRackName : string) (pod : Pod)
    (operationName : string) : M W unit :=
  o ← lift (deref (podOperationMap operationName));
  ended ← monitor_loop fuel o cc hostName;
  if ended : bool then
    err ← postAction o cc pod; send (mkFinalizedOp err dcRackName pod operationName)
  else mret tt.

(** A goroutine, with the resource it was started with. *)
Definition run_task (fuel : nat) (cc : CassandraCluster) (t : Task) : M W unit :=
  match t with
  | RunOperation operationName hostName dcRackName pod => runOperation cc operationName hostName dcRackName pod
  | MonitorOperation hostName dcRackName pod operationName => monitorOperation fuel cc hostName dcRackName pod operationName
  | Decommission client v4 => _ ← NodeDecommission client v4; mret tt
  end.

(** ** handlePodOperation *)

(** [None] is a finalisation that does not end within the fuel. *)
Definition handlePodOperation (fuel : nat) (dcName rackName : string) (statefulsetIsReady : bool)
  : M W (option (bool * option error)) :=
  cc ← get_cc;
  let k := GetDCRackName dcName rackName in
  rs ← rack_status k;
  if weAreScalingDown rs then
    r ← ensureDecommission dcName rackName statefulsetIsReady; mret (Some r)
  else
    '(joining, err) ← hasJoiningNodes cc;
    match err with
    | Some e => mret (Some (breakResyncLoop, Some e))
    | None =>
        if joining : bool then mret (Some (true, None))
        else
          st ← get_status;
          if s_LastClusterActionStatus st == StatusDone then
            ended ← finalizeOperations fuel;
            if ended : bool then
              key ← randomPodOperationKey;
              _ ← ensureOperation dcName rackName key;
              mret (Some (false, None))
            else mret None
          else mret (Some (false, None))
    end.
End operations.


(** ** Lemmas: what the procedures leave alone *)
Section frames.
Context {QL : QuantityLib} {CfgCodec : ConfigCodec} {W : Type} {Srv : ApiServer W}.
Implicit Types e : Env W.

Lemma quiet_same {T} (proj : Env W → T) P {A} (m : M W A) :
  (∀ e e', quiet P e e' → proj e' = proj e) → keeps (quiet P) m → keeps (same proj) m.
Proof. intros HP Hm. exact (keeps_mono _ _ _ HP Hm). Qed.

Lemma UpdatePodLabel_chan pod labels : keeps (same chanRunningOp) (UpdatePodLabel (W:=W) pod labels).
Proof. eapply quiet_same; [|apply UpdatePodLabel_quiet]. by intros ? ? (?&?&?&?&?&?&?&?). Qed.
Lemma writeStatus_chan cc st : keeps (same chanRunningOp) (writeStatus (W:=W) cc st).
Proof.
  unfold writeStatus. keeps_steps; try (by apply keeps_call); by apply keeps_modify.
Qed.
Lemma finalize_loop_chan fuel pod labels cc : keeps (same chanRunningOp) (finalize_loop (W:=W) fuel pod labels cc).
Proof.
  revert cc. induction fuel as [|fuel IH]; intros cc; cbn [finalize_loop]; keeps_steps;
    auto using UpdatePodLabel_chan, writeStatus_chan; by apply keeps_call.
Qed.
Lemma finalizeOperation_chan fuel op : keeps (same chanRunningOp) (finalizeOperation (W:=W) fuel op).
Proof.
  unfold finalizeOperation. keeps_steps; auto using finalize_loop_chan; [by apply keeps_call|by apply keeps_modify].
Qed.

Lemma half_step (n i : nat) : i < S n → (S n + 1 - i) / 2 = S ((n + 1 - S i) / 2).
Proof.
  intros Hi. replace (S n + 1 - i) with ((n + 1 - S i) + 1 * 2) by lia. rewrite Nat.div_add by lia. lia.
Qed.

Lemma finalize_from rounds fuel i e :
  length (chanRunningOp e) ≤ rounds →
  wp (finalizeOperations_from rounds fuel i) (λ ended e', ended = true →
    chanRunningOp e' = drop ((length (chanRunningOp e) + 1 - i) / 2) (chanRunningOp e)) e.
Proof.
  revert i e. induction rounds as [|rounds IH]; intros i e Hlen; cbn [finalizeOperations_from].
  { apply wp_ret. intros _. destruct (chanRunningOp e); [by rewrite drop_nil|simpl in Hlen; lia]. }
  apply wp_bind, wp_gets. destruct (chanRunningOp e) as [|op q] eqn:Hq.
  { apply wp_ret. intros _. by rewrite Hq, drop_nil. }
  cbn [length] in *. case_bool_decide as Hi.
  - apply wp_bind, wp_modify, wp_bind. eapply wp_keeps; [apply finalizeOperation_chan|].
    intros ended e1 Hsame. unfold same in Hsame. cbn in Hsame. destruct ended; [|by apply wp_ret].
    eapply wp_mono; [apply IH; rewrite Hsame; lia|]. intros b e' H Hb.
    rewrite H, Hsame, half_step by done. done.
  - apply wp_ret. intros _. rewrite Hq, Nat.div_small by lia. done.
Qed.

(** The pod was given the labels. *)
Definition labelled e e' (pod : Pod) (labels : gmap string string) : Prop :=
  ∃ stored p, since e e' (Ev _ (ApiGetPod (m_Namespace (pod_Meta pod)) (pod_Name pod)) (Ok stored)) ∧
    since e e' (Ev _ (ApiUpdatePod p) None) ∧ p = with_labels (MergeLabels [pod_Labels stored; labels]) stored.

Lemma labelled_mono P P' e e1 e2 e3 pod labels :
  logs P e e1 → logs P' e2 e3 → labelled e1 e2 pod labels → labelled e e3 pod labels.
Proof.
  intros Hl Hr (stored & p & H1 & H2 & H3). exists stored, p.
  split; [eapply since_logs_l; [exact Hl|]; by eapply since_logs_r|].
  split; [eapply since_logs_l; [exact Hl|]; by eapply since_logs_r|done].
Qed.

Lemma MergeLabels_r a b (k v : string) : b !! k = Some v → MergeLabels [a; b] !! k = Some v.
Proof. intros H. unfold MergeLabels. simpl. by apply lookup_union_Some_l. Qed.

Lemma labelled_labels e e' pod labels :
  labelled e e' pod labels →
  ∃ p, since e e' (Ev _ (ApiUpdatePod p) None) ∧ ∀ k v, labels !! k = Some v → pod_Labels p !! k = Some v.
Proof.
  intros (stored & p & _ & Hs & ->). eexists. split; [exact Hs|]. intros k v Hk. by apply MergeLabels_r.
Qed.

Lemma wp_UpdatePodLabel pod labels Q e :
  (∀ err e1, quiet labels_only e e1 → (err = None → labelled e e1 pod labels) → Q err e1) →
  wp (UpdatePodLabel pod labels) Q e.
Proof.
  intros HQ. unfold UpdatePodLabel. apply wp_bind, wp_GetPod. intros r e1 Hq1 Hget.
  assert (quiet labels_only e e1) as Hq1' by (eapply quiet_mono; [apply read_only_labels_only|done]).
  destruct r as [stored|err]; cbn [got]; [|by apply wp_ret, HQ].
  unfold UpdatePod. apply wp_bind, wp_call. intros a w. apply wp_ret, HQ.
  { etrans; [exact Hq1'|]. repeat split. by apply logs_call. }
  intros Ha. destruct a as [err|]; [cbn in Ha; by destruct (negb _)|].
  exists stored, (with_labels (MergeLabels [pod_Labels stored; labels]) stored).
  split; [eapply (since_logs_r (λ _, True)); [by apply logs_call|exact Hget]|]. split; [|done].
  eapply since_logs_l; [apply quiet_logs, Hq1|]. apply since_call.
Qed.

(** Writing the status of the resource touches the resource only. *)
Lemma writeStatus_post cc st e :
  wp (writeStatus cc st) (λ _ e', logs resource_only e e' ∧ rcc_cc e' = rcc_cc e ∧ status e' = status e ∧
    tasks e' = tasks e ∧ chanRunningOp e' = chanRunningOp e) e.
Proof.
  unfold writeStatus. cbv zeta. apply wp_bind, wp_gets. destruct (_ && _).
  { apply wp_ret. split; [by apply logs_same|done]. }
  apply wp_bind, wp_modify, wp_bind, wp_call. intros r w. apply wp_bind, wp_call. intros r' w'. apply wp_ret.
  destruct r'; (split; [|done]); eexists; (split; [cbn; rewrite <- (assoc_L (++)); reflexivity|]); by repeat constructor.
Qed.

Definition anything (ev : Event) : Prop := True.

Lemma logs_anything P e e' : logs P e e' → logs anything e e'.
Proof. by apply logs_mono. Qed.

Lemma finalize_loop_post fuel pod labels cc e :
  wp (finalize_loop fuel pod labels cc) (λ ended e', rcc_cc e' = rcc_cc e ∧ status e' = status e ∧ logs anything e e' ∧
    (ended = true → labelled e e' pod labels)) e.
Proof.
  revert cc e. induction fuel as [|fuel IH]; intros cc e; cbn [finalize_loop].
  { apply wp_ret. split; [done|]. split; [done|]. split; [by apply logs_same|done]. }
  apply wp_bind, wp_UpdatePodLabel. intros err e1 (Hl1 & Hcc1 & Hst1 & _) Hlab.
  assert (∀ ended e', rcc_cc e' = rcc_cc e1 ∧ status e' = status e1 ∧ logs anything e1 e' ∧
    (ended = true → labelled e1 e' pod labels ∨ err = None) →
    rcc_cc e' = rcc_cc e ∧ status e' = status e ∧ logs anything e e' ∧ (ended = true → labelled e e' pod labels)) as Hcomb.
  { intros ended e' (H1 & H2 & H3 & H4). split; [congruence|]. split; [congruence|].
    split; [etrans; [by eapply logs_anything|done]|]. intros Hend. destruct (H4 Hend) as [H|H].
    - eapply (labelled_mono labels_only anything); [exact Hl1|by apply logs_same|exact H].
    - eapply (labelled_mono anything anything _ e); [by apply logs_same|exact H3|by apply Hlab]. }
  destruct err as [err|].
  { eapply wp_mono; [apply IH|]. intros ended e' (?&?&?&?). apply Hcomb. auto 10. }
  apply wp_bind, wp_gets, wp_bind. eapply wp_mono; [apply writeStatus_post|].
  intros [cc2 err2] e2 (Hl2 & Hcc2 & Hst2 & _). apply logs_anything in Hl2. destruct err2 as [err2|].
  - apply wp_bind, wp_call. intros r w. eapply wp_mono; [apply IH|]. intros ended e' (H1 & H2 & H3 & H4). apply Hcomb.
    split; [rewrite H1; exact Hcc2|]. split; [rewrite H2; exact Hst2|]. split; [|by right].
    etrans; [exact Hl2|]. etrans; [|exact H3]. by apply logs_call.
  - apply wp_ret, Hcomb. auto 10.
Qed.
End frames.


(** ** Lemmas: starting operations *)
Section starting.
Context {QL : QuantityLib} {CfgCodec : ConfigCodec} {W : Type} {Srv : ApiServer W}.
Implicit Types e : Env W.

(** The pods of the rack that ask for the operation. *)
Definition operation_selector (cc : CassandraCluster) (dcName rackName operationName : string) : gmap string string :=
  MergeLabels [LabelsForCassandraDCRack cc dcName rackName;
               {[ "operation-name" := operationName; "operation-status" := StatusToDo ]}].

Definition asks_for e e' (cc : CassandraCluster) (dcName rackName operationName : string) (pod : Pod) : Prop :=
  alive pod = true ∧
  ∃ pods, since e e' (Ev _ (ApiListPods (cc_Namespace cc) (operation_selector cc dcName rackName operationName)) (Ok pods)) ∧
          pod ∈ pods.

(** Nothing was started, and the entry of the rack is still there. *)
Definition no_task (k : string) e e' : Prop :=
  logs anything e e' ∧ tasks e' = tasks e ∧
  (is_Some (s_RackStatus (status e) !! k) → is_Some (s_RackStatus (status e') !! k)) ∧
  (∀ k', k' ≠ k → s_RackStatus (status e') !! k' = s_RackStatus (status e) !! k').
#[global] Instance no_task_preorder k : PreOrder (no_task k).
Proof.
  split; [intros e; split; [by apply logs_same|auto]|].
  intros e1 e2 e3 (L1 & T1 & I1 & F1) (L2 & T2 & I2 & F2). split; [by etrans|]. split; [congruence|]. split; [auto|].
  intros k' Hk. by rewrite F2, F1.
Qed.

Lemma quiet_no_task P k e e' : quiet P e e' → no_task k e e'.
Proof.
  intros (L & _ & Hst & _ & _ & Ht & _). split; [by eapply logs_anything|]. split; [done|]. rewrite Hst. auto.
Qed.
Lemma keeps_no_task P k {A} (m : M W A) : keeps (quiet P) m → keeps (no_task k) m.
Proof. intros Hm. exact (keeps_mono _ _ _ (quiet_no_task P k) Hm). Qed.
Lemma no_task_call k {A} (r : Req A) : keeps (no_task k) (call r).
Proof. apply (keeps_no_task anything). by apply keeps_quiet_call. Qed.
Lemma no_task_podop k f : keeps (no_task k) (set_podop k f).
Proof.
  apply keeps_set_rack. intros e. split; [by apply logs_same|]. split; [done|]. split.
  - intros [r Hr]. eexists. by apply on_rack_lookup.
  - intros k' Hk. by apply on_rack_lookup_ne.
Qed.
Lemma no_task_save k : keeps (no_task k) saveStatus.
Proof.
  unfold saveStatus. keeps_steps. intros e. eapply wp_mono; [apply updateCassandraStatus_post|].
  intros _ e' (Hl & Hst & Ht). split; [by eapply logs_anything|]. split; [done|]. rewrite Hst. auto.
Qed.
End starting.
#[export] Hint Resolve no_task_call no_task_podop no_task_save : keeps.
#[export] Hint Extern 9 (keeps (no_task _) _) => apply (keeps_no_task read_only); solve [eauto with keeps] : keeps.

Section tasks.
Context {QL : QuantityLib} {CfgCodec : ConfigCodec} {W : Type} {Srv : ApiServer W}.
Implicit Types e : Env W.

Lemma initOperation_frame dcName rackName operationName :
  keeps (no_task (GetDCRackName dcName rackName)) (initOperation (W:=W) dcName rackName operationName).
Proof. unfold initOperation. keeps_steps. Qed.

Lemma initOperation_pods dcName rackName operationName e :
  wp (initOperation dcName rackName operationName) (λ pods e',
    ∀ pod, pod ∈ pods → asks_for e e' (rcc_cc e) dcName rackName operationName pod) e.
Proof.
  unfold initOperation. apply wp_bind, wp_gets. unfold ListPods. apply wp_bind, wp_bind, wp_call. intros r w. apply wp_ret.
  set (e1 := e <| world := w |> <| log ::= _ |>).
  assert (∀ (l : list Pod) e', logs anything e1 e' → (∀ pod, pod ∈ l → alive pod = true ∧ ∃ pods, r = Ok pods ∧ pod ∈ pods) →
    ∀ pod, pod ∈ l → asks_for e e' (rcc_cc e) dcName rackName operationName pod) as Hasks.
  { intros l e' Hl Hin pod Hpod. destruct (Hin pod Hpod) as (Ha & pods & -> & Hp). split; [done|]. exists pods.
    split; [|done]. eapply since_logs_r; [exact Hl|]. apply since_call. }
  destruct (got [] r) as [podsList err] eqn:Hgot.
  apply wp_bind, wp_call. intros now w'. apply wp_bind, wp_rack_status. intros rs _.
  set (e2 := e1 <| world := w' |> <| log ::= _ |>).
  assert (logs anything e1 e2) as Hl2 by by apply logs_call.
  set (k := GetDCRackName dcName rackName).
  assert (∀ (b : bool) f (l : list Pod), (∀ pod, pod ∈ l → alive pod = true ∧ ∃ pods, r = Ok pods ∧ pod ∈ pods) →
    wp (_ ← (if b then _ ← set_podop k f; saveStatus else mret tt); mret l) (λ pods e',
      ∀ pod, pod ∈ pods → asks_for e e' (rcc_cc e) dcName rackName operationName pod) e2) as Hend.
  { intros b f l Hin. apply wp_bind. eapply (wp_keeps (no_task k)); [keeps_steps|]. intros _ e3 (Hl3 & _).
    apply wp_ret. apply Hasks; [by etrans|done]. }
  destruct (_ || _) eqn:Hempty.
  - apply Hend. intros pod Hpod. by apply elem_of_nil in Hpod.
  - apply Hend. intros pod Hpod. apply list_elem_of_In, List.filter_In in Hpod as [Hin Ha]. split; [done|].
    apply orb_false_iff in Hempty as [Herr%bool_decide_eq_false _]. apply dec_stable in Herr as ->.
    destruct r as [pods|]; simplify_eq/=. exists podsList. split; [done|]. by apply list_elem_of_In.
Qed.

Lemma pods_by_name_quiet ns names : keeps (quiet read_only) (pods_by_name (W:=W) ns names).
Proof. induction names as [|name names IH]; simpl; keeps_steps; exact IH. Qed.

(** A pod of the interrupted operation, read again. *)
Definition resumed e e' (cc : CassandraCluster) (rs : CassandraRackStatus) (pod : Pod) : Prop :=
  alive pod = true ∧ ∃ name, name ∈ elems (po_Pods (rs_PodLastOperation rs)) ∧
    since e e' (Ev _ (ApiGetPod (cc_Namespace cc) name) (Ok pod)).

Lemma pods_by_name_resumed ns names e :
  wp (pods_by_name ns names) (λ pods e', ∀ pod, pod ∈ pods → alive pod = true ∧ ∃ name, name ∈ names ∧
    since e e' (Ev _ (ApiGetPod ns name) (Ok pod))) e.
Proof.
  revert e. induction names as [|name names IH]; intros e; cbn [pods_by_name].
  { apply wp_ret. intros pod Hpod. by apply elem_of_nil in Hpod. }
  apply wp_bind, wp_GetPod. intros r e1 Hq1 Hget. destruct (got _ r) as [p err] eqn:Hgot.
  apply wp_bind. eapply wp_mono; [apply wp_and; [apply IH|apply pods_by_name_quiet]|].
  intros l e2 [Hl Hq2]. apply wp_ret. intros pod Hpod.
  assert (pod ∈ l → alive pod = true ∧ ∃ name0, name0 ∈ name :: names ∧
    since e e2 (Ev _ (ApiGetPod ns name0) (Ok pod))) as Hrest.
  { intros Hin. destruct (Hl pod Hin) as (Ha & name' & ? & Hs). split; [done|]. exists name'. split; [by right|].
    eapply since_logs_l; [apply quiet_logs, Hq1|exact Hs]. }
  destruct (_ || _) eqn:Hskip; [by apply Hrest|]. apply elem_of_cons in Hpod as [->|Hin]; [|by apply Hrest].
  apply orb_false_iff in Hskip as [Herr%bool_decide_eq_false Halive%negb_false_iff]. apply dec_stable in Herr as ->.
  destruct r as [pod'|]; simplify_eq/=. split; [done|]. exists name. split; [by left|].
  eapply since_logs_r; [apply quiet_logs, Hq2|exact Hget].
Qed.

(** A task that [ensureOperation] starts. *)
Definition task_ok e e' (dcName rackName operationName : string) (rs rs' : CassandraRackStatus) (t : Task) : Prop :=
  match t with
  | RunOperation op host k pod =>
      op = operationName ∧ k = GetDCRackName dcName rackName ∧ host = PodHostname pod ∧
      asks_for e e' (rcc_cc e) dcName rackName operationName pod ∧
      pod_Name pod ∈ elems (po_Pods (rs_PodLastOperation rs')) ∧
      ∃ p, since e e' (Ev _ (ApiUpdatePod p) None) ∧ pod_Labels p !! "operation-status" = Some StatusOngoing
  | MonitorOperation host k pod op =>
      op = operationName ∧ k = GetDCRackName dcName rackName ∧ host = PodHostname pod ∧
      resumed e e' (rcc_cc e) rs pod
  | Decommission _ _ => False
  end.

(** The state of the loop: the tasks so far are justified in the final state. *)
Definition tasks_ok e (dcName rackName operationName : string) (rs : CassandraRackStatus) e' : Prop :=
  ∃ ts rs', tasks e' = tasks e ++ ts ∧ logs anything e e' ∧
    s_RackStatus (status e') !! GetDCRackName dcName rackName = Some rs' ∧
    Forall (task_ok e e' dcName rackName operationName rs rs') ts.

Lemma asks_for_mono P e e1 e2 cc dcName rackName operationName pod :
  logs P e1 e2 → asks_for e e1 cc dcName rackName operationName pod → asks_for e e2 cc dcName rackName operationName pod.
Proof. intros Hl (Ha & pods & Hs & Hin). split; [done|]. exists pods. split; [by eapply since_logs_r|done]. Qed.

(** Recorded pods stay recorded, and evidence is kept. *)
Lemma task_ok_mono P e e1 e2 dcName rackName operationName rs rs1 rs2 t :
  logs P e1 e2 → (∀ x, x ∈ elems (po_Pods (rs_PodLastOperation rs1)) → x ∈ elems (po_Pods (rs_PodLastOperation rs2))) →
  task_ok e e1 dcName rackName operationName rs rs1 t → task_ok e e2 dcName rackName operationName rs rs2 t.
Proof.
  intros Hl Hpods. destruct t as [op host k pod|host k pod op|]; simpl; [..|done].
  - intros (? & ? & ? & Ha & Hin & p & Hs & ?). split; [done|]. split; [done|]. split; [done|].
    split; [by eapply asks_for_mono|]. split; [auto|]. exists p. split; [by eapply since_logs_r|done].
  - intros (? & ? & ? & Ha & name & Hin & Hs). split; [done|]. split; [done|]. split; [done|]. split; [done|].
    exists name. split; [done|]. by eapply since_logs_r.
Qed.

(** Adding one task. *)
Lemma tasks_ok_spawn e e1 dcName rackName operationName rs ts rs' t :
  tasks e1 = tasks e ++ ts → logs anything e e1 →
  s_RackStatus (status e1) !! GetDCRackName dcName rackName = Some rs' →
  Forall (task_ok e e1 dcName rackName operationName rs rs') ts →
  task_ok e e1 dcName rackName operationName rs rs' t →
  tasks_ok e dcName rackName operationName rs (e1 <| tasks ::= λ l, l ++ [t] |>).
Proof.
  intros Ht Hl Hrs Hts Hnew. exists (ts ++ [t]), rs'. cbn. rewrite Ht, <- (assoc_L (++)).
  split; [done|]. split; [exact Hl|]. split; [exact Hrs|].
  apply Forall_app. split; [exact Hts|]. constructor; [exact Hnew|constructor].
Qed.

Lemma startOperation_post pod k e rs :
  s_RackStatus (status e) !! k = Some rs →
  wp (startOperation pod k) (λ err e', logs anything e e' ∧ tasks e' = tasks e ∧ ∃ rs',
    s_RackStatus (status e') !! k = Some rs' ∧
    (∀ x, x ∈ elems (po_Pods (rs_PodLastOperation rs)) → x ∈ elems (po_Pods (rs_PodLastOperation rs'))) ∧
    (err = None → pod_Name pod ∈ elems (po_Pods (rs_PodLastOperation rs')) ∧
       ∃ p, since e e' (Ev _ (ApiUpdatePod p) None) ∧ pod_Labels p !! "operation-status" = Some StatusOngoing)) e.
Proof.
  intros Hrs. unfold startOperation. apply wp_bind, wp_call. intros now w. set (e1 := e <| world := w |> <| log ::= _ |>).
  assert (logs anything e e1) as Hl1 by by apply logs_call.
  apply wp_bind, wp_UpdatePodLabel. intros err e2 (Hl2 & _ & Hst2 & _ & _ & Ht2 & _) Hlab. apply logs_anything in Hl2.
  destruct err as [err|].
  { apply wp_ret. split; [by etrans|]. split; [done|]. exists rs. rewrite Hst2.
    split; [exact Hrs|]. split; [auto|discriminate]. }
  apply wp_bind, wp_set_rack. intros r _. unfold saveStatus. apply wp_bind, wp_bind.
  eapply wp_mono; [apply updateCassandraStatus_post|]. intros err e3 (Hl3 & Hst3 & Ht3). apply logs_anything in Hl3.
  do 2 apply wp_ret. split; [etrans; [exact Hl1|]; by etrans|]. split; [rewrite Ht3; exact Ht2|].
  eexists. rewrite Hst3. split; [apply on_rack_lookup; rewrite Hst2; exact Hrs|]. cbn. split.
  { intros x Hx. apply elem_of_app. by left. }
  intros _. split; [apply elem_of_app; right; by left|].
  destruct (labelled_labels _ _ _ _ (Hlab eq_refl)) as (p & Hs & Hlabels). exists p.
  split; [|by apply Hlabels]. eapply since_logs_l; [exact Hl1|]. by eapply since_logs_r.
Qed.

Lemma getPodsToWorkOn_post dcName rackName operationName e rs :
  GetDCNameAndRackNameFromDCRackName (GetDCRackName dcName rackName) = Ret (dcName, rackName) →
  s_RackStatus (status e) !! GetDCRackName dcName rackName = Some rs →
  wp (getPodsToWorkOn dcName rackName operationName) (λ r e', no_task (GetDCRackName dcName rackName) e e' ∧
    ∀ pod, pod ∈ r.1 → if r.2 then resumed e e' (rcc_cc e) rs pod
                       else asks_for e e' (rcc_cc e) dcName rackName operationName pod) e.
Proof.
  intros Hsplit Hrs. set (k := GetDCRackName dcName rackName) in *. unfold getPodsToWorkOn, podsSlice. fold k.
  apply wp_bind, wp_call. intros name w. set (e1 := e <| world := w |> <| log ::= _ |>).
  assert (no_task k e e1) as Hn1 by (apply (quiet_no_task anything); repeat split; by apply logs_call).
  case_bool_decide; [apply wp_ret; split; [done|]; intros pod Hpod; by apply elem_of_nil in Hpod|].
  apply wp_bind, wp_rack_status. change (status e1) with (status e). rewrite Hrs. intros ? [= <-].
  apply wp_bind, wp_bind, wp_gets. change (rcc_cc e1) with (rcc_cc e).
  destruct (_ && _).
  - apply wp_bind. eapply wp_mono; [apply wp_and; [apply pods_by_name_resumed|apply pods_by_name_quiet]|].
    intros pods e2 [Hpods Hq2]. apply wp_ret, wp_bind. eapply (wp_keeps (no_task k)); [keeps_steps|]. intros _ e3 Hn3.
    pose proof (quiet_no_task _ k _ _ Hq2) as Hn2. apply wp_ret. split; [etrans; [exact Hn1|]; by etrans|].
    intros pod Hpod. destruct (Hpods pod Hpod) as (Ha & nm & Hin & Hs). split; [done|]. exists nm. split; [done|].
    eapply since_logs_l; [apply Hn1|]. eapply since_logs_r; [apply Hn3|exact Hs].
  - apply wp_bind, wp_lift. rewrite Hsplit. intros ? [= <-]. apply wp_bind.
    eapply wp_mono; [apply wp_and; [apply initOperation_pods|apply initOperation_frame]|].
    intros pods e2 [Hpods Hn2]. apply wp_ret, wp_bind, wp_ret, wp_ret. split; [by etrans|].
    intros pod Hpod. destruct (Hpods pod Hpod) as (Ha & l & Hs & Hin). split; [done|]. exists l. split; [|done].
    eapply since_logs_l; [apply Hn1|exact Hs].
Qed.

Lemma ensureOperation_tasks dcName rackName operationName e rs :
  GetDCNameAndRackNameFromDCRackName (GetDCRackName dcName rackName) = Ret (dcName, rackName) →
  s_RackStatus (status e) !! GetDCRackName dcName rackName = Some rs →
  wp (ensureOperation dcName rackName operationName) (λ _ e', tasks_ok e dcName rackName operationName rs e') e.
Proof.
  intros Hsplit Hrs. unfold ensureOperation. apply wp_bind. eapply wp_mono; [by apply getPodsToWorkOn_post|].
  intros [pods checkOnly] e1 [(Hl1 & Ht1 & Hsome & _) Hpods]. cbn [fst snd] in Hpods.
  apply wp_range_do with (I := λ s, logs anything e1 s ∧ tasks_ok e dcName rackName operationName rs s).
  - split; [by apply logs_same|]. destruct (Hsome (ex_intro _ _ Hrs)) as [rs' Hrs'].
    exists [], rs'. rewrite app_nil_r. auto.
  - intros pod s Hin [Hl1s (ts & rs' & Ht & Hl & Hrs' & Hts)]. specialize (Hpods pod Hin).
    destruct checkOnly; unfold spawn.
    + apply wp_modify. split; [etrans; [exact Hl1s|]; by apply logs_same|].
      eapply tasks_ok_spawn; [done..|]. split; [done|]. split; [done|]. split; [done|].
      destruct Hpods as (Ha & nm & Hnm & Hs). split; [done|]. exists nm. split; [done|].
      eapply since_logs_r; [exact Hl1s|exact Hs].
    + apply wp_bind, wp_call. intros name w. apply wp_bind, wp_set_rack. intros r _. apply wp_bind.
      eapply wp_mono; [apply startOperation_post; apply on_rack_lookup; exact Hrs'|].
      intros err s1 (Hls1 & Hts1 & rs1 & Hrs1 & Hmono & Hok).
      assert (logs anything s s1) as Hls by (etrans; [|exact Hls1]; by apply logs_call).
      assert (Forall (task_ok e s1 dcName rackName operationName rs rs1) ts) as Hts'.
      { eapply Forall_impl; [exact Hts|]. intros t. apply (task_ok_mono anything); [exact Hls|exact Hmono]. }
      destruct err as [err|]; [apply wp_ret|apply wp_modify].
      * split; [by etrans|]. exists ts, rs1. split; [rewrite Hts1; exact Ht|]. split; [by etrans|]. done.
      * split; [etrans; [by etrans|by apply logs_same]|]. destruct (Hok eq_refl) as (Hrec & p & Hs & Hlab).
        eapply tasks_ok_spawn; [rewrite Hts1; exact Ht|by etrans|exact Hrs1|exact Hts'|].
        split; [done|]. split; [done|]. split; [done|].
        split; [eapply (asks_for_mono anything); [|exact Hpods]; by etrans|]. split; [done|]. exists p.
        split; [|done]. eapply since_logs_l; [|exact Hs]. etrans; [exact Hl|].
        eexists. split; [reflexivity|by repeat constructor].
  - intros s [_ H]. exact H.
Qed.
End tasks.

(** ** Theorems *)
Section theorems.
Context {QL : QuantityLib} {CfgCodec : ConfigCodec} {W : Type} {Srv : ApiServer W}.
Implicit Types e : Env W.

(** C35: a pod operation is started only where it was asked for and never twice
    unrecorded: every goroutine [ensureOperation] starts is either a run of the
    operation on a live pod of the rack that was listed with the labels
    operation-name and operation-status=ToDo, after the pod was relabelled Ongoing and
    its name was added to the rack's PodLastOperation.Pods, or a monitor of a pod that
    was recorded there by an earlier operator. *)
Theorem operations_started_on_request (dcName rackName operationName : string) (e e' : Env W)
    (rs : CassandraRackStatus)
    (Hrun : ensureOperation dcName rackName operationName e = Ret (tt, e'))
    (Hnames : GetDCNameAndRackNameFromDCRackName (GetDCRackName dcName rackName) = Ret (dcName, rackName))
    (Hrs : s_RackStatus (status e) !! GetDCRackName dcName rackName = Some rs) :
  ∃ ts rs', tasks e' = tasks e ++ ts ∧
    s_RackStatus (status e') !! GetDCRackName dcName rackName = Some rs' ∧
    Forall (task_ok e e' dcName rackName operationName rs rs') ts.
Proof.
  destruct (wp_run _ _ _ _ _ (ensureOperation_tasks dcName rackName operationName e rs Hnames Hrs) Hrun)
    as (ts & rs' & Ht & _ & Hrs' & Hts). eauto.
Qed.

(** [finalizeOperations] takes only the first half (rounded up) of the finished
    operations out of the channel: the loop compares its counter with a length that
    shrinks with every round.  The rest waits for the following loops. *)
Theorem finalize_takes_half (fuel : nat) (e e' : Env W)
    (Hrun : finalizeOperations fuel e = Ret (true, e')) :
  chanRunningOp e' = drop ((length (chanRunningOp e) + 1) / 2) (chanRunningOp e).
Proof.
  assert (wp (finalizeOperations fuel) (λ ended e', ended = true →
    chanRunningOp e' = drop ((length (chanRunningOp e) + 1) / 2) (chanRunningOp e)) e) as Hwp.
  { unfold finalizeOperations. apply wp_bind, wp_gets. eapply wp_mono; [by apply finalize_from|].
    intros b e1 H Hb. by rewrite (H Hb), Nat.sub_0_r. }
  exact (wp_run _ _ _ _ _ Hwp Hrun eq_refl).
Qed.

(** Finalising an operation moves its pod, in the status that is written, from the
    pods being worked on to PodsOK (or PodsKO when the operation failed), and labels
    the pod Done (or Error). *)
Theorem finalize_moves_pod (fuel : nat) (op : finalizedOp) (e e' : Env W) (rs : CassandraRackStatus)
    (Hrun : finalizeOperation fuel op e = Ret (true, e'))
    (Hrs : s_RackStatus (cc_Status (rcc_cc e)) !! fo_dcRackName op = Some rs)
    (Hpods : NoDup (elems (po_Pods (rs_PodLastOperation rs)))) :
  let state := match fo_err op with None => StatusDone | Some _ => StatusError end in
  (∃ rs', s_RackStatus (cc_Status (rcc_cc e')) !! fo_dcRackName op = Some rs' ∧
     (∀ x, x ∈ elems (po_Pods (rs_PodLastOperation rs')) ↔
           x ∈ elems (po_Pods (rs_PodLastOperation rs)) ∧ x ≠ pod_Name (fo_pod op)) ∧
     match fo_err op with
     | None => elems (po_PodsOK (rs_PodLastOperation rs')) =
               elems (po_PodsOK (rs_PodLastOperation rs)) ++ [pod_Name (fo_pod op)] ∧
               po_PodsKO (rs_PodLastOperation rs') = po_PodsKO (rs_PodLastOperation rs)
     | Some _ => elems (po_PodsKO (rs_PodLastOperation rs')) =
                 elems (po_PodsKO (rs_PodLastOperation rs)) ++ [pod_Name (fo_pod op)] ∧
                 po_PodsOK (rs_PodLastOperation rs') = po_PodsOK (rs_PodLastOperation rs)
     end) ∧
  ∃ p, since e e' (Ev _ (ApiUpdatePod p) None) ∧ pod_Labels p !! "operation-status" = Some state.
Proof.
  assert (wp (finalizeOperation fuel op) (λ ended e', ended = true →
    (∃ rs', s_RackStatus (cc_Status (rcc_cc e')) !! fo_dcRackName op = Some rs' ∧
       rs' = rs <| rs_PodLastOperation ::= updatePodLastOperation (pod_Name (fo_pod op)) (fo_err op) |>) ∧
    ∃ p, since e e' (Ev _ (ApiUpdatePod p) None) ∧
      pod_Labels p !! "operation-status" = Some match fo_err op with None => StatusDone | Some _ => StatusError end) e) as Hwp.
  { unfold finalizeOperation. apply wp_bind, wp_call. intros now w. apply wp_bind, wp_gets, wp_bind, wp_lift. intros r _.
    apply wp_bind, wp_modify. eapply wp_mono; [apply finalize_loop_post|].
    intros ended e1 (Hcc & _ & Hl & Hlab) Hend. split.
    - eexists. rewrite Hcc. split; [apply on_rack_lookup; exact Hrs|done].
    - destruct (labelled_labels _ _ _ _ (Hlab Hend)) as (p & Hs & Hp). exists p. split; [|by apply Hp].
      eapply (since_logs_l anything); [|exact Hs]. eexists. split; [reflexivity|by repeat constructor]. }
  destruct (wp_run _ _ _ _ _ Hwp Hrun eq_refl) as [(rs' & Hrs' & ->) Hp]. intros state. split; [|exact Hp].
  eexists. split; [exact Hrs'|]. cbn. destruct (rs_PodLastOperation rs) as [? ? ? ? pods ok ko ?]. cbn in Hpods |- *.
  destruct (fo_err op); cbn; (split; [|done]); intros x; (destruct pods; cbn in *; [by apply RemoveString_elem|]);
    rewrite elem_of_nil; naive_solver.
Qed.

(** No pod operation is finalised or started while a node joins the cluster, or
    while it is unknown whether one does: [handlePodOperation] ends the loop without
    writing anything. *)
Theorem no_operation_while_joining (fuel : nat) (dcName rackName : string) (ready : bool) (e e1 : Env W)
    (joining : bool) (err : option error) (rs : CassandraRackStatus)
    (Hrs : s_RackStatus (status e) !! GetDCRackName dcName rackName = Some rs)
    (Hdown : weAreScalingDown rs = false)
    (Hask : hasJoiningNodes (rcc_cc e) e = Ret ((joining, err), e1))
    (Hjoin : joining = true ∨ err ≠ None) :
  handlePodOperation fuel dcName rackName ready e = Ret (Some (breakResyncLoop, err), e1) ∧ quiet read_only e e1.
Proof.
  split; [|exact (wp_run _ _ _ _ _ (hasJoiningNodes_quiet (rcc_cc e) e) Hask)].
  unfold handlePodOperation, rack_status, get_cc, get_status, mbind, GoM_bind, gets, lift. rewrite Hrs. cbn.
  rewrite Hdown, Hask. destruct err; [done|]. by destruct Hjoin as [-> | ?].
Qed.

(** Every operation that runs reports exactly once, with the pod it ran on; the
    post action runs only if the action succeeded, and its error is the one that is
    reported then. *)
Theorem operation_reports_once (cc : CassandraCluster) (operationName hostName dcRackName : string) (pod : Pod)
    (e e' : Env W) (o : op (W:=W))
    (Ho : podOperationMap operationName = Some o)
    (Hrun : runOperation cc operationName hostName dcRackName pod e = Ret (tt, e')) :
  ∃ r err e1 e2, Action o hostName cc pod e = Ret (r, e1) ∧
    match r with
    | Some _ => err = r ∧ e2 = e1
    | None => postAction o cc pod e1 = Ret (err, e2)
    end ∧
    e' = e2 <| chanRunningOp ::= λ q, q ++ [mkFinalizedOp err dcRackName pod operationName] |>.
Proof.
  unfold runOperation, mbind, GoM_bind, lift in Hrun. rewrite Ho in Hrun. cbn in Hrun.
  destruct (Action o hostName cc pod e) as [[r e1]|] eqn:Ea; [|discriminate Hrun].
  destruct r as [er|].
  - cbn in Hrun. injection Hrun as <-. exists (Some er), (Some er), e1, e1. auto.
  - destruct (postAction o cc pod e1) as [[err e2]|] eqn:Ep; [|discriminate Hrun].
    cbn in Hrun. injection Hrun as <-. exists None, err, e1, e2. auto.
Qed.
End theorems.

(** ** Instances *)
Section instances.
#[local] Existing Instance SampleQuantities.
#[local] Existing Instance demo_config.

Definition asking (name : string) : Pod :=
  with_labels (MergeLabels [demo_labels; {[ "operation-name" := OperationCleanup; "operation-status" := StatusToDo ]}])
    (ready_pod name).
Definition working_rack (pods : list string) : CassandraRackStatus :=
  mkRackStatus (Name ClusterPhaseRunning) (mkLastAction StatusDone (Name ActionScaleUp) None None [])
    (PodLastOperation_zero <| po_Name := OperationCleanup |> <| po_Status := StatusOngoing |> <| po_Pods := Some pods |>) "".
Definition working_cc (pods : list string) : CassandraCluster :=
  upsize_cc <| cc_Status ::= λ s, s <| s_RackStatus := {[ "dc1-rack1" := working_rack pods ]} |>
                                    <| s_LastClusterActionStatus := StatusDone |> |>.
Definition working_env (pods : list string) : Env FakeCluster :=
  start (empty_cluster <| f_pods := list_to_map ((λ n, (n, asking n)) <$> ["c-0"; "c-1"]) |>
           <| f_cc := Some (working_cc pods) |> <| f_jolokia := {[ "JoiningNodes" := JList [JString "10.0.0.9"] ]} |>)
    (working_cc pods).

(** Both pods are worked on, and both are recorded. *)
Example operations_demo :
  observe (λ _ e', (length (tasks e'), (λ rs, po_Pods (rs_PodLastOperation rs)) <$>
                      s_RackStatus (status e') !! "dc1-rack1"))
    (ensureOperation "dc1" "rack1" OperationCleanup) (working_env []) = Some (2, Some (Some ["c-1"; "c-0"])).
Proof. vm_compute. reflexivity. Qed.

Lemma operations_started_on_request_witness :
  ∃ e' ts rs', ensureOperation "dc1" "rack1" OperationCleanup (working_env []) = Ret (tt, e') ∧ length ts = 2 ∧
    Forall (task_ok (working_env []) e' "dc1" "rack1" OperationCleanup (working_rack []) rs') ts.
Proof.
  destruct (observe_Some (λ _ e', length (tasks e')) (ensureOperation "dc1" "rack1" OperationCleanup) (working_env []) 2)
    as ([] & e' & Hrun & Hlen); [vm_compute; reflexivity|].
  destruct (operations_started_on_request "dc1" "rack1" OperationCleanup (working_env []) e' (working_rack []) Hrun
    eq_refl eq_refl) as (ts & rs' & Ht & _ & Hts).
  exists e', ts, rs'. split; [exact Hrun|]. split; [|exact Hts]. rewrite Ht in Hlen. exact Hlen.
Defined.

Definition finished (err : option error) (name : string) : finalizedOp :=
  mkFinalizedOp err "dc1-rack1" (ready_pod name) OperationCleanup.
Definition queued : Env FakeCluster :=
  (working_env ["c-0"; "c-1"]) <| chanRunningOp := [finished None "c-0"; finished None "c-1"; finished None "c-1"] |>.

Lemma finalize_takes_half_witness :
  ∃ e', finalizeOperations 3 queued = Ret (true, e') ∧ chanRunningOp e' = [finished None "c-1"].
Proof.
  destruct (observe_Some (λ b _, b) (finalizeOperations 3) queued true) as (b & e' & Hrun & Hb);
    [vm_compute; reflexivity|]. cbn in Hb. subst b.
  exists e'. split; [exact Hrun|]. exact (finalize_takes_half 3 queued e' Hrun).
Defined.

Lemma finalize_moves_pod_witness :
  ∃ e' rs', finalizeOperation 3 (finished None "c-0") (working_env ["c-0"; "c-1"]) = Ret (true, e') ∧
    s_RackStatus (cc_Status (rcc_cc e')) !! "dc1-rack1" = Some rs' ∧
    elems (po_PodsOK (rs_PodLastOperation rs')) = ["c-0"].
Proof.
  destruct (observe_Some (λ b _, b) (finalizeOperation 3 (finished None "c-0")) (working_env ["c-0"; "c-1"]) true)
    as (b & e' & Hrun & Hb); [vm_compute; reflexivity|]. cbn in Hb. subst b.
  destruct (finalize_moves_pod 3 (finished None "c-0") (working_env ["c-0"; "c-1"]) e' (working_rack ["c-0"; "c-1"])
    Hrun eq_refl) as ((rs' & Hrs' & _ & Hok & _) & _).
  { apply (bool_decide_unpack _). vm_compute. exact I. }
  exists e', rs'. split; [exact Hrun|]. split; [exact Hrs'|exact Hok].
Defined.

Lemma no_operation_while_joining_witness :
  ∃ e1, handlePodOperation 3 "dc1" "rack1" true (working_env []) = Ret (Some (breakResyncLoop, None), e1) ∧
    quiet read_only (working_env []) e1.
Proof.
  destruct (observe_Some (λ r _, r) (hasJoiningNodes (working_cc [])) (working_env []) (true, None))
    as ([j err] & e1 & Hask & Hr); [vm_compute; reflexivity|]. injection Hr as -> ->.
  exists e1. exact (no_operation_while_joining 3 "dc1" "rack1" true (working_env []) e1 true None (working_rack [])
    eq_refl eq_refl Hask (or_introl eq_refl)).
Defined.

Lemma operation_reports_once_witness :
  ∃ e' err e2, runOperation (working_cc []) OperationCleanup "c-0.demo" "dc1-rack1" (asking "c-0") (working_env []) = Ret (tt, e') ∧
    e' = e2 <| chanRunningOp ::= λ q, q ++ [mkFinalizedOp err "dc1-rack1" (asking "c-0") OperationCleanup] |>.
Proof.
  destruct (observe_Some (λ _ _, tt) (runOperation (working_cc []) OperationCleanup "c-0.demo" "dc1-rack1" (asking "c-0"))
    (working_env []) tt) as ([] & e' & Hrun & _); [vm_compute; reflexivity|].
  destruct (operation_reports_once (working_cc []) OperationCleanup "c-0.demo" "dc1-rack1" (asking "c-0") (working_env [])
    e' _ eq_refl Hrun) as (r & err & e1 & e2 & _ & _ & He).
  exists e', err, e2. split; [exact Hrun|exact He].
Defined.

(** The rack name is split at its dashes again: a dash in a name, which only the
    schema of the resource excludes, makes the loop look up another rack, and the nil
    pointer panics. *)
Definition dash_env : Env FakeCluster :=
  (working_env []) <| status ::= λ s, s <| s_RackStatus := {[ "dc-a-rack1" := working_rack [] ]} |> |>.
Example dash_in_names_panics :
  GetDCRackName "dc-a" "rack1" = "dc-a-rack1" ∧
  observe (λ _ _, tt) (ensureOperation "dc-a" "rack1" OperationCleanup) dash_env = None.
Proof. vm_compute. auto. Qed.

(** The pod that is removed is gone already, its old address is given: the node is
    removed from the ring, but the post action deletes the missing pod and the
    operation is reported as failed. *)
Definition removing : Pod :=
  with_labels (<["operation-argument" := "c-9_10.0.0.9"]> demo_labels) (ready_pod "c-0").
Definition remove_env : Env FakeCluster :=
  start (empty_cluster <| f_jolokia := {[ "HostIdMap" := JMap [("10.0.0.9", JString "id9")] ]} |>) (working_cc []).
Example remove_of_missing_pod_fails :
  observe (λ r _, r) (runRemove "c-0.demo" (working_cc []) removing) remove_env = Some None ∧
  observe (λ _ e', bool_decide (fo_err <$> head (chanRunningOp e') = Some None))
    (runOperation (working_cc []) OperationRemove "c-0.demo" "dc1-rack1" removing) remove_env = Some false.
Proof. vm_compute. auto. Qed.
End instances.
