(* ===== verification/ScaleDown.v ===== *)
(** * A node leaves the cluster

    [Decommission] shows that nothing is removed too early, whatever the API server and
    the agents answer.  Here they cooperate: the node leaves the ring some time after it
    was asked to, and Kubernetes removes its pod once the statefulset is scaled down.
    Then the decommission comes to its end: the request goes out once, the loop is held
    until the node left, the statefulset is released once, and the claim of the pod is
    deleted. *)
From S2P Require Import Prelude KubeObjects Types ClusterApi K8sUtil Server Pods NodeOperations.
From S2P Require Import FakeCluster StorageUpsize StatefulSets ClusterPods Status Decommission PodOperations.

Section leave.
Context {QL : QuantityLib} {CfgCodec : ConfigCodec} {W : Type} {Srv : ApiServer W}.
Context (cc : CassandraCluster) (dcName rackName : string) (pod : Pod) (K : nat) (kube : W → W).
Abbreviation ns := (cc_Namespace cc).
Abbreviation key := (GetDCRackName dcName rackName).

(** The node: in the ring, leaving it for so many more questions, or removed with its
    pod *)
Inductive node := InRing | Leaving (k : nat) | Removed.

(** [I w s]: the world [w] has the node in state [s].  [K] is the number of questions it
    takes to leave, [kube] what Kubernetes does after the statefulset was scaled down. *)
Record node_cooperates (I : W → node → Prop) : Prop := {
  nc_alive : alive pod = true;
  nc_named : pod_Name pod ≠ "";
  nc_now w s : I w s → ∃ now w', serve Now w = (now, w') ∧ I w' s;
  nc_secret w s name : I w s → ∃ data w', serve (ApiGetSecret ns name) w = (Ok data, w') ∧ I w' s;
  nc_list w : I w InRing → ∃ pods w',
    serve (ApiListPods ns (LabelsForCassandraDCRack cc dcName rackName)) w = (Ok pods, w') ∧
    GetLastOrFirstPod pods true = Ok pod ∧ I w' InRing;
  nc_get w s : I w s → ∃ r w', serve (ApiGetPod ns (pod_Name pod)) w = (r, w') ∧ I w' s ∧
    match s with Removed => r = Err NotFound | _ => ∃ p, r = Ok p ∧ PodHostname p = PodHostname pod end;
  (** the labels of the pod, in the name space the pod says *)
  nc_label w : I w InRing → ∃ r w', serve (ApiGetPod (m_Namespace (pod_Meta pod)) (pod_Name pod)) w = (r, w') ∧ I w' InRing;
  nc_relabel w p : I w InRing → ∃ a w', serve (ApiUpdatePod p) w = (a, w') ∧ I w' InRing;
  nc_mode w s jc : I w s → s ≠ Removed → jc_host jc = PodHostname pod → ∃ resp w',
    serve (JolokiaRead jc StorageService "OperationMode") w = (Ok resp, w') ∧ jr_Error resp = "" ∧
    match s with
    | Leaving (S k) => as_string (jr_Value resp) = LEAVING ∧ I w' (Leaving k)
    | Leaving 0 => leftRing (as_string (jr_Value resp)) = true ∧ I w' (Leaving 0)
    | _ => as_string (jr_Value resp) = NORMAL ∧ I w' s
    end;
  nc_decommission w jc args : I w InRing → jc_host jc = PodHostname pod → ∃ r w',
    serve (JolokiaExec jc StorageService "decommission" args) w = (r, w') ∧ I w' (Leaving K);
  nc_write w s c : I w s → ∃ r w', serve (ApiUpdateCC c) w = (r, w') ∧ I w' s;
  nc_write_status w s c : I w s → ∃ rv w', serve (ApiUpdateCCStatus c) w = (Ok rv, w') ∧ I w' s;
  nc_removed w : I w (Leaving 0) → I (kube w) Removed;
  nc_claim w : I w Removed → ∃ pvc w', serve (ApiGetPVC ns ("data-" +:+ pod_Name pod)) w = (Ok pvc, w') ∧ I w' Removed;
  nc_delete w pvc : I w Removed → ∃ a w', serve (ApiDeletePVC pvc) w = (a, w') ∧ I w' Removed;
}.

Context {I : W → node → Prop}.
Hypothesis Hco : node_cooperates I.
Implicit Types (e : Env W) (s : node) (rs : CassandraRackStatus).

(** The state in which the loop finds things *)
Record here (s : node) (rs : CassandraRackStatus) (e : Env W) : Prop := {
  h_world : I (world e) s;
  h_ns : cc_Namespace (rcc_cc e) = ns;
  h_rack : s_RackStatus (status e) !! key = Some rs }.

Definition asked (s : node) e e1 : Prop := quiet (λ _, True) e e1 ∧ I (world e1) s.
Lemma here_asked s s' rs e e1 : here s rs e → asked s' e e1 → here s' rs e1.
Proof. intros [_ H2 H3] [(_ & Hc & Hst & _) HI]. split; [done|by rewrite Hc|by rewrite Hst]. Qed.
Lemma asked_trans s s' e e1 e2 : asked s e e1 → asked s' e1 e2 → asked s' e e2.
Proof. intros [H1 _] [H2 HI]. split; [by etrans|done]. Qed.

Lemma total_NewJolokiaClient host secret s e :
  I (world e) s → total (NewJolokiaClient host secret ns) (λ r e1, asked s e e1 ∧ ∃ jc, r = Ok jc ∧ jc_host jc = host) e.
Proof.
  intros HI. unfold NewJolokiaClient. destruct (negb _).
  - apply total_bind. destruct (nc_secret _ Hco _ _ secret HI) as (data & w' & Hs & HI'). eapply total_call; [exact Hs|].
    intros e1 Hq Hw _. apply total_ret. split; [split; [done|by rewrite Hw]|]. by eexists.
  - apply total_ret. split; [by split|]. by eexists.
Qed.

Lemma total_mode jc s e :
  I (world e) s → s ≠ Removed → jc_host jc = PodHostname pod →
  total (NodeOperationMode jc) (λ r e1, ∃ mode, r = (mode, None) ∧
    match s with
    | Leaving (S k) => mode = LEAVING ∧ asked (Leaving k) e e1
    | Leaving 0 => leftRing mode = true ∧ asked (Leaving 0) e e1
    | _ => mode = NORMAL ∧ asked s e e1
    end) e.
Proof.
  intros HI Hs Hh. destruct (nc_mode _ Hco _ _ jc HI Hs Hh) as (resp & w' & Hserve & Herr & Hmode).
  unfold NodeOperationMode, NodeOperations.read. do 2 apply total_bind. eapply total_call; [exact Hserve|].
  intros e1 Hq Hw _. apply total_ret, total_ret. cbn. rewrite Herr. cbn. eexists. split; [reflexivity|].
  unfold asked. rewrite Hw. destruct s as [|[]|]; by destruct Hmode.
Qed.

(** ** The runs *)
Abbreviation run ready := (ensureDecommission dcName rackName ready).

Definition to_do rs : Prop := po_Name (rs_PodLastOperation rs) = OperationDecommission ∧
  (po_Status (rs_PodLastOperation rs) = StatusToDo ∨ po_Status (rs_PodLastOperation rs) = StatusContinue).
(** The operation on the pod, in a state *)
Definition on_pod (state : string) rs : Prop := po_Name (rs_PodLastOperation rs) = OperationDecommission ∧
  po_Status (rs_PodLastOperation rs) = state ∧ po_Pods (rs_PodLastOperation rs) = Some [pod_Name pod].

Definition only_entry (rs' : CassandraRackStatus) e e' : Prop :=
  s_RackStatus (status e') = <[key := rs']> (s_RackStatus (status e)).

(** Which step is taken *)
Lemma total_run ready rs Q e :
  s_RackStatus (status e) !! key = Some rs → po_Name (rs_PodLastOperation rs) = OperationDecommission →
  total (let state := po_Status (rs_PodLastOperation rs) in
    if (state == StatusToDo) || (state == StatusContinue) then ensureDecommissionToDo dcName rackName
    else if state == StatusFinalizing then ensureDecommissionFinalizing dcName rackName ready
    else if state == StatusOngoing then ensureDecommissionOngoing dcName rackName
    else if state == StatusDone then ensureDecommissionDone dcName rackName
    else mret (continueResyncLoop, None)) Q e → total (run ready) Q e.
Proof.
  intros Hrs Hname H. unfold ensureDecommission. apply total_bind. eapply total_rack_status; [exact Hrs|]. cbv zeta.
  rewrite Hname, bool_decide_true by done. exact H.
Qed.

(** The first run asks the node to leave. *)
Lemma run_to_do ready rs e :
  here InRing rs e → rcc_cc e = cc → to_do rs →
  total (run ready) (λ r e1, r = (breakResyncLoop, None) ∧ rcc_cc e1 = cc ∧
    ∃ jc v4 rs1, tasks e1 = tasks e ++ [Decommission jc v4] ∧ jc_host jc = PodHostname pod ∧
      here InRing rs1 e1 ∧ on_pod StatusOngoing rs1 ∧ only_entry rs1 e e1) e.
Proof.
  intros Hh Hcc [Hname Hstate]. destruct Hh as [HI Hns Hrs]. eapply total_run; [exact Hrs|exact Hname|]. cbv zeta.
  replace (_ || _) with true by (destruct Hstate as [-> | ->]; done).
  unfold ensureDecommissionToDo. apply total_bind, total_gets. rewrite Hcc. apply total_bind.
  eapply total_rack_status; [exact Hrs|]. unfold GetLastPod, ListPods. do 3 apply total_bind.
  destruct (nc_list _ Hco _ HI) as (pods & w1 & Hs1 & Hlast & HI1). eapply total_call; [exact Hs1|]. intros e1 Hq1 Hw1 _.
  apply total_ret. cbn [got]. apply total_ret. rewrite Hlast. pose proof (nc_alive _ Hco) as Halive.
  assert (asked InRing e e1) as Ha1 by (split; [done|by rewrite Hw1]).
  apply total_bind. eapply (total_lift _ false).
  { unfold pendingUnschedulable. apply andb_true_iff in Halive as [->%bool_decide_eq_true _]. done. }
  rewrite Halive. cbn [negb]. apply total_bind.
  eapply total_mono; [apply (total_NewJolokiaClient _ _ InRing), Ha1|]. cbv beta. intros r e2 (Ha2 & jc & -> & Hjc).
  apply total_bind. eapply total_mono; [apply (total_mode jc InRing); [apply Ha2|done|done]|]. cbv beta.
  intros r e3 (mode & -> & -> & Ha3). cbn [leftRing orb bool_decide decide]. 
  destruct (nc_now _ Hco _ _ (proj2 Ha3)) as (now & w4 & Hs4 & HI4). apply total_bind. eapply total_call; [exact Hs4|].
  intros e4 Hq4 Hw4 _. assert (asked InRing e e4) as Ha4.
  { eapply asked_trans; [exact Ha1|]. eapply asked_trans; [exact Ha2|]. eapply asked_trans; [exact Ha3|]. split; [done|by rewrite Hw4]. }
  apply total_bind. eapply (total_mono _ (λ _ e5, asked InRing e e5)).
  { unfold UpdatePodLabel, GetPod. do 2 apply total_bind. destruct (nc_label _ Hco _ (proj2 Ha4)) as (r5 & w5 & Hs5 & HI5).
    eapply total_call; [exact Hs5|]. intros e5 Hq5 Hw5 _.
    assert (asked InRing e e5) as Ha5 by (eapply asked_trans; [exact Ha4|]; split; [done|by rewrite Hw5]).
    apply total_ret. destruct r5 as [p|]; cbn [got]; [|by apply total_ret]. unfold UpdatePod. apply total_bind.
    destruct (nc_relabel _ Hco _ (with_labels (MergeLabels [pod_Labels p; {[ "operation-status" := StatusOngoing; "operation-start" := LabelTime now;
                           "operation-name" := OperationDecommission ]}]) p) (proj2 Ha5)) as (a6 & w6 & Hs6 & HI6).
    eapply total_call; [exact Hs6|]. intros e6 Hq6 Hw6 _. apply total_ret. eapply asked_trans; [exact Ha5|]. split; [done|by rewrite Hw6]. }
  cbv beta. intros _ e5 Ha5. destruct (here_asked InRing InRing rs e e5) as [HI5 Hns5 Hrs5]; [by split|done|].
  destruct Ha5 as [(_ & Hcc5 & Hst5 & _ & _ & Ht5 & _) _].
  apply total_bind, total_set_rack; [by eexists|]. apply total_bind. unfold spawn. apply total_modify, total_ret.
  split; [done|]. split; [cbn; by rewrite Hcc5|]. eexists jc, _, _. split; [cbn; by rewrite Ht5|]. split; [done|]. split; [split|].
  - exact HI5.
  - exact Hns5.
  - by apply (on_rack_lookup key _ (status e5)).
  - split; [done|]. unfold only_entry. cbn [status]. etrans; [by apply (on_rack_insert key _ (status e5))|]. by rewrite Hst5.
Qed.

(** The goroutine. *)
Lemma task_leaves fuel jc v4 rs e :
  here InRing rs e → jc_host jc = PodHostname pod →
  total (run_task fuel cc (Decommission jc v4)) (λ _ e1, quiet (λ _, True) e e1 ∧ here (Leaving K) rs e1) e.
Proof.
  intros Hh Hjc. cbn [run_task]. unfold NodeDecommission, executeOperation. do 3 apply total_bind.
  destruct (nc_decommission _ Hco _ jc (if v4 then ["true"] else []) (h_world _ _ _ Hh) Hjc) as (r & w' & Hs & HI).
  eapply total_call; [exact Hs|]. intros e1 Hq Hw _. do 3 apply total_ret. split; [done|].
  eapply here_asked; [exact Hh|]. split; [done|by rewrite Hw].
Qed.

(** The question to the node in state Ongoing *)
Lemma total_Ongoing ready k rs Q e :
  here (Leaving k) rs e → on_pod StatusOngoing rs →
  (∀ mode e1, quiet (λ _, True) e e1 → here (Leaving (pred k)) rs e1 →
     (if k is S _ then mode = LEAVING else leftRing mode = true) →
     total (if mode == NORMAL then
              now ← call Now; _ ← mret tt; mret (breakResyncLoop, None)
            else if leftRing mode then
              _ ← set_podop key (λ p, p <| po_Status := StatusFinalizing |>);
              err ← updateCassandraStatus;
              mret (continueResyncLoop, err)
            else mret (breakResyncLoop, None)) Q e1) →
  total (run ready) Q e.
Proof.
  intros Hh (Hname & Hstate & Hpods) HQ. eapply total_run; [apply Hh|exact Hname|]. cbv zeta. rewrite Hstate.
  cbn [bool_decide decide orb]. unfold ensureDecommissionOngoing. apply total_bind, total_gets. apply total_bind.
  eapply total_rack_status; [apply Hh|]. unfold first_pod. rewrite Hpods. apply total_bind.
  eapply (total_lift _ false). { change (Ret (bool_decide (pod_Name pod = "")) = Ret false). rewrite bool_decide_false; [done|]. apply (nc_named _ Hco). }
  apply total_bind. eapply total_lift; [reflexivity|]. rewrite (h_ns _ _ _ Hh). unfold GetPod. do 2 apply total_bind.
  destruct (nc_get _ Hco _ _ (h_world _ _ _ Hh)) as (r & w1 & Hs1 & HI1 & p & -> & Hhost). eapply total_call; [exact Hs1|].
  intros e1 Hq1 Hw1 _. apply total_ret. cbn [got]. assert (asked (Leaving k) e e1) as Ha1 by (split; [done|by rewrite Hw1]).
  apply total_bind. eapply total_mono; [apply (total_NewJolokiaClient _ _ (Leaving k)), Ha1|]. cbv beta. intros r e2 (Ha2 & jc & -> & Hjc).
  apply total_bind. eapply total_mono; [apply (total_mode jc (Leaving k)); [apply Ha2|done|congruence]|]. cbv beta.
  intros r e3 (mode & -> & Hmode).
  assert ((if k is S _ then mode = LEAVING else leftRing mode = true) ∧ asked (Leaving (pred k)) e2 e3) as [Hm Ha3]
    by (destruct k; by destruct Hmode).
  assert (asked (Leaving (pred k)) e e3) as Ha by (eapply asked_trans; [exact Ha1|]; by eapply asked_trans).
  specialize (HQ mode e3 (proj1 Ha) (here_asked _ _ _ _ _ Hh Ha) Hm).
  assert (bool_decide (mode = NORMAL) = false) as Hn.
  { apply bool_decide_false. intros ->. by destruct k. }
  rewrite Hn in *. exact HQ.
Qed.

(** While the node is leaving the loop is held, and nothing changes. *)
Lemma run_waits ready k rs e :
  here (Leaving (S k)) rs e → on_pod StatusOngoing rs →
  total (run ready) (λ r e1, r = (breakResyncLoop, None) ∧ here (Leaving k) rs e1 ∧ quiet (λ _, True) e e1) e.
Proof.
  intros Hh Hop. eapply total_Ongoing; [exact Hh|exact Hop|]. intros mode e1 Hq Hh1 ->. cbn. by apply total_ret.
Qed.

Lemma total_updateCassandraStatus s e :
  I (world e) s → total updateCassandraStatus (λ err e1, err = None ∧ I (world e1) s ∧ status e1 = status e ∧
    tasks e1 = tasks e ∧ cc_Namespace (rcc_cc e1) = cc_Namespace (rcc_cc e)) e.
Proof.
  intros HI. unfold updateCassandraStatus, writeStatus. apply total_bind, total_gets, total_bind, total_gets. cbv zeta.
  apply total_bind, total_bind, total_gets. destruct (_ && _).
  { apply total_ret, total_bind, total_modify, total_ret. by split_and!. }
  apply total_bind, total_modify, total_bind.
  match goal with |- total (call (ApiUpdateCC ?c)) _ _ => destruct (nc_write _ Hco _ _ c HI) as (r & w1 & Hs1 & HI1) end.
  eapply total_call; [exact Hs1|]. intros e1 (_ & Hcc1 & Hst1 & _ & _ & Ht1 & _) Hw1 _. apply total_bind. rewrite <- Hw1 in HI1.
  match goal with |- total (call (ApiUpdateCCStatus ?c)) _ _ => destruct (nc_write_status _ Hco _ _ c HI1) as (rv & w2 & Hs2 & HI2) end.
  eapply total_call; [exact Hs2|]. intros e2 (_ & Hcc2 & Hst2 & _ & _ & Ht2 & _) Hw2 _. apply total_ret, total_bind, total_modify, total_ret.
  cbn. rewrite Hw2, Hst2, Hst1, Ht2, Ht1. split_and!; [done..|]. by destruct r as [[]|].
Qed.

(** When it left, the statefulset is released. *)
Lemma run_left ready rs e :
  here (Leaving 0) rs e → on_pod StatusOngoing rs →
  total (run ready) (λ r e1, r = (continueResyncLoop, None) ∧ tasks e1 = tasks e ∧
    ∃ rs1, here (Leaving 0) rs1 e1 ∧ on_pod StatusFinalizing rs1 ∧ only_entry rs1 e e1) e.
Proof.
  intros Hh Hop. eapply total_Ongoing; [exact Hh|exact Hop|]. intros mode e1 (_ & Hcc1 & Hst1 & _ & _ & Ht1 & _) [HI1 Hns1 Hrs1] Hleft.
  assert (bool_decide (mode = NORMAL) = false) as -> by (apply bool_decide_false; by intros ->). rewrite Hleft.
  apply total_bind, total_set_rack; [by eexists|]. apply total_bind.
  eapply total_mono; [by apply (total_updateCassandraStatus (Leaving 0))|]. cbv beta. intros err e2 (-> & HI2 & Hst2 & Ht2 & Hns2).
  apply total_ret. split; [done|]. split; [rewrite Ht2; cbn; by rewrite Ht1|]. destruct Hop as (Hn & _ & Hp).
  eexists. split; [split|].
  - exact HI2.
  - by rewrite Hns2.
  - rewrite Hst2. by apply (on_rack_lookup key _ (status e1)).
  - split; [done|]. unfold only_entry. rewrite Hst2. etrans; [by apply (on_rack_insert key _ (status e1))|]. by rewrite Hst1.
Qed.

(** When the pod is gone its claim is deleted. *)
Lemma run_removed ready rs e :
  here Removed rs e → on_pod StatusFinalizing rs →
  total (run ready) (λ r e1, r = (breakResyncLoop, None) ∧ tasks e1 = tasks e ∧
    (∃ pvc a, since e e1 (Ev _ (ApiGetPVC ns ("data-" +:+ pod_Name pod)) (Ok pvc)) ∧ since e e1 (Ev _ (ApiDeletePVC pvc) a)) ∧
    ∃ rs1, only_entry rs1 e e1 ∧ po_Status (rs_PodLastOperation rs1) = (if ready then StatusDone else StatusContinue) ∧
      po_PodsOK (rs_PodLastOperation rs1) = Some [pod_Name pod] ∧ po_Pods (rs_PodLastOperation rs1) = Some []) e.
Proof.
  intros Hh (Hname & Hstate & Hpods). eapply total_run; [apply Hh|exact Hname|]. cbv zeta. rewrite Hstate.
  cbn [bool_decide decide orb]. unfold ensureDecommissionFinalizing. apply total_bind, total_gets. apply total_bind.
  eapply total_rack_status; [apply Hh|]. unfold first_pod. rewrite Hpods. apply total_bind. eapply total_lift; [reflexivity|].
  rewrite (h_ns _ _ _ Hh). unfold GetPod. do 2 apply total_bind.
  destruct (nc_get _ Hco _ _ (h_world _ _ _ Hh)) as (r & w1 & Hs1 & HI1 & ->). eapply total_call; [exact Hs1|].
  intros e1 Hq1 Hw1 _. apply total_ret. cbn [got]. change (IsNotFound NotFound) with true. cbv iota.
  assert (asked Removed e e1) as Ha1 by (split; [done|by rewrite Hw1]). pose proof (here_asked _ _ _ _ _ Hh Ha1) as Hh1.
  unfold deletePodPVC. apply total_bind, total_gets, total_bind. eapply total_rack_status; [apply Hh1|]. unfold first_pod. rewrite Hpods.
  apply total_bind. eapply total_lift; [reflexivity|]. rewrite (h_ns _ _ _ Hh1). unfold GetPVC. do 2 apply total_bind.
  destruct (nc_claim _ Hco _ (h_world _ _ _ Hh1)) as (pvc & w2 & Hs2 & HI2). eapply total_call; [exact Hs2|].
  intros e2 Hq2 Hw2 Hget. apply total_ret. cbn [got]. rewrite <- Hw2 in HI2. unfold deletePVC. do 2 apply total_bind.
  destruct (nc_delete _ Hco _ pvc HI2) as (a & w3 & Hs3 & HI3). eapply total_call; [exact Hs3|].
  intros e3 Hq3 Hw3 Hdel. rewrite <- Hw3 in HI3. apply total_ret, total_bind.
  destruct (nc_now _ Hco _ _ HI3) as (now & w4 & Hs4 & HI4). eapply total_call; [exact Hs4|]. intros e4 Hq4 Hw4 _.
  assert (quiet (λ _, True) e1 e4) as Hq14 by (etrans; [exact Hq2|]; by etrans). assert (quiet (λ _, True) e e4) as Hq by by etrans.
  assert (asked Removed e e4) as Ha4 by (split; [done|by rewrite Hw4]). destruct (here_asked _ _ _ _ _ Hh Ha4) as [_ _ Hrs4].
  apply total_bind, total_set_rack; [by eexists|]. apply total_ret. pose proof Hq as (_ & _ & Hst4 & _ & _ & Ht4 & _).
  split; [done|]. split; [by cbn; rewrite Ht4|]. split.
  - exists pvc, a. split.
    + apply (since_logs_l (λ _, True) e e1); [by apply quiet_logs|]. apply (since_logs_r (λ _, True) e1 e2); [|exact Hget].
      change (logs (λ _, True) e2 e4). apply quiet_logs. etrans; [exact Hq3|exact Hq4].
    + apply (since_logs_l (λ _, True) e e2); [apply quiet_logs; etrans; [exact Hq1|exact Hq2]|].
      apply (since_logs_r (λ _, True) e2 e3); [|exact Hdel].
      change (logs (λ _, True) e3 e4). by apply quiet_logs.
  - eexists. split; [unfold only_entry; etrans; [by apply (on_rack_insert key _ (status e4))|]; by rewrite Hst4|].
    by destruct ready.
Qed.

(** ** The end *)

(** [k] runs that hold the loop *)
Inductive held (ready : bool) : nat → Env W → Env W → Prop :=
| held_0 e : held ready 0 e e
| held_S k e e1 e' : run ready e = Ret ((breakResyncLoop, None), e1) → held ready k e1 e' → held ready (S k) e e'.

Lemma runs_wait ready k rs e :
  here (Leaving k) rs e → on_pod StatusOngoing rs →
  ∃ e1, held ready k e e1 ∧ here (Leaving 0) rs e1 ∧ quiet (λ _, True) e e1.
Proof.
  revert e. induction k as [|k IH]; intros e Hh Hop; [exists e; split_and!; [constructor|done|done]|].
  destruct (run_waits ready k rs e Hh Hop) as (r & e1 & Hrun & -> & Hh1 & Hq). destruct (IH e1 Hh1 Hop) as (e2 & Hheld & Hh2 & Hq2).
  exists e2. split; [by econstructor|]. split; [done|by etrans].
Qed.
End leave.

Section theorem.
Context {QL : QuantityLib} {CfgCodec : ConfigCodec} {W : Type} {Srv : ApiServer W}.

(** C9: when the agent of the node, the API server and Kubernetes cooperate, a decommission
    comes to its end.  The first run asks the node to leave, in one goroutine; while it
    leaves, however many questions [K] that takes, every run holds the loop; the run after
    that lets the loop go on to the statefulset, once; and when Kubernetes removed the
    pod the next run deletes the claim of the pod and ends the operation: Done, or
    Continue when the rack has more nodes to remove.  No other node is asked to leave and
    the entries of the other racks stay as they were. *)
Theorem decommission_comes_to_an_end (cc : CassandraCluster) (dcName rackName : string) (pod : Pod) (K fuel : nat) (kube : W → W)
    (I : W → node → Prop) (ready : bool) (rs : CassandraRackStatus) (e : Env W)
    (Hco : node_cooperates cc dcName rackName pod K kube I) (HI : I (world e) InRing) (Hcc : rcc_cc e = cc)
    (Hrs : s_RackStatus (status e) !! GetDCRackName dcName rackName = Some rs) (Htodo : to_do rs) :
  ∃ t e1 e2 e3 e4 e5 rs5,
    ensureDecommission dcName rackName ready e = Ret ((breakResyncLoop, None), e1) ∧ tasks e1 = tasks e ++ [t] ∧
    run_task fuel cc t e1 = Ret (tt, e2) ∧
    held dcName rackName ready K e2 e3 ∧
    ensureDecommission dcName rackName ready e3 = Ret ((continueResyncLoop, None), e4) ∧
    ensureDecommission dcName rackName ready (e4 <| world ::= kube |>) = Ret ((breakResyncLoop, None), e5) ∧
    tasks e5 = tasks e ++ [t] ∧ s_RackStatus (status e5) = <[GetDCRackName dcName rackName := rs5]> (s_RackStatus (status e)) ∧
    po_Status (rs_PodLastOperation rs5) = (if ready then StatusDone else StatusContinue) ∧
    po_PodsOK (rs_PodLastOperation rs5) = Some [pod_Name pod] ∧ po_Pods (rs_PodLastOperation rs5) = Some [] ∧
    ∃ pvc a, since e4 e5 (Ev _ (ApiGetPVC (cc_Namespace cc) ("data-" +:+ pod_Name pod)) (Ok pvc)) ∧
             since e4 e5 (Ev _ (ApiDeletePVC pvc) a).
Proof.
  assert (here cc dcName rackName InRing rs e) as Hh by (split; [exact HI|by rewrite Hcc|done]).
  destruct (run_to_do _ _ _ _ _ _ Hco ready rs e Hh Hcc Htodo) as (r1 & e1 & Hrun1 & -> & _ & jc & v4 & rs1 & Ht1 & Hjc & Hh1 & Hop1 & Hr1).
  destruct (task_leaves _ _ _ _ _ _ Hco fuel jc v4 rs1 e1 Hh1 Hjc) as ([] & e2 & Hrun2 & (_ & _ & Hst2 & _ & _ & Ht2 & _) & Hh2).
  destruct (runs_wait _ _ _ _ _ _ Hco ready K rs1 e2 Hh2 Hop1) as (e3 & Hheld & Hh3 & (_ & _ & Hst3 & _ & _ & Ht3 & _)).
  destruct (run_left _ _ _ _ _ _ Hco ready rs1 e3 Hh3 Hop1) as (r4 & e4 & Hrun4 & -> & Ht4 & rs4 & Hh4 & Hop4 & Hr4).
  assert (here (I:=I) cc dcName rackName Removed rs4 (e4 <| world ::= kube |>)) as Hh4'.
  { destruct Hh4 as [HI4 Hn4 Hrs4]. split; [|done|done]. by apply (nc_removed _ _ _ _ _ _ _ Hco). }
  destruct (run_removed _ _ _ _ _ _ Hco ready rs4 _ Hh4' Hop4) as (r5 & e5 & Hrun5 & -> & Ht5 & Hclaim & rs5 & Hr5 & Hs5).
  exists (Decommission jc v4), e1, e2, e3, e4, e5, rs5. split_and!; [done..| | |apply Hs5|apply Hs5|apply Hs5|exact Hclaim].
  - rewrite Ht5. cbn. by rewrite Ht4, Ht3, Ht2.
  - unfold only_entry in *. rewrite Hr5. cbn. by rewrite Hr4, Hst3, Hst2, Hr1, !insert_insert_eq.
Qed.
End theorem.


(** ** An instance: a node that takes two questions to leave *)
Section instance.
#[local] Existing Instance SampleQuantities.
#[local] Existing Instance demo_config.

Definition mode_answer (mode : string) : result JolokiaResponse := Ok (mkJolokiaResponse "" (JString mode)).
Definition node_serve (A : Type) (r : Req A) (w : node) : A * node :=
  match r in Req A return A * node with
  | ApiGetPod _ _ => (match w with Removed => Err NotFound | _ => Ok third_pod end, w)
  | ApiListPods _ _ => (Ok (match w with Removed => [] | _ => [third_pod] end), w)
  | ApiGetSecret _ _ => (Ok ∅, w)
  | JolokiaRead _ _ _ =>
      match w with
      | Leaving (S k) => (mode_answer LEAVING, Leaving k)
      | Leaving 0 => (mode_answer DECOMMISSIONED, w)
      | _ => (mode_answer NORMAL, w)
      end
  | JolokiaExec _ _ _ _ => (mode_answer "", Leaving 2)
  | r => ((fake_serve _ r (down_world true "")).1, w)
  end.
#[local] Instance node_server : ApiServer node := node_serve.

Definition leaving_cc : CassandraCluster := down_cc (down_rack StatusToDo []).
Definition leaving_env : Env node := mkEnv InRing [] leaving_cc (cc_Status leaving_cc) None None false [] [].

Lemma node_leaves : node_cooperates leaving_cc "dc1" "rack1" third_pod 2 (λ _, Removed) (λ w s, w = s).
Proof.
  split; [done|done|..].
  - intros w s <-. by do 2 eexists.
  - intros w s name <-. by do 2 eexists.
  - intros w ->. do 2 eexists. by split_and!.
  - intros w s <-. do 2 eexists. split; [reflexivity|]. split; [done|]. destruct w; by try eexists.
  - intros w ->. by do 2 eexists.
  - intros w p ->. by do 2 eexists.
  - intros w s jc <- Hs _. destruct w as [|[|k]|]; [..|done]; do 2 eexists; (split; [reflexivity|]); by split_and!.
  - intros w jc args -> _. by do 2 eexists.
  - intros w s c <-. by do 2 eexists.
  - intros w s c <-. do 2 eexists. by split; [reflexivity|].
  - done.
  - intros w ->. do 2 eexists. by split; [reflexivity|].
  - intros w pvc ->. by do 2 eexists.
Qed.

Lemma decommission_comes_to_an_end_witness :
  ∃ e5 : Env node, length (tasks e5) = 1 ∧
    ∃ rs5, s_RackStatus (status e5) !! "dc1-rack1" = Some rs5 ∧
      po_Status (rs_PodLastOperation rs5) = StatusDone ∧
      po_PodsOK (rs_PodLastOperation rs5) = Some ["cassandra-demo-dc1-rack1-2"].
Proof.
  destruct (decommission_comes_to_an_end leaving_cc "dc1" "rack1" third_pod 2 0 (λ _, Removed) (λ w s, w = s) true
    (down_rack StatusToDo []) leaving_env node_leaves eq_refl eq_refl eq_refl)
    as (t & e1 & e2 & e3 & e4 & e5 & rs5 & _ & _ & _ & _ & _ & _ & Ht & Hr & Hs & Hok & _).
  - split; [reflexivity|by left].
  - exists e5. split; [by rewrite Ht|]. exists rs5. split; [by rewrite Hr|]. split; [exact Hs|exact Hok].
Defined.
End instance.
