(* ===== verification/ChangeChecks.v ===== *)
(** * Refused changes (src/controllers/cassandracluster/reconcile.go)

    The resource carries the configuration that was applied last in an annotation.
    Before a loop touches anything, the differences with it are checked: a smaller
    capacity, another storage class, most changes of the topology and the removal of
    a data centre that still has nodes or data are put back to their old value. *)
From S2P Require Import Prelude KubeObjects Types ClusterApi K8sUtil Server Pods NodeOperations.
From S2P Require Import FakeCluster StorageUpsize StatefulSets ClusterPods Status Decommission.

(** One entry of the changelog of [r3labs/diff]. *)
Inductive ChangeType := CREATE | UPDATE | DELETE.
#[export] Instance ChangeType_eq_dec : EqDecision ChangeType.
Proof. solve_decision. Defined.
Record Change := mkChange { ch_Type : ChangeType; ch_Path : list string }.

(** [diff.Diff] on two topologies, its error dropped. *)
Class TopologyDiff {QL : QuantityLib} := { topology_changelog : list DC → list DC → list Change }.

(** ** Filters on the changelog *)
Definition generatePaths (s : string) : list string := Split s "."%char.

(** The elements at even positions. *)
Fixpoint evens {A} (l : list A) : list A :=
  match l with
  | [] => []
  | [x] => [x]
  | x :: _ :: l => x :: evens l
  end.

(** [filtersFound]: writing into a nil map panics. *)
Definition lookForFilter_one (path : list string) (found : option (gset string)) (filter : list string)
  : outcome (option (gset string)) :=
  if bool_decide (2 * length filter + 1 = length path) then
    let currentPath := Join (evens (removelast path)) "." in
    if currentPath == Join filter "." then
      match found with
      | None => Panic
      | Some s => mret (Some ({[currentPath]} ∪ s))
      end
    else mret found
  else mret found.
Fixpoint lookForFilter (path : list string) (filters : list (list string)) (found : option (gset string))
  : outcome (option (gset string)) :=
  match filters with
  | [] => mret found
  | filter :: filters => found ← lookForFilter_one path found filter; lookForFilter path filters found
  end.
Definition nb_found (found : option (gset string)) : nat := size (default ∅ found).

(** [regexPath]: a path that starts with a dash and holds no plus is excluded. *)
Definition excluded (path : string) : option string :=
  match path with
  | String "-" rest => if existsb (λ c, c == "+"%char) (chars rest) then None else Some rest
  | _ => None
  end.

(** A change of a Name, of a data centre or of a rack; a short path panics. *)
Definition on_name (path : list string) : outcome bool :=
  p2 ← index path 2;
  mret ((p2 == "Name") || (bool_decide (4 < length path) && (path !! 4 == Some "Name"))).

Record FilterState := mkFilterState {
  fs_idx : string; fs_included : option (gset string); fs_excluded : option (gset string) }.

Fixpoint hasChange_loop (changeType : ChangeType) (noPaths : bool) (includeFilters excludeFilters : list (list string))
    (changelog : list Change) (s : FilterState) : outcome bool :=
  match changelog with
  | [] => mret false
  | cl :: changelog =>
      named ← (if ch_Type cl == changeType then on_name (ch_Path cl) else mret false);
      if named : bool then
        if noPaths then mret true
        else
          p1 ← index (ch_Path cl) 1;
          let s := if p1 != fs_idx s then mkFilterState p1 (Some ∅) (Some ∅) else s in
          inc ← lookForFilter (ch_Path cl) includeFilters (fs_included s);
          exc ← lookForFilter (ch_Path cl) excludeFilters (fs_excluded s);
          if bool_decide (nb_found inc = length includeFilters) && bool_decide (nb_found exc = 0) then mret true
          else hasChange_loop changeType noPaths includeFilters excludeFilters changelog (mkFilterState (fs_idx s) inc exc)
      else hasChange_loop changeType noPaths includeFilters excludeFilters changelog s
  end.

Definition hasChange (changelog : list Change) (changeType : ChangeType) (paths : list string) : outcome bool :=
  let excludeFilters := omap (λ p, generatePaths <$> excluded p) paths in
  let includeFilters := omap (λ p, match excluded p with Some _ => None | None => Some (generatePaths p) end) paths in
  hasChange_loop changeType (bool_decide (paths = [])) includeFilters excludeFilters changelog
    (mkFilterState "-1" None None).

Section checks.
Context {QL : QuantityLib} {CfgCodec : ConfigCodec} {Diff : TopologyDiff} {W : Type} {Srv : ApiServer W}.
Implicit Types cc oldCRD : CassandraCluster.

(** ** Deletion of claims *)
Definition preventClusterDeletion (value : bool) cc : CassandraCluster :=
  cc <| cc_Meta ::= λ m, m <| m_Finalizers := if value then ["kubernetes.io/pvc-to-delete"] else [] |> |>.

Definition updateDeletePvcStrategy cc : CassandraCluster :=
  let nb := length (m_Finalizers (cc_Meta cc)) in
  let cc' := if negb (DeletePVC (cc_Spec cc)) && bool_decide (0 < nb) then preventClusterDeletion false cc else cc in
  if DeletePVC (cc_Spec cc) && bool_decide (length (m_Finalizers (cc_Meta cc')) = 0)
  then preventClusterDeletion true cc' else cc'.

(** [rcc.Client.Update(ctx, cc)]: the resource comes back with its new version and
    the status the server has. *)
Definition updateResource : M W (option error) :=
  cc ← get_cc;
  r ← call (ApiUpdateCC cc);
  match r with
  | Ok (rv, stored) =>
      _ ← modify_cc (λ cc, cc <| cc_Meta ::= λ m, m <| m_ResourceVersion := rv |> |> <| cc_Status := stored |>);
      mret None
  | Err e => mret (Some e)
  end.

Definition CheckDeletePVC : M W (option error) :=
  cc ← get_cc;
  if last_applied cc == "" then mret None
  else match Unmarshal_cc (last_applied cc) with
       | None => mret None
       | Some oldCRD =>
           if DeletePVC (cc_Spec cc) != DeletePVC (cc_Spec oldCRD) then
             _ ← modify_cc updateDeletePvcStrategy; updateResource
           else mret None
       end.

(** ** Storage settings *)
Definition set_dc (dc : nat) (f : DC → DC) cc : CassandraCluster :=
  cc <| cc_Spec ::= λ s, s <| spec_Topology ::= alter f dc |> |>.

(** The settings of the data centre and of the cluster are put back together; the
    old ones are looked up by position. *)
Definition restoreCapacity oldCRD (dc : nat) cc : outcome (CassandraCluster * bool) :=
  let dcName := GetDCName cc dc in
  oldCapacity ← GetDataCapacityFromDCName oldCRD dcName;
  requestedCapacity ← GetDataCapacityFromDCName cc dcName;
  match AnalyzeDataCapacityChange oldCapacity requestedCapacity with
  | CapacityDownsize =>
      d ← index (topology oldCRD) (Z.of_nat dc);
      mret (set_dc dc (λ x, x <| dc_DataCapacity := dc_DataCapacity d |>)
              (cc <| cc_Spec ::= λ s, s <| DataCapacity := DataCapacity (cc_Spec oldCRD) |> |>), true)
  | _ => mret (cc, false)
  end.

Definition restoreStorageClass oldCRD (dc : nat) cc : outcome (CassandraCluster * bool) :=
  let dcName := GetDCName cc dc in
  oldClass ← GetDataStorageClassFromDCName oldCRD dcName;
  class ← GetDataStorageClassFromDCName cc dcName;
  if class != oldClass then
    d ← index (topology oldCRD) (Z.of_nat dc);
    mret (set_dc dc (λ x, x <| dc_DataStorageClass := dc_DataStorageClass d |>)
            (cc <| cc_Spec ::= λ s, s <| DataStorageClass := DataStorageClass (cc_Spec oldCRD) |> |>), true)
  else mret (cc, false).

Fixpoint restoreStorage oldCRD (dcs : list nat) cc : outcome (CassandraCluster * bool) :=
  match dcs with
  | [] => mret (cc, false)
  | dc :: dcs =>
      '(cc, b1) ← restoreCapacity oldCRD dc cc;
      '(cc, b2) ← restoreStorageClass oldCRD dc cc;
      '(cc, b3) ← restoreStorage oldCRD dcs cc;
      mret (cc, b1 || b2 || b3)
  end.

(** ** Topology *)
Fixpoint deleteServices (ns : string) (names : list string) : M W unit :=
  match names with
  | [] => mret tt
  | name :: names => _ ← DeleteService ns name; deleteServices ns names
  end.

(** Errors are only logged. *)
Definition deleteDCObjects : M W (bool * string) :=
  cc ← get_cc;
  st ← get_status;
  let '(st, gone) := FixCassandraRackList cc st in
  _ ← modify_status (λ _, st);
  if bool_decide (0 < length gone) then
    _ ← range_do gone (λ k,
          _ ← DeleteStatefulSet (cc_Namespace cc) (cc_Name cc +:+ "-" +:+ k);
          dcName ← lift (GetDCNameFromDCRackName k);
          deleteServices (cc_Namespace cc)
            [cc_Name cc +:+ "-" +:+ dcName; cc_Name cc +:+ "-" +:+ k;
             cc_Name cc +:+ "-" +:+ dcName +:+ "-exporter-jmx"]);
    _ ← call (ActionMetric ActionDeleteDC (cc_Name cc));
    mret (true, Name ActionDeleteDC)
  else mret (false, "").

Definition refusedTopology oldCRD cc : outcome bool :=
  let changelog := topology_changelog (topology oldCRD) (topology cc) in
  u ← hasChange changelog UPDATE [];
  if u : bool then mret true
  else
    d ← hasChange changelog DELETE ["DC.Rack"; "-DC"];
    if d : bool then mret true else hasChange changelog CREATE ["DC.Rack"; "-DC"].

Definition CheckTopologyChanges oldCRD : M W (bool * string) :=
  cc ← get_cc;
  refused ← lift (refusedTopology oldCRD cc);
  if refused : bool then mret (true, Name ActionCorrectCRDConfig)
  else if bool_decide (Z.of_nat (GetDCSize cc) < Z.of_nat (GetDCSize oldCRD) - 1)%Z
  then mret (true, Name ActionCorrectCRDConfig)
  else if bool_decide (GetDCRackSize cc < GetDCRackSize oldCRD) then
    if (s_LastClusterAction (cc_Status cc) == Name ActionScaleDown) &&
       (s_LastClusterActionStatus (cc_Status cc) != StatusDone)
    then mret (true, Name ActionCorrectCRDConfig)
    else
      let '(found, nbNodes) := GetDCNodesPerRacksFromName oldCRD (GetRemovedDCName cc oldCRD) in
      if found && bool_decide (0 < nbNodes)%Z then mret (true, Name ActionCorrectCRDConfig)
      else deleteDCObjects
  else mret (false, "").

(** ** Scaling a data centre down to nothing *)
Definition restoreTopology oldCRD : M W bool :=
  _ ← modify_cc (λ cc, cc <| cc_Spec ::= λ s, s <| spec_Topology := topology oldCRD |> |>); mret true.

(** Only the first live pod is asked; without one the scale down passes. *)
Definition askFirstPod oldCRD cc (dcName : string) (podsList : list Pod) : M W bool :=
  match find_map (λ pod, if alive pod then Some pod else None) podsList with
  | None => mret false
  | Some pod =>
      r ← NewJolokiaClient (PodHostname pod) (ImageJolokiaSecret (cc_Spec cc)) (cc_Namespace cc);
      match r with
      | Err _ => restoreTopology oldCRD
      | Ok jolokiaClient =>
          r ← NonLocalKeyspacesInDC jolokiaClient dcName;
          match r with
          | Err _ => restoreTopology oldCRD
          | Ok keyspacesWithData =>
              if bool_decide (length keyspacesWithData ≠ 0) then restoreTopology oldCRD else mret false
          end
      end
  end.

Definition CheckNonAllowedScaleDown oldCRD : M W bool :=
  cc ← get_cc;
  let '(ok, dcName, dc) := FindDCWithNodesTo0 cc in
  if ok : bool then
    let rackName := GetRackName cc dc 0 in
    '(podsList, err) ← ListPods (cc_Namespace cc) (MergeLabels [LabelsForCassandraDCRack cc dcName rackName]);
    match err with
    | Some _ => restoreTopology oldCRD
    | None => askFirstPod oldCRD cc dcName podsList
    end
  else mret false.

(** ** CheckNonAllowedChanges *)
Definition set_needUpdate (b : bool) : M W unit := modify (λ e : Env W, e <| needUpdate := b |>).

Definition setLastClusterAction (name : string) : M W unit :=
  modify_status (λ st, st <| s_LastClusterAction := name |>).

(** Every rack is flagged; a rack without an entry panics. *)
Definition flagUpdateResources cc : M W unit :=
  range_do (rack_indices cc) (λ i,
    let k := crn_DcRackName (rackNameAt cc i) in
    _ ← set_action k (λ a, a <| la_Name := Name ActionUpdateResources |>);
    _ ← call (ActionMetric ActionUpdateResources (cc_Name cc));
    _ ← set_action k (λ a, a <| la_Status := StatusToDo |>);
    now ← call Now;
    set_action k (λ a, a <| la_StartTime := Some now |> <| la_EndTime := None |>)).

Definition correctConfig : M W bool :=
  cc ← get_cc;
  _ ← setLastClusterAction (Name ActionCorrectCRDConfig);
  _ ← call (ActionMetric ActionCorrectCRDConfig (cc_Name cc));
  mret true.

(** After the storage settings: topology, scale down to nothing, resources. *)
Definition checkTopologyAndScale oldCRD : M W bool :=
  '(changed, updateStatus) ← CheckTopologyChanges oldCRD;
  _ ← set_needUpdate changed;
  cc ← get_cc;
  if changed : bool then
    _ ← (if updateStatus != "" then setLastClusterAction updateStatus else mret tt);
    _ ← (if updateStatus == Name ActionCorrectCRDConfig then
           _ ← restoreTopology oldCRD; call (ActionMetric ActionCorrectCRDConfig (cc_Name cc))
         else mret tt);
    mret true
  else if updateStatus == Name ActionDeleteRack then
    _ ← call (ActionMetric ActionDeleteRack (cc_Name cc)); mret true
  else
    refused ← CheckNonAllowedScaleDown oldCRD;
    _ ← set_needUpdate refused;
    if refused : bool then correctConfig
    else
      cc ← get_cc;
      _ ← (if bool_decide (Resources (cc_Spec cc) ≠ Resources (cc_Spec oldCRD)) then flagUpdateResources cc else mret tt);
      mret false.

Definition CheckNonAllowedChanges : M W bool :=
  cc ← get_cc;
  if (last_applied cc == "") || (ComputeLastAppliedConfiguration cc == last_applied cc) then mret false
  else match Unmarshal_cc (last_applied cc) with
       | None => mret false
       | Some oldCRD =>
           _ ← (if bool_decide (NodesPerRacks (cc_Spec cc) = 0%Z) then
                  _ ← modify_cc (λ cc, cc <| cc_Spec ::= λ s, s <| NodesPerRacks := NodesPerRacks (cc_Spec oldCRD) |> |>);
                  set_needUpdate true
                else mret tt);
           cc ← get_cc;
           '(cc, changed) ← lift (restoreStorage oldCRD (seq 0 (GetDCSize cc)) cc);
           _ ← modify_cc (λ _, cc);
           _ ← (if changed : bool then set_needUpdate true else mret tt);
           nu ← gets needUpdate;
           if nu : bool then correctConfig else checkTopologyAndScale oldCRD
       end.
End checks.


(** ** Lemmas: capacities *)
Section capacity.
Context {QL : QuantityLib} {Laws : QuantityLaws QL}.
Implicit Types cc oldCRD : CassandraCluster.

(** The capacity setting of the data centre at a position, and the one that counts. *)
Definition own_capacity cc (dc : nat) : string :=
  match topology cc !! dc with Some d => dc_DataCapacity d | None => "" end.
Definition effective_capacity cc (dc : nat) : string :=
  if own_capacity cc dc != "" then own_capacity cc dc else DataCapacity (cc_Spec cc).

Definition dc_names cc : list string := dc_Name <$> topology cc.

Lemma GetDCName_names cc dc : dc < GetDCSize cc → dc_names cc !! dc = Some (GetDCName cc dc).
Proof.
  unfold GetDCSize, dc_names, GetDCName. intros Hdc. rewrite list_lookup_fmap.
  destruct (lookup_lt_is_Some_2 _ _ Hdc) as [d ->]. done.
Qed.

Lemma dc_names_size cc cc' : dc_names cc = dc_names cc' → GetDCSize cc = GetDCSize cc'.
Proof. intros H. apply (f_equal length) in H. unfold dc_names in H. by rewrite !length_fmap in H. Qed.

Lemma index_of_name cc dc :
  NoDup (dc_names cc) → dc < GetDCSize cc → GetDCIndexFromDCName cc (GetDCName cc dc) = Z.of_nat dc.
Proof.
  intros Hnd Hdc. unfold GetDCIndexFromDCName. rewrite bool_decide_false by lia.
  erewrite find_map_seq_unique; [done|exact Hdc|by rewrite bool_decide_true|].
  intros j Hj. rewrite bool_decide_false; [done|]. intros Heq.
  assert (j < GetDCSize cc) as Hj' by lia. apply GetDCName_names in Hj', Hdc. rewrite Heq in Hdc.
  pose proof (NoDup_lookup _ _ _ _ Hnd Hj' Hdc). lia.
Qed.

Lemma capacity_of cc dc :
  NoDup (dc_names cc) → dc < GetDCSize cc →
  GetDataCapacityFromDCName cc (GetDCName cc dc) = Ret (effective_capacity cc dc).
Proof.
  intros Hnd Hdc. unfold GetDataCapacityFromDCName, effective_capacity, own_capacity, getDCFromIndex, index.
  rewrite index_of_name by done. rewrite bool_decide_true, bool_decide_false, bool_decide_false by lia.
  rewrite Nat2Z.id. destruct (lookup_lt_is_Some_2 _ _ Hdc) as [d Hd]. unfold topology in *. rewrite Hd. done.
Qed.

(** The capacity of the data centre at [dc] is not below its old one. *)
Definition not_shrunk oldCRD cc (dc : nat) : Prop :=
  Quantity_cmp (silentParseResourceQuantity (effective_capacity cc dc))
               (silentParseResourceQuantity (effective_capacity oldCRD dc)) ≠ Lt.

(** The assumptions on the two resources, kept along the loop. *)
Record comparable oldCRD cc : Prop := {
  cmp_names : dc_names cc = dc_names oldCRD;
  cmp_nodup : NoDup (dc_names oldCRD);
  cmp_own : ∀ dc, own_capacity cc dc = "" → own_capacity oldCRD dc = "" }.

Lemma capacity_of_old oldCRD cc dc :
  comparable oldCRD cc → dc < GetDCSize cc →
  GetDataCapacityFromDCName oldCRD (GetDCName cc dc) = Ret (effective_capacity oldCRD dc).
Proof.
  intros [Hn Hnd _] Hdc. pose proof (dc_names_size _ _ Hn) as Hsize.
  replace (GetDCName cc dc) with (GetDCName oldCRD dc); [apply capacity_of; [done|lia]|].
  assert (Some (GetDCName oldCRD dc) = Some (GetDCName cc dc)) as H; [|congruence].
  rewrite <- !GetDCName_names by lia. by rewrite Hn.
Qed.

Lemma set_dc_names dc f cc : (∀ d, dc_Name (f d) = dc_Name d) → dc_names (set_dc dc f cc) = dc_names cc.
Proof.
  intros Hf. unfold dc_names, set_dc, topology. cbn. apply list_eq. intros i. rewrite !list_lookup_fmap.
  destruct (decide (i = dc)) as [->|Hne]; [|by rewrite list_lookup_alter_ne].
  rewrite list_lookup_alter_eq. destruct (_ !! dc); cbn; [by rewrite Hf|done].
Qed.

Lemma set_dc_own dc f cc i :
  own_capacity (set_dc dc f cc) i =
  if bool_decide (i = dc) then match topology cc !! dc with Some d => dc_DataCapacity (f d) | None => "" end
  else own_capacity cc i.
Proof.
  unfold own_capacity, set_dc, topology. cbn. case_bool_decide as H; [subst i|by rewrite list_lookup_alter_ne].
  rewrite list_lookup_alter_eq. by destruct (_ !! dc).
Qed.

(** What one step of the loop guarantees. *)
Definition step_ok oldCRD cc cc' : Prop :=
  comparable oldCRD cc' ∧ GetDCSize cc' = GetDCSize cc ∧ (∀ i, not_shrunk oldCRD cc i → not_shrunk oldCRD cc' i).

Lemma comparable_size oldCRD cc : comparable oldCRD cc → GetDCSize cc = GetDCSize oldCRD.
Proof. intros H. apply dc_names_size, H. Qed.

Lemma not_shrunk_refl oldCRD cc dc : effective_capacity cc dc = effective_capacity oldCRD dc → not_shrunk oldCRD cc dc.
Proof. intros H. unfold not_shrunk. by rewrite H, Quantity_cmp_refl. Qed.

Lemma restoreCapacity_spec oldCRD dc cc :
  comparable oldCRD cc → dc < GetDCSize cc →
  ∃ cc' b, restoreCapacity oldCRD dc cc = Ret (cc', b) ∧ step_ok oldCRD cc cc' ∧ not_shrunk oldCRD cc' dc.
Proof.
  intros Hcmp Hdc. pose proof (comparable_size _ _ Hcmp) as Hsize. unfold restoreCapacity.
  rewrite (capacity_of_old oldCRD cc dc), (capacity_of cc dc) by (done || rewrite (cmp_names _ _ Hcmp); apply Hcmp).
  cbn [mbind outcome_bind]. unfold AnalyzeDataCapacityChange.
  assert (∀ b : bool, not_shrunk oldCRD cc dc → ∃ cc' b', (mret (cc, b) : outcome _) = Ret (cc', b') ∧ step_ok oldCRD cc cc' ∧
    not_shrunk oldCRD cc' dc) as Hkeep by (intros b H; exists cc, b; split; [done|]; split; [by repeat split; try apply Hcmp|done]).
  case_bool_decide as Heq; [apply Hkeep; by apply not_shrunk_refl|].
  destruct (Quantity_cmp _ _) eqn:Hcomp; [apply Hkeep; unfold not_shrunk; by rewrite Hcomp| |
    apply Hkeep; unfold not_shrunk; by rewrite Hcomp].
  destruct (lookup_lt_is_Some_2 (topology oldCRD) dc) as [d Hd]; [unfold GetDCSize in *; lia|].
  unfold index. rewrite bool_decide_false, Nat2Z.id, Hd by lia. cbn [deref mbind outcome_bind].
  eexists _, true. split; [reflexivity|].
  set (cc1 := cc <| cc_Spec ::= _ |>). set (cc' := set_dc dc _ cc1).
  assert (∀ i, own_capacity cc' i = if bool_decide (i = dc) then own_capacity oldCRD dc else own_capacity cc i) as Hown.
  { intros i. unfold cc'. rewrite set_dc_own. case_bool_decide; [|done]. unfold own_capacity. rewrite Hd.
    destruct (lookup_lt_is_Some_2 (topology cc) dc Hdc) as [d' Hd']. change (topology cc1) with (topology cc). by rewrite Hd'. }
  assert (DataCapacity (cc_Spec cc') = DataCapacity (cc_Spec oldCRD)) as Hspec by done.
  assert (dc_names cc' = dc_names oldCRD) as Hnames
    by (unfold cc'; rewrite set_dc_names by done; exact (cmp_names _ _ Hcmp)).
  assert (∀ i, i = dc ∨ own_capacity cc i = "" → not_shrunk oldCRD cc' i) as Hold.
  { intros i Hi. apply not_shrunk_refl. unfold effective_capacity. rewrite Hown, Hspec.
    destruct (decide (i = dc)) as [->|Hne]; [by rewrite (bool_decide_true (dc = dc))|].
    rewrite (bool_decide_false (i = dc)) by done. destruct Hi as [?|Hi]; [done|]. by rewrite Hi, (cmp_own _ _ Hcmp i Hi). }
  split; [|by apply Hold; left]. split; [|split].
  - split; [done|apply Hcmp|]. intros i. rewrite Hown. case_bool_decide; subst; [done|apply Hcmp].
  - pose proof (dc_names_size _ _ Hnames). lia.
  - intros i Hi. destruct (decide (i = dc ∨ own_capacity cc i = "")) as [?|Hne]; [by apply Hold|].
    unfold not_shrunk, effective_capacity in *. rewrite Hown.
    rewrite (bool_decide_false (i = dc)) by tauto. rewrite bool_decide_false in * by tauto. exact Hi.
Qed.

Lemma restoreStorageClass_spec oldCRD dc cc :
  comparable oldCRD cc → dc < GetDCSize cc →
  ∃ cc' b, restoreStorageClass oldCRD dc cc = Ret (cc', b) ∧ step_ok oldCRD cc cc'.
Proof.
  intros Hcmp Hdc. pose proof (comparable_size _ _ Hcmp) as Hsize. unfold restoreStorageClass.
  assert (∀ x name, ∃ c, GetDataStorageClassFromDCName x name = Ret c) as Hret.
  { intros x name. unfold GetDataStorageClassFromDCName. case_bool_decide as H0; [|by eexists].
    unfold getDCFromIndex. case_bool_decide as H1; [by eexists|]. unfold index. rewrite bool_decide_false by lia.
    destruct (lookup_lt_is_Some_2 (topology x) (Z.to_nat (GetDCIndexFromDCName x name))) as [d ->];
      [unfold GetDCSize in *; lia|by eexists]. }
  destruct (Hret oldCRD (GetDCName cc dc)) as [c1 ->]. destruct (Hret cc (GetDCName cc dc)) as [c2 ->].
  cbn [mbind outcome_bind]. case_bool_decide; cbn [negb]; [by exists cc, false; repeat split; try apply Hcmp|].
  destruct (lookup_lt_is_Some_2 (topology oldCRD) dc) as [d Hd]; [unfold GetDCSize in *; lia|].
  unfold index. rewrite bool_decide_false, Nat2Z.id, Hd by lia. cbn [deref mbind outcome_bind].
  eexists _, true. split; [reflexivity|]. set (cc1 := cc <| cc_Spec ::= _ |>). set (cc' := set_dc dc _ cc1).
  assert (dc_names cc' = dc_names oldCRD) as Hnames
    by (unfold cc'; rewrite set_dc_names by done; exact (cmp_names _ _ Hcmp)).
  assert (∀ i, own_capacity cc' i = own_capacity cc i) as Hown.
  { intros i. unfold cc'. rewrite set_dc_own. case_bool_decide; [subst i|done]. unfold own_capacity.
    change (topology cc1) with (topology cc). by destruct (topology cc !! dc). }
  split; [|split].
  - split; [done|apply Hcmp|]. intros i. rewrite Hown. apply Hcmp.
  - pose proof (dc_names_size _ _ Hnames). lia.
  - intros i. unfold not_shrunk, effective_capacity. by rewrite Hown.
Qed.

Lemma step_ok_trans oldCRD cc cc1 cc2 : step_ok oldCRD cc cc1 → step_ok oldCRD cc1 cc2 → step_ok oldCRD cc cc2.
Proof. intros (? & ? & ?) (? & ? & ?). split; [done|]. split; [congruence|auto]. Qed.

Lemma restoreStorage_spec oldCRD dcs cc :
  comparable oldCRD cc → Forall (λ dc, dc < GetDCSize cc) dcs →
  ∃ cc' b, restoreStorage oldCRD dcs cc = Ret (cc', b) ∧ step_ok oldCRD cc cc' ∧ Forall (not_shrunk oldCRD cc') dcs.
Proof.
  revert cc. induction dcs as [|dc dcs IH]; intros cc Hcmp Hdcs; cbn [restoreStorage].
  { exists cc, false. split; [done|]. split; [by repeat split; try apply Hcmp|constructor]. }
  inversion Hdcs as [|? ? Hdc Hrest]; subst.
  destruct (restoreCapacity_spec oldCRD dc cc) as (cc1 & b1 & -> & Hok1 & Hdc1); [done..|]. cbn [mbind outcome_bind].
  pose proof Hok1 as (Hcmp1 & Hs1 & _).
  destruct (restoreStorageClass_spec oldCRD dc cc1) as (cc2 & b2 & -> & Hok2); [done|lia|]. cbn [mbind outcome_bind].
  pose proof Hok2 as (Hcmp2 & Hs2 & Hm2).
  destruct (IH cc2) as (cc3 & b3 & -> & Hok3 & Hrest3); [done|eapply Forall_impl; [exact Hrest|]; cbn; intros; lia|].
  cbn [mbind outcome_bind]. eexists _, _. split; [reflexivity|].
  split; [eapply step_ok_trans; [exact Hok1|]; by eapply step_ok_trans|].
  constructor; [|done]. destruct Hok3 as (_ & _ & Hm3). auto.
Qed.
End capacity.

(** ** Lemmas: removal of a data centre *)
Section removal.
Context {QL : QuantityLib} {CfgCodec : ConfigCodec} {Diff : TopologyDiff} {W : Type} {Srv : ApiServer W}.
Implicit Types e : Env W.

(** Asking a node for its keyspaces changes nothing here. *)
Lemma executeOperation_quiet jc operation args :
  keeps (quiet (λ _, True)) (executeOperation (W:=W) jc operation args).
Proof. unfold executeOperation. keeps_steps. by apply keeps_quiet_call. Qed.
Lemma read_any jc b a : keeps (quiet (λ _, True)) (read (W:=W) jc b a).
Proof. unfold read. keeps_steps. by apply keeps_quiet_call. Qed.
Lemma hasKeyspaceDataInDC_quiet jc keyspace dc :
  keeps (quiet (λ _, True)) (hasKeyspaceDataInDC (W:=W) jc keyspace dc).
Proof. unfold hasKeyspaceDataInDC. keeps_steps; apply executeOperation_quiet. Qed.
Lemma keyspacesWithDataInDC_quiet jc dc ks acc :
  keeps (quiet (λ _, True)) (keyspacesWithDataInDC (W:=W) jc dc ks acc).
Proof.
  revert acc. induction ks as [|k ks IH]; intros acc; cbn [keyspacesWithDataInDC]; keeps_steps;
    auto using hasKeyspaceDataInDC_quiet.
Qed.
Lemma NonLocalKeyspacesInDC_quiet jc dc : keeps (quiet (λ _, True)) (NonLocalKeyspacesInDC (W:=W) jc dc).
Proof.
  unfold NonLocalKeyspacesInDC, nonLocalKeyspaces, keyspaces. keeps_steps;
    auto using read_any, keyspacesWithDataInDC_quiet.
Qed.



End removal.

(** ** Theorems *)
Section theorems.
Context {QL : QuantityLib} {Laws : QuantityLaws QL} {CfgCodec : ConfigCodec} {Diff : TopologyDiff}.
Context {W : Type} {Srv : ApiServer W}.
Implicit Types e : Env W.

(** C30: for a change that keeps the names of the data centres, all distinct and in the
    same order, and in which no data centre drops a capacity of its own in favour of the
    one of the cluster, the check of the storage settings returns (no index is out of
    range) and no data centre comes out of it with less capacity than it had.  (It
    panics on a refused data centre that was added, [refused_new_dc_panics], and lets a
    downsize through where one dropped its capacity, [downsize_slips_through].) *)
Theorem capacity_never_shrinks (oldCRD cc : CassandraCluster)
    (Hnames : dc_names cc = dc_names oldCRD) (Hdistinct : NoDup (dc_names oldCRD))
    (Hown : ∀ dc, own_capacity cc dc = "" → own_capacity oldCRD dc = "") :
  ∃ cc' changed, restoreStorage oldCRD (seq 0 (GetDCSize cc)) cc = Ret (cc', changed) ∧
    dc_names cc' = dc_names cc ∧
    ∀ dc, dc < GetDCSize cc → ∃ old new,
      GetDataCapacityFromDCName oldCRD (GetDCName cc dc) = Ret old ∧
      GetDataCapacityFromDCName cc' (GetDCName cc dc) = Ret new ∧
      Quantity_cmp (silentParseResourceQuantity new) (silentParseResourceQuantity old) ≠ Lt.
Proof.
  destruct (restoreStorage_spec oldCRD (seq 0 (GetDCSize cc)) cc) as (cc' & b & -> & (Hcmp & Hsize & _) & Hall).
  - by split.
  - apply Forall_forall. intros i Hi%elem_of_seq. lia.
  - exists cc', b. pose proof (cmp_names _ _ Hcmp) as Hn. split; [done|]. split; [congruence|]. intros dc Hdc.
    exists (effective_capacity oldCRD dc), (effective_capacity cc' dc).
    assert (GetDCName cc dc = GetDCName cc' dc) as Heq.
    { assert (Some (GetDCName cc dc) = Some (GetDCName cc' dc)) as H; [|congruence].
      rewrite <- !GetDCName_names by lia. congruence. }
    rewrite Heq. split; [by apply capacity_of_old; [|lia]|].
    split; [apply capacity_of; [by rewrite Hn|lia]|]. rewrite Forall_forall in Hall. apply Hall, elem_of_seq. lia.
Qed.




(** C29: the first data centre of the new topology with zero nodes per rack gets past
    [CheckNonAllowedScaleDown] only after a node answered that no keyspace has data in
    it any more: the pods of its first rack were listed, and either none of them is
    alive or the first live one gave an empty list of keyspaces with data in this data
    centre.  When the check refuses, the old topology is put back.  (Data centres with
    zero nodes after the first one are not looked at: [second_dc_unchecked].) *)
Theorem scale_to_zero_needs_no_data (oldCRD : CassandraCluster) (e e' : Env W) (refused : bool) (dc : nat)
    (Hrun : CheckNonAllowedScaleDown oldCRD e = Ret (refused, e'))
    (Hdc : dc < GetDCSize (rcc_cc e)) (Hzero : getDCNodesPerRacksFromIndex (rcc_cc e) dc = 0%Z)
    (Hfirst : ∀ i, i < dc → getDCNodesPerRacksFromIndex (rcc_cc e) i ≠ 0%Z) :
  let cc := rcc_cc e in let dcName := GetDCName cc dc in
  if refused then topology (rcc_cc e') = topology oldCRD
  else rcc_cc e' = cc ∧ ∃ pods, since e e' (Ev _ (ApiListPods (cc_Namespace cc)
         (MergeLabels [LabelsForCassandraDCRack cc dcName (GetRackName cc dc 0)])) (Ok pods)) ∧
       ((∀ pod, pod ∈ pods → alive pod = false) ∨
        ∃ before pod after jc e1, pods = before ++ pod :: after ∧ (∀ p, p ∈ before → alive p = false) ∧ alive pod = true ∧
          jc_host jc = PodHostname pod ∧ logs read_only e e1 ∧ NonLocalKeyspacesInDC jc dcName e1 = Ret (Ok [], e')).
Proof.
  cbv zeta. assert (FindDCWithNodesTo0 (rcc_cc e) = (true, GetDCName (rcc_cc e) dc, dc)) as Hfind0.
  { unfold FindDCWithNodesTo0. erewrite (find_map_seq_unique _ _ dc); [done|done|by rewrite bool_decide_true|].
    intros j Hj. by rewrite bool_decide_false by by apply Hfirst. }
  set (dcName := GetDCName _ _) in *.
  pattern refused, e'. match goal with |- ?P _ _ => refine (wp_run _ P _ _ _ _ Hrun) end.
  unfold CheckNonAllowedScaleDown. apply wp_bind, wp_gets. rewrite Hfind0.
  unfold ListPods. apply wp_bind, wp_bind, wp_call. intros r w. apply wp_ret.
  set (e1 := e <| world := w |> <| log ::= _ |>).
  destruct r as [pods|err]; cbn [got]; [|by unfold restoreTopology; wp_steps].
  assert (since e e1 (Ev _ (ApiListPods (cc_Namespace (rcc_cc e))
    (MergeLabels [LabelsForCassandraDCRack (rcc_cc e) dcName (GetRackName (rcc_cc e) dc 0)])) (Ok pods))) as Hs
    by apply since_call.
  unfold askFirstPod. destruct (find_map _ pods) as [pod|] eqn:Hfind.
  2: { apply wp_ret. split; [done|]. exists pods. split; [exact Hs|]. left. intros pod Hpod.
       rewrite find_map_None in Hfind. specialize (Hfind pod Hpod). by destruct (alive pod). }
  apply find_map_first in Hfind as (before & pod' & after & Hpods & Hbefore & Hal).
  destruct (alive pod') eqn:Halive; [|done]. injection Hal as ->.
  apply wp_bind, wp_NewJolokiaClient. intros [jc|err] e2 Hq2 Hjc; [|by unfold restoreTopology; wp_steps].
  apply wp_bind, wp_intro. intros r e3 Hks.
  pose proof (wp_run _ _ _ _ _ (NonLocalKeyspacesInDC_quiet jc dcName e2) Hks) as Hq3.
  destruct r as [ks|err]; [|by unfold restoreTopology; wp_steps].
  case_bool_decide as Hlen; [by unfold restoreTopology; wp_steps|]. apply wp_ret.
  destruct Hq2 as (Hl2 & Hcc2 & _), Hq3 as (Hl3 & Hcc3 & _). split; [by rewrite Hcc3, Hcc2|]. exists pods.
  split; [eapply since_logs_r; [exact Hl3|]; by eapply since_logs_r|]. right. exists before, pod, after, jc, e2.
  split; [done|]. split; [intros p Hp; specialize (Hbefore p Hp); by destruct (alive p)|]. split; [done|].
  split; [by apply Hjc|]. split; [etrans; [|exact Hl2]; by apply logs_call|]. destruct ks; [done|simpl in Hlen; lia].
Qed.

(** The changes of a type that are on a Name. *)
Definition names_change (t : ChangeType) (c : Change) : bool :=
  (ch_Type c == t) && ((ch_Path c !! 2 == Some "Name") || (ch_Path c !! 4 == Some "Name")).

Lemma on_name_spec path : 3 ≤ length path →
  on_name path = Ret ((path !! 2 == Some "Name") || (path !! 4 == Some "Name")).
Proof.
  intros Hlen. destruct path as [|p0 [|p1 [|p2 path]]]; simpl in Hlen; try lia. unfold on_name. cbn.
  replace (bool_decide (Some p2 = Some "Name")) with (p2 == "Name") by (apply bool_decide_ext; naive_solver).
  destruct path as [|p3 [|p4 path]]; cbn; [done..|]. by rewrite bool_decide_true by lia.
Qed.

Lemma hasChange_any (changelog : list Change) (t : ChangeType) :
  Forall (λ c, 3 ≤ length (ch_Path c)) changelog →
  hasChange changelog t [] = Ret (existsb (names_change t) changelog).
Proof.
  intros Hlen. unfold hasChange. rewrite bool_decide_true by done. cbn [omap list_omap]. generalize (mkFilterState "-1" None None).
  induction Hlen as [|c changelog Hc _ IH]; intros s; cbn [hasChange_loop existsb]; [done|].
  unfold names_change at 1. case_bool_decide as Ht; cbn [andb].
  - rewrite on_name_spec by done. cbn [mbind outcome_bind]. destruct (_ || _); [done|]. apply IH.
  - cbn [mbind outcome_bind mret outcome_ret]. apply IH.
Qed.

(** C36: a data centre or a rack cannot be renamed: if the changelog has an update of
    a Name, [CheckTopologyChanges] refuses the change before it touches anything, and
    [checkTopologyAndScale] puts the old topology back. *)
Theorem rename_refused (oldCRD : CassandraCluster) (e : Env W)
    (Hpaths : Forall (λ c, 3 ≤ length (ch_Path c)) (topology_changelog (topology oldCRD) (topology (rcc_cc e))))
    (Hrename : ∃ c, c ∈ topology_changelog (topology oldCRD) (topology (rcc_cc e)) ∧ names_change UPDATE c = true) :
  CheckTopologyChanges oldCRD e = Ret ((true, Name ActionCorrectCRDConfig), e) ∧
  ∃ e', checkTopologyAndScale oldCRD e = Ret (true, e') ∧ topology (rcc_cc e') = topology oldCRD ∧
        s_LastClusterAction (status e') = Name ActionCorrectCRDConfig ∧ logs read_only e e'.
Proof.
  assert (CheckTopologyChanges oldCRD e = Ret ((true, Name ActionCorrectCRDConfig), e)) as Hcheck.
  { unfold CheckTopologyChanges, refusedTopology, get_cc, gets, mbind, GoM_bind, lift. rewrite hasChange_any by done.
    replace (existsb _ _) with true; [done|]. symmetry. apply existsb_exists.
    destruct Hrename as (c & Hin & Hc). exists c. split; [by apply list_elem_of_In|done]. }
  split; [done|]. unfold checkTopologyAndScale, mbind at 1, GoM_bind at 1. rewrite Hcheck.
  rewrite (bool_decide_true (Name ActionCorrectCRDConfig = Name ActionCorrectCRDConfig)),
    (bool_decide_false (Name ActionCorrectCRDConfig = "")) by done. cbn [negb].
  unfold set_needUpdate, setLastClusterAction, restoreTopology, call, mbind, GoM_bind, modify, modify_status, modify_cc,
    get_cc, gets. cbn -[serve]. match goal with |- context [serve ?r ?w] => destruct (serve r w) as [[] w'] end.
  eexists. split; [reflexivity|]. split; [reflexivity|].
  split; [reflexivity|]. eexists. split; [reflexivity|]. by repeat constructor.
Qed.
End theorems.

(** ** Instances *)
Section instances.
#[local] Existing Instance SampleQuantities.

(** The changelog of TestHasChange. *)
Definition test_changelog : list Change :=
  [ mkChange DELETE ["DC"; "1"; "Rack"; "2"; "Name"];
    mkChange DELETE ["DC"; "1"; "Rack"; "2"; "RollingRestart"];
    mkChange DELETE ["DC"; "1"; "Rack"; "2"; "RollingPartition"];
    mkChange UPDATE ["DC"; "2"; "Name"];
    mkChange UPDATE ["DC"; "2"; "Rack"; "2"; "Name"];
    mkChange UPDATE ["DC"; "2"; "Rack"; "2"; "RollingRestart"];
    mkChange UPDATE ["DC"; "2"; "Rack"; "2"; "RollingPartition"] ].
Example hasChange_test :
  hasChange test_changelog DELETE ["DC"] = Ret false ∧ hasChange test_changelog DELETE [] = Ret true ∧
  hasChange test_changelog DELETE ["DC"; "DC.Rack"] = Ret false ∧
  hasChange test_changelog DELETE ["-DC"; "DC.Rack"] = Ret true ∧
  hasChange test_changelog UPDATE ["DC"; "DC.Rack"] = Ret true ∧ hasChange test_changelog UPDATE ["DC"] = Ret true ∧
  hasChange test_changelog UPDATE ["-DC"; "DC.Rack"] = Ret false ∧ hasChange test_changelog CREATE [] = Ret false.
Proof. vm_compute. auto 10. Qed.

(** Two data centres with capacities of their own. *)
Definition sized_dc (name capacity : string) : DC := (simple_dc name ["rack1"]) <| dc_DataCapacity := capacity |>.
Definition sized (capacity c1 c2 : string) : CassandraCluster :=
  (simple_cluster 2 [sized_dc "dc1" c1; sized_dc "dc2" c2]) <| cc_Spec ::= λ s, s <| DataCapacity := capacity |> |>.
Definition capacities (cc : CassandraCluster) : list string := effective_capacity cc <$> seq 0 (GetDCSize cc).
Definition capacities_after (old new : CassandraCluster) : outcome (list string) :=
  '(cc, _) ← restoreStorage old (seq 0 (GetDCSize new)) new; mret (capacities cc).

Lemma capacity_never_shrinks_witness :
  ∃ cc' changed, restoreStorage (sized "10Gi" "" "30Gi") [0; 1] (sized "5Gi" "" "40Gi") = Ret (cc', changed) ∧
    dc_names cc' = ["dc1"; "dc2"].
Proof.
  destruct (capacity_never_shrinks (sized "10Gi" "" "30Gi") (sized "5Gi" "" "40Gi")) as (cc' & changed & H & Hn & _).
  - reflexivity.
  - apply (bool_decide_unpack _). vm_compute. exact I.
  - intros [|[|dc]] H; vm_compute in H |- *; congruence.
  - exists cc', changed. split; [exact H|exact Hn].
Defined.

(** Where a data centre drops a capacity of its own, the restoration of another one
    shrinks it: dc1 had 30Gi and was accepted with 50Gi, then dc2 is refused and the
    cluster-wide 50Gi goes back to 10Gi. *)
Example downsize_slips_through :
  capacities (sized "10Gi" "30Gi" "") = ["30Gi"; "10Gi"] ∧
  capacities (sized "50Gi" "" "5Gi") = ["50Gi"; "5Gi"] ∧
  capacities_after (sized "10Gi" "30Gi" "") (sized "50Gi" "" "5Gi") = Ret ["10Gi"; "10Gi"].
Proof. vm_compute. auto. Qed.

(** With fewer data centres in the old configuration the index is out of range. *)
Example refused_new_dc_panics :
  capacities_after ((sized "10Gi" "" "") <| cc_Spec ::= λ s, s <| spec_Topology ::= take 1 |> |>) (sized "10Gi" "" "5Gi")
  = Panic.
Proof. vm_compute. reflexivity. Qed.

(** A changelog with the names that were updated, by position. *)
Definition name_updates (old new : list DC) : list Change :=
  omap (λ i, match old !! i, new !! i with
             | Some a, Some b => if dc_Name a != dc_Name b then Some (mkChange UPDATE ["DC"; Itoa (Z.of_nat i); "Name"]) else None
             | _, _ => None
             end) (seq 0 (length old)).
#[local] Instance demo_topology_diff : TopologyDiff := {| topology_changelog := name_updates |}.

Definition renamed_env : Env FakeCluster := start empty_cluster (simple_cluster 2 [simple_dc "dc9" ["rack1"]]).
Definition before_rename : CassandraCluster := simple_cluster 2 [simple_dc "dc1" ["rack1"]].
Lemma rename_refused_witness :
  ∃ e', checkTopologyAndScale before_rename renamed_env = Ret (true, e') ∧ topology (rcc_cc e') = topology before_rename.
Proof.
  destruct (rename_refused before_rename renamed_env) as (_ & e' & Hrun & Ht & _).
  - apply (bool_decide_unpack _). vm_compute. exact I.
  - exists (mkChange UPDATE ["DC"; "0"; "Name"]). split; [|reflexivity].
    change (topology_changelog _ _) with [mkChange UPDATE ["DC"; "0"; "Name"]]. by left.
  - exists e'. split; [exact Hrun|exact Ht].
Defined.


(** The statefulset that was deleted in a log. *)
Definition deleted_sts (l : list (Event (QL:=SampleQuantities))) : option (string * string * bool * option error) :=
  find_map (λ ev, match ev with
                  | Ev _ r a => match r in Req A return A → option (string * string * bool * option error) with
                                | ApiDeleteStatefulSet ns name orphan => λ a, Some (ns, name, orphan, a)
                                | _ => λ _, None
                                end a
                  end) l.


(** dc1 has two nodes and is the last data centre: its statefulset is deleted. *)
Definition last_dc1 : CassandraCluster := simple_cluster 2 [simple_dc "dc2" ["rack1"]; simple_dc "dc1" ["rack1"]].
Definition without_dc1 : CassandraCluster :=
  (simple_cluster 2 [simple_dc "dc2" ["rack1"]]) <| cc_Status := cc_Status (InitCassandraRackList last_dc1).1 |>.
Example removed_last_dc1_unchecked :
  observe (λ r e', (r, deleted_sts (log e'))) (CheckTopologyChanges last_dc1)
    (start (empty_cluster <| f_sts := {[ "cassandra-demo-dc1-rack1" := demo_sts "10Gi" ]} |>) without_dc1) =
  Some ((true, Name ActionDeleteDC), Some ("ns", "cassandra-demo-dc1-rack1", false, None)).
Proof. vm_compute. reflexivity. Qed.

(** A scale down to zero while keyspace ks1 still has data in dc1. *)
Definition zero_env (ring : string) : Env FakeCluster :=
  start ((upsize_world "20Gi") <| f_jolokia := {[ "Keyspaces" := JList [JString "system"; JString "ks1"];
                                                "describeRingJMX" := JList [JString ring] ]} |>)
    (upsize_cc <| cc_Spec ::= λ s, s <| spec_Topology ::= fmap (λ d, d <| dc_NodesPerRacks := Some 0%Z |>) |> |>).
Example zero_with_data_refused :
  observe (λ r _, r) (CheckNonAllowedScaleDown upsize_cc) (zero_env "TokenRange(datacenter:dc1)") = Some true ∧
  observe (λ r _, r) (CheckNonAllowedScaleDown upsize_cc) (zero_env "TokenRange(datacenter:dc2)") = Some false.
Proof. vm_compute. auto. Qed.

(** The data centres are told apart by a prefix: data in dc10 keeps dc1. *)
Example zero_refused_for_prefix :
  observe (λ r _, r) (CheckNonAllowedScaleDown upsize_cc) (zero_env "TokenRange(datacenter:dc10)") = Some true.
Proof. vm_compute. reflexivity. Qed.

(** Every listing in a log has a live pod. *)
Definition listed_alive (l : list (Event (QL:=SampleQuantities))) : bool :=
  forallb (λ ev, match ev with
                 | Ev _ r a => match r in Req A return A → bool with
                               | ApiListPods _ _ => λ a, match a with Ok pods => existsb alive pods | Err _ => true end
                               | _ => λ _, true
                               end a
                 end) l.
(** One keyspace, without data in dc1: the node was asked and the scale down passes. *)
Lemma scale_to_zero_needs_no_data_witness :
  ∃ e' pods, CheckNonAllowedScaleDown upsize_cc (zero_env "TokenRange(datacenter:dc2)") = Ret (false, e') ∧ pods ≠ [] ∧
    ∃ before pod after jc e1, pods = before ++ pod :: after ∧ alive pod = true ∧
      jc_host jc = PodHostname pod ∧ NonLocalKeyspacesInDC jc "dc1" e1 = Ret (Ok [], e').
Proof.
  destruct (observe_Some (λ r e', (r, listed_alive (log e'))) (CheckNonAllowedScaleDown upsize_cc) (zero_env "TokenRange(datacenter:dc2)") (false, true))
    as (r & e' & Hrun & Hr); [vm_compute; reflexivity|]. cbn in Hr. injection Hr as -> Halive.
  destruct (scale_to_zero_needs_no_data upsize_cc (zero_env "TokenRange(datacenter:dc2)") e' false 0 Hrun)
    as (_ & pods & (l & Hl & Hin) & H); [vm_compute; lia|reflexivity|intros i Hi; inversion Hi|].
  cbn in Hl. rewrite Hl in Halive. unfold listed_alive in Halive. rewrite forallb_forall in Halive.
  apply list_elem_of_In, Halive in Hin. cbn in Hin. apply existsb_exists in Hin as (p & Hp%list_elem_of_In & Hpa).
  destruct H as [H|(before & pod & after & jc & e1 & Hpods & _ & Ha & Hh & _ & Hk)]; [rewrite (H p Hp) in Hpa; discriminate Hpa|].
  exists e', pods. split; [exact Hrun|]. split; [intros ->; by apply not_elem_of_nil in Hp|].
  exists before, pod, after, jc, e1. split; [exact Hpods|]. split; [exact Ha|]. split; [exact Hh|exact Hk].
Defined.

(** dc0 has no nodes any more; dc1 is set to zero while ks1 has data in it, and passes. *)
Definition two_dcs (n0 n1 : Z) : CassandraCluster :=
  upsize_cc <| cc_Spec ::= λ s, s <| spec_Topology :=
    [(simple_dc "dc0" ["rack1"]) <| dc_NodesPerRacks := Some n0 |>; (simple_dc "dc1" ["rack1"]) <| dc_NodesPerRacks := Some n1 |>] |> |>.
Definition two_dcs_env (n0 n1 : Z) : Env FakeCluster :=
  start (world (zero_env "TokenRange(datacenter:dc1)")) (two_dcs n0 n1).
Example second_dc_unchecked :
  observe (λ r _, r) (CheckNonAllowedScaleDown (two_dcs 0 2)) (two_dcs_env 0 0) = Some false ∧
  observe (λ r _, r) (CheckNonAllowedScaleDown (two_dcs 2 2)) (two_dcs_env 2 0) = Some true.
Proof. vm_compute. auto. Qed.
End instances.
