(* ===== verification/Reconcile.v ===== *)
(** * The reconcile loop (src/controllers/cassandracluster: reconcile.go, cassandracluster_controller.go)

    One loop reads the resource, refuses what may not change, goes through the racks
    in their order and stops at the first one that is busy, and writes the status it
    computed back. *)
From S2P Require Import Prelude KubeObjects Types ClusterApi K8sUtil Server Pods NodeOperations.
From S2P Require Import FakeCluster StorageUpsize StatefulSets ClusterPods Status Decommission PodOperations ChangeChecks.

(** What the body of the loop over the racks does: go on (the rack may have been
    added to the status just now), return, or not end (a finalisation that never
    succeeds). *)
Inductive RackOutcome :=
| NextRack (added : bool)
| Return (err : option error)
| Diverges.

Section reconcile.
Context {QL : QuantityLib} {Codec : StsCodec} {CfgCodec : ConfigCodec} {Diff : SliceDiff} {TDiff : TopologyDiff}.
Context {Patch : PatchLib} {Gen : StatefulSetGenerator} {W : Type} {Srv : ApiServer W}.

(** ** waitForStatefulSetToBeUpdated

    The goroutine reads the budget every half second; within the ten seconds the
    caller waits that is twenty readings.  (The goroutine is never stopped: it goes
    on after the caller has left, and overwrites [rcc.storedPdb].) *)
Fixpoint monitorDisruption (polls : nat) (ns name : string) : M W unit :=
  match polls with
  | 0 => mret tt
  | S polls =>
      '(pdb, err) ← GetPodDisruptionBudget ns name;
      _ ← modify (λ e : Env W, e <| rcc_storedPdb := Some pdb |>);
      match err with
      | Some _ => monitorDisruption polls ns name
      | None => if no_disruption pdb then monitorDisruption polls ns name else mret tt
      end
  end.
Definition waitForStatefulSetToBeUpdated : M W unit :=
  cc ← get_cc;
  let pdb := podDisruptionBudgetEnvelope cc in
  monitorDisruption 20 (m_Namespace (pdb_Meta pdb)) (m_Name (pdb_Meta pdb)).

(** ** ReconcileRack *)

(** Pod operations; when they end the loop for this rack, whether the next rack is
    looked at. *)
Definition podOperations (fuel : nat) (n : CompleteRackName) (sts : StatefulSet) : M W (option RackOutcome) :=
  let k := crn_DcRackName n in
  rs ← rack_status k;
  if rs_Phase rs != Name ClusterPhaseInitial then
    r ← handlePodOperation fuel (crn_DcName n) (crn_RackName n) (IsStatefulSetReady sts);
    match r with
    | None => mret (Some Diverges)
    | Some (breakResyncloop, _) =>
        if breakResyncloop : bool then
          rs ← rack_status k;
          let a := la_Status (rs_LastAction rs) in
          if (rs_Phase rs != Name ClusterPhaseRunning) || (a == StatusToDo) || (a == StatusOngoing) || (a == StatusContinue)
          then mret (Some (Return None))
          else mret (Some (NextRack false))
        else mret None
    end
  else mret None.

(** The state machine of the rack, on the statefulset that was read. *)
Definition rackActions (fuel : nat) (n : CompleteRackName) (dc rack : nat) (sts : StatefulSet)
  : M W (option RackOutcome) :=
  _ ← UpdateCassandraRackStatusPhase n sts;
  _ ← getNextCassandraClusterStatus n dc rack sts;
  podOperations fuel n sts.

Definition clearUnlock : M W unit :=
  cc ← get_cc;
  if UnlockNextOperation (cc_Spec cc) then
    _ ← modify_cc (λ cc, cc <| cc_Spec ::= λ s, s <| UnlockNextOperation := false |> |>);
    set_needUpdate true
  else mret tt.

(** The statefulset is created or updated; a rack that is not running, or whose action
    goes on, ends the loop. *)
Definition updateStatefulSet (n : CompleteRackName) (dc rack : nat) : M W RackOutcome :=
  '(breakLoop, _) ← ensureCassandraStatefulSet n dc rack;
  _ ← clearUnlock;
  if breakLoop : bool then
    st ← get_status;
    _ ← (if (s_LastClusterAction st == Name ActionUpdateSeedList) && (s_LastClusterActionStatus st == StatusConfiguring)
         then waitForStatefulSetToBeUpdated else mret tt);
    mret (Return None)
  else
    rs ← rack_status (crn_DcRackName n);
    let a := la_Status (rs_LastAction rs) in
    if (rs_Phase rs != Name ClusterPhaseRunning) || ((a == StatusOngoing) || (a == StatusFinalizing))
    then mret (Return None) else mret (NextRack false).

(** A running storage upsize replaces the update of the statefulset. *)
Definition upsizeOrUpdate (n : CompleteRackName) (dc rack : nat) (sts : StatefulSet) (getStsErr : option error)
  : M W RackOutcome :=
  rs ← rack_status (crn_DcRackName n);
  if IsStarted rs then
    match getStsErr with
    | Some e =>
        if IsNotFound e then
          _ ← modify (λ e : Env W, e <| rcc_storedStatefulSet := None |>);
          err ← ReconcileStorageUpsize n; mret (Return err)
        else mret (Return None)
    | None =>
        _ ← modify (λ e : Env W, e <| rcc_storedStatefulSet := Some sts |>);
        err ← ReconcileStorageUpsize n; mret (Return err)
    end
  else updateStatefulSet n dc rack.

Definition deleting (cc : CassandraCluster) : bool :=
  bool_decide (m_DeletionTimestamp (cc_Meta cc) ≠ None) && DeletePVC (cc_Spec cc).

Definition reconcileOneRack (fuel : nat) (i : nat * nat) : M W RackOutcome :=
  cc ← get_cc;
  let n := rackNameAt cc i in
  let k := crn_DcRackName n in
  if k == "" then mret (Return (Some bad_names))
  else
    st ← get_status;
    match s_RackStatus st !! k with
    | None =>
        _ ← call (PhaseMetric ClusterPhaseInitial (cc_Name cc));
        _ ← modify_status (InitCassandraRackStatus (crn_DcName n) (crn_RackName n));
        mret (NextRack true)
    | Some _ =>
        if deleting cc then _ ← DeletePVCs cc (crn_DcName n) (crn_RackName n); mret (NextRack false)
        else
          '(sts, getStsErr) ← GetStatefulSet (cc_Namespace cc) (cc_Name cc +:+ "-" +:+ k);
          stop ← match getStsErr with
                 | Some _ => mret None
                 | None => rackActions fuel n i.1 i.2 sts
                 end;
          match stop with
          | Some o => mret o
          | None =>
              _ ← ensureCassandraService;
              _ ← ensureCassandraServiceMonitoring;
              upsizeOrUpdate n i.1 i.2 sts getStsErr
          end
    end.

Fixpoint reconcileRacks (fuel : nat) (racks : list (nat * nat)) (newStatus : bool) : M W RackOutcome :=
  match racks with
  | [] => mret (NextRack newStatus)
  | i :: racks =>
      o ← reconcileOneRack fuel i;
      match o with
      | NextRack added => reconcileRacks fuel racks (newStatus || added)
      | _ => mret o
      end
  end.

(** [None] is a loop that does not end. *)
Definition ReconcileRack (fuel : nat) : M W (option (option error)) :=
  cc ← get_cc;
  o ← reconcileRacks fuel (rack_indices cc) false;
  match o with
  | Return err => mret (Some err)
  | Diverges => mret None
  | NextRack newStatus =>
      cc ← get_cc;
      if newStatus then mret (Some None)
      else if deleting cc then
        _ ← modify_cc (preventClusterDeletion false);
        err ← updateResource; mret (Some err)
      else mret (Some None)
  end.

(** ** UpdateCassandraClusterStatusPhase *)

(** The loop over the racks: the status, whether an action goes on, and whether the
    function returned at a rack that is not running. *)
Fixpoint clusterPhase_loop (cc : CassandraCluster) (racks : list (nat * nat)) (st : CassandraClusterStatus) (set : bool)
  : CassandraClusterStatus * bool * bool :=
  match racks with
  | [] => (st, set, false)
  | i :: racks =>
      match s_RackStatus st !! crn_DcRackName (rackNameAt cc i) with
      | None => clusterPhase_loop cc racks st set
      | Some rs =>
          let a := rs_LastAction rs in
          let '(st, set) := if la_Status a != StatusDone
                            then (st <| s_LastClusterActionStatus := la_Status a |> <| s_LastClusterAction := la_Name a |>, true)
                            else (st, set) in
          if rs_Phase rs != Name ClusterPhaseRunning then (st <| s_Phase := rs_Phase rs |>, set, true)
          else clusterPhase_loop cc racks st set
      end
  end.

Definition clusterRunning (cc : CassandraCluster) (f : CassandraClusterStatus → CassandraClusterStatus) : M W unit :=
  _ ← modify_status (λ st, f st <| s_Phase := Name ClusterPhaseRunning |>);
  call (PhaseMetric ClusterPhaseRunning (cc_Name cc)).

Definition UpdateCassandraClusterStatusPhase : M W unit :=
  cc ← get_cc;
  st ← get_status;
  let '(st, setLastClusterActionStatus, returned) := clusterPhase_loop cc (rack_indices cc) st false in
  _ ← modify_status (λ _, st);
  if returned : bool then mret tt
  else
    _ ← (if negb setLastClusterActionStatus && (s_LastClusterActionStatus st != StatusDone)
         then clusterRunning cc (λ st, st <| s_LastClusterActionStatus := StatusDone |>) else mret tt);
    st ← get_status;
    if (s_Phase st != Name ClusterPhaseRunning) && (s_LastClusterActionStatus st == StatusDone)
    then clusterRunning cc (λ st, st) else mret tt.

(** ** EnsureSeedListIsUpdatedWhenRequired *)
Definition configuring (a : CassandraLastAction) : bool :=
  (la_Name a == Name ActionUpdateSeedList) && (la_Status a == StatusConfiguring).

(** The racks of one data centre: the first one that is not configuring decides, the
    [break] leaves the others out. *)
Fixpoint seedListReady_dc (cc : CassandraCluster) (st : CassandraClusterStatus) (racks : list (nat * nat)) : outcome bool :=
  match racks with
  | [] => mret true
  | i :: racks =>
      rs ← deref (s_RackStatus st !! crn_DcRackName (rackNameAt cc i));
      if configuring (rs_LastAction rs) then seedListReady_dc cc st racks
      else mret (la_Name (rs_LastAction rs) == Name ClusterPhaseInitial)
  end.
Fixpoint seedListReady (cc : CassandraCluster) (st : CassandraClusterStatus) (dcs : list nat) : outcome bool :=
  match dcs with
  | [] => mret true
  | dc :: dcs =>
      b ← seedListReady_dc cc st (pair dc <$> seq 0 (GetRackSize cc dc));
      b' ← seedListReady cc st dcs;
      mret (b && b')
  end.

Definition EnsureSeedListIsUpdatedWhenRequired : M W unit :=
  cc ← get_cc;
  st ← get_status;
  if (s_LastClusterAction st == Name ActionUpdateSeedList) && (s_LastClusterActionStatus st == StatusConfiguring) then
    setOperationToDo ← lift (seedListReady cc st (seq 0 (GetDCSize cc)));
    if setOperationToDo : bool then
      range_do (rack_indices cc) (λ i,
        let k := crn_DcRackName (rackNameAt cc i) in
        rs ← rack_status k;
        if rs_Phase rs == Name ClusterPhaseInitial then mret tt
        else
          _ ← set_action k (λ a, a <| la_Name := Name ActionUpdateSeedList |>);
          _ ← call (ActionMetric ActionUpdateSeedList (cc_Name cc));
          set_action k (λ a, a <| la_Status := StatusToDo |>))
    else mret tt
  else mret tt.

(** ** Reconcile *)
Record Result := mkResult { Requeue : bool; RequeueAfter : Z }.
Definition forget : Result := mkResult false 0.
Definition requeue : Result := mkResult true 0.
Definition requeue5 : Result := mkResult false (5 * second).
Definition requeue30 : Result := mkResult false (30 * second).

(** The part that runs with the status of the loop; [None] does not end. *)
Definition reconcileBody (fuel : nat) : M W (option (Result * option error)) :=
  refused ← CheckNonAllowedChanges;
  if refused : bool then mret (Some (requeue30, None))
  else
    _ ← ensureCassandraPodDisruptionBudget;
    _ ← CheckPodsState;
    r ← ReconcileRack fuel;
    match r with
    | None => mret None
    | Some (Some e) => mret (Some (requeue5, Some e))
    | Some None =>
        _ ← EnsureSeedListIsUpdatedWhenRequired;
        _ ← UpdateCassandraClusterStatusPhase;
        mret (Some (requeue5, None))
    end.

(** The first loop of a resource sets its defaults. *)
Definition initializeResource : M W (Result * option error) :=
  cc ← get_cc;
  let st := cc_Status cc in
  _ ← modify_cc updateDeletePvcStrategy;
  err ← updateResource;
  match err with
  | Some e => mret (requeue, Some e)
  | None =>
      _ ← modify_cc (λ cc, cc <| cc_Status := st |>);
      cc ← get_cc;
      r ← call (ApiUpdateCCStatus cc);
      match r with
      | Ok rv => _ ← modify_cc (λ cc, cc <| cc_Meta ::= λ m, m <| m_ResourceVersion := rv |> |>); mret (requeue, None)
      | Err e => mret (requeue, Some e)
      end
  end.

Definition Reconcile (fuel : nat) (ns name : string) : M W (option (Result * option error)) :=
  _ ← modify_cc (λ _, mkCC (named "" "") Spec_zero Status_zero);
  r ← call (ApiGetCC ns name);
  match r with
  | Err e => if IsNotFound e then mret (Some (forget, None)) else mret (Some (forget, Some e))
  | Ok cc =>
      _ ← modify_cc (λ _, cc);
      let '(cc, changed) := if s_Phase (cc_Status cc) == "" then SetDefaults cc else (cc, false) in
      _ ← modify_cc (λ _, cc);
      if changed : bool then r ← initializeResource; mret (Some r)
      else
        _ ← modify_cc CheckDefaults;
        err ← CheckDeletePVC;
        match err with
        | Some e => mret (Some (forget, Some e))
        | None =>
            cc ← get_cc;
            _ ← modify_status (λ _, cc_Status cc);
            r ← reconcileBody fuel;
            match r with
            | None => mret None
            | Some r => _ ← updateCassandraStatus; mret (Some r)
            end
        end
  end.
End reconcile.


(** ** What the work on one rack leaves alone *)
Section around.
Context {QL : QuantityLib} {W : Type} {Srv : ApiServer W}.
Implicit Types e : Env W.

(** The names of the racks and the deletion of the resource do not change. *)
Definition same_racks (cc cc' : CassandraCluster) : Prop :=
  (∀ i, rackNameAt cc' i = rackNameAt cc i) ∧ deleting cc' = deleting cc.

(** Requests that change a statefulset. *)
Definition sts_write (ev : Event) : bool :=
  match ev with
  | Ev _ r _ =>
      match r with
      | ApiCreateStatefulSet _ | ApiUpdateStatefulSet _ | ApiDeleteStatefulSet _ _ _ => true
      | _ => false
      end
  end.
Definition no_sts_write (ev : Event) : Prop := sts_write ev = false.
Definition any_event (ev : Event) : Prop := True.

(** Between [e] and [e'] only the entry of rack [k] changed, with requests in [P]. *)
Definition around (P : Event → Prop) (k : string) (e e' : Env W) : Prop :=
  (∀ k', k' ≠ k → s_RackStatus (status e') !! k' = s_RackStatus (status e) !! k') ∧
  same_racks (rcc_cc e) (rcc_cc e') ∧ logs P e e'.
#[global] Instance around_preorder P k : PreOrder (around P k).
Proof.
  split; [by intros e; repeat split; apply logs_same|].
  intros e1 e2 e3 (E1 & (N1 & D1) & L1) (E2 & (N2 & D2) & L2).
  split; [intros k' Hk; by rewrite E2, E1|]. split; [split; [intros i; by rewrite N2|congruence]|by etrans].
Qed.

Lemma around_any P k e e' : around P k e e' → around any_event k e e'.
Proof. intros (He & Hr & Hl). split; [done|]. split; [done|]. by eapply logs_mono. Qed.

Lemma around_call P k {A} (r : Req A) : (∀ a, P (Ev _ r a)) → keeps (around P k) (call r).
Proof. intros HP. apply keeps_call. intros e a w. repeat split. apply logs_call, HP. Qed.
Lemma around_set_rack P k f : keeps (around P k) (set_rack k f).
Proof.
  apply keeps_set_rack. intros e. split; [|by repeat split; apply logs_same]. intros k' Hk. by apply on_rack_lookup_ne.
Qed.
Lemma around_set_action P k f : keeps (around P k) (set_action k f).
Proof. apply around_set_rack. Qed.
Lemma around_set_podop P k f : keeps (around P k) (set_podop k f).
Proof. apply around_set_rack. Qed.
Lemma around_modify P k (f : Env W → Env W) :
  (∀ e, status (f e) = status e ∧ rcc_cc (f e) = rcc_cc e ∧ log (f e) = log e) → keeps (around P k) (modify f).
Proof.
  intros Hf. apply keeps_modify. intros e. destruct (Hf e) as (E1 & E2 & E3). unfold around. rewrite E1, E2.
  repeat split. by apply logs_same.
Qed.
Lemma around_modify_cc P k f : (∀ cc, same_racks cc (f cc)) → keeps (around P k) (modify_cc f).
Proof. intros Hf. apply keeps_modify. intros e. split; [done|]. split; [apply Hf|by apply logs_same]. Qed.
Lemma around_seeds P k g : keeps (around P k) (modify_status (W:=W) (λ st, st <| s_SeedList := g |>)).
Proof. apply keeps_modify. intros e. repeat split. by apply logs_same. Qed.
Lemma quiet_around (P P' : Event → Prop) k e e' : (∀ ev, P ev → P' ev) → quiet P e e' → around P' k e e'.
Proof. intros HP (Hl & Hcc & Hst & _). unfold around. rewrite Hcc, Hst. repeat split. by eapply logs_mono. Qed.
Lemma keeps_around (P P' : Event → Prop) k {A} (m : M W A) :
  (∀ ev, P ev → P' ev) → keeps (quiet P) m → keeps (around P' k) m.
Proof. intros HP Hm. exact (keeps_mono _ _ _ (λ e e', quiet_around P P' k e e' HP) Hm). Qed.

Lemma read_only_no_write ev : read_only ev → no_sts_write ev.
Proof. by destruct ev as [A []]. Qed.
Lemma labels_no_write ev : labels_only ev → no_sts_write ev.
Proof. by destruct ev as [A []]. Qed.

(** Assignments that leave the topology's names and the metadata alone. *)
Lemma same_racks_ext cc cc' :
  topology cc' = topology cc → m_DeletionTimestamp (cc_Meta cc') = m_DeletionTimestamp (cc_Meta cc) →
  DeletePVC (cc_Spec cc') = DeletePVC (cc_Spec cc) → same_racks cc cc'.
Proof.
  intros Ht Hm Hd. split; [|unfold deleting; by rewrite Hm, Hd].
  intros i. unfold rackNameAt, GetDCName, GetRackName. by rewrite Ht.
Qed.

Lemma same_racks_restart dc rack cc : same_racks cc (clear_restart dc rack cc).
Proof.
  split; [|done]. intros [i j]. unfold rackNameAt, GetDCName, GetRackName, clear_restart, topology. cbn.
  destruct (decide (i = dc)) as [->|Hne]; [|by rewrite list_lookup_alter_ne].
  rewrite list_lookup_alter_eq. destruct (_ !! dc) as [d|]; cbn; [|done].
  destruct (decide (j = rack)) as [->|Hne]; [|by rewrite list_lookup_alter_ne].
  rewrite list_lookup_alter_eq. by destruct (_ !! rack).
Qed.
End around.
#[export] Hint Resolve around_set_rack around_set_action around_set_podop around_seeds : keeps.
#[export] Hint Extern 1 (keeps (around _ _) (call _)) => apply around_call; done : keeps.
#[export] Hint Extern 2 (keeps (around _ _) (modify _)) => apply around_modify; by intros : keeps.
#[export] Hint Extern 3 (keeps (around _ _) (modify_cc _)) =>
  apply around_modify_cc; intros; solve [apply same_racks_restart | by apply same_racks_ext] : keeps.
#[export] Hint Extern 9 (keeps (around no_sts_write _) _) =>
  apply (keeps_around read_only); [exact read_only_no_write|solve [eauto with keeps]] : keeps.
#[export] Hint Extern 9 (keeps (around any_event _) _) => apply (keeps_around read_only); [done|solve [eauto with keeps]] : keeps.

Section rack_frames.
Context {QL : QuantityLib} {Codec : StsCodec} {CfgCodec : ConfigCodec} {Diff : SliceDiff}.
Context {Patch : PatchLib} {Gen : StatefulSetGenerator} {W : Type} {Srv : ApiServer W}.

Lemma phase_around n sts : keeps (around no_sts_write (crn_DcRackName n)) (UpdateCassandraRackStatusPhase (W:=W) n sts).
Proof. unfold UpdateCassandraRackStatusPhase, initializing, setDecommissionStatus. keeps_steps. Qed.

Lemma labels_around k cc n l : keeps (around no_sts_write k) (addPodOperationLabels (W:=W) cc n l).
Proof. apply (keeps_around labels_only _ _ _ labels_no_write), addPodOperationLabels_quiet. Qed.

Lemma ended_around n sts : keeps (around no_sts_write (crn_DcRackName n)) (UpdateStatusIfActionEnded (W:=W) n sts).
Proof. unfold UpdateStatusIfActionEnded, endScaleUp, endScaleDown, setDone. keeps_steps; apply labels_around. Qed.

Lemma first_true_around k (l : list (M W bool)) : Forall (keeps (around no_sts_write k)) l → keeps (around no_sts_write k) (first_true l).
Proof. induction 1 as [|m l Hm _ IH]; simpl; keeps_steps; auto. Qed.

Lemma detections_around n dc rack sts : Forall (keeps (around no_sts_write (crn_DcRackName n))) (detections (W:=W) n dc rack sts).
Proof.
  unfold detections. repeat constructor;
    unfold UpdateStatusIfconfigMapHasChanged, UpdateStatusIfDockerImageHasChanged, UpdateStatusIfStorageUpsize,
      UpdateStatusIfScaling, UpdateStatusIfSeedListHasChanged, UpdateStatusIfRollingRestart, setDecommissionStatus,
      UpdateStatusIfStatefulSetChanged, ShouldBeStarted, living, LivingStatefulSet, startUpsizeAction, setAction;
    keeps_steps.
Qed.

Lemma next_around n dc rack sts :
  keeps (around no_sts_write (crn_DcRackName n)) (getNextCassandraClusterStatus (W:=W) n dc rack sts).
Proof.
  unfold getNextCassandraClusterStatus, needToWaitDelayBeforeCheck, mayStartAction, hasNoPodDisruption,
    startUpdateResources.
  keeps_steps; auto using ended_around, first_true_around, detections_around.
Qed.

Lemma writeStatus_around k cc st : keeps (around no_sts_write k) (writeStatus (W:=W) cc st).
Proof. unfold writeStatus. keeps_steps. Qed.

Lemma writeStatus_same cc st (e : Env W) : wp (writeStatus cc st) (λ r _, same_racks cc r.1) e.
Proof.
  unfold writeStatus. cbv zeta. apply wp_bind, wp_gets. destruct (_ && _); [by apply wp_ret|].
  apply wp_bind, wp_modify, wp_bind, wp_call. intros r w. apply wp_bind, wp_call. intros r' w'. apply wp_ret.
  destruct r as [[rv stored]|], r'; by apply same_racks_ext.
Qed.

Lemma updateCassandraStatus_around k : keeps (around no_sts_write k) (updateCassandraStatus (W:=W)).
Proof.
  intros e. unfold updateCassandraStatus. apply wp_bind, wp_gets, wp_bind, wp_gets, wp_bind.
  eapply wp_mono; [apply wp_and; [apply writeStatus_same|apply (writeStatus_around k)]|].
  intros [cc err] e1 [Hcc (He & Hn & Hd)]. apply wp_bind, wp_modify, wp_ret. split; [exact He|split; [exact Hcc|exact Hd]].
Qed.
Lemma saveStatus_around k : keeps (around no_sts_write k) (saveStatus (W:=W)).
Proof. unfold saveStatus. keeps_steps. apply updateCassandraStatus_around. Qed.

Lemma UpdatePodLabel_around k pod labels : keeps (around no_sts_write k) (UpdatePodLabel (W:=W) pod labels).
Proof. apply (keeps_around labels_only _ _ _ labels_no_write), UpdatePodLabel_quiet. Qed.
#[local] Hint Resolve updateCassandraStatus_around saveStatus_around UpdatePodLabel_around writeStatus_around
  pods_by_name_quiet : keeps.

Lemma decommission_around dcName rackName ready :
  keeps (around no_sts_write (GetDCRackName dcName rackName)) (ensureDecommission (W:=W) dcName rackName ready).
Proof.
  unfold ensureDecommission, ensureDecommissionToDo, ensureDecommissionFinalizing, ensureDecommissionOngoing,
    ensureDecommissionDone, deletePodPVC, deletePVC, spawn. keeps_steps.
Qed.

Lemma finalize_loop_around k fuel pod labels cc : keeps (around no_sts_write k) (finalize_loop (W:=W) fuel pod labels cc).
Proof. revert cc. induction fuel as [|fuel IH]; intros cc; cbn [finalize_loop]; keeps_steps; apply IH. Qed.

Lemma finalize_around k rounds fuel i : keeps (around no_sts_write k) (finalizeOperations_from (W:=W) rounds fuel i).
Proof.
  revert i. induction rounds as [|rounds IH]; intros i; cbn [finalizeOperations_from]; unfold finalizeOperation;
    keeps_steps; try apply IH; try apply finalize_loop_around.
Qed.

(** The names of the rack come back from its composed name. *)
Definition splits (n : CompleteRackName) : Prop :=
  GetDCNameAndRackNameFromDCRackName (crn_DcRackName n) = Ret (crn_DcName n, crn_RackName n) ∧
  crn_DcRackName n = GetDCRackName (crn_DcName n) (crn_RackName n).

Lemma initOperation_around dcName rackName operationName :
  keeps (around no_sts_write (GetDCRackName dcName rackName)) (initOperation (W:=W) dcName rackName operationName).
Proof. unfold initOperation. keeps_steps. Qed.

Lemma podsSlice_around n p operationName operatorName :
  splits n → keeps (around no_sts_write (crn_DcRackName n)) (podsSlice (W:=W) p (crn_DcRackName n) operationName operatorName).
Proof.
  intros [Hs Hk] e. unfold podsSlice. apply wp_bind, wp_gets. destruct (_ && _).
  - apply wp_bind. eapply (wp_keeps (around no_sts_write (crn_DcRackName n))); [keeps_steps|]. intros l e' He. by apply wp_ret.
  - apply wp_bind, wp_lift. rewrite Hs. intros ? [= <-]. apply wp_bind. eapply wp_keeps; [apply initOperation_around|].
    intros pods e' He. apply wp_ret. rewrite Hk. exact He.
Qed.

Lemma ensureOperation_around n operationName :
  splits n → keeps (around no_sts_write (crn_DcRackName n)) (ensureOperation (W:=W) (crn_DcName n) (crn_RackName n) operationName).
Proof.
  intros Hn. pose proof Hn as [_ Hk]. unfold ensureOperation, getPodsToWorkOn, startOperation, spawn. rewrite <- Hk.
  keeps_steps; by apply podsSlice_around.
Qed.

Lemma handle_around fuel n ready :
  splits n → keeps (around no_sts_write (crn_DcRackName n)) (handlePodOperation (W:=W) fuel (crn_DcName n) (crn_RackName n) ready).
Proof.
  intros Hn. pose proof Hn as [_ Hk]. unfold handlePodOperation, finalizeOperations, randomPodOperationKey.
  keeps_steps; [rewrite Hk; apply decommission_around|apply finalize_around|by apply ensureOperation_around].
Qed.

Lemma rackActions_around fuel n dc rack sts :
  splits n → keeps (around no_sts_write (crn_DcRackName n)) (rackActions (W:=W) fuel n dc rack sts).
Proof.
  intros Hn. unfold rackActions, podOperations.
  keeps_steps; [apply phase_around|apply next_around|by apply handle_around].
Qed.

Lemma monitorDisruption_around k polls ns name : keeps (around any_event k) (monitorDisruption (W:=W) polls ns name).
Proof.
  induction polls as [|polls IH]; cbn [monitorDisruption]; unfold GetPodDisruptionBudget; keeps_steps; exact IH.
Qed.

Lemma writeExisting_around s stored now k : keeps (around any_event k) (writeExisting (W:=W) s stored now k).
Proof.
  unfold writeExisting. keeps_steps. apply (keeps_around any_event); [done|]. by apply UpdateStatefulSet_quiet.
Qed.

Lemma updateStatefulSet_around n dc rack :
  keeps (around any_event (crn_DcRackName n)) (updateStatefulSet (W:=W) n dc rack).
Proof.
  unfold updateStatefulSet, ensureCassandraStatefulSet, CreateOrUpdateStatefulSet, hasNoPodDisruption, updateExisting,
    CreateStatefulSet, GetStatefulSet, clearUnlock, set_needUpdate, waitForStatefulSetToBeUpdated.
  keeps_steps; auto using writeExisting_around, monitorDisruption_around.
Qed.

Lemma ensureAllPVCs_around k q pvcs b err : keeps (around any_event k) (ensureAllPVCs_loop (W:=W) q pvcs b err).
Proof.
  revert b err. induction pvcs as [|pvc pvcs IH]; intros b err; cbn [ensureAllPVCs_loop]; unfold UpdatePVC; keeps_steps;
    apply IH.
Qed.

Lemma run_steps_around k (steps : list (upsize_step (W:=W))) pvcs :
  Forall (λ step, ∀ l, keeps (around any_event k) (step l)) steps → keeps (around any_event k) (run_steps steps pvcs).
Proof.
  intros Hsteps. revert pvcs. induction Hsteps as [|step steps Hstep _ IH]; intros pvcs; cbn [run_steps]; keeps_steps; auto.
Qed.

Lemma upsize_steps_around n q :
  Forall (λ step, ∀ l, keeps (around any_event (crn_DcRackName n)) (step l)) (upsize_steps (W:=W) n q).
Proof.
  unfold upsize_steps. repeat (apply Forall_cons_2; [intros l|]; [
    unfold plain, makeOldStatefulSetSnapshot, removeStatefulSetOrphan, DeleteStatefulSetWithOrphanOption,
      recreateStatefulSetWithNewCapacity, unmarshallSnapshottedStatefulSet, CreateStatefulSet, fetchDataPvcs, getAllDataPvcs,
      ListPVC, ensureAllPVCsHaveNewCapacity, waitTillAllFilesystemsHaveNewCapacity,
      waitTillStatefulSetAndAllPodsAreReady, requestedCapacity, rack_labels, living, LivingStatefulSet, finalizeUpsizeAction;
    keeps_steps; apply ensureAllPVCs_around|]).
  apply Forall_nil_2.
Qed.

Lemma upsize_around n : keeps (around any_event (crn_DcRackName n)) (ReconcileStorageUpsize (W:=W) n).
Proof.
  unfold ReconcileStorageUpsize, Reconcile_upsize. keeps_steps. apply run_steps_around, upsize_steps_around.
Qed.

Lemma upsizeOrUpdate_around n dc rack sts err :
  keeps (around any_event (crn_DcRackName n)) (upsizeOrUpdate (W:=W) n dc rack sts err).
Proof. unfold upsizeOrUpdate. keeps_steps; auto using upsize_around, updateStatefulSet_around. Qed.
End rack_frames.

(** ** At most one statefulset is changed *)
Section one_write.
Context {QL : QuantityLib} {Codec : StsCodec} {CfgCodec : ConfigCodec} {Diff : SliceDiff}.
Context {Patch : PatchLib} {Gen : StatefulSetGenerator} {W : Type} {Srv : ApiServer W}.
Implicit Types e : Env W.

Definition at_most_one_write e e' : Prop :=
  ∃ l, log e' = log e ++ l ∧ length (List.filter sts_write l) ≤ 1.

Lemma no_write_filter l : Forall no_sts_write l → List.filter sts_write l = [].
Proof. induction 1 as [|ev l Hev _ IH]; simpl; [done|]. unfold no_sts_write in Hev. by rewrite Hev. Qed.

Lemma at_most_one_none e e' : logs no_sts_write e e' → at_most_one_write e e'.
Proof. intros (l & E & Hl). exists l. split; [done|]. rewrite no_write_filter by done. simpl. lia. Qed.
Lemma at_most_one_l e e1 e2 : logs no_sts_write e e1 → at_most_one_write e1 e2 → at_most_one_write e e2.
Proof.
  intros (l1 & E1 & H1) (l2 & E2 & H2). exists (l1 ++ l2). rewrite E2, E1, (assoc_L (++)). split; [done|].
  by rewrite List.filter_app, no_write_filter.
Qed.
Lemma at_most_one_r e e1 e2 : at_most_one_write e e1 → logs no_sts_write e1 e2 → at_most_one_write e e2.
Proof.
  intros (l1 & E1 & H1) (l2 & E2 & H2). exists (l1 ++ l2). rewrite E2, E1, (assoc_L (++)). split; [done|].
  by rewrite List.filter_app, (no_write_filter l2), app_nil_r.
Qed.
Lemma at_most_one_call {A} (r : Req A) e a w :
  at_most_one_write e (e <| world := w |> <| log ::= λ l, l ++ [Ev _ r a] |>).
Proof. exists [Ev _ r a]. split; [done|]. cbn [List.filter]. destruct (sts_write _); cbn; lia. Qed.

(** [m] changes at most one statefulset, and when it does its result asks to stop. *)
Definition stops_on_write {A} (stop : A → bool) (m : M W A) : Prop := ∀ e,
  wp m (λ a e', logs no_sts_write e e' ∨ at_most_one_write e e' ∧ stop a = true) e.

Lemma stops_none {A} (stop : A → bool) (m : M W A) : keeps (logs no_sts_write) m → stops_on_write stop m.
Proof. intros Hm e. eapply wp_keeps; [exact Hm|]. by left. Qed.

Lemma stops_bind {A B} (stop : B → bool) (m : M W A) (f : A → M W B) :
  keeps (logs no_sts_write) m → (∀ a, stops_on_write stop (f a)) → stops_on_write stop (m ≫= f).
Proof.
  intros Hm Hf e. apply wp_bind. eapply wp_keeps; [exact Hm|]. intros a e1 H1.
  eapply wp_mono; [apply Hf|]. intros b e2 [H2|[H2 Hb]]; [left; by etrans|right]. split; [by eapply at_most_one_l|done].
Qed.

(** Sequencing: after a write the rest changes no statefulset and stops. *)
Lemma stops_then {A B} (stop : A → bool) (stop' : B → bool) (m : M W A) (f : A → M W B) :
  stops_on_write stop m → (∀ a, stops_on_write stop' (f a)) →
  (∀ a e, stop a = true → wp (f a) (λ b e', logs no_sts_write e e' ∧ stop' b = true) e) →
  stops_on_write stop' (m ≫= f).
Proof.
  intros Hm Hf Hstop e. apply wp_bind. eapply wp_mono; [apply Hm|]. intros a e1 [H1|[H1 Ha]].
  - eapply wp_mono; [apply Hf|]. intros b e2 [H2|[H2 Hb]]; [left; by etrans|right]. split; [by eapply at_most_one_l|done].
  - eapply wp_mono; [by apply Hstop|]. intros b e2 [H2 Hb]. right. split; [by eapply at_most_one_r|done].
Qed.

Lemma stops_write {A B} (stop : B → bool) (r : Req A) (f : A → B) :
  (∀ a, stop (f a) = true) → stops_on_write stop (a ← call r; mret (f a)).
Proof. intros Hf e. apply wp_bind, wp_call. intros a w. apply wp_ret. right. split; [apply at_most_one_call|done]. Qed.
Lemma stops_call {A} (r : Req A) : stops_on_write (λ _, true) (call r).
Proof. intros e. apply wp_call. intros a w. right. split; [apply at_most_one_call|done]. Qed.

Lemma around_nowrite k {A} (m : M W A) : keeps (around no_sts_write k) m → keeps (logs no_sts_write) m.
Proof. intros Hm e. eapply wp_keeps; [exact Hm|]. by intros a e1 (_ & _ & Hl). Qed.
Lemma nowrite_set_rack k f : keeps (logs no_sts_write) (set_rack k f : M W unit).
Proof. apply (around_nowrite k), around_set_rack. Qed.
Lemma nowrite_call {A} (r : Req A) : (∀ a, no_sts_write (Ev _ r a)) → keeps (logs no_sts_write) (call r : M W A).
Proof. intros HP. by apply (around_nowrite ""), around_call. Qed.
Lemma nowrite_modify (f : Env W → Env W) : (∀ e, log (f e) = log e) → keeps (logs no_sts_write) (modify f).
Proof. intros Hf. apply keeps_modify. intros e. by apply logs_same. Qed.
#[local] Hint Resolve nowrite_set_rack : keeps.
#[local] Hint Extern 1 (keeps (logs _) (call _)) => apply nowrite_call; done : keeps.
#[local] Hint Extern 1 (keeps (logs _) (modify _)) => apply nowrite_modify; done : keeps.
#[local] Hint Extern 1 (keeps (logs _) (modify_cc _)) => apply nowrite_modify; done : keeps.
#[local] Hint Extern 1 (keeps (logs _) (set_action _ _)) => apply nowrite_set_rack : keeps.

Lemma nowrite_pollRevision fuel revision ns name : keeps (logs no_sts_write) (pollRevision (W:=W) fuel revision ns name).
Proof. induction fuel as [|fuel IH]; cbn [pollRevision]; unfold GetStatefulSet; keeps_steps; exact IH. Qed.

Ltac stops_step :=
  lazymatch goal with
  | |- stops_on_write _ (mret _) => apply stops_none, keeps_ret; apply _
  | |- stops_on_write _ (match ?x with _ => _ end) => destruct x
  | |- stops_on_write _ (let '(_, _) := ?x in _) => destruct x
  | |- stops_on_write _ (mbind _ _) =>
      apply stops_bind; [solve [keeps_steps]|intros ?]
  end.

Lemma UpdateStatefulSet_stops s : stops_on_write (λ _, true) (UpdateStatefulSet (W:=W) s).
Proof.
  intros e. unfold UpdateStatefulSet. apply wp_bind, wp_call. intros [err|] w.
  - apply wp_ret. right. split; [apply at_most_one_call|done].
  - apply wp_bind. eapply wp_keeps; [apply nowrite_pollRevision|]. intros _ e1 H1. apply wp_ret.
    right. split; [|done]. eapply at_most_one_r; [|exact H1]. apply at_most_one_call.
Qed.

Lemma writeExisting_stops s stored now k : stops_on_write fst (writeExisting (W:=W) s stored now k).
Proof.
  unfold writeExisting. repeat stops_step.
  apply (stops_then (λ _, true)); [apply UpdateStatefulSet_stops|intros; stops_step|].
  intros err e _. apply wp_ret. split; [by apply logs_same|done].
Qed.

Lemma updateExisting_stops sts stored now k : stops_on_write fst (updateExisting (W:=W) sts stored now k).
Proof. unfold updateExisting. cbv zeta. repeat stops_step; apply writeExisting_stops. Qed.

Lemma CreateOrUpdate_stops sts n : stops_on_write fst (CreateOrUpdateStatefulSet (W:=W) sts n).
Proof.
  unfold CreateOrUpdateStatefulSet, hasNoPodDisruption, GetStatefulSet. repeat stops_step; [|apply updateExisting_stops].
  apply (stops_then (λ _, true)); [by apply stops_write|intros; stops_step|].
  intros err0 e0 _. apply wp_ret. split; [by apply logs_same|done].
Qed.

Lemma ensure_stops n dc rack : stops_on_write fst (ensureCassandraStatefulSet (W:=W) n dc rack).
Proof.
  unfold ensureCassandraStatefulSet. do 2 stops_step. destruct (DCRackLabelsAndNodeSelectorForStatefulSet _ _ _).
  stops_step. case_match; [|stops_step].
  apply (stops_then fst); [apply CreateOrUpdate_stops|intros [??]; stops_step|].
  intros [b err] e Hb. apply wp_ret. split; [by apply logs_same|done].
Qed.

(** Whether the loop over the racks ends. *)
Definition ends (o : RackOutcome) : bool := match o with NextRack _ => false | _ => true end.

Lemma nowrite_monitor polls ns name : keeps (logs no_sts_write) (monitorDisruption (W:=W) polls ns name).
Proof.
  induction polls as [|polls IH]; cbn [monitorDisruption]; unfold GetPodDisruptionBudget; keeps_steps; exact IH.
Qed.
Lemma nowrite_clearUnlock : keeps (logs no_sts_write) (clearUnlock (W:=W)).
Proof. unfold clearUnlock, set_needUpdate. keeps_steps. Qed.
#[local] Hint Resolve nowrite_monitor nowrite_clearUnlock : keeps.

Lemma updateStatefulSet_stops n dc rack : stops_on_write ends (updateStatefulSet (W:=W) n dc rack).
Proof.
  unfold updateStatefulSet, waitForStatefulSetToBeUpdated.
  apply (stops_then fst); [apply ensure_stops| |].
  - intros [b err]. repeat stops_step.
  - intros [b err] e Hb. cbn in Hb. subst b. apply wp_bind. eapply wp_keeps; [apply nowrite_clearUnlock|]. intros _ e1 H1.
    apply wp_bind, wp_gets, wp_bind. eapply (wp_keeps (logs no_sts_write)); [keeps_steps|]. intros _ e2 H2.
    apply wp_ret. split; [by etrans|done].
Qed.

(** A step of the upsize that changes the statefulset breaks. *)
Lemma nowrite_ensureAllPVCs q pvcs b err : keeps (logs no_sts_write) (ensureAllPVCs_loop (W:=W) q pvcs b err).
Proof.
  revert b err. induction pvcs as [|pvc pvcs IH]; intros b err; cbn [ensureAllPVCs_loop]; unfold UpdatePVC; keeps_steps;
    apply IH.
Qed.
#[local] Hint Resolve nowrite_ensureAllPVCs : keeps.

Lemma remove_stops : stops_on_write ShouldBreakReconcileLoop (removeStatefulSetOrphan (W:=W)).
Proof.
  unfold removeStatefulSetOrphan, LivingStatefulSet. repeat stops_step.
  apply (stops_then (λ _, true)); [apply stops_call|intros; stops_step|].
  intros [er|] e0 _; apply wp_ret; (split; [by apply logs_same|done]).
Qed.
Lemma recreate_stops n q : stops_on_write ShouldBreakReconcileLoop (recreateStatefulSetWithNewCapacity (W:=W) n q).
Proof.
  unfold recreateStatefulSetWithNewCapacity, LivingStatefulSet, unmarshallSnapshottedStatefulSet. repeat stops_step.
  apply (stops_then (λ _, true)); [by apply stops_write|intros; stops_step|].
  intros [er|] e0 _; apply wp_ret; (split; [by apply logs_same|done]).
Qed.

Lemma plain_stops (m : M W StepResult) l :
  stops_on_write ShouldBreakReconcileLoop m → stops_on_write (λ r, ShouldBreakReconcileLoop r.1) (plain m l).
Proof.
  intros Hm. unfold plain. apply (stops_then ShouldBreakReconcileLoop); [done|intros; stops_step|].
  intros r0 e Hr. apply wp_ret. split; [by apply logs_same|done].
Qed.

Lemma upsize_steps_stop n q :
  Forall (λ step, ∀ l, stops_on_write (λ r, ShouldBreakReconcileLoop r.1) (step l)) (upsize_steps (W:=W) n q).
Proof.
  unfold upsize_steps. repeat (apply Forall_cons_2; [intros l|]); try apply Forall_nil_2;
    try apply plain_stops; auto using remove_stops, recreate_stops; apply stops_none;
    unfold makeOldStatefulSetSnapshot, fetchDataPvcs, getAllDataPvcs, ListPVC, ensureAllPVCsHaveNewCapacity,
      waitTillAllFilesystemsHaveNewCapacity, waitTillStatefulSetAndAllPodsAreReady, requestedCapacity, rack_labels, living,
      LivingStatefulSet, finalizeUpsizeAction, ListPods; keeps_steps.
Qed.

Lemma run_steps_stop (steps : list (upsize_step (W:=W))) pvcs :
  Forall (λ step, ∀ l, stops_on_write (λ r, ShouldBreakReconcileLoop r.1) (step l)) steps →
  stops_on_write (λ _, true) (run_steps steps pvcs).
Proof.
  intros Hsteps. revert pvcs. induction Hsteps as [|step steps Hstep _ IH]; intros pvcs; cbn [run_steps]; [stops_step|].
  apply (stops_then (λ r, ShouldBreakReconcileLoop r.1)); [apply Hstep|intros [r0 l]; repeat stops_step; apply IH|].
  intros [r0 l] e Hr. cbn in Hr. rewrite Hr. destruct (HasError r0); apply wp_ret; (split; [by apply logs_same|done]).
Qed.

Lemma upsizeOrUpdate_stops n dc rack sts err : stops_on_write ends (upsizeOrUpdate (W:=W) n dc rack sts err).
Proof.
  assert (stops_on_write ends (er ← ReconcileStorageUpsize (W:=W) n; mret (Return er))) as Hup.
  { apply (stops_then (λ _, true)); [|intros; stops_step|].
    - unfold ReconcileStorageUpsize, Reconcile_upsize. repeat stops_step. apply run_steps_stop, upsize_steps_stop.
    - intros er e _. apply wp_ret. split; [by apply logs_same|done]. }
  unfold upsizeOrUpdate. repeat (stops_step || apply Hup || apply updateStatefulSet_stops).
Qed.
End one_write.

(** ** One rack at a time *)
Section one_rack.
Context {QL : QuantityLib} {Codec : StsCodec} {CfgCodec : ConfigCodec} {Diff : SliceDiff} {TDiff : TopologyDiff}.
Context {Patch : PatchLib} {Gen : StatefulSetGenerator} {W : Type} {Srv : ApiServer W}.
Implicit Types e : Env W.

(** A rack the loop may leave behind: it runs and no action goes on in it. *)
Definition settled (rs : CassandraRackStatus) : Prop :=
  rs_Phase rs = Name ClusterPhaseRunning ∧ la_Status (rs_LastAction rs) ≠ StatusOngoing.

(** How the loop leaves a rack behind: settled, or added to the status just now. *)
Definition left_behind e e' (k : string) : Prop :=
  (∃ rs, s_RackStatus (status e') !! k = Some rs ∧ settled rs) ∨
  s_RackStatus (status e) !! k = None ∧ s_RackStatus (status e') !! k = Some initialRackStatus.

Definition passed e (k : string) (o : RackOutcome) e' : Prop :=
  match o with NextRack _ => left_behind e e' k | _ => True end.

Lemma podOperations_passed fuel n sts e e0 :
  wp (podOperations fuel n sts) (λ stop e',
    match stop with Some o => passed e0 (crn_DcRackName n) o e' | None => True end) e.
Proof.
  unfold podOperations. apply wp_bind, wp_rack_status. intros rs _. destruct (negb _); [|by apply wp_ret].
  apply wp_bind, wp_intro. intros [[[] err]|] e1 _; try (by apply wp_ret).
  apply wp_bind, wp_rack_status. intros rs1 Hrs1.
  destruct (_ || _) eqn:Hb; [by apply wp_ret|]. apply wp_ret. left. exists rs1. split; [done|].
  rewrite !orb_false_iff in Hb. destruct Hb as [[[H1%negb_false_iff%bool_decide_eq_true _] H3%bool_decide_eq_false] _]. done.
Qed.

Lemma updateStatefulSet_passed n dc rack e e0 :
  wp (updateStatefulSet n dc rack) (passed e0 (crn_DcRackName n)) e.
Proof.
  unfold updateStatefulSet. apply wp_bind, wp_intro. intros [[] err] e1 _.
  - apply wp_bind, wp_intro. intros _ e2 _. apply wp_bind, wp_gets, wp_bind, wp_intro. intros _ e3 _. by apply wp_ret.
  - apply wp_bind, wp_intro. intros _ e2 _. apply wp_bind, wp_rack_status. intros rs Hrs.
    destruct (_ || _) eqn:Hb; [by apply wp_ret|]. apply wp_ret. left. exists rs. split; [done|].
    rewrite !orb_false_iff in Hb. destruct Hb as [H1%negb_false_iff%bool_decide_eq_true [H2%bool_decide_eq_false _]]. done.
Qed.

Lemma upsizeOrUpdate_passed n dc rack sts err e e0 :
  wp (upsizeOrUpdate n dc rack sts err) (passed e0 (crn_DcRackName n)) e.
Proof.
  unfold upsizeOrUpdate. apply wp_bind, wp_rack_status. intros rs _.
  destruct (IsStarted rs); [|apply updateStatefulSet_passed].
  destruct err as [er|]; [destruct (IsNotFound er); [|by apply wp_ret]|];
    (apply wp_bind, wp_modify, wp_bind, wp_intro; intros; by apply wp_ret).
Qed.

Lemma reconcileOneRack_passed fuel i e :
  splits (rackNameAt (rcc_cc e) i) → deleting (rcc_cc e) = false →
  wp (reconcileOneRack fuel i) (λ o e', around any_event (crn_DcRackName (rackNameAt (rcc_cc e) i)) e e' ∧
    passed e (crn_DcRackName (rackNameAt (rcc_cc e) i)) o e' ∧
    (logs no_sts_write e e' ∨ at_most_one_write e e' ∧ ends o = true)) e.
Proof.
  intros Hn Hdel. unfold reconcileOneRack. apply wp_bind, wp_gets. set (n := rackNameAt (rcc_cc e) i) in *.
  case_bool_decide; [apply wp_ret; repeat split; [by apply logs_same|left; by apply logs_same]|]. apply wp_bind, wp_gets.
  destruct (s_RackStatus (status e) !! crn_DcRackName n) as [rs|] eqn:Hrs.
  2: { apply wp_bind, wp_call. intros [] w. apply wp_bind, wp_modify, wp_ret.
       split; [split; [|split; [done|by apply logs_call]]|split; [|left; by apply logs_call]].
       - intros k' Hne. by apply lookup_insert_ne.
       - right. split; [done|]. apply lookup_insert_eq. }
  rewrite Hdel. unfold GetStatefulSet. apply wp_bind, wp_bind, wp_call. intros r w. apply wp_ret.
  set (e1 := e <| world := w |> <| log ::= _ |>).
  assert (around no_sts_write (crn_DcRackName n) e e1) as H1 by (repeat split; by apply logs_call).
  destruct (got _ r) as [sts err]. apply wp_bind.
  apply wp_mono with (Q := λ stop e2, around no_sts_write (crn_DcRackName n) e e2 ∧
    match stop with Some o => passed e (crn_DcRackName n) o e2 | None => True end).
  { destruct err; [by apply wp_ret|]. apply wp_and.
    - eapply wp_keeps; [by apply rackActions_around|]. intros. by etrans.
    - unfold rackActions. do 2 (apply wp_bind, wp_intro; intros). apply podOperations_passed. }
  intros [o|] e2 [H2 Ho].
  { apply wp_ret. split; [by eapply around_any|]. split; [done|]. left. apply H2. }
  assert (∀ cc svc msg, keeps (around no_sts_write (crn_DcRackName n)) (create_service (W:=W) cc svc msg)) as Hsvc
    by (intros; unfold create_service; keeps_steps).
  apply wp_bind. eapply (wp_keeps (around no_sts_write (crn_DcRackName n)));
    [unfold ensureCassandraService; keeps_steps; apply Hsvc|]. intros _ e3 H3.
  apply wp_bind. eapply (wp_keeps (around no_sts_write (crn_DcRackName n)));
    [unfold ensureCassandraServiceMonitoring; keeps_steps; apply Hsvc|]. intros _ e4 H4.
  assert (around no_sts_write (crn_DcRackName n) e e4) as H04 by (repeat (etrans; [eassumption|]); reflexivity).
  eapply wp_mono; [apply wp_and; [apply wp_and; [apply upsizeOrUpdate_around|apply (upsizeOrUpdate_passed _ _ _ _ _ _ e)]|
    apply upsizeOrUpdate_stops]|].
  intros o e5 [[H5 Ho'] Hw]. split; [etrans; [by eapply around_any|done]|]. split; [done|].
  destruct H04 as (_ & _ & Hl). destruct Hw as [Hw|[Hw Hend]]; [left; by etrans|right].
  split; [by eapply at_most_one_l|done].
Qed.

(** The keys of the racks. *)
Definition key (cc : CassandraCluster) (i : nat * nat) : string := crn_DcRackName (rackNameAt cc i).

Lemma left_behind_around P e e1 e2 k k' : around P k' e1 e2 → k ≠ k' → left_behind e e1 k → left_behind e e2 k.
Proof. intros [He _] Hne. unfold left_behind. by rewrite (He k Hne). Qed.

Lemma left_behind_from P e e1 e2 k k' : around P k' e e1 → k ≠ k' → left_behind e1 e2 k → left_behind e e2 k.
Proof. intros [He _] Hne. unfold left_behind. by rewrite (He k Hne). Qed.

(** The racks the loop went through are left behind, the one it stopped at may be
    busy, those after it are not touched. *)
Definition one_at_a_time e (racks : list (nat * nat)) (o : RackOutcome) e' : Prop :=
  ∃ finished rest, racks = finished ++ rest ∧
    Forall (λ i, left_behind e e' (key (rcc_cc e) i)) finished ∧
    Forall (λ i, s_RackStatus (status e') !! key (rcc_cc e) i = s_RackStatus (status e) !! key (rcc_cc e) i) (tail rest) ∧
    (∀ k, k ∉ (key (rcc_cc e) <$> racks) → s_RackStatus (status e') !! k = s_RackStatus (status e) !! k) ∧
    match o with NextRack _ => rest = [] | _ => rest ≠ [] end.

Lemma reconcileRacks_one fuel racks b e :
  Forall (λ i, splits (rackNameAt (rcc_cc e) i)) racks → NoDup (key (rcc_cc e) <$> racks) →
  deleting (rcc_cc e) = false →
  wp (reconcileRacks fuel racks b) (λ o e', one_at_a_time e racks o e' ∧ deleting (rcc_cc e') = false ∧
    (logs no_sts_write e e' ∨ at_most_one_write e e' ∧ ends o = true)) e.
Proof.
  revert b e. induction racks as [|i racks IH]; intros b e Hs Hnd Hdel; cbn [reconcileRacks].
  { apply wp_ret. split; [|by split; [|left; apply logs_same]]. exists [], []. by repeat split. }
  inversion Hs as [|? ? Hi Hrest]; subst. inversion Hnd as [|? ? Hnotin Hnd']; subst.
  apply wp_bind. eapply wp_mono; [by apply reconcileOneRack_passed|]. intros o e1 (Ha & Ho & Hw).
  fold (key (rcc_cc e) i) in Ha, Ho. pose proof Ha as (He & [Hnames Hdel'] & _).
  assert (∀ j, j ∈ racks → key (rcc_cc e) j ≠ key (rcc_cc e) i) as Hother.
  { intros j Hj Heq. apply Hnotin. rewrite <- Heq. by apply list_elem_of_fmap_2. }
  destruct (ends o) eqn:Hend.
  { assert (one_at_a_time e (i :: racks) o e1) as Hone.
    { exists [], (i :: racks). split; [done|]. split; [constructor|]. cbn [tail]. split; [|split].
      - apply Forall_forall. intros j Hj. by apply He, Hother.
      - intros k Hk. apply He. intros ->. apply Hk. by left.
      - by destruct o. }
    destruct o; [done|..]; apply wp_ret; (split; [done|]); (split; [congruence|done]). }
  destruct o as [added| |]; [|done..]. destruct Hw as [Hw|[_ ?]]; [|done].
  assert (∀ j, key (rcc_cc e1) j = key (rcc_cc e) j) as Hkey by (intros j; unfold key; by rewrite Hnames).
  assert (key (rcc_cc e1) <$> racks = key (rcc_cc e) <$> racks) as Hkeys by (by apply list_fmap_ext).
  eapply wp_mono; [apply IH|].
  - eapply Forall_impl; [exact Hrest|]. intros j. by rewrite Hnames.
  - by rewrite Hkeys.
  - congruence.
  - intros o e2 [(fin & rest & -> & Hfin & Htail & Hout & Hlast) [Hd2 Hw2]]. split; [|split; [done|]].
    2: { destruct Hw2 as [Hw2|[Hw2 Ho2]]; [left; by etrans|right; split; [by eapply at_most_one_l|done]]. }
    exists (i :: fin), rest. split; [done|]. split; [constructor|split; [|split; [|done]]].
    + cbn in Ho. rewrite Hkeys in Hout. specialize (Hout _ Hnotin). unfold left_behind in *. rewrite Hout. exact Ho.
    + apply Forall_forall. intros j Hj. rewrite Forall_forall in Hfin. specialize (Hfin j Hj). rewrite Hkey in Hfin.
      eapply left_behind_from; [exact Ha| |exact Hfin]. apply Hother. set_solver.
    + apply Forall_forall. intros j Hj. rewrite Forall_forall in Htail. specialize (Htail j Hj). rewrite !Hkey in Htail.
      rewrite Htail. apply He, Hother. rewrite elem_of_app. right. destruct rest; [done|]. by right.
    + intros k Hk. rewrite Hkeys in Hout. rewrite fmap_cons, not_elem_of_cons in Hk. rewrite Hout by tauto. apply He. tauto.
Qed.

Lemma rack_indices_bind (cc : CassandraCluster) :
  rack_indices cc = seq 0 (GetDCSize cc) ≫= λ dc, pair dc <$> seq 0 (GetRackSize cc dc).
Proof. unfold rack_indices. induction (seq 0 _) as [|dc l IH]; [done|]. csimpl. by rewrite IH. Qed.

Lemma rack_indices_lookup (cc : CassandraCluster) i :
  i ∈ rack_indices cc → ∃ d r, topology cc !! i.1 = Some d ∧ dc_Rack d !! i.2 = Some r.
Proof.
  rewrite rack_indices_bind. intros (dc & (rack & -> & Hrack)%list_elem_of_fmap & Hdc)%list_elem_of_bind.
  apply elem_of_seq in Hdc as [_ Hdc], Hrack as [_ Hrack].
  cbn in *. apply lookup_lt_is_Some in Hdc as [d Hd]. unfold GetRackSize in Hrack. rewrite Hd in Hrack.
  apply lookup_lt_is_Some in Hrack as [r Hr]. by exists d, r.
Qed.

Lemma rack_indices_NoDup (cc : CassandraCluster) : NoDup (rack_indices cc).
Proof.
  rewrite rack_indices_bind. apply NoDup_bind; [| |apply NoDup_seq].
  - intros dc dc' i _ _ (? & -> & _)%list_elem_of_fmap (? & [=] & _)%list_elem_of_fmap. congruence.
  - intros dc _. apply NoDup_fmap_2; [|apply NoDup_seq]. by intros ? ? [= ->].
Qed.

Lemma wf_splits (cc : CassandraCluster) i :
  wf_topology (topology cc) → i ∈ rack_indices cc → splits (rackNameAt cc i).
Proof.
  intros Hwf (d & r & Hd & Hr)%rack_indices_lookup. split; [|done]. unfold rackNameAt, GetDCName, GetRackName. cbn.
  rewrite Hd, Hr. destruct (wf_lookup_dc cc Hwf _ _ Hd) as (_ & Hnd & Hracks & _).
  rewrite Forall_lookup in Hracks. destruct (Hracks _ _ Hr) as [Hnr Hne].
  unfold GetDCNameAndRackNameFromDCRackName. by rewrite GetDCRackName_ne, split_name.
Qed.

Lemma wf_keys_NoDup (cc : CassandraCluster) :
  wf_topology (topology cc) → NoDup (key cc <$> rack_indices cc).
Proof.
  intros Hwf. apply NoDup_fmap_2_strong; [|apply rack_indices_NoDup].
  intros [i1 i2] [j1 j2] (d & r & Hd & Hr)%rack_indices_lookup (d' & r' & Hd' & Hr')%rack_indices_lookup.
  cbn in Hd, Hr, Hd', Hr'. unfold key, rackNameAt, GetDCName, GetRackName. cbn. rewrite Hd, Hr, Hd', Hr'.
  intros Heq. by destruct (rack_indices_inj cc Hwf _ _ _ _ _ _ _ _ Hd Hd' Hr Hr' Heq) as [-> ->].
Qed.

Lemma wf_reconcileRacks fuel b e :
  wf_topology (topology (rcc_cc e)) → deleting (rcc_cc e) = false →
  wp (reconcileRacks fuel (rack_indices (rcc_cc e)) b) (λ o e', one_at_a_time e (rack_indices (rcc_cc e)) o e' ∧
    deleting (rcc_cc e') = false ∧ (logs no_sts_write e e' ∨ at_most_one_write e e' ∧ ends o = true)) e.
Proof.
  intros Hwf Hdel. apply reconcileRacks_one; [|by apply wf_keys_NoDup|done].
  apply Forall_forall. intros i Hi. by apply wf_splits.
Qed.

(** Without a deletion the loop over the racks is all there is. *)
Lemma ReconcileRack_racks fuel e :
  wf_topology (topology (rcc_cc e)) → deleting (rcc_cc e) = false →
  wp (ReconcileRack fuel) (λ r e', ∃ o, one_at_a_time e (rack_indices (rcc_cc e)) o e' ∧ at_most_one_write e e' ∧
    match r with Some (Some err) => o = Return (Some err) | None => o = Diverges | _ => o ≠ Diverges end) e.
Proof.
  intros Hwf Hdel. unfold ReconcileRack. apply wp_bind, wp_gets, wp_bind.
  eapply wp_mono; [by apply wf_reconcileRacks|]. intros o e1 (Hone & Hdel1 & Hw).
  assert (at_most_one_write e e1) as Hw1 by (destruct Hw as [?|[? _]]; [by apply at_most_one_none|done]).
  destruct o as [added|err|].
  - apply wp_bind, wp_gets. rewrite Hdel1. destruct added; apply wp_ret; (eexists; split; [exact Hone|done]).
  - apply wp_ret. exists (Return err). by destruct err.
  - apply wp_ret. by exists Diverges.
Qed.
End one_rack.

(** ** The phase of the cluster *)
Section cluster_phase.
Context {QL : QuantityLib} {W : Type} {Srv : ApiServer W}.

Definition running (rs : CassandraRackStatus) : Prop := rs_Phase rs = Name ClusterPhaseRunning.

(** The entries of the racks, in the order of the topology. *)
Definition entries (cc : CassandraCluster) (st : CassandraClusterStatus) (racks : list (nat * nat))
  : list CassandraRackStatus := omap (λ i, s_RackStatus st !! key cc i) racks.

(** The last action of a list of racks that is not done. *)
Definition unfinished (rss : list CassandraRackStatus) : option CassandraLastAction :=
  last (filter (λ a, la_Status a ≠ StatusDone) (rs_LastAction <$> rss)).

Definition reported (st : CassandraClusterStatus) : string * string :=
  (s_LastClusterAction st, s_LastClusterActionStatus st).
Definition report (o : option CassandraLastAction) (old : string * string) : string * string :=
  match o with Some a => (la_Name a, la_Status a) | None => old end.

Lemma unfinished_cons rs rss :
  unfinished (rs :: rss) =
  match unfinished rss with
  | Some a => Some a
  | None => if decide (la_Status (rs_LastAction rs) = StatusDone) then None else Some (rs_LastAction rs)
  end.
Proof.
  unfold unfinished. rewrite fmap_cons, filter_cons. repeat case_decide; try tauto; [apply last_cons|].
  by destruct (last _).
Qed.

Lemma clusterPhase_loop_spec cc racks st set st' set' returned :
  clusterPhase_loop cc racks st set = (st', set', returned) →
  s_RackStatus st' = s_RackStatus st ∧
  if returned then
    ∃ l1 rs l2, entries cc st racks = l1 ++ rs :: l2 ∧ Forall running l1 ∧ ¬ running rs ∧
      s_Phase st' = rs_Phase rs ∧ reported st' = report (unfinished (l1 ++ [rs])) (reported st)
  else
    Forall running (entries cc st racks) ∧ s_Phase st' = s_Phase st ∧
    reported st' = report (unfinished (entries cc st racks)) (reported st) ∧
    set' = set || bool_decide (is_Some (unfinished (entries cc st racks))).
Proof.
  revert st set. induction racks as [|i racks IH]; intros st set; cbn [clusterPhase_loop].
  { intros [= <- <- <-]. split; [done|]. repeat split; [constructor|]. by rewrite orb_false_r. }
  unfold entries. cbn [omap list_omap]. fold (key cc i). destruct (s_RackStatus st !! key cc i) as [rs|] eqn:Hrs.
  2: { intros H. by apply IH in H. }
  fold (entries cc st racks).
  set (a := rs_LastAction rs). set (p := if la_Status a != StatusDone then _ else _).
  assert (s_RackStatus p.1 = s_RackStatus st ∧ s_Phase p.1 = s_Phase st ∧
          reported p.1 = report (if decide (la_Status a = StatusDone) then None else Some a) (reported st) ∧
          p.2 = set || bool_decide (la_Status a ≠ StatusDone)) as (Hp1 & Hp2 & Hp3 & Hp4).
  { subst p. case_decide as Ha; [rewrite (bool_decide_true _ Ha), bool_decide_false by tauto|
      rewrite (bool_decide_false _ Ha), bool_decide_true by done]; cbn; by rewrite ?orb_false_r, ?orb_true_r. }
  clearbody p. destruct p as [st1 set1]. cbn in Hp1, Hp2, Hp3, Hp4. subst set1.
  assert (entries cc st1 racks = entries cc st racks) as Hent by (unfold entries; by rewrite Hp1).
  destruct (bool_decide (rs_Phase rs = Name ClusterPhaseRunning)) eqn:Hrun; cbn [negb].
  - apply bool_decide_eq_true in Hrun. intros H. apply IH in H as [Hr H]. rewrite Hent in H. split; [congruence|].
    destruct returned.
    + destruct H as (l1 & rs' & l2 & E & H1 & H2 & H3 & H4). exists (rs :: l1), rs', l2.
      rewrite E. split; [done|]. split; [by constructor|]. split; [done|]. split; [done|].
      rewrite H4, Hp3. cbn [app]. rewrite unfinished_cons. by destruct (unfinished _).
    + destruct H as (H1 & H2 & H3 & H4). split; [by constructor|]. split; [congruence|]. rewrite unfinished_cons.
      split; [rewrite H3, Hp3; by destruct (unfinished _)|]. rewrite H4, <- orb_assoc. f_equal.
      destruct (unfinished _); [by rewrite orb_true_r|]. rewrite orb_false_r.
      apply bool_decide_ext. fold a. case_decide; [|by split; eauto]. split; [tauto|by intros []].
  - apply bool_decide_eq_false in Hrun. intros [= <- <- <-]. split; [done|]. exists [], rs, (entries cc st racks).
    split; [done|]. split; [constructor|]. split; [done|]. split; [done|]. cbn [app]. rewrite unfinished_cons.
    cbn. exact Hp3.
Qed.

(** The status [st'] after a loop against the one before: the phase of the first rack
    that does not run; without one, Running and Done, or, with an unfinished action,
    the phase it had. *)
Definition follows_racks (cc : CassandraCluster) (st st' : CassandraClusterStatus) : Prop :=
  let rss := entries cc st (rack_indices cc) in
  s_RackStatus st' = s_RackStatus st ∧
  ((∃ l1 rs l2, rss = l1 ++ rs :: l2 ∧ Forall running l1 ∧ ¬ running rs ∧ s_Phase st' = rs_Phase rs ∧
      reported st' = report (unfinished (l1 ++ [rs])) (reported st)) ∨
   Forall running rss ∧
   match unfinished rss with
   | Some a => s_Phase st' = s_Phase st ∧ reported st' = (la_Name a, la_Status a)
   | None => s_Phase st' = Name ClusterPhaseRunning ∧ reported st' = (s_LastClusterAction st, StatusDone)
   end).

Lemma unfinished_status rss a : unfinished rss = Some a → la_Status a ≠ StatusDone.
Proof. intros Ha. by apply last_Some_elem_of, list_elem_of_filter in Ha as [Ha _]. Qed.

Lemma cluster_phase_wp (e : Env W) :
  wp UpdateCassandraClusterStatusPhase (λ _ e', follows_racks (rcc_cc e) (status e) (status e')) e.
Proof.
  unfold UpdateCassandraClusterStatusPhase, clusterRunning. apply wp_bind, wp_gets, wp_bind, wp_gets.
  destruct (clusterPhase_loop _ _ _ _) as [[st set] returned] eqn:E. apply clusterPhase_loop_spec in E as [Hr E].
  apply wp_bind, wp_modify. destruct returned; [apply wp_ret; split; [done|]; left; exact E|].
  destruct E as (Hall & Hph & Hrep & ->). cbn [orb]. unfold follows_racks.
  destruct (unfinished _) as [a|] eqn:Hun.
  - apply unfinished_status in Hun as Hne. cbn in Hrep. injection Hrep as Hn Hs.
    apply wp_bind, wp_ret, wp_bind, wp_gets. cbn. rewrite Hs, (bool_decide_false _ Hne), andb_false_r. apply wp_ret.
    split; [done|]. right. split; [done|]. split; [done|]. exact (f_equal2 pair Hn Hs).
  - cbn in Hrep. injection Hrep as Hn Hs. apply wp_bind.
    eapply wp_mono with (Q := λ _ e1, s_RackStatus (status e1) = s_RackStatus (status e) ∧
      reported (status e1) = (s_LastClusterAction (status e), StatusDone)).
    + cbn. destruct (bool_decide (s_LastClusterActionStatus st = StatusDone)) eqn:Hd; cbn [negb].
      * apply wp_ret. split; [done|]. apply bool_decide_eq_true in Hd. exact (f_equal2 pair Hn Hd).
      * apply wp_bind, wp_modify, wp_call. intros [] w. split; [done|]. exact (f_equal2 pair Hn eq_refl).
    + intros _ e1 [Hr1 Hrep1]. pose proof Hrep1 as [= Hn1 Hs1]. apply wp_bind, wp_gets.
      rewrite (bool_decide_true _ Hs1), andb_true_r.
      destruct (bool_decide (s_Phase (status e1) = _)) eqn:Hp; cbn [negb].
      * apply bool_decide_eq_true in Hp. apply wp_ret. split; [done|]. by right.
      * apply wp_bind, wp_modify, wp_call. intros [] w. split; [done|]. by right.
Qed.

Lemma cluster_phase_safe (e : Env W) : safe UpdateCassandraClusterStatusPhase e.
Proof.
  unfold UpdateCassandraClusterStatusPhase, clusterRunning. do 2 (apply safe_bind; [done|apply wp_gets]).
  destruct (clusterPhase_loop _ _ _ _) as [[st set] returned]. apply safe_bind; [done|]. apply wp_modify.
  destruct returned; [done|]. apply safe_bind.
  - destruct (_ && _); [|done]. apply safe_bind; [done|]. apply wp_modify, safe_call.
  - apply wp_intro. intros _ e1 _. apply safe_bind; [done|]. apply wp_gets. destruct (_ && _); [|done].
    apply safe_bind; [done|]. apply wp_modify, safe_call.
Qed.

(** ** The release of the seed list *)

(** What the release does to the entry of a rack. *)
Definition released (rs : CassandraRackStatus) : CassandraRackStatus :=
  if rs_Phase rs == Name ClusterPhaseInitial then rs
  else rs <| rs_LastAction ::= λ a, a <| la_Name := Name ActionUpdateSeedList |> <| la_Status := StatusToDo |> |>.

Lemma released_idem rs : released (released rs) = released rs.
Proof.
  unfold released. destruct (decide (rs_Phase rs = Name ClusterPhaseInitial)) as [H|H].
  - by rewrite !(bool_decide_true _ H).
  - rewrite !(bool_decide_false _ H). done.
Qed.

Definition release_racks (cc : CassandraCluster) (racks : list (nat * nat)) : M W unit :=
  range_do racks (λ i,
    let k := crn_DcRackName (rackNameAt cc i) in
    rs ← rack_status k;
    if rs_Phase rs == Name ClusterPhaseInitial then mret tt
    else
      _ ← set_action k (λ a, a <| la_Name := Name ActionUpdateSeedList |>);
      _ ← call (ActionMetric ActionUpdateSeedList (cc_Name cc));
      set_action k (λ a, a <| la_Status := StatusToDo |>)).

Lemma release_racks_spec cc racks (e : Env W) :
  wp (release_racks cc racks) (λ _ e', s_Phase (status e') = s_Phase (status e) ∧ ∀ k,
    s_RackStatus (status e') !! k =
    (if decide (k ∈ (key cc <$> racks)) then released <$> s_RackStatus (status e) !! k else s_RackStatus (status e) !! k)) e.
Proof.
  revert e. induction racks as [|i racks IH]; intros e; unfold release_racks; cbn [range_do].
  { apply wp_ret. split; [done|]. intros k. by rewrite decide_False by apply not_elem_of_nil. }
  fold (key cc i). apply wp_bind. 
  apply wp_mono with (Q := λ _ e1, s_Phase (status e1) = s_Phase (status e) ∧ ∀ k,
    s_RackStatus (status e1) !! k =
    (if decide (k = key cc i) then released <$> s_RackStatus (status e) !! k else s_RackStatus (status e) !! k)).
  - cbv zeta. apply wp_bind, wp_rack_status. intros rs Hrs. destruct (bool_decide (rs_Phase rs = _)) eqn:Hp.
    + apply wp_ret. split; [done|]. intros k. destruct (decide (k = key cc i)) as [->|Hne]; [|done]. rewrite Hrs. cbn. unfold released. by rewrite Hp.
    + apply wp_bind, wp_set_rack. intros ? _. apply wp_bind, wp_call. intros [] w. apply wp_set_rack. intros ? _.
      split; [done|]. intros k. destruct (decide (k = key cc i)) as [->|Hne]; [|by cbn; rewrite !lookup_alter_ne].
      etrans; [apply on_rack_lookup, on_rack_lookup, Hrs|]. rewrite Hrs. cbn [fmap option_fmap option_map]. unfold released.
      by rewrite Hp.
  - intros _ e1 [Hph1 H1]. eapply wp_mono; [apply IH|]. intros _ e2 [Hph2 H2]. split; [congruence|].
    intros k. rewrite H2, H1, fmap_cons. destruct (decide (k = key cc i)) as [->|Hne].
    + rewrite (decide_True (P := _ ∈ _ :: _)) by (by left). case_decide; [|done].
      destruct (_ !! _); cbn; [by rewrite released_idem|done].
    + case_decide as Hin; [rewrite decide_True by (by right)|rewrite decide_False by (by intros [|]%elem_of_cons)]; done.
Qed.

Lemma release_racks_safe cc racks (e : Env W) :
  Forall (λ i, is_Some (s_RackStatus (status e) !! key cc i)) racks → safe (release_racks cc racks) e.
Proof.
  intros Hall. rewrite Forall_forall in Hall.
  apply safe_range_do with (I := λ e1 : Env W, ∀ i, i ∈ racks → is_Some (s_RackStatus (status e1) !! key cc i)); [done|].
  intros i e1 Hi HI. cbv zeta. fold (key cc i). pose proof (HI i Hi) as Hk.
  assert (∀ f st, (∀ j, j ∈ racks → is_Some (s_RackStatus st !! key cc j)) → ∀ j, j ∈ racks →
    is_Some (s_RackStatus (on_rack (key cc i) f st) !! key cc j)) as Hset.
  { intros f st H2 j Hj. destruct (decide (key cc i = key cc j)) as [<-|Hne].
    - destruct (H2 i Hi) as [r Hr]. eexists. by apply on_rack_lookup.
    - rewrite on_rack_lookup_ne by done. by apply H2. }
  split.
  - apply safe_bind; [by apply safe_rack_status|]. apply wp_rack_status. intros rs _. destruct (bool_decide _); [done|].
    apply safe_bind; [by apply safe_set_rack|]. apply wp_set_rack. intros _ _.
    apply safe_bind; [apply safe_call|]. apply wp_call. intros [] w. apply safe_set_rack. by apply Hset.
  - apply wp_bind, wp_rack_status. intros rs _. destruct (bool_decide _); [by apply wp_ret|].
    apply wp_bind, wp_set_rack. intros _ _. apply wp_bind, wp_call. intros [] w. apply wp_set_rack. intros _ _ j Hj.
    apply Hset; [|done]. intros j' Hj'. by apply Hset.
Qed.

(** A data centre lets the seed list go: its racks are configuring it, all of them or
    those before a rack that still has its initial action. *)
Definition dc_ready (cc : CassandraCluster) (st : CassandraClusterStatus) (dc : nat) : Prop :=
  ∃ l1 l2, pair dc <$> seq 0 (GetRackSize cc dc) = l1 ++ l2 ∧
    Forall (λ i, ∃ rs, s_RackStatus st !! key cc i = Some rs ∧ configuring (rs_LastAction rs) = true) l1 ∧
    match l2 with
    | [] => True
    | i :: _ => ∃ rs, s_RackStatus st !! key cc i = Some rs ∧ la_Name (rs_LastAction rs) = Name ClusterPhaseInitial
    end.

Lemma seedListReady_dc_spec cc st racks :
  seedListReady_dc cc st racks = Ret true →
  ∃ l1 l2, racks = l1 ++ l2 ∧
    Forall (λ i, ∃ rs, s_RackStatus st !! key cc i = Some rs ∧ configuring (rs_LastAction rs) = true) l1 ∧
    match l2 with
    | [] => True
    | i :: _ => ∃ rs, s_RackStatus st !! key cc i = Some rs ∧ la_Name (rs_LastAction rs) = Name ClusterPhaseInitial
    end.
Proof.
  induction racks as [|i racks IH]; cbn [seedListReady_dc]; [intros _; by exists [], []|].
  fold (key cc i). destruct (s_RackStatus st !! key cc i) as [rs|] eqn:Hrs; cbn; [|done].
  destruct (configuring (rs_LastAction rs)) eqn:Hc.
  - intros (l1 & l2 & -> & H1 & H2)%IH. exists (i :: l1), l2. split; [done|]. split; [|done]. constructor; eauto.
  - intros [= H%bool_decide_eq_true]. exists [], (i :: racks). split; [done|]. split; [constructor|]. eauto.
Qed.

Lemma seedListReady_spec cc st dcs : seedListReady cc st dcs = Ret true → Forall (dc_ready cc st) dcs.
Proof.
  induction dcs as [|dc dcs IH]; cbn [seedListReady]; [constructor|].
  destruct (seedListReady_dc _ _ _) as [b|] eqn:E; cbn; [|done].
  destruct (seedListReady cc st dcs) as [b'|]; cbn; [|done].
  intros [= [-> ->]%andb_true_iff]. constructor; [|by apply IH]. by apply seedListReady_dc_spec.
Qed.

Lemma seedListReady_dc_true cc st racks :
  Forall (λ i, ∃ rs, s_RackStatus st !! key cc i = Some rs ∧ configuring (rs_LastAction rs) = true) racks →
  seedListReady_dc cc st racks = Ret true.
Proof.
  induction 1 as [|i racks (rs & Hrs & Hc) _ IH]; cbn [seedListReady_dc]; [done|]. fold (key cc i). rewrite Hrs. cbn.
  by rewrite Hc.
Qed.

Lemma seedListReady_true cc st dcs :
  Forall (λ i, ∃ rs, s_RackStatus st !! key cc i = Some rs ∧ configuring (rs_LastAction rs) = true)
    (dcs ≫= λ dc, pair dc <$> seq 0 (GetRackSize cc dc)) →
  seedListReady cc st dcs = Ret true.
Proof.
  induction dcs as [|dc dcs IH]; [done|]. cbn [seedListReady]. rewrite bind_cons, Forall_app. intros [H1 H2].
  rewrite seedListReady_dc_true by done. cbn. by rewrite IH.
Qed.
End cluster_phase.

(** ** Theorems *)
Section theorems.
Context {QL : QuantityLib} {Codec : StsCodec} {CfgCodec : ConfigCodec} {Diff : SliceDiff} {TDiff : TopologyDiff}.
Context {Patch : PatchLib} {Gen : StatefulSetGenerator} {W : Type} {Srv : ApiServer W}.

(** C4: one rack at a time.  In a loop over the racks of a well-formed topology, all
    racks before the one where it stops run and have no action going on, or were added
    to the status just now; the entries of the racks behind it, and those of racks
    outside the topology, are not touched.  Without a stop this holds of all racks. *)
Theorem one_rack_at_a_time (fuel : nat) (e e' : Env W) (r : option (option error))
    (Hrun : ReconcileRack fuel e = Ret (r, e'))
    (Hwf : wf_topology (topology (rcc_cc e))) (Hdel : deleting (rcc_cc e) = false) :
  ∃ finished rest, rack_indices (rcc_cc e) = finished ++ rest ∧
    Forall (λ i, left_behind e e' (key (rcc_cc e) i)) finished ∧
    Forall (λ i, s_RackStatus (status e') !! key (rcc_cc e) i = s_RackStatus (status e) !! key (rcc_cc e) i) (tail rest) ∧
    (∀ k, k ∉ (key (rcc_cc e) <$> rack_indices (rcc_cc e)) →
       s_RackStatus (status e') !! k = s_RackStatus (status e) !! k) ∧
    (r ≠ Some None → rest ≠ []).
Proof.
  destruct (wp_run _ _ _ _ _ (ReconcileRack_racks fuel e Hwf Hdel) Hrun) as (o & Hone & _ & Hr).
  destruct Hone as (fin & rest & E & Hfin & Htail & Hout & Hend). exists fin, rest.
  split; [done|]. split; [done|]. split; [done|]. split; [done|]. intros Hne.
  destruct r as [[err|]|]; subst; done.
Qed.

(** C6: a loop changes at most one statefulset: whatever the API server answers, the
    loop over the racks makes at most one request that creates, updates or deletes a
    statefulset, the storage upsize included. *)
Theorem at_most_one_statefulset_changed (fuel : nat) (e e' : Env W) (r : option (option error))
    (Hrun : ReconcileRack fuel e = Ret (r, e'))
    (Hwf : wf_topology (topology (rcc_cc e))) (Hdel : deleting (rcc_cc e) = false) :
  ∃ l, log e' = log e ++ l ∧ length (List.filter sts_write l) ≤ 1.
Proof. by destruct (wp_run _ _ _ _ _ (ReconcileRack_racks fuel e Hwf Hdel) Hrun) as (o & _ & Hw & _). Qed.

(** C31: the phase of the cluster is the phase of its racks.  [UpdateCassandraClusterStatusPhase]
    returns; the cluster takes the phase of the first rack that does not run; with
    all racks running it is Running and its action Done exactly when no rack has an
    unfinished action, and otherwise keeps its phase; the action reported is the last
    unfinished one of the racks looked at. *)
Theorem cluster_phase_follows_racks (e : Env W) :
  ∃ e', UpdateCassandraClusterStatusPhase e = Ret (tt, e') ∧ follows_racks (rcc_cc e) (status e) (status e').
Proof.
  destruct (safe_returns _ _ (cluster_phase_safe e)) as ([] & e' & Hrun). exists e'. split; [done|].
  exact (wp_run _ _ _ _ _ (cluster_phase_wp e) Hrun).
Qed.

(** Seed lists are released together.  [EnsureSeedListIsUpdatedWhenRequired] leaves
    the status as it is unless the cluster is configuring its seed list and every data
    centre lets it go; then every rack of the topology past its initial phase gets the
    action UpdateSeedList to do, and no other entry changes. *)
Theorem seed_list_released_together (e e' : Env W)
    (Hrun : EnsureSeedListIsUpdatedWhenRequired e = Ret (tt, e')) :
  status e' = status e ∨
  reported (status e) = (Name ActionUpdateSeedList, StatusConfiguring) ∧
  (∀ dc, dc < GetDCSize (rcc_cc e) → dc_ready (rcc_cc e) (status e) dc) ∧
  ∀ k, s_RackStatus (status e') !! k =
       (if decide (k ∈ (key (rcc_cc e) <$> rack_indices (rcc_cc e)))
        then released <$> s_RackStatus (status e) !! k else s_RackStatus (status e) !! k).
Proof.
  pattern e'. refine (wp_run _ (λ _ : unit, _) _ _ _ _ Hrun). unfold EnsureSeedListIsUpdatedWhenRequired.
  apply wp_bind, wp_gets, wp_bind, wp_gets. destruct (_ && _) eqn:Hb; [|apply wp_ret; by left].
  apply andb_true_iff in Hb as [H1%bool_decide_eq_true H2%bool_decide_eq_true].
  apply wp_bind, wp_lift. intros [] Hready; [|apply wp_ret; by left].
  eapply wp_mono; [apply (release_racks_spec (rcc_cc e))|]. intros _ e1 [_ He1]. right.
  split; [unfold reported; congruence|]. split; [|exact He1].
  intros dc Hdc. apply seedListReady_spec in Hready. rewrite Forall_forall in Hready. apply Hready, elem_of_seq. lia.
Qed.

(** A configured seed list is released: when the cluster and all its racks are
    configuring the seed list, [EnsureSeedListIsUpdatedWhenRequired] returns and every
    rack past its initial phase has the action UpdateSeedList to do. *)
Theorem seed_list_released_when_configured (e : Env W)
    (Hcluster : reported (status e) = (Name ActionUpdateSeedList, StatusConfiguring))
    (Hracks : Forall (λ i, ∃ rs, s_RackStatus (status e) !! key (rcc_cc e) i = Some rs ∧
                configuring (rs_LastAction rs) = true) (rack_indices (rcc_cc e))) :
  ∃ e', EnsureSeedListIsUpdatedWhenRequired e = Ret (tt, e') ∧
  Forall (λ i, ∃ rs', s_RackStatus (status e') !! key (rcc_cc e) i = Some rs' ∧
            (rs_Phase rs' = Name ClusterPhaseInitial ∨
             la_Name (rs_LastAction rs') = Name ActionUpdateSeedList ∧ la_Status (rs_LastAction rs') = StatusToDo))
    (rack_indices (rcc_cc e)).
Proof.
  injection Hcluster as Hn Hs.
  assert (EnsureSeedListIsUpdatedWhenRequired e = release_racks (rcc_cc e) (rack_indices (rcc_cc e)) e) as Heq.
  { unfold EnsureSeedListIsUpdatedWhenRequired, mbind, GoM_bind. cbn -[range_do].
    rewrite Hn, Hs. rewrite !bool_decide_true by done. cbn -[range_do].
    rewrite seedListReady_true by (by rewrite <- rack_indices_bind). done. }
  assert (safe (release_racks (rcc_cc e) (rack_indices (rcc_cc e))) e) as Hsafe.
  { apply release_racks_safe. eapply Forall_impl; [exact Hracks|]. intros i (rs & -> & _). eauto. }
  apply safe_returns in Hsafe as ([] & e' & Hrun). exists e'. split; [congruence|].
  destruct (wp_run _ _ _ _ _ (release_racks_spec _ _ _) Hrun) as [_ He'].
  apply Forall_forall. intros i Hi. rewrite Forall_forall in Hracks. destruct (Hracks i Hi) as (rs & Hrs & _).
  exists (released rs). rewrite He', decide_True by (by apply list_elem_of_fmap_2). rewrite Hrs. split; [done|].
  unfold released. case_bool_decide; auto.
Qed.
End theorems.

(** ** Instances

    A data centre with two racks, from nothing. *)
Section instances.
#[local] Existing Instance SampleQuantities.
#[local] Existing Instance demo_codec.
#[local] Existing Instance demo_config.
#[local] Existing Instance demo_diff.
#[local] Existing Instance demo_topology_diff.
#[local] Existing Instance demo_patch.

(** A generator that gives each rack a statefulset of its size. *)
#[local] Instance demo_generator : StatefulSetGenerator := {|
  generated_sts cc st dcName k labels _ := Ret
    (Ok ((seeded (GetNodesPerRacks cc k) (SeedList (elems (s_SeedList st))) "20Gi")
          <| sts_Meta := (named (cc_Namespace cc) (cc_Name cc +:+ "-" +:+ k)) <| m_Labels := labels |> |>)) |}.

Definition two_racks : CassandraCluster := (simple_cluster 1 [simple_dc "dc1" ["rack1"; "rack2"]]) <| cc_Spec ::= λ s, s <| DataCapacity := "20Gi" |> |>.
Definition pod_of (rack : string) : Pod :=
  (ready_pod ("cassandra-demo-dc1-" +:+ rack +:+ "-0"))
    <| pod_Meta ::= λ m, m <| m_Labels := LabelsForCassandraDCRack two_racks "dc1" rack |> |>.
Definition world0 : FakeCluster :=
  empty_cluster <| f_cc := Some two_racks |>
                <| f_pods := list_to_map ((λ r, (pod_Name (pod_of r), pod_of r)) <$> ["rack1"; "rack2"]) |>
                <| f_pdb := Some (mkPDB (named "ns" "cassandra-demo") 1 ∅ 1 1) |>.

(** One run of the controller after another, each from the stored resource. *)
Fixpoint loops (n : nat) (e : Env FakeCluster) : outcome (Env FakeCluster) :=
  match n with
  | 0 => Ret e
  | S n => '(_, e) ← Reconcile 5 "ns" "cassandra-demo" e; loops n (start (world e) (rcc_cc e))
  end.
Definition summary (e : Env FakeCluster) : list (string * string * string) * list string * string :=
  let st := cc_Status (rcc_cc e) in
  ((λ p, (p.1, rs_Phase p.2, la_Status (rs_LastAction p.2))) <$> map_to_list (s_RackStatus st),
   (map_to_list (f_sts (world e))).*1, s_Phase st).

Definition state_after (n : nat) : outcome (list (string * string * string) * list string * string) :=
  e ← loops n (start world0 two_racks); mret (summary e).

(** The cluster comes up rack by rack: the first loop sets the defaults, each of the
    next two creates one statefulset, the fourth finds all racks running. *)
Example cluster_comes_up :
  state_after 1 =
    Ret ([("dc1-rack1", "Initializing", "Ongoing"); ("dc1-rack2", "Initializing", "Ongoing")], [], "Initializing") ∧
  state_after 2 =
    Ret ([("dc1-rack1", "Initializing", "Ongoing"); ("dc1-rack2", "Initializing", "Ongoing")],
         ["cassandra-demo-dc1-rack1"], "Initializing") ∧
  state_after 3 =
    Ret ([("dc1-rack1", "Running", "Done"); ("dc1-rack2", "Initializing", "Ongoing")],
         ["cassandra-demo-dc1-rack1"; "cassandra-demo-dc1-rack2"], "Initializing") ∧
  state_after 4 =
    Ret ([("dc1-rack1", "Running", "Done"); ("dc1-rack2", "Running", "Done")],
         ["cassandra-demo-dc1-rack1"; "cassandra-demo-dc1-rack2"], "Running").
Proof. vm_compute. auto. Qed.

(** Before the second loop. *)
Definition two_env : Env FakeCluster := start world0 (InitCassandraRackList two_racks).1.
Lemma two_racks_wf : wf_topology (topology two_racks).
Proof. apply (bool_decide_unpack _). vm_compute. exact I. Qed.

Lemma one_rack_at_a_time_witness :
  ∃ r e' finished rest, ReconcileRack 5 two_env = Ret (r, e') ∧ rack_indices two_racks = finished ++ rest ∧
    Forall (λ i, left_behind two_env e' (key two_racks i)) finished.
Proof.
  destruct (observe_Some (λ _ _, tt) (ReconcileRack 5) two_env tt) as (r & e' & Hrun & _); [vm_compute; reflexivity|].
  destruct (one_rack_at_a_time 5 two_env e' r Hrun two_racks_wf eq_refl) as (fin & rest & E & Hfin & _).
  exists r, e', fin, rest. split; [exact Hrun|]. split; [exact E|exact Hfin].
Defined.

Lemma at_most_one_statefulset_changed_witness :
  ∃ r e' l, ReconcileRack 5 two_env = Ret (r, e') ∧ log e' = l ∧ length (List.filter sts_write l) ≤ 1.
Proof.
  destruct (observe_Some (λ _ _, tt) (ReconcileRack 5) two_env tt) as (r & e' & Hrun & _); [vm_compute; reflexivity|].
  destruct (at_most_one_statefulset_changed 5 two_env e' r Hrun two_racks_wf eq_refl) as (l & E & Hl).
  exists r, e', l. split; [exact Hrun|]. split; [exact E|exact Hl].
Defined.

(** Racks that configure the seed list. *)
Definition seeds_env (rs1 rs2 : CassandraRackStatus) : Env FakeCluster :=
  start world0 (two_racks <| cc_Status ::= λ s, s
    <| s_RackStatus := {[ "dc1-rack1" := rs1; "dc1-rack2" := rs2 ]} |>
    <| s_LastClusterAction := Name ActionUpdateSeedList |> <| s_LastClusterActionStatus := StatusConfiguring |> |>).
Definition with_seeds : CassandraRackStatus :=
  rack_in ClusterPhaseRunning (mkLastAction StatusConfiguring (Name ActionUpdateSeedList) None None []).
Definition action_of (k : string) (e : Env FakeCluster) : option (string * string) :=
  (λ rs, (la_Name (rs_LastAction rs), la_Status (rs_LastAction rs))) <$> s_RackStatus (status e) !! k.

Lemma seed_list_released_when_configured_witness :
  ∃ e', EnsureSeedListIsUpdatedWhenRequired (seeds_env with_seeds with_seeds) = Ret (tt, e').
Proof.
  destruct (seed_list_released_when_configured (seeds_env with_seeds with_seeds)) as (e' & Hrun & _).
  - reflexivity.
  - repeat constructor; exists with_seeds; split; reflexivity.
  - exists e'. exact Hrun.
Defined.

Lemma seed_list_released_together_witness :
  ∃ e', EnsureSeedListIsUpdatedWhenRequired (seeds_env with_seeds with_seeds) = Ret (tt, e') ∧
    dc_ready two_racks (status (seeds_env with_seeds with_seeds)) 0.
Proof.
  destruct (observe_Some (λ _ e', action_of "dc1-rack1" e') EnsureSeedListIsUpdatedWhenRequired
    (seeds_env with_seeds with_seeds) (Some (Name ActionUpdateSeedList, StatusToDo)))
    as ([] & e' & Hrun & Ha); [vm_compute; reflexivity|].
  exists e'. split; [exact Hrun|].
  destruct (seed_list_released_together (seeds_env with_seeds with_seeds) e' Hrun) as [Hsame|(_ & Hready & _)].
  - unfold action_of in Ha. rewrite Hsame in Ha. discriminate Ha.
  - apply (Hready 0). vm_compute. lia.
Defined.

(** The [break] leaves the rest of the data centre out: the first rack still has its
    initial action, so the action the second one is in the middle of is not looked
    at, and is overwritten. *)
Example seed_list_overwrites_action :
  observe (λ _ e', action_of "dc1-rack2" e') EnsureSeedListIsUpdatedWhenRequired
    (seeds_env (rack_in ClusterPhaseRunning (mkLastAction StatusDone (Name ClusterPhaseInitial) None None []))
       (rack_in ClusterPhasePending (mkLastAction StatusOngoing (Name ActionScaleUp) None None []))) =
  Some (Some (Name ActionUpdateSeedList, StatusToDo)).
Proof. vm_compute. reflexivity. Qed.
End instances.
