(* ===== verification/Disruption.v ===== *)
(** * Disruptions hold back the statefulsets

    The disruption budget is read at the start of a reconcile loop.  While it reports
    that a pod is missing, and the user did not unlock the next operation, the loop over
    the racks changes no statefulset: [CreateOrUpdateStatefulSet] turns back for every
    rack, and nothing else of the loop writes one, but for a storage upsize, which does
    not look at the budget. *)
From S2P Require Import Prelude KubeObjects Types ClusterApi K8sUtil Server Pods NodeOperations.
From S2P Require Import FakeCluster Samples StorageUpsize StatefulSets ClusterPods Status Decommission PodOperations ChangeChecks Reconcile.

(** ** What the work on a rack leaves of the lock *)
Section hold.
Context {QL : QuantityLib} {W : Type} {Srv : ApiServer W}.
Implicit Types e : Env W.

Abbreviation unlocked := (λ cc : CassandraCluster, UnlockNextOperation (cc_Spec cc)).

(** The budget stays as it was read, nothing is unlocked and no statefulset is written. *)
Definition hold e e' : Prop :=
  rcc_storedPdb e' = rcc_storedPdb e ∧ (unlocked (rcc_cc e) = false → unlocked (rcc_cc e') = false) ∧ logs no_sts_write e e'.
#[global] Instance hold_preorder : PreOrder hold.
Proof.
  split; [intros e; split_and!; [done|done|by apply logs_same]|].
  intros e1 e2 e3 (E1 & U1 & L1) (E2 & U2 & L2). split_and!; [congruence|auto|by etrans].
Qed.

Lemma hold_call {A} (r : Req A) : (∀ a, no_sts_write (Ev _ r a)) → keeps hold (call r : M W A).
Proof. intros HP. apply keeps_call. intros e a w. split_and!; [done|done|apply logs_call, HP]. Qed.
Lemma hold_set_rack k f : keeps hold (set_rack k f : M W unit).
Proof. apply keeps_set_rack. intros e. split_and!; [done|done|by apply logs_same]. Qed.
Lemma hold_set_action k f : keeps hold (set_action k f : M W unit).
Proof. apply hold_set_rack. Qed.
Lemma hold_set_podop k f : keeps hold (set_podop k f : M W unit).
Proof. apply hold_set_rack. Qed.
Lemma hold_modify (f : Env W → Env W) :
  (∀ e, rcc_storedPdb (f e) = rcc_storedPdb e ∧ rcc_cc (f e) = rcc_cc e ∧ log (f e) = log e) → keeps hold (modify f).
Proof.
  intros Hf. apply keeps_modify. intros e. destruct (Hf e) as (E1 & E2 & E3). unfold hold. rewrite E2.
  split_and!; [done|done|by apply logs_same].
Qed.
Lemma hold_modify_cc f : (∀ cc, unlocked cc = false → unlocked (f cc) = false) → keeps hold (modify_cc (W:=W) f).
Proof. intros Hf. apply keeps_modify. intros e. split_and!; [done|apply Hf|by apply logs_same]. Qed.
Lemma hold_modify_status f : keeps hold (modify_status (W:=W) f).
Proof. apply keeps_modify. intros e. split_and!; [done|done|by apply logs_same]. Qed.
Lemma keeps_hold (P : Event → Prop) {A} (m : M W A) : (∀ ev, P ev → no_sts_write ev) → keeps (quiet P) m → keeps hold m.
Proof.
  intros HP Hm. refine (keeps_mono _ _ _ _ Hm). intros e e' (Hl & Hcc & _ & _ & Hpdb & _). unfold hold. rewrite Hcc.
  split_and!; [done|done|by eapply logs_mono].
Qed.
End hold.
#[local] Hint Resolve hold_set_rack hold_set_action hold_set_podop hold_modify_status : keeps.
#[local] Hint Extern 1 (keeps hold (call _)) => apply hold_call; done : keeps.
#[local] Hint Extern 2 (keeps hold (modify _)) => apply hold_modify; by intros : keeps.
#[local] Hint Extern 3 (keeps hold (modify_cc _)) => apply hold_modify_cc; by intros : keeps.
#[local] Hint Extern 9 (keeps hold _) => apply (keeps_hold read_only); [exact read_only_no_write|solve [eauto with keeps]] : keeps.

Section rack.
Context {QL : QuantityLib} {Codec : StsCodec} {CfgCodec : ConfigCodec} {Diff : SliceDiff}.
Context {Patch : PatchLib} {Gen : StatefulSetGenerator} {W : Type} {Srv : ApiServer W}.
Implicit Types e : Env W.

Lemma phase_hold n sts : keeps hold (UpdateCassandraRackStatusPhase (W:=W) n sts).
Proof. unfold UpdateCassandraRackStatusPhase, initializing, setDecommissionStatus. keeps_steps. Qed.

Lemma labels_hold cc n l : keeps hold (addPodOperationLabels (W:=W) cc n l).
Proof. apply (keeps_hold labels_only _ labels_no_write), addPodOperationLabels_quiet. Qed.

Lemma ended_hold n sts : keeps hold (UpdateStatusIfActionEnded (W:=W) n sts).
Proof. unfold UpdateStatusIfActionEnded, endScaleUp, endScaleDown, setDone. keeps_steps; apply labels_hold. Qed.

Lemma first_true_hold (l : list (M W bool)) : Forall (keeps hold) l → keeps hold (first_true l).
Proof. induction 1 as [|m l Hm _ IH]; simpl; keeps_steps; auto. Qed.

Lemma detections_hold n dc rack sts : Forall (keeps hold) (detections (W:=W) n dc rack sts).
Proof.
  unfold detections. repeat constructor;
    unfold UpdateStatusIfconfigMapHasChanged, UpdateStatusIfDockerImageHasChanged, UpdateStatusIfStorageUpsize,
      UpdateStatusIfScaling, UpdateStatusIfSeedListHasChanged, UpdateStatusIfRollingRestart, setDecommissionStatus,
      UpdateStatusIfStatefulSetChanged, ShouldBeStarted, living, LivingStatefulSet, startUpsizeAction, setAction;
    keeps_steps.
Qed.

Lemma next_hold n dc rack sts : keeps hold (getNextCassandraClusterStatus (W:=W) n dc rack sts).
Proof.
  unfold getNextCassandraClusterStatus, needToWaitDelayBeforeCheck, mayStartAction, hasNoPodDisruption, startUpdateResources.
  keeps_steps; auto using ended_hold, first_true_hold, detections_hold.
Qed.

Lemma writeStatus_hold cc st : keeps hold (writeStatus (W:=W) cc st).
Proof. unfold writeStatus. keeps_steps. Qed.
Lemma writeStatus_spec cc st e : wp (writeStatus cc st) (λ r _, cc_Spec r.1 = cc_Spec cc) e.
Proof.
  unfold writeStatus. cbv zeta. apply wp_bind, wp_gets. destruct (_ && _); [by apply wp_ret|].
  apply wp_bind, wp_modify, wp_bind, wp_call. intros r w. apply wp_bind, wp_call. intros r' w'. apply wp_ret.
  by destruct r as [[rv stored]|], r'.
Qed.
Lemma updateCassandraStatus_hold : keeps hold (updateCassandraStatus (W:=W)).
Proof.
  intros e. unfold updateCassandraStatus. apply wp_bind, wp_gets, wp_bind, wp_gets, wp_bind.
  eapply wp_mono; [apply wp_and; [apply writeStatus_spec|apply writeStatus_hold]|].
  intros [cc err] e1 [Hcc (Hp & _ & Hl)]. apply wp_bind, wp_modify, wp_ret. cbn in Hcc.
  split_and!; [done|cbn; by rewrite Hcc|done].
Qed.
Lemma saveStatus_hold : keeps hold (saveStatus (W:=W)).
Proof. unfold saveStatus. keeps_steps. apply updateCassandraStatus_hold. Qed.
Lemma UpdatePodLabel_hold pod labels : keeps hold (UpdatePodLabel (W:=W) pod labels).
Proof. apply (keeps_hold labels_only _ labels_no_write), UpdatePodLabel_quiet. Qed.
#[local] Hint Resolve updateCassandraStatus_hold saveStatus_hold UpdatePodLabel_hold writeStatus_hold pods_by_name_quiet : keeps.

Lemma decommission_hold dcName rackName ready : keeps hold (ensureDecommission (W:=W) dcName rackName ready).
Proof.
  unfold ensureDecommission, ensureDecommissionToDo, ensureDecommissionFinalizing, ensureDecommissionOngoing,
    ensureDecommissionDone, deletePodPVC, deletePVC, spawn. keeps_steps.
Qed.
Lemma finalize_loop_hold fuel pod labels cc : keeps hold (finalize_loop (W:=W) fuel pod labels cc).
Proof. revert cc. induction fuel as [|fuel IH]; intros cc; cbn [finalize_loop]; keeps_steps; apply IH. Qed.
Lemma finalize_hold rounds fuel i : keeps hold (finalizeOperations_from (W:=W) rounds fuel i).
Proof.
  revert i. induction rounds as [|rounds IH]; intros i; cbn [finalizeOperations_from]; unfold finalizeOperation;
    keeps_steps; try apply IH; try apply finalize_loop_hold.
Qed.
Lemma ensureOperation_hold dcName rackName operationName : keeps hold (ensureOperation (W:=W) dcName rackName operationName).
Proof. unfold ensureOperation, getPodsToWorkOn, startOperation, spawn, podsSlice, initOperation. keeps_steps. Qed.
Lemma handle_hold fuel dcName rackName ready : keeps hold (handlePodOperation (W:=W) fuel dcName rackName ready).
Proof.
  unfold handlePodOperation, finalizeOperations, randomPodOperationKey.
  keeps_steps; auto using decommission_hold, finalize_hold, ensureOperation_hold.
Qed.
Lemma rackActions_hold fuel n dc rack sts : keeps hold (rackActions (W:=W) fuel n dc rack sts).
Proof. unfold rackActions, podOperations. keeps_steps; auto using phase_hold, next_hold, handle_hold. Qed.
Lemma services_hold : keeps hold (ensureCassandraService (W:=W)) ∧ keeps hold (ensureCassandraServiceMonitoring (W:=W)).
Proof. split; unfold ensureCassandraService, ensureCassandraServiceMonitoring, create_service; keeps_steps. Qed.
End rack.

(** ** The loop over the racks *)
Section locked.
Context {QL : QuantityLib} {Codec : StsCodec} {CfgCodec : ConfigCodec} {Diff : SliceDiff} {TDiff : TopologyDiff}.
Context {Patch : PatchLib} {Gen : StatefulSetGenerator} {W : Type} {Srv : ApiServer W}.
Implicit Types e : Env W.

(** The budget that was read reports a disruption and the next operation is not unlocked. *)
Definition locked e : Prop :=
  ∃ pdb, rcc_storedPdb e = Some pdb ∧ no_disruption pdb = false ∧ UnlockNextOperation (cc_Spec (rcc_cc e)) = false.

Lemma locked_hold e e' : hold e e' → locked e → locked e'.
Proof. intros (Hp & Hu & _) (pdb & Hpdb & Hd & Hl). exists pdb. split_and!; [congruence|done|auto]. Qed.

Lemma CreateOrUpdate_locked sts n e : locked e → CreateOrUpdateStatefulSet sts n e = Ret ((ContinueResyncLoop, None), e).
Proof. intros (pdb & Hpdb & Hd & Hl). by eapply sts_untouched_under_disruption. Qed.

Lemma ensure_locked n dc rack e : locked e → wp (ensureCassandraStatefulSet n dc rack) (λ _ e', e' = e) e.
Proof.
  intros Hl. unfold ensureCassandraStatefulSet. apply wp_bind, wp_gets, wp_bind, wp_gets.
  destruct (DCRackLabelsAndNodeSelectorForStatefulSet _ _ _) as [labels sel]. apply wp_bind, wp_lift. intros [ss|er] _; [|by apply wp_ret].
  apply wp_bind. unfold wp at 1. rewrite CreateOrUpdate_locked by done. by apply wp_ret.
Qed.

(** A rack with a storage upsize under way, which is what the loop did last. *)
Definition upsized e e' : Prop :=
  ∃ n e1 rs err, logs no_sts_write e e1 ∧ s_RackStatus (status e1) !! crn_DcRackName n = Some rs ∧ IsStarted rs = true ∧
    ReconcileStorageUpsize n e1 = Ret (err, e').

(** The work on one rack, or on some: nothing is written and the lock stays while the
    loop goes on, or it ended with an upsize. *)
Definition held e (o : RackOutcome) e' : Prop :=
  (logs no_sts_write e e' ∧ (ends o = false → locked e')) ∨ (upsized e e' ∧ ends o = true).

Lemma held_l e e1 e2 o : logs no_sts_write e e1 → held e1 o e2 → held e o e2.
Proof.
  intros Hl [[H1 H2]|[(n & e3 & rs & err & H1 & H2) Ho]]; [left; split; [by etrans|done]|right; split; [|done]].
  exists n, e3, rs, err. split; [by etrans|exact H2].
Qed.

Lemma updateStatefulSet_locked n dc rack e : locked e → wp (updateStatefulSet n dc rack) (held e) e.
Proof.
  intros Hl. unfold updateStatefulSet. apply wp_bind. eapply wp_mono; [by apply ensure_locked|]. cbv beta. intros [b err] e1 ->.
  assert (keeps hold (clearUnlock (W:=W))) as Hclear by (unfold clearUnlock, set_needUpdate; keeps_steps).
  apply wp_bind. eapply wp_keeps; [exact Hclear|]. intros _ e2 H2. pose proof H2 as (_ & _ & Hw). destruct b.
  - apply wp_bind, wp_gets, wp_bind. eapply (wp_keeps (logs no_sts_write)).
    { destruct (_ && _); [|apply keeps_ret; apply _]. unfold waitForStatefulSetToBeUpdated. apply keeps_bind; [apply _|apply keeps_gets; apply _|].
      intros cc. apply nowrite_monitor. }
    intros _ e3 H3. apply wp_ret. left. split; [by etrans|done].
  - apply wp_bind, wp_rack_status. intros rs _. destruct (_ || _); apply wp_ret; left; (split; [done|]); intros _; by eapply locked_hold.
Qed.

Lemma upsizeOrUpdate_locked n dc rack sts err e : locked e → wp (upsizeOrUpdate n dc rack sts err) (held e) e.
Proof.
  intros Hl. unfold upsizeOrUpdate. apply wp_bind, wp_rack_status. intros rs Hrs.
  destruct (IsStarted rs) eqn:Hst; [|by apply updateStatefulSet_locked].
  assert (∀ o e1, status e1 = status e → log e1 = log e →
    wp (err ← ReconcileStorageUpsize n; mret (Return err)) (held e) (e1 <| rcc_storedStatefulSet := o |>)) as Hup.
  { intros o e1 Hs Hlog. apply wp_bind, wp_intro. intros er e2 Hrun. apply wp_ret. right. split; [|done].
    exists n, (e1 <| rcc_storedStatefulSet := o |>), rs, er. split; [by apply logs_same|]. cbn. by rewrite Hs. }
  destruct err as [er|]; [destruct (IsNotFound er)|]; [|apply wp_ret; left; by split; [apply logs_same|]|];
    apply wp_bind, wp_modify; by apply (Hup _ e).
Qed.

Lemma reconcileOneRack_locked fuel i e : locked e → wp (reconcileOneRack fuel i) (held e) e.
Proof.
  intros Hl. unfold reconcileOneRack. apply wp_bind, wp_gets.
  case_bool_decide; [apply wp_ret; left; by split; [apply logs_same|]|]. apply wp_bind, wp_gets.
  destruct (s_RackStatus (status e) !! _) as [rs|].
  2: { apply wp_bind, wp_call. intros [] w. apply wp_bind, wp_modify, wp_ret. left. split; [by apply logs_call|done]. }
  destruct (deleting (rcc_cc e)).
  { apply wp_bind. eapply (wp_keeps hold); [unfold DeletePVCs, ListPVC, deletePVC; keeps_steps|]. intros _ e1 H1. apply wp_ret.
    left. split; [apply H1|]. intros _. by eapply locked_hold. }
  unfold GetStatefulSet. apply wp_bind, wp_bind, wp_call. intros r w. apply wp_ret.
  set (e1 := e <| world := w |> <| log ::= _ |>). assert (hold e e1) as H1 by (split_and!; [done|done|by apply logs_call]). clearbody e1.
  destruct (got _ r) as [sts err]. apply wp_bind. eapply (wp_keeps hold).
  { destruct err; [apply keeps_ret; apply _|apply rackActions_hold]. }
  intros [o|] e2 H2.
  { apply wp_ret. left. split; [etrans; [apply H1|apply H2]|]. intros _. eapply locked_hold; [|exact Hl]. by etrans. }
  destruct services_hold as [Hs1 Hs2]. apply wp_bind. eapply wp_keeps; [exact Hs1|]. intros _ e3 H3.
  apply wp_bind. eapply wp_keeps; [exact Hs2|]. intros _ e4 H4.
  assert (hold e e4) as H04 by (repeat (etrans; [eassumption|]); reflexivity).
  eapply wp_mono; [apply upsizeOrUpdate_locked; by eapply locked_hold|]. intros o e5 Ho. eapply held_l; [apply H04|exact Ho].
Qed.

Lemma reconcileRacks_locked fuel racks b e : locked e → wp (reconcileRacks fuel racks b) (held e) e.
Proof.
  revert b e. induction racks as [|i racks IH]; intros b e Hl; cbn [reconcileRacks].
  { apply wp_ret. left. by split; [apply logs_same|]. }
  apply wp_bind. eapply wp_mono; [by apply reconcileOneRack_locked|]. intros o e1 Ho.
  destruct o as [added|er|]; [|by apply wp_ret..]. destruct Ho as [[Hw Hl1]|[_ [=]]].
  eapply wp_mono; [apply IH; by apply Hl1|]. intros o e2 Ho. by eapply held_l.
Qed.

(** C33: while the disruption budget read at the start of the loop reports a disruption
    and the user did not unlock the next operation, the loop over the racks creates,
    updates and deletes no statefulset, whatever the resource asks for and the API
    server answers.  The exception is a storage upsize: the loop may end with the upsize
    of a rack whose storage upsize is under way, and only this writes a statefulset. *)
Theorem disruption_holds_statefulsets (fuel : nat) (r : option (option error)) (e e' : Env W) (pdb : PodDisruptionBudget)
    (Hpdb : rcc_storedPdb e = Some pdb) (Hdisrupted : no_disruption pdb = false)
    (Hlocked : UnlockNextOperation (cc_Spec (rcc_cc e)) = false)
    (Hrun : ReconcileRack fuel e = Ret (r, e')) :
  logs no_sts_write e e' ∨
  ∃ n e1 rs err, logs no_sts_write e e1 ∧ s_RackStatus (status e1) !! crn_DcRackName n = Some rs ∧
    la_Name (rs_LastAction rs) = Name ActionStorageUpsize ∧ la_Status (rs_LastAction rs) ≠ StatusDone ∧
    ReconcileStorageUpsize n e1 = Ret (err, e').
Proof.
  assert (locked e) as Hl by by exists pdb.
  assert (wp (ReconcileRack fuel) (λ _ e', logs no_sts_write e e' ∨ upsized e e') e) as Hwp.
  { unfold ReconcileRack. apply wp_bind, wp_gets, wp_bind. eapply wp_mono; [by apply reconcileRacks_locked|].
    intros o e1 Ho. assert (logs no_sts_write e e1 ∨ upsized e e1) as H1 by (destruct Ho as [[? _]|[? _]]; auto).
    destruct o as [added|er|]; [|by apply wp_ret..]. destruct Ho as [[Hw _]|[_ [=]]]. apply wp_bind, wp_gets.
    destruct added; [by apply wp_ret|]. destruct (deleting _); [|by apply wp_ret].
    eapply (wp_keeps hold); [unfold updateResource; keeps_steps|]. intros _ e2 H2. left. etrans; [exact Hw|apply H2]. }
  destruct (wp_run _ _ _ _ _ Hwp Hrun) as [?|(n & e1 & rs & err & H1 & H2 & H3 & H4)]; [by left|right].
  exists n, e1, rs, err. unfold IsStarted in H3. apply andb_true_iff in H3 as [H3%bool_decide_eq_true H5%negb_true_iff%bool_decide_eq_false].
  by split_and!.
Qed.
End locked.

(** ** An instance: two racks without statefulsets, and a pod that is missing *)
Section instances.
#[local] Existing Instance SampleQuantities.
#[local] Existing Instance demo_codec.
#[local] Existing Instance demo_config.
#[local] Existing Instance demo_diff.
#[local] Existing Instance demo_topology_diff.
#[local] Existing Instance demo_patch.
#[local] Existing Instance demo_generator.

Definition with_budget (allowed : Z) (e : Env FakeCluster) : Env FakeCluster :=
  e <| rcc_storedPdb := Some (mkPDB (named "ns" "cassandra-demo") 1 ∅ allowed 2) |>.

(** Without a disruption the same loop creates the first statefulset; with one it does
    only when the next operation is unlocked. *)
Example budget_decides :
  let writes := λ e : Env FakeCluster, observe (λ _ e', length (List.filter sts_write (log e'))) (ReconcileRack 5) e in
  writes (with_budget 1 two_env) = Some 1 ∧ writes (with_budget 0 two_env) = Some 0 ∧
  writes (with_budget 0 (two_env <| rcc_cc ::= λ cc, cc <| cc_Spec ::= λ s, s <| UnlockNextOperation := true |> |> |>)) = Some 1.
Proof. vm_compute. auto. Qed.

Lemma disruption_holds_statefulsets_witness :
  ∃ r e', ReconcileRack 5 (with_budget 0 two_env) = Ret (r, e') ∧
    (logs no_sts_write (with_budget 0 two_env) e' ∨
     ∃ n e1 rs err, logs no_sts_write (with_budget 0 two_env) e1 ∧ s_RackStatus (status e1) !! crn_DcRackName n = Some rs ∧
       la_Name (rs_LastAction rs) = Name ActionStorageUpsize ∧ la_Status (rs_LastAction rs) ≠ StatusDone ∧
       ReconcileStorageUpsize n e1 = Ret (err, e')).
Proof.
  destruct (observe_Some (λ _ _, tt) (ReconcileRack 5) (with_budget 0 two_env) tt) as (r & e' & Hrun & _); [vm_compute; reflexivity|].
  exists r, e'. split; [exact Hrun|].
  exact (disruption_holds_statefulsets 5 r (with_budget 0 two_env) e' (mkPDB (named "ns" "cassandra-demo") 1 ∅ 0 2)
    eq_refl eq_refl eq_refl Hrun).
Defined.
End instances.
