(* ===== verification/RackScaleDown.v ===== *)
(** * A rack shrinks (src/controllers/cassandracluster: reconcile.go, pod_operation.go, statefulset.go)

    [Decommission] says when the operation on the leaving node lets the loop go on,
    [Reconcile] how a rack is processed.  Here they are put together: what the work on
    one rack asks of its statefulset while a node is to leave, and the situations in
    which the statefulset is shrunk although no node was asked to. *)
From S2P Require Import Prelude KubeObjects Types ClusterApi K8sUtil Server Pods NodeOperations.
From S2P Require Import FakeCluster StorageUpsize StatefulSets ClusterPods Status Decommission PodOperations ChangeChecks.
From S2P Require Import Reconcile.

Section shrink.
Context {QL : QuantityLib} {Codec : StsCodec} {CfgCodec : ConfigCodec} {Diff : SliceDiff}.
Context {Patch : PatchLib} {Gen : StatefulSetGenerator} {W : Type} {Srv : ApiServer W}.
Implicit Types e : Env W.

(** A scale down waits for its node: the action ScaleDown is ToDo or Ongoing (in Continue
    the node has left and other actions may be started), a decommission is recorded that
    is not done, the rack is past its initialisation, the budget was read and the user
    did not unlock the next operation (which lets another action take over when a pod
    cannot be scheduled). *)
Record shrinking (n : CompleteRackName) (rs : CassandraRackStatus) e : Prop := {
  sh_entry : s_RackStatus (status e) !! crn_DcRackName n = Some rs;
  sh_phase : rs_Phase rs ≠ Name ClusterPhaseInitial;
  sh_action : la_Name (rs_LastAction rs) = Name ActionScaleDown;
  sh_state : la_Status (rs_LastAction rs) ∈ [StatusToDo; StatusOngoing];
  sh_op : decommissioning (rs_PodLastOperation rs);
  sh_open : ¬ stored_done (rcc_cc e) (crn_DcRackName n);
  sh_locked : UnlockNextOperation (cc_Spec (rcc_cc e)) = false;
  sh_pdb : is_Some (rcc_storedPdb e) }.

Lemma shrinking_down n rs e : shrinking n rs e → weAreScalingDown rs = true ∧ busy (rs_LastAction rs) = true.
Proof.
  intros [_ _ Ha Hs _ _ _ _]. unfold weAreScalingDown, busy. rewrite Ha.
  apply elem_of_cons in Hs as [->|[->|[]%elem_of_nil]%elem_of_cons]; done.
Qed.

(** ** The steps of the work on the rack *)
Definition same_cc e e' : Prop := rcc_cc e' = rcc_cc e ∧ rcc_storedPdb e' = rcc_storedPdb e.
#[local] Instance same_cc_preorder : PreOrder same_cc.
Proof. split; [done|]. intros e1 e2 e3 [] []. split; congruence. Qed.
Lemma same_cc_call {A} (r : Req A) : keeps same_cc (call r : M W A).
Proof. by apply keeps_call. Qed.
Lemma same_cc_set_rack k f : keeps same_cc (set_rack k f : M W unit).
Proof. by apply keeps_set_rack. Qed.
#[local] Hint Resolve same_cc_call same_cc_set_rack : keeps.
#[local] Hint Extern 1 (keeps same_cc (set_action _ _)) => apply same_cc_set_rack : keeps.
#[local] Hint Extern 1 (keeps same_cc (set_podop _ _)) => apply same_cc_set_rack : keeps.

Lemma same_cc_quiet {A} P (m : M W A) : keeps (quiet P) m → keeps same_cc m.
Proof. intros Hm. refine (keeps_mono _ _ _ _ Hm). by intros e e' (_ & ? & _ & _ & ? & _). Qed.
#[local] Hint Extern 9 (keeps same_cc _) => apply (same_cc_quiet read_only); solve [eauto with keeps] : keeps.

Lemma phase_same_cc n sts : keeps same_cc (UpdateCassandraRackStatusPhase (W:=W) n sts).
Proof. unfold UpdateCassandraRackStatusPhase, initializing, setDecommissionStatus. keeps_steps. Qed.

(** The phase is computed, and the scale down stays under way. *)
Lemma phase_shrinking n sts rs e :
  shrinking n rs e →
  wp (UpdateCassandraRackStatusPhase n sts) (λ _ e', rcc_cc e' = rcc_cc e ∧
    ∃ rs', rs_PodLastOperation rs' = rs_PodLastOperation rs ∧ shrinking n rs' e') e.
Proof.
  intros [H1 H2 H3 H4 H5 H6 H7 H8].
  eapply wp_mono; [apply wp_and; [by apply phase_spec|apply phase_same_cc]|].
  intros _ e' [(rs' & Hrs' & Hpost) [Hcc Hpdb]]. unfold phase_post in Hpost. rewrite bool_decide_false in Hpost by done.
  split; [done|]. exists rs'. subst rs'. split; [done|]. split; try done; [by destruct (IsStatefulSetReady sts)|by rewrite Hcc..|].
  by rewrite Hpdb.
Qed.

Lemma next_shrinking n dc rack sts rs e :
  shrinking n rs e → wp (getNextCassandraClusterStatus n dc rack sts) (λ _ e', rcc_cc e' = rcc_cc e ∧
    s_RackStatus (status e') !! crn_DcRackName n = Some rs) e.
Proof.
  intros Hsh. pose proof (shrinking_down _ _ _ Hsh) as [_ Hbusy]. destruct Hsh as [H1 H2 H3 H4 H5 H6 H7 [pdb H8]].
  eapply wp_mono; [by apply (next_busy n dc rack sts e rs pdb)|]. intros _ e' [(Hcc & _) Hsame].
  split; [done|]. by destruct (Hsame H3).
Qed.

(** The operation on the leaving node holds the loop until the node is out. *)
Lemma podOperations_shrinking fuel n sts rs e :
  crn_DcRackName n = GetDCRackName (crn_DcName n) (crn_RackName n) →
  s_RackStatus (status e) !! crn_DcRackName n = Some rs → rs_Phase rs ≠ Name ClusterPhaseInitial →
  weAreScalingDown rs = true → decommissioning (rs_PodLastOperation rs) →
  wp (podOperations fuel n sts) (λ stop e', stop = None → node_out e e' (rcc_cc e) (crn_DcName n) (crn_RackName n) rs) e.
Proof.
  intros Hk Hrs Hphase Hdown Hop. unfold podOperations, handlePodOperation.
  apply wp_bind, wp_rack_status. rewrite Hrs. intros ? [= <-]. rewrite bool_decide_false by done. cbn [negb].
  apply wp_bind, wp_bind, wp_gets, wp_bind, wp_rack_status. rewrite <- Hk, Hrs. intros ? [= <-]. rewrite Hdown.
  apply wp_bind, wp_intro. intros [b err] e1 Hrun. rewrite Hk in Hrs. apply wp_ret. destruct b.
  - apply wp_bind, wp_rack_status. intros rs1 _. destruct (_ || _); by apply wp_ret.
  - apply wp_ret. intros _. by destruct (decommission_released _ _ _ _ _ _ _ Hrun Hrs Hop).
Qed.
Lemma rackActions_shrinking fuel n dc rack sts rs e :
  splits n → shrinking n rs e →
  wp (rackActions fuel n dc rack sts) (λ stop e', logs no_sts_write e e' ∧
    (stop = None → node_out e e' (rcc_cc e) (crn_DcName n) (crn_RackName n) rs)) e.
Proof.
  intros Hn Hsh. apply wp_and; [by apply (around_nowrite (crn_DcRackName n)), rackActions_around|].
  unfold rackActions. apply wp_bind. eapply wp_mono; [apply wp_and; [by apply phase_shrinking|apply phase_around]|].
  intros _ e1 [(Hcc1 & rs1 & Hop1 & Hsh1) (_ & _ & Hl1)].
  apply wp_bind. eapply wp_mono; [apply wp_and; [by apply next_shrinking|apply next_around]|].
  intros _ e2 [(Hcc2 & Hrs2) (_ & _ & Hl2)]. pose proof (shrinking_down _ _ _ Hsh1) as [Hdown _].
  eapply wp_mono; [eapply podOperations_shrinking; [apply Hn|exact Hrs2|apply Hsh1|exact Hdown|apply Hsh1]|].
  intros stop e3 Hout Hstop. specialize (Hout Hstop). rewrite Hcc2, Hcc1 in Hout. unfold node_out in Hout.
  rewrite Hop1 in Hout. eapply (node_out_mono _ any_event); [etrans; eassumption| |exact Hout]. by apply logs_same.
Qed.

(** What the work on a rack may rest on when it writes a statefulset: the node is out, or
    the reading of the statefulset failed and with it the operations on pods were left
    out. *)
Definition may_write e e' (cc : CassandraCluster) (n : CompleteRackName) (rs : CassandraRackStatus) : Prop :=
  node_out e e' cc (crn_DcName n) (crn_RackName n) rs ∨
  ∃ err, since e e' (Ev _ (ApiGetStatefulSet (cc_Namespace cc) (cc_Name cc +:+ "-" +:+ crn_DcRackName n)) (Err err)).

Lemma may_write_mono P e e1 e2 cc n rs : logs P e1 e2 → may_write e e1 cc n rs → may_write e e2 cc n rs.
Proof.
  intros Hl [Hout|[err Hs]]; [left|right; exists err; by eapply since_logs_r].
  eapply (node_out_mono any_event); [by apply logs_same|exact Hl|exact Hout].
Qed.

Lemma rest_any n dc rack sts err :
  keeps (logs any_event) (_ ← ensureCassandraService; _ ← ensureCassandraServiceMonitoring;
    upsizeOrUpdate (W:=W) n dc rack sts err).
Proof.
  refine (keeps_mono _ _ _ _ (_ : keeps (around any_event (crn_DcRackName n)) _)); [by intros e e' (_ & _ & Hl)|].
  unfold ensureCassandraService, ensureCassandraServiceMonitoring, create_service. keeps_steps. apply upsizeOrUpdate_around.
Qed.

Lemma oneRack_shrinking fuel i e rs :
  splits (rackNameAt (rcc_cc e) i) → deleting (rcc_cc e) = false → shrinking (rackNameAt (rcc_cc e) i) rs e →
  wp (reconcileOneRack fuel i) (λ _ e', logs no_sts_write e e' ∨
    may_write e e' (rcc_cc e) (rackNameAt (rcc_cc e) i) rs) e.
Proof.
  intros Hn Hdel Hsh. unfold reconcileOneRack. apply wp_bind, wp_gets. set (n := rackNameAt (rcc_cc e) i) in *.
  case_bool_decide; [apply wp_ret; left; by apply logs_same|]. apply wp_bind, wp_gets.
  rewrite (sh_entry _ _ _ Hsh), Hdel. unfold GetStatefulSet. apply wp_bind, wp_bind, wp_call. intros r w. apply wp_ret.
  set (e1 := e <| world := w |> <| log ::= _ |>).
  assert (logs no_sts_write e e1) as H1 by (by apply logs_call).
  apply wp_mono with (Q := λ _ e', logs no_sts_write e1 e' ∨ may_write e e' (rcc_cc e) n rs);
    [|intros o e' [Hl|Hm]; [left; by etrans|by right]].
  assert (∀ sts err e2, may_write e e2 (rcc_cc e) n rs → wp (_ ← ensureCassandraService; _ ← ensureCassandraServiceMonitoring;
    upsizeOrUpdate (W:=W) n i.1 i.2 sts err) (λ _ e', logs no_sts_write e1 e' ∨ may_write e e' (rcc_cc e) n rs) e2) as Hgo.
  { intros sts err e2 Hmay. eapply wp_keeps; [apply rest_any|]. intros _ e3 H3. right. by eapply may_write_mono. }
  destruct r as [sts|er]; cbn [got]; apply wp_bind.
  - eapply wp_mono; [apply (rackActions_shrinking _ _ _ _ _ rs); [done|by destruct Hsh]|].
    intros [o|] e2 [Hl Hout]; [apply wp_ret; by left|]. apply Hgo. left.
    eapply (node_out_mono _ any_event); [exact H1|by apply logs_same|by apply Hout].
  - apply wp_ret, Hgo. right. exists er. apply since_call.
Qed.

(** ** Theorem *)

(** C2: while a node is to leave a rack, the statefulset of the rack is left alone until the
    node is out.  The rack has the action ScaleDown in ToDo or Ongoing (not Continue),
    with a decommission that is recorded and not done, is past its initialisation, the
    resource is not being deleted and the next operation is not unlocked (the disruption
    budget was read before, and the name of the rack splits back into its parts).  When
    the work on this rack asks for a change of a statefulset, whatever the API server and the
    agents answer, then in this very run the agent of the pod being decommissioned
    answered that its node has left the ring, or the last pod of the rack was listed as
    never scheduled, or the first reading of the statefulset failed. *)
Theorem statefulset_waits_for_node (fuel : nat) (i : nat * nat) (e e' : Env W) (o : RackOutcome)
    (rs : CassandraRackStatus) (ev : Event)
    (Hrun : reconcileOneRack fuel i e = Ret (o, e'))
    (Hn : splits (rackNameAt (rcc_cc e) i)) (Hdel : deleting (rcc_cc e) = false)
    (Hsh : shrinking (rackNameAt (rcc_cc e) i) rs e)
    (Hwrite : since e e' ev) (Hev : sts_write ev = true) :
  may_write e e' (rcc_cc e) (rackNameAt (rcc_cc e) i) rs.
Proof.
  destruct (wp_run _ _ _ _ _ (oneRack_shrinking fuel i e rs Hn Hdel Hsh) Hrun) as [Hl|Hm]; [|done].
  pose proof (logs_since _ _ _ _ Hl Hwrite) as Hno. unfold no_sts_write in Hno. congruence.
Qed.

(** In state Finalizing nothing shrinks the statefulset: the operation holds the loop until
    the pod is gone, and only the loop that entered the state goes on to the statefulset. *)
Theorem finalizing_keeps_statefulset (fuel : nat) (i : nat * nat) (e e' : Env W) (o : RackOutcome)
    (rs : CassandraRackStatus)
    (Hrun : reconcileOneRack fuel i e = Ret (o, e'))
    (Hn : splits (rackNameAt (rcc_cc e) i)) (Hdel : deleting (rcc_cc e) = false)
    (Hsh : shrinking (rackNameAt (rcc_cc e) i) rs e)
    (Hfin : po_Status (rs_PodLastOperation rs) = StatusFinalizing)
    (Hread : ∀ ns name err, ¬ since e e' (Ev _ (ApiGetStatefulSet ns name) (Err err))) :
  logs no_sts_write e e'.
Proof.
  destruct (wp_run _ _ _ _ _ (oneRack_shrinking fuel i e rs Hn Hdel Hsh) Hrun) as [Hl|[Hout|[err Hs]]]; [done| |].
  - exfalso. destruct Hout as [[Hst _]|[Hst _]]; rewrite Hfin in Hst; [discriminate|].
    apply elem_of_cons in Hst as [Hst|Hst%list_elem_of_singleton]; discriminate Hst.
  - by apply Hread in Hs.
Qed.
End shrink.

(** ** Instances

    A rack of three nodes; the resource asks for two. *)
Section instances.
#[local] Existing Instance SampleQuantities.
#[local] Existing Instance demo_codec.
#[local] Existing Instance demo_config.
#[local] Existing Instance demo_diff.
#[local] Existing Instance demo_topology_diff.
#[local] Existing Instance demo_patch.

(** A statefulset of [n] nodes that run [image]. *)
Definition sts_of (n : Z) (image seeds : string) : StatefulSet :=
  (seeded n seeds "20Gi") <| sts_Status := mkStsStatus n n "" "" |>
    <| sts_Template ::= λ t, t <| t_Containers :=
         [Container_zero <| c_Name := CassandraContainerName |> <| c_Image := image |>] |> |>.
#[local] Instance shrink_generator : StatefulSetGenerator := {|
  generated_sts cc st dcName k labels _ := Ret
    (Ok ((sts_of (GetNodesPerRacks cc k) (CassandraImage (cc_Spec cc)) (SeedList (elems (s_SeedList st))))
          <| sts_Meta := (named (cc_Namespace cc) (cc_Name cc +:+ "-" +:+ k)) <| m_Labels := labels |> |>)) |}.

(** The cluster runs "cassandra:3" on three nodes, the resource asks for two that run
    [image]; the agents answer [mode]. *)
Definition shrink_cc (image : string) (rs : CassandraRackStatus) : CassandraCluster :=
  (down_cc rs) <| cc_Spec ::= λ s, s <| CassandraImage := image |> |>
               <| cc_Status ::= λ s, s <| s_Phase := Name ClusterPhaseRunning |> |>.
Definition shrink_env (image mode : string) (rs : CassandraRackStatus) : Env FakeCluster :=
  let pdb := mkPDB (named "ns" "cassandra-demo") 1 ∅ 3 3 in
  (start ((down_world true mode)
            <| f_sts := {[ "cassandra-demo-dc1-rack1" := sts_of 3 "cassandra:3" (SeedList []) ]} |>
            <| f_cc := Some (shrink_cc image rs) |> <| f_pdb := Some pdb |>) (shrink_cc image rs))
    <| rcc_storedPdb := Some pdb |>.
(** A rack with nothing to do, whose last action started at [t]. *)
Definition quiet_rack (t : option Z) : CassandraRackStatus :=
  rack_in ClusterPhaseRunning (mkLastAction StatusDone (Name ClusterPhaseInitial) t None []).

(** The size of the statefulset, the nodes that were asked to leave, and the action. *)
Definition shrunk (e : Env FakeCluster) : option Z * nat * option (string * string) :=
  (sts_Replicas <$> f_sts (world e) !! "cassandra-demo-dc1-rack1", length (tasks e), action_of "dc1-rack1" e).
Definition reconciled (e : Env FakeCluster) : option (option Z * nat * option (string * string)) :=
  observe (λ _ e', shrunk e') (Reconcile 5 "ns" "cassandra-demo") e.

(** The documented course: the node is asked to leave first, the statefulset keeps its
    size, and is shrunk when the node has left. *)
Example node_leaves_first :
  reconciled (shrink_env "cassandra:3" "NORMAL" (quiet_rack None)) = Some (Some 3%Z, 1, Some ("ScaleDown", "ToDo")) ∧
  reconciled (shrink_env "cassandra:3" "DECOMMISSIONED" (down_rack StatusOngoing [pod_Name third_pod])) =
    Some (Some 2%Z, 0, Some ("ScaleDown", "Ongoing")).
Proof. vm_compute. auto. Qed.

(** The whole course through the loop of the controller.  Between two runs the world moves
    on: time goes by, the node leaves the ring, or Kubernetes removes the pod. *)
Definition third : string := "cassandra-demo-dc1-rack1-2".
Definition time_passes (w : FakeCluster) : FakeCluster := w <| f_now ::= Z.add (200 * second) |>.
Definition node_leaves (w : FakeCluster) : FakeCluster := w <| f_jolokia := {[ "OperationMode" := JString DECOMMISSIONED ]} |>.
Definition pod_removed (w : FakeCluster) : FakeCluster :=
  w <| f_jolokia := {[ "OperationMode" := JString NORMAL ]} |> <| f_pods ::= delete third |>
    <| f_sts ::= alter (λ s, s <| sts_Status := mkStsStatus (sts_Replicas s) (sts_Replicas s) "" "" |>)
                   "cassandra-demo-dc1-rack1" |>.
Fixpoint turns (moves : list (FakeCluster → FakeCluster)) (e : Env FakeCluster) : outcome (Env FakeCluster) :=
  match moves with
  | [] => Ret e
  | move :: moves =>
      '(_, e) ← Reconcile 5 "ns" "cassandra-demo" (start (move (world e)) (rcc_cc e)); turns moves e
  end.
(** The size of the statefulset and whether the claim of the third node is there, the action
    and the operation *)
Definition course (moves : list (FakeCluster → FakeCluster))
  : outcome (option Z * bool * option (string * string) * option (string * option (list string))) :=
  e ← turns moves (shrink_env "cassandra:3" "NORMAL" (quiet_rack None));
  mret (sts_Replicas <$> f_sts (world e) !! "cassandra-demo-dc1-rack1",
        bool_decide (is_Some (f_pvcs (world e) !! ("data-" +:+ third))), action_of "dc1-rack1" e, podop_after e).
Example scale_down_course :
  course [id] = Ret (Some 3%Z, true, Some ("ScaleDown", "ToDo"), Some (StatusOngoing, Some [third])) ∧
  course [id; node_leaves] = Ret (Some 2%Z, true, Some ("ScaleDown", "Ongoing"), Some (StatusFinalizing, Some [third])) ∧
  course [id; node_leaves; pod_removed] = Ret (Some 2%Z, false, Some ("ScaleDown", "Ongoing"), Some (StatusDone, Some [])) ∧
  course [id; node_leaves; pod_removed; id] =
    Ret (Some 2%Z, false, Some ("ScaleDown", "Continue"), Some (StatusDone, Some [])) ∧
  course [id; node_leaves; pod_removed; id; time_passes] =
    Ret (Some 2%Z, false, Some ("ScaleDown", "Done"), Some (StatusDone, Some [])).
Proof. vm_compute. auto 10. Qed.

(** With a new image the change of the image is planned, not the scale down; the
    statefulset is written with the new size all the same, and no node was asked to
    leave. *)
Example shrunk_with_new_image :
  reconciled (shrink_env "cassandra:4" "NORMAL" (quiet_rack None)) = Some (Some 2%Z, 0, Some ("UpdateDockerImage", "Ongoing")).
Proof. vm_compute. reflexivity. Qed.

(** In Continue the node counts as gone: were the decommission still open, a new image
    would take over and the statefulset would be shrunk with the node in the ring. *)
Example shrunk_in_continue :
  observe (λ _ e', (shrunk e', podop_after e')) (reconcileOneRack 5 (0, 0)) (shrink_env "cassandra:4" "NORMAL"
    ((down_rack StatusOngoing [third]) <| rs_LastAction ::= λ a, a <| la_Status := StatusContinue |> |>)) =
    Some (Some 2%Z, 0, Some ("UpdateDockerImage", "Ongoing"), Some (StatusOngoing, Some [third])).
Proof. vm_compute. reflexivity. Qed.

(** Within twenty seconds of the start of the last action no new action is looked for;
    again the statefulset is shrunk, and no node was asked to leave. *)
Example shrunk_within_delay :
  reconciled (shrink_env "cassandra:3" "NORMAL" (quiet_rack (Some (100 * second)%Z))) =
    Some (Some 2%Z, 0, Some ("UpdateStatefulSet", "Ongoing")).
Proof. vm_compute. reflexivity. Qed.

(** The node is out, the operation is Finalizing, but the update of the statefulset did not
    get through: it is not tried again. *)
Definition stuck_env : Env FakeCluster :=
  shrink_env "cassandra:3" "DECOMMISSIONED" (down_rack StatusFinalizing [pod_Name third_pod]).
Example finalizing_is_stuck :
  (e ← loops 3 stuck_env; mret (shrunk e, podop_after e)) =
    Ret ((Some 3%Z, 0, Some ("ScaleDown", "ToDo")), Some (StatusFinalizing, Some [pod_Name third_pod])).
Proof. vm_compute. reflexivity. Qed.

(** A server that cannot answer the first reading of a statefulset *)
Definition flaky_serve (A : Type) (r : Req A) (w : FakeCluster) : A * FakeCluster :=
  match r in Req A return A * FakeCluster → A * FakeCluster with
  | ApiGetStatefulSet _ _ => λ answer,
      if bool_decide (f_revision w = 1)%Z then (Err (OtherError "timeout"), w <| f_revision ::= Z.succ |>) else answer
  | _ => λ answer, answer
  end (fake_serve A r w).

(** The node is still in the ring; the first reading fails, the operations on pods are left
    out, the second reading works and the statefulset is shrunk. *)
Example shrunk_after_failed_reading :
  observe (λ _ e', shrunk e') (reconcileOneRack (Srv:=flaky_serve) 5 (0, 0))
    (shrink_env "cassandra:3" "NORMAL" (down_rack StatusToDo [])) =
    Some (Some 2%Z, 0, Some ("ScaleDown", "Ongoing")).
Proof. vm_compute. reflexivity. Qed.

Definition out_env : Env FakeCluster :=
  shrink_env "cassandra:3" "DECOMMISSIONED" (down_rack StatusOngoing [pod_Name third_pod]).
Definition out_rack : CassandraRackStatus := down_rack StatusOngoing [pod_Name third_pod].
Lemma demo_splits : splits (rackNameAt (rcc_cc out_env) (0, 0)).
Proof. split; vm_compute; reflexivity. Qed.
Lemma demo_shrinking (e : Env FakeCluster) : s_RackStatus (status e) !! "dc1-rack1" = Some out_rack → rcc_cc e = rcc_cc out_env →
  rcc_storedPdb e = rcc_storedPdb out_env → shrinking (rackNameAt (rcc_cc out_env) (0, 0)) out_rack e.
Proof.
  intros Hrs Hcc Hpdb. split; [exact Hrs|discriminate|reflexivity| | |rewrite Hcc|rewrite Hcc; reflexivity|by rewrite Hpdb].
  - by left.
  - split; [reflexivity|]. apply list_elem_of_In. cbn. tauto.
  - intros (rs & Hst & _ & Hdone). vm_compute in Hst. injection Hst as <-. discriminate Hdone.
Qed.

Lemma statefulset_waits_for_node_witness :
  ∃ o e' ev, reconcileOneRack 5 (0, 0) out_env = Ret (o, e') ∧ since out_env e' ev ∧ sts_write ev = true ∧
    may_write out_env e' (rcc_cc out_env) (rackNameAt (rcc_cc out_env) (0, 0)) out_rack.
Proof.
  destruct (observe_Some (λ _ e', bool_decide (is_Some (written (log e')))) (reconcileOneRack 5 (0, 0)) out_env true)
    as (o & e' & Hrun & Hw); [vm_compute; reflexivity|].
  apply bool_decide_eq_true in Hw as [[s a] Hw].
  assert (since out_env e' (Ev _ (ApiUpdateStatefulSet s) a)) as Hs
    by (exists (log e'); split; [reflexivity|by apply written_elem]).
  exists o, e', (Ev _ (ApiUpdateStatefulSet s) a). split; [exact Hrun|]. split; [exact Hs|]. split; [reflexivity|].
  refine (statefulset_waits_for_node 5 (0, 0) out_env e' o out_rack _ Hrun demo_splits eq_refl _ Hs eq_refl).
  apply demo_shrinking; reflexivity.
Defined.
End instances.
