(* ===== verification/StorageGrows.v ===== *)
(** * A storage upsize comes to its end

    [StorageUpsize] shows that no step of an upsize loses anything, whatever the API
    server answers.  Here it cooperates: the statefulset is deleted and created as asked,
    the claims take their new size, the file systems have grown after some listings and
    the pods are ready after some more.  Then the upsize that was started for a rack is
    declared done, after a number of loops that is known from these two. *)
From S2P Require Import Prelude KubeObjects Types ClusterApi K8sUtil Server Pods NodeOperations.
From S2P Require Import FakeCluster Generator StorageUpsize StatefulSets ClusterPods Status Decommission PodOperations ChangeChecks Reconcile.

Section grows.
Context {QL : QuantityLib} {QLaws : QuantityLaws QL} {Codec : StsCodec} {CfgCodec : ConfigCodec} {Diff : SliceDiff}.
Context {Patch : PatchLib} {Gen : StatefulSetGenerator} {W : Type} {Srv : ApiServer W}.
Context (cc : CassandraCluster) (n : CompleteRackName) (dc rack : nat).
(** The statefulset before, the one recreated, the size, the claims of the rack, and
    how long file systems and pods take *)
Context (old new : StatefulSet) (q : Quantity) (claims : list PersistentVolumeClaim) (J K : nat).
Abbreviation key := (crn_DcRackName n).
Abbreviation ns := (cc_Namespace cc).
Abbreviation name := (cc_Name cc +:+ "-" +:+ key).

(** Where the rack is: before the upsize, without a statefulset, recreated with some
    claims that ask for the old size, or waiting for the file systems and the pods *)
Inductive stage :=
| Before
| Deleted
| Recreated (todo : list PersistentVolumeClaim)
| Growing (j k : nat).

(** The claims of the rack among those listed *)
Definition data_claims (pvcs : list PersistentVolumeClaim) : list PersistentVolumeClaim :=
  List.filter (λ pvc, HasPrefix (m_Name (pvc_Meta pvc)) (DataPVCName +:+ "-" +:+ m_Name (sts_Meta old))) pvcs.

(** What is asked for: the capacity of the rack's data centre is the cluster-wide one,
    [q], not one of its own (with that the upsize starts again without
    end, [StorageUpsize.upsize_dc_capacity_deleted_again]); the statefulset [old] has
    another size and a snapshot that reads back and takes the new one; and some claims
    are to grow. *)
Record upsize_wanted : Prop := {
  uw_capacity : GetDataCapacityFromDCName cc (crn_DcName n) = Ret (DataCapacity (cc_Spec cc));
  uw_size : silentParseResourceQuantity (DataCapacity (cc_Spec cc)) = q;
  uw_grows : doesStatefulSetHaveNewCapacity cc old = false;
  uw_snapshot : ∃ t s0, prepareStatefulSetSnapshot old = Ok t ∧ t ≠ "" ∧ Unmarshal_sts t = Ok s0 ∧
    m_Name (sts_Meta s0) = m_Name (sts_Meta old) ∧ sts_Replicas s0 = sts_Replicas old ∧
    applyPVCModification s0 q = Ret (Ok new);
  uw_claims : claims ≠ [];
}.

(** What the API server makes of the statefulset it was sent *)
Definition stored_as (sts living : StatefulSet) : Prop :=
  m_Name (sts_Meta living) = m_Name (sts_Meta sts) ∧ sts_Replicas living = sts_Replicas sts ∧
  sts_VolumeClaimTemplates living = sts_VolumeClaimTemplates sts.
Definition wants_size (pvc : PersistentVolumeClaim) : bool := requested_storage pvc != q.
Definition has_grown (pvc : PersistentVolumeClaim) : bool := Quantity_equal (resource_get (pvc_Capacity pvc) storage) q.

Record storage_cooperates (I : W → stage → Prop) : Prop := {
  us_now w s : I w s → ∃ now w', serve Now w = (now, w') ∧ I w' s;
  us_metric w s : I w s → ∃ w', serve (PhaseMetric ClusterPhasePending (cc_Name cc)) w = (tt, w') ∧ I w' s;
  us_get w s : I w s → ∃ r w', serve (ApiGetStatefulSet ns name) w = (r, w') ∧
    match s with
    | Before => r = Ok old ∧ I w' s
    | Deleted => r = Err NotFound ∧ I w' s
    | Recreated _ | Growing (S _) _ => (∃ living, r = Ok living ∧ stored_as new living) ∧ I w' s
    | Growing 0 k => (∃ living, r = Ok living ∧ stored_as new living ∧ IsStatefulSetReady living = (if k is 0 then true else false)) ∧
                     I w' (Growing 0 (pred k))
    end;
  us_delete w : I w Before → ∃ w', serve (ApiDeleteStatefulSet ns (m_Name (sts_Meta old)) true) w = (None, w') ∧ I w' Deleted;
  us_create w : I w Deleted → ∃ w', serve (ApiCreateStatefulSet new) w = (None, w') ∧ I w' (Recreated claims);
  us_list w s : I w s → s ≠ Before → s ≠ Deleted → ∃ pvcs w',
    serve (ApiListPVC ns (LabelsForCassandraDCRack cc (crn_DcName n) (crn_RackName n))) w = (Ok pvcs, w') ∧
    Z.of_nat (length (data_claims pvcs)) = sts_Replicas old ∧
    match s with
    | Recreated todo => List.filter wants_size (data_claims pvcs) = todo ∧ I w' s
    | Growing j k => List.filter wants_size (data_claims pvcs) = [] ∧
        forallb has_grown (data_claims pvcs) = (if j is 0 then true else false) ∧ I w' (Growing (pred j) k)
    | _ => True
    end;
  us_update w pvc todo : I w (Recreated (pvc :: todo)) → ∃ w',
    serve (ApiUpdatePVC (set_storage q pvc)) w = (None, w') ∧
    I w' (match todo with [] => Growing J K | _ => Recreated todo end);
  us_pods w : I w (Growing 0 0) → ∃ pods w',
    serve (ApiListPods ns (LabelsForCassandraDCRack cc (crn_DcName n) (crn_RackName n))) w = (Ok pods, w') ∧
    Z.of_nat (length pods) = sts_Replicas old ∧ allPodsReady pods = true ∧ I w' (Growing 0 0);
}.

(** One loop at this rack: the statefulset is read, and the upsize takes the place of
    its update. *)
Definition upsize_round : M W RackOutcome :=
  '(sts, getStsErr) ← GetStatefulSet ns name;
  upsizeOrUpdate n dc rack sts getStsErr.

Inductive rounds : nat → Env W → Env W → Prop :=
| rounds_0 e : rounds 0 e e
| rounds_S k e e1 e' : upsize_round e = Ret (Return None, e1) → rounds k e1 e' → rounds (S k) e e'.

Context {I : W → stage → Prop}.
Hypothesis Hwant : upsize_wanted.
Hypothesis Hco : storage_cooperates I.
Implicit Types (e : Env W) (rs : CassandraRackStatus).

(** The entry of the rack while the upsize runs, with its snapshot *)
Record at_rack (s : stage) (snapshot : string) e : Prop := {
  ar_world : I (world e) s;
  ar_cc : rcc_cc e = cc;
  ar_entry : ∃ rs, s_RackStatus (status e) !! key = Some rs ∧ IsStarted rs = true ∧ rs_Snapshot rs = snapshot }.

Lemma at_quiet s s' t e e1 : at_rack s t e → quiet (λ _, True) e e1 → I (world e1) s' → at_rack s' t e1.
Proof. intros [_ Hc Hr] (_ & Hc1 & Hs1 & _) HI. split; [done|by rewrite Hc1|by rewrite Hs1]. Qed.

(** The steps of the upsize, one after the other *)
Lemma total_steps_cons (step : upsize_step) steps pvcs Q e :
  total (step pvcs) (λ '(r, p) e',
    if HasError r then Q (step_error r) e'
    else if ShouldBreakReconcileLoop r then Q None e'
    else total (run_steps steps p) Q e') e →
  total (run_steps (step :: steps) pvcs) Q e.
Proof.
  intros H. cbn [run_steps]. apply total_bind. eapply total_mono; [exact H|]. intros [r p] e' Hr. cbn beta iota in Hr |- *.
  destruct (HasError r); [by apply total_ret|]. destruct (ShouldBreakReconcileLoop r); [by apply total_ret|done].
Qed.
Lemma total_plain (m : M W StepResult) pvcs Q e : total m (λ r e', Q (r, pvcs) e') e → total (plain m pvcs) Q e.
Proof. intros H. unfold plain. apply total_bind. eapply total_mono; [exact H|]. intros. by apply total_ret. Qed.

(** What a loop does up to the steps; [living] is what the API server answered. *)
Lemma total_round s s' t r Q e :
  at_rack s t e →
  (∃ w', serve (ApiGetStatefulSet ns name) (world e) = (r, w') ∧ I w' s') →
  (∀ err, r = Err err → err = NotFound) →
  (∀ e1, at_rack s' t e1 → rcc_storedStatefulSet e1 = (if r is Ok living then Some living else None) →
     total (run_steps (upsize_steps n q) []) (λ err e2, err = None ∧ Q e2) e1) →
  total upsize_round (λ o e2, o = Return None ∧ Q e2) e.
Proof.
  intros Hat (w1 & Hs1 & HI1) Hnf HQ. unfold upsize_round, GetStatefulSet. do 2 apply total_bind.
  eapply total_call; [exact Hs1|]. intros e1 Hq1 Hw1 _. apply total_ret. rewrite <- Hw1 in HI1.
  destruct (at_quiet _ _ _ _ _ Hat Hq1 HI1) as [_ Hc1 (rs & Hrs & Hst & Hsn)].
  assert (total (_ ← modify (λ e : Env W, e <| rcc_storedStatefulSet := (if r is Ok living then Some living else None) |>);
                 err ← ReconcileStorageUpsize n; mret (Return err)) (λ o e2, o = Return None ∧ Q e2) e1) as Hgo.
  { apply total_bind, total_modify, total_bind. unfold ReconcileStorageUpsize. apply total_bind, total_gets.
    apply total_bind, total_set_rack; [by eexists|]. apply total_bind. cbn [rcc_cc upd]. rewrite Hc1.
    destruct (us_metric _ Hco _ _ HI1) as (w2 & Hs2 & HI2). eapply total_call; [exact Hs2|]. intros e2 Hq2 Hw2 _.
    apply total_bind. eapply total_lift; [apply (uw_capacity Hwant)|]. unfold Reconcile_upsize.
    change (generateResourceQuantity (DataCapacity (cc_Spec cc))) with (silentParseResourceQuantity (DataCapacity (cc_Spec cc))).
    rewrite (uw_size Hwant). eapply total_mono; [apply HQ|].
    - rewrite <- Hw2 in HI2. destruct Hq2 as (_ & Hc2 & Hst2 & _). split; [exact HI2|rewrite Hc2; exact Hc1|].
      exists (rs <| rs_Phase := Name ClusterPhasePending |>). rewrite Hst2. split; [by apply (on_rack_lookup key _ (status e1))|done].
    - by destruct Hq2 as (_ & _ & _ & -> & _).
    - cbv beta. intros err e3 [-> H]. by apply total_ret. }
  destruct r as [living|err]; cbn [got]; [|rewrite (Hnf err eq_refl)];
    (unfold upsizeOrUpdate; apply total_bind; eapply total_rack_status; [exact Hrs|]; rewrite Hst; exact Hgo).
Qed.

(** *** The statefulset that is recreated *)
Lemma new_sts :
  m_Name (sts_Meta new) = m_Name (sts_Meta old) ∧ sts_Replicas new = sts_Replicas old ∧
  (findDataCapacity (sts_VolumeClaimTemplates new)).2 = q.
Proof.
  destruct (uw_snapshot Hwant) as (t & s0 & _ & _ & _ & <- & <- & Hnew).
  by apply applyPVCModification_resized in Hnew as (Hq & _ & _ & _ & Hr & _ & Hn & _).
Qed.
Lemma living_has_size living : stored_as new living → doesStatefulSetHaveNewCapacity cc living = true.
Proof.
  intros (_ & _ & Ht). unfold doesStatefulSetHaveNewCapacity. rewrite (uw_size Hwant), Ht. destruct new_sts as (_ & _ & <-).
  destruct (findDataCapacity _) as [i c]. unfold Quantity_equal. cbn. by rewrite Quantity_cmp_refl.
Qed.

(** *** The steps *)
Lemma total_snapshot_pass s t Q e :
  at_rack s t e → t ≠ "" → Q Pass e → total (makeOldStatefulSetSnapshot n) Q e.
Proof.
  intros [_ _ (rs & Hrs & _ & Hsn)] Ht HQ. unfold makeOldStatefulSetSnapshot. apply total_bind.
  eapply total_rack_status; [exact Hrs|]. unfold isStatefulSetSnapshottedAlready. rewrite Hsn, bool_decide_false by done.
  by apply total_ret.
Qed.

(** Past the first four steps, with a living statefulset of the new size *)
Lemma total_living s s' t living pvcs w' Q e :
  at_rack s t e → t ≠ "" → rcc_storedStatefulSet e = Some living → stored_as new living →
  serve (ApiListPVC ns (LabelsForCassandraDCRack cc (crn_DcName n) (crn_RackName n))) (world e) = (Ok pvcs, w') →
  Z.of_nat (length (data_claims pvcs)) = sts_Replicas old → I w' s' →
  (∀ e1, at_rack s' t e1 → rcc_storedStatefulSet e1 = Some living →
     total (run_steps (drop 4 (upsize_steps n q)) (data_claims pvcs)) Q e1) →
  total (run_steps (upsize_steps n q) []) Q e.
Proof.
  intros Hat Ht Hsts Hliv Hs Hlen HI HQ. unfold upsize_steps.
  apply total_steps_cons, total_plain. eapply total_snapshot_pass; [exact Hat|exact Ht|]. cbn [HasError ShouldBreakReconcileLoop].
  apply total_steps_cons, total_plain. unfold removeStatefulSetOrphan, LivingStatefulSet. apply total_bind, total_gets, total_bind, total_gets.
  rewrite (ar_cc _ _ _ Hat), Hsts, living_has_size by done. apply total_ret. cbn [HasError ShouldBreakReconcileLoop].
  apply total_steps_cons, total_plain. unfold recreateStatefulSetWithNewCapacity, LivingStatefulSet. apply total_bind, total_gets.
  rewrite Hsts. apply total_ret. cbn [HasError ShouldBreakReconcileLoop].
  apply total_steps_cons. unfold fetchDataPvcs, getAllDataPvcs, LivingStatefulSet, rack_labels. apply total_bind, total_bind, total_gets, total_bind, total_gets.
  rewrite Hsts, (ar_cc _ _ _ Hat). apply total_bind, total_bind, total_gets, total_ret. rewrite (ar_cc _ _ _ Hat). unfold ListPVC. do 2 apply total_bind.
  eapply total_call; [exact Hs|]. intros e1 Hq Hw _. apply total_ret. cbn [got]. cbv zeta.
  destruct new_sts as (Hn & Hr & _). destruct Hliv as (-> & -> & _). rewrite Hn, Hr. apply total_ret.
  change (List.filter _ pvcs) with (data_claims pvcs). rewrite bool_decide_true by done. apply total_ret. cbn [HasError ShouldBreakReconcileLoop].
  apply HQ; [|by destruct Hq as (_ & _ & _ & -> & _)]. eapply at_quiet; [exact Hat|exact Hq|]. by rewrite Hw.
Qed.

(** The claims that ask for another size are updated, one after the other. *)
Lemma total_claims todo l b t living Q e :
  at_rack (match todo with [] => Growing J K | _ => Recreated todo end) t e → rcc_storedStatefulSet e = Some living →
  List.filter wants_size l = todo →
  (∀ e1, at_rack (Growing J K) t e1 → rcc_storedStatefulSet e1 = Some living → Q (bool_decide (todo ≠ []) || b, None) e1) →
  total (ensureAllPVCs_loop q l b None) Q e.
Proof.
  revert todo b e. induction l as [|pvc l IH]; intros todo b e Hat Hsts Hf HQ; cbn [ensureAllPVCs_loop List.filter] in *.
  { subst todo. apply total_ret. by apply HQ. }
  change (requested_storage pvc != q) with (wants_size pvc). destruct (wants_size pvc) eqn:Hw; [|by eapply IH].
  destruct todo as [|pvc' todo]; [done|]. injection Hf as <- Hf. unfold UpdatePVC. apply total_bind.
  destruct (us_update _ Hco _ _ _ (ar_world _ _ _ Hat)) as (w' & Hs & HI). eapply total_call; [exact Hs|]. intros e1 Hq Hw1 _.
  cbn [multierr_Append]. eapply (IH todo); [|by destruct Hq as (_ & _ & _ & -> & _)|exact Hf|].
  - eapply at_quiet; [exact Hat|exact Hq|]. by rewrite Hw1.
  - intros e2 Hat2 Hsts2. specialize (HQ e2 Hat2 Hsts2). rewrite bool_decide_true in HQ by done. by rewrite orb_true_r.
Qed.

Lemma total_requested Q e : rcc_cc e = cc → Q q e → total (requestedCapacity n) Q e.
Proof.
  intros Hc HQ. unfold requestedCapacity. apply total_bind, total_gets. rewrite Hc. apply total_bind.
  eapply total_lift; [apply (uw_capacity Hwant)|]. apply total_ret. by rewrite (uw_size Hwant).
Qed.

(** *** The rounds *)
Lemma round_snapshot e :
  at_rack Before "" e → ∃ t, t ≠ "" ∧ (∃ s0, Unmarshal_sts t = Ok s0 ∧ applyPVCModification s0 q = Ret (Ok new)) ∧
    total upsize_round (λ o e2, o = Return None ∧ at_rack Before t e2) e.
Proof.
  intros Hat. destruct (uw_snapshot Hwant) as (t & s0 & Hprep & Hne & Hun & _ & _ & Hnew). exists t. split; [done|]. split; [by exists s0|].
  destruct (us_get _ Hco _ _ (ar_world _ _ _ Hat)) as (r & w1 & Hs1 & -> & HI1).
  eapply (total_round Before Before); [exact Hat|by eexists|done|]. intros e1 [HI Hc (rs & Hrs & Hst & Hsn)] Hsts.
  apply total_steps_cons, total_plain. unfold makeOldStatefulSetSnapshot, LivingStatefulSet. apply total_bind.
  eapply total_rack_status; [exact Hrs|]. unfold isStatefulSetSnapshottedAlready. rewrite Hsn, bool_decide_true by done. cbn [negb].
  apply total_bind, total_gets. rewrite Hsts, Hprep. apply total_bind, total_set_rack; [by eexists|]. apply total_ret.
  cbn [HasError ShouldBreakReconcileLoop]. split; [done|]. split; [exact HI|exact Hc|].
  eexists. split; [by apply (on_rack_lookup key _ (status e1))|done].
Qed.

Lemma round_delete t e :
  at_rack Before t e → t ≠ "" → total upsize_round (λ o e2, o = Return None ∧ at_rack Deleted t e2) e.
Proof.
  intros Hat Ht. destruct (us_get _ Hco _ _ (ar_world _ _ _ Hat)) as (r & w1 & Hs1 & -> & HI1).
  eapply (total_round Before Before); [exact Hat|by eexists|done|]. intros e1 Hat1 Hsts.
  apply total_steps_cons, total_plain. eapply total_snapshot_pass; [exact Hat1|exact Ht|]. cbn [HasError ShouldBreakReconcileLoop].
  apply total_steps_cons, total_plain. unfold removeStatefulSetOrphan, LivingStatefulSet. apply total_bind, total_gets, total_bind, total_gets.
  rewrite (ar_cc _ _ _ Hat1), Hsts, (uw_grows Hwant). unfold DeleteStatefulSetWithOrphanOption. apply total_bind.
  destruct (us_delete _ Hco _ (ar_world _ _ _ Hat1)) as (w2 & Hs2 & HI2). eapply total_call; [exact Hs2|]. intros e2 Hq2 Hw2 _.
  apply total_ret. cbn [HasError ShouldBreakReconcileLoop]. split; [done|]. eapply at_quiet; [exact Hat1|exact Hq2|]. by rewrite Hw2.
Qed.

Lemma round_recreate t s0 e :
  at_rack Deleted t e → t ≠ "" → Unmarshal_sts t = Ok s0 → applyPVCModification s0 q = Ret (Ok new) →
  total upsize_round (λ o e2, o = Return None ∧ at_rack (Recreated claims) t e2) e.
Proof.
  intros Hat Ht Hun Hnew. destruct (us_get _ Hco _ _ (ar_world _ _ _ Hat)) as (r & w1 & Hs1 & -> & HI1).
  eapply (total_round Deleted Deleted); [exact Hat|by eexists|by intros ? [= <-]|]. intros e1 Hat1 Hsts.
  apply total_steps_cons, total_plain. eapply total_snapshot_pass; [exact Hat1|exact Ht|]. cbn [HasError ShouldBreakReconcileLoop].
  apply total_steps_cons, total_plain. unfold removeStatefulSetOrphan, LivingStatefulSet. apply total_bind, total_gets, total_bind, total_gets.
  rewrite Hsts. apply total_ret. cbn [HasError ShouldBreakReconcileLoop].
  apply total_steps_cons, total_plain. unfold recreateStatefulSetWithNewCapacity, LivingStatefulSet, unmarshallSnapshottedStatefulSet.
  apply total_bind, total_gets. rewrite Hsts. pose proof Hat1 as [_ _ (rs & Hrs & _ & Hsn)]. apply total_bind, total_bind.
  eapply total_rack_status; [exact Hrs|]. rewrite Hsn, Hun. apply total_ret. apply total_bind. eapply total_lift; [exact Hnew|].
  unfold CreateStatefulSet. apply total_bind, total_bind.
  destruct (us_create _ Hco _ (ar_world _ _ _ Hat1)) as (w2 & Hs2 & HI2). eapply total_call; [exact Hs2|]. intros e2 Hq2 Hw2 _.
  apply total_ret, total_ret. cbn [HasError ShouldBreakReconcileLoop]. split; [done|]. eapply at_quiet; [exact Hat1|exact Hq2|]. by rewrite Hw2.
Qed.

Lemma round_claims t e :
  at_rack (Recreated claims) t e → t ≠ "" → total upsize_round (λ o e2, o = Return None ∧ at_rack (Growing J K) t e2) e.
Proof.
  intros Hat Ht. destruct (us_get _ Hco _ _ (ar_world _ _ _ Hat)) as (r & w1 & Hs1 & (living & -> & Hliv) & HI1).
  eapply (total_round (Recreated claims) (Recreated claims)); [exact Hat|by eexists|done|]. intros e1 Hat1 Hsts.
  destruct (us_list _ Hco _ _ (ar_world _ _ _ Hat1)) as (pvcs & w2 & Hs2 & Hlen & Hf & HI2); [done|done|].
  eapply total_living; [exact Hat1|exact Ht|exact Hsts|exact Hliv|exact Hs2|exact Hlen|exact HI2|]. intros e2 Hat2 Hsts2.
  apply total_steps_cons, total_plain. unfold ensureAllPVCsHaveNewCapacity. apply total_bind, total_requested; [apply Hat2|].
  pose proof (uw_claims Hwant) as Hne. apply total_bind. eapply (total_claims claims); [|exact Hsts2|exact Hf|].
  { destruct claims; [done|exact Hat2]. }
  intros e3 Hat3 _. rewrite bool_decide_true by done. cbn [orb]. apply total_ret. cbn [HasError ShouldBreakReconcileLoop]. done.
Qed.

Lemma total_no_claims l e :
  List.filter wants_size l = [] → total (ensureAllPVCs_loop q l false None) (λ r e', r = (false, None) ∧ e' = e) e.
Proof.
  induction l as [|pvc l IH]; intros Hf; cbn in *; [by apply total_ret|].
  change (requested_storage pvc != q) with (wants_size pvc). destruct (wants_size pvc); [done|]. by apply IH.
Qed.
Lemma all_grown l : length (List.filter (λ pvc, negb (has_grown pvc)) l) = 0 ↔ forallb has_grown l = true.
Proof. induction l as [|pvc l IH]; cbn; [done|]. by destruct (has_grown pvc). Qed.

(** The steps after the claims were fetched, while the rack is growing *)
Lemma total_grown k t living pvcs Q e :
  at_rack (Growing 0 k) t e → rcc_storedStatefulSet e = Some living → stored_as new living →
  List.filter wants_size (data_claims pvcs) = [] → forallb has_grown (data_claims pvcs) = true →
  total (run_steps [plain (waitTillStatefulSetAndAllPodsAreReady n)] (data_claims pvcs)) Q e →
  total (run_steps (drop 4 (upsize_steps n q)) (data_claims pvcs)) Q e.
Proof.
  intros Hat Hsts Hliv Hf Hg HQ. cbn [drop upsize_steps]. apply total_steps_cons, total_plain. unfold ensureAllPVCsHaveNewCapacity.
  apply total_bind, total_requested; [apply Hat|]. apply total_bind.
  eapply total_mono; [by apply total_no_claims|]. cbv beta. intros r e' [-> ->]. apply total_ret. cbn [HasError ShouldBreakReconcileLoop].
  apply total_steps_cons, total_plain. unfold waitTillAllFilesystemsHaveNewCapacity. apply total_bind, total_requested; [apply Hat|].
  apply total_ret. rewrite bool_decide_true by by apply all_grown. cbn [HasError ShouldBreakReconcileLoop]. exact HQ.
Qed.

Lemma round_file_systems j t e :
  at_rack (Growing (S j) K) t e → t ≠ "" → total upsize_round (λ o e2, o = Return None ∧ at_rack (Growing j K) t e2) e.
Proof.
  intros Hat Ht. destruct (us_get _ Hco _ _ (ar_world _ _ _ Hat)) as (r & w1 & Hs1 & (living & -> & Hliv) & HI1).
  eapply (total_round (Growing (S j) K) (Growing (S j) K)); [exact Hat|by eexists|done|]. intros e1 Hat1 Hsts.
  destruct (us_list _ Hco _ _ (ar_world _ _ _ Hat1)) as (pvcs & w2 & Hs2 & Hlen & Hf & Hg & HI2); [done|done|].
  eapply total_living; [exact Hat1|exact Ht|exact Hsts|exact Hliv|exact Hs2|exact Hlen|exact HI2|]. intros e2 Hat2 Hsts2.
  cbn [drop upsize_steps]. apply total_steps_cons, total_plain. unfold ensureAllPVCsHaveNewCapacity. apply total_bind, total_requested; [apply Hat2|].
  apply total_bind. eapply total_mono; [by apply total_no_claims|]. cbv beta. intros r e' [-> ->]. apply total_ret. cbn [HasError ShouldBreakReconcileLoop].
  apply total_steps_cons, total_plain. unfold waitTillAllFilesystemsHaveNewCapacity. apply total_bind, total_requested; [apply Hat2|].
  apply total_ret. rewrite bool_decide_false; [done|]. intros H%all_grown. congruence.
Qed.

(** A statefulset that is read while the file systems have grown *)
Lemma total_waiting k k' t living pvcs w' Q e :
  at_rack (Growing 0 k) t e → t ≠ "" → rcc_storedStatefulSet e = Some living → stored_as new living →
  serve (ApiListPVC ns (LabelsForCassandraDCRack cc (crn_DcName n) (crn_RackName n))) (world e) = (Ok pvcs, w') →
  Z.of_nat (length (data_claims pvcs)) = sts_Replicas old → List.filter wants_size (data_claims pvcs) = [] →
  forallb has_grown (data_claims pvcs) = true → I w' (Growing 0 k') →
  (∀ e1, at_rack (Growing 0 k') t e1 → rcc_storedStatefulSet e1 = Some living →
     total (waitTillStatefulSetAndAllPodsAreReady n) (λ r e2, HasError r = false ∧ Q e2) e1) →
  total (run_steps (upsize_steps n q) []) (λ err e2, err = None ∧ Q e2) e.
Proof.
  intros Hat Ht Hsts Hliv Hs Hlen Hf Hg HI HQ. eapply total_living; [exact Hat|exact Ht|exact Hsts|exact Hliv|exact Hs|exact Hlen|exact HI|].
  intros e1 Hat1 Hsts1. eapply total_grown; [exact Hat1|exact Hsts1|exact Hliv|exact Hf|exact Hg|].
  apply total_steps_cons, total_plain. eapply total_mono; [by apply HQ|]. cbv beta. intros r e2 [Hr HQ2].
  destruct r; [done|done|]. by apply total_ret.
Qed.

Lemma round_pods k t e :
  at_rack (Growing 0 (S k)) t e → t ≠ "" → total upsize_round (λ o e2, o = Return None ∧ at_rack (Growing 0 k) t e2) e.
Proof.
  intros Hat Ht. destruct (us_get _ Hco _ _ (ar_world _ _ _ Hat)) as (r & w1 & Hs1 & (living & -> & Hliv & Hready) & HI1).
  eapply (total_round (Growing 0 (S k)) (Growing 0 k)); [exact Hat|by eexists|done|]. intros e1 Hat1 Hsts.
  destruct (us_list _ Hco _ _ (ar_world _ _ _ Hat1)) as (pvcs & w2 & Hs2 & Hlen & Hf & Hg & HI2); [done|done|].
  eapply total_waiting; [exact Hat1|exact Ht|exact Hsts|exact Hliv|exact Hs2|exact Hlen|exact Hf|exact Hg|exact HI2|].
  intros e2 Hat2 Hsts2. unfold waitTillStatefulSetAndAllPodsAreReady, StorageUpsize.living, LivingStatefulSet. apply total_bind, total_gets.
  apply total_bind, total_bind, total_gets. rewrite Hsts2. eapply total_lift; [reflexivity|].
  rewrite (ar_cc _ _ _ Hat2), living_has_size, Hready by done. by apply total_ret.
Qed.

Lemma round_done t e :
  at_rack (Growing 0 0) t e → t ≠ "" → total upsize_round (λ o e2, o = Return None ∧
    I (world e2) (Growing 0 0) ∧ ∃ rs, s_RackStatus (status e2) !! key = Some rs ∧
      la_Status (rs_LastAction rs) = StatusDone ∧ la_Name (rs_LastAction rs) = Name ActionStorageUpsize ∧ rs_Snapshot rs = "") e.
Proof.
  intros Hat Ht. destruct (us_get _ Hco _ _ (ar_world _ _ _ Hat)) as (r & w1 & Hs1 & (living & -> & Hliv & Hready) & HI1).
  eapply (total_round (Growing 0 0) (Growing 0 0)); [exact Hat|by eexists|done|]. intros e1 Hat1 Hsts.
  destruct (us_list _ Hco _ _ (ar_world _ _ _ Hat1)) as (pvcs & w2 & Hs2 & Hlen & Hf & Hg & HI2); [done|done|].
  eapply total_waiting; [exact Hat1|exact Ht|exact Hsts|exact Hliv|exact Hs2|exact Hlen|exact Hf|exact Hg|exact HI2|].
  intros e2 Hat2 Hsts2. unfold waitTillStatefulSetAndAllPodsAreReady, StorageUpsize.living, LivingStatefulSet, rack_labels. apply total_bind, total_gets.
  apply total_bind, total_bind, total_gets. rewrite Hsts2. eapply total_lift; [reflexivity|].
  rewrite (ar_cc _ _ _ Hat2), living_has_size, Hready by done. cbn [negb]. apply total_bind, total_bind, total_gets, total_ret.
  rewrite (ar_cc _ _ _ Hat2). unfold ListPods. do 2 apply total_bind.
  destruct (us_pods _ Hco _ (ar_world _ _ _ Hat2)) as (pods & w3 & Hs3 & Hn & Hp & HI3). eapply total_call; [exact Hs3|].
  intros e3 Hq3 Hw3 _. apply total_ret. cbn [got]. destruct new_sts as (_ & Hr & _). destruct Hliv as (_ & -> & _). rewrite Hr.
  rewrite bool_decide_true, Hp by done. cbn [negb]. rewrite <- Hw3 in HI3.
  destruct (at_quiet _ _ _ _ _ Hat2 Hq3 HI3) as [_ _ (rs & Hrs & _)]. unfold finalizeUpsizeAction. apply total_bind, total_bind.
  destruct (us_now _ Hco _ _ HI3) as (now & w4 & Hs4 & HI4). eapply total_call; [exact Hs4|]. intros e4 (_ & _ & Hst4 & _) Hw4 _.
  apply total_set_rack; [rewrite Hst4; by eexists|]. apply total_ret. split; [done|]. split; [by cbn; rewrite Hw4|].
  eexists. split; [apply (on_rack_lookup key _ (status e4)); by rewrite Hst4|done].
Qed.

(** *** All rounds *)
Lemma rounds_step k e P Q :
  total upsize_round (λ o e2, o = Return None ∧ P e2) e → (∀ e2, P e2 → ∃ e', rounds k e2 e' ∧ Q e') → ∃ e', rounds (S k) e e' ∧ Q e'.
Proof.
  intros (o & e2 & Hrun & -> & HP) H. destruct (H e2 HP) as (e' & Hr & HQ). exists e'. split; [by econstructor|done].
Qed.

Definition grown e : Prop := I (world e) (Growing 0 0) ∧ ∃ rs, s_RackStatus (status e) !! key = Some rs ∧
  la_Status (rs_LastAction rs) = StatusDone ∧ la_Name (rs_LastAction rs) = Name ActionStorageUpsize ∧ rs_Snapshot rs = "".

Lemma rounds_pods k t e : at_rack (Growing 0 k) t e → t ≠ "" → ∃ e', rounds (S k) e e' ∧ grown e'.
Proof.
  intros Hat Ht. revert e Hat. induction k as [|k IH]; intros e Hat.
  - eapply rounds_step; [by eapply round_done|]. intros e2 He2. exists e2. split; [constructor|exact He2].
  - eapply rounds_step; [by eapply round_pods|exact IH].
Qed.
Lemma rounds_file_systems j t e : at_rack (Growing j K) t e → t ≠ "" → ∃ e', rounds (j + S K) e e' ∧ grown e'.
Proof.
  intros Hat Ht. revert e Hat. induction j as [|j IH]; intros e Hat; [by eapply rounds_pods|].
  eapply rounds_step; [by eapply round_file_systems|exact IH].
Qed.

Lemma rounds_all e : at_rack Before "" e → ∃ e', rounds (J + K + 5) e e' ∧ grown e'.
Proof.
  intros Hat. replace (J + K + 5) with (S (S (S (S (J + S K))))) by lia.
  destruct (round_snapshot e Hat) as (t & Ht & (s0 & Hun & Hnew) & Hr). eapply rounds_step; [exact Hr|].
  intros e1 Hat1. eapply rounds_step; [by apply round_delete|]. intros e2 Hat2. eapply rounds_step; [by eapply round_recreate|].
  intros e3 Hat3. eapply rounds_step; [by apply round_claims|]. intros e4 Hat4. by eapply rounds_file_systems.
Qed.
End grows.

Section theorem.
Context {QL : QuantityLib} {QLaws : QuantityLaws QL} {Codec : StsCodec} {CfgCodec : ConfigCodec} {Diff : SliceDiff}.
Context {Patch : PatchLib} {Gen : StatefulSetGenerator} {W : Type} {Srv : ApiServer W}.

(** C27: when the capacity of a rack's data centre is the cluster-wide one (not another one
    of its own), the statefulset has another size, at least one claim is to grow and the API server cooperates, a
    storage upsize that was started for the rack comes to its end.  If the file systems take [J] listings to grow and the pods [K] readings to
    be ready, [J + K + 5] loops are enough: snapshot, deletion, creation with the new size,
    growth of every claim, the waits, and the end.  Each loop returns without panic and
    without error; afterwards the action of the rack is Done and its snapshot dropped, and
    the world has the recreated statefulset, ready, and all claims grown. *)
Theorem upsize_comes_to_an_end (cc : CassandraCluster) (n : CompleteRackName) (dc rack : nat) (old new : StatefulSet)
    (q : Quantity) (claims : list PersistentVolumeClaim) (J K : nat) (I : W → stage → Prop) (e : Env W) (rs : CassandraRackStatus)
    (Hwant : upsize_wanted cc n old new q claims) (Hco : storage_cooperates cc n old new q claims J K I) (HI : I (world e) Before) (Hcc : rcc_cc e = cc)
    (Hrs : s_RackStatus (status e) !! crn_DcRackName n = Some rs) (Hstarted : IsStarted rs = true) (Hsnap : rs_Snapshot rs = "") :
  ∃ e' rs', rounds cc n dc rack (J + K + 5) e e' ∧ I (world e') (Growing 0 0) ∧
    s_RackStatus (status e') !! crn_DcRackName n = Some rs' ∧
    la_Status (rs_LastAction rs') = StatusDone ∧ la_Name (rs_LastAction rs') = Name ActionStorageUpsize ∧ rs_Snapshot rs' = "".
Proof.
  destruct (rounds_all cc n dc rack old new q claims J K Hwant Hco e) as (e' & Hr & HI' & rs' & H).
  - split; [exact HI|exact Hcc|by exists rs].
  - by exists e', rs'.
Qed.
End theorem.

(** ** An instance: two nodes, one listing until the file systems have grown, one reading
    until the pods are ready *)
Section instance.
#[local] Existing Instance SampleQuantities.
#[local] Existing Instance demo_codec.
#[local] Existing Instance demo_config.
#[local] Existing Instance demo_diff.
#[local] Existing Instance demo_patch.
#[local] Existing Instance demo_generator.

Definition size20 : Quantity := silentParseResourceQuantity "20Gi".
Definition recreated_sts : StatefulSet :=
  match applyPVCModification ((demo_sts "10Gi") <| sts_Status := StsStatus_zero |>) size20 with
  | Ret (Ok s) => s
  | _ => demo_sts "10Gi"
  end.
Definition claim0 : PersistentVolumeClaim := claim "data-cassandra-demo-dc1-rack1-0" demo_labels "10Gi".
Definition claim1 : PersistentVolumeClaim := claim "data-cassandra-demo-dc1-rack1-1" demo_labels "10Gi".
Definition growing_claim (j : nat) (pvc : PersistentVolumeClaim) : PersistentVolumeClaim :=
  let pvc := set_storage size20 pvc in
  match j with 0 => pvc <| pvc_Capacity := {[ storage := size20 ]} |> | _ => pvc end.
Definition living_sts (ready : bool) : StatefulSet :=
  if ready then recreated_sts <| sts_Status := mkStsStatus 2 2 "" "" |> else recreated_sts.

Definition stage_serve (A : Type) (r : Req A) (w : stage) : A * stage :=
  match r in Req A return A * stage with
  | ApiGetStatefulSet _ _ =>
      match w with
      | Before => (Ok (demo_sts "10Gi"), w)
      | Deleted => (Err NotFound, w)
      | Growing 0 (S k) => (Ok (living_sts false), Growing 0 k)
      | Growing 0 0 => (Ok (living_sts true), w)
      | _ => (Ok (living_sts false), w)
      end
  | ApiDeleteStatefulSet _ _ _ => (None, Deleted)
  | ApiCreateStatefulSet _ => (None, Recreated [claim0; claim1])
  | ApiListPVC _ _ =>
      match w with
      | Recreated [_] => (Ok [growing_claim 1 claim0; claim1], w)
      | Growing j k => (Ok [growing_claim j claim0; growing_claim j claim1], Growing (pred j) k)
      | _ => (Ok [claim0; claim1], w)
      end
  | ApiUpdatePVC _ => (None, match w with Recreated [_] => Growing 1 1 | Recreated (_ :: todo) => Recreated todo | w => w end)
  | r => ((fake_serve _ r (upsize_world "20Gi")).1, w)
  end.
#[local] Instance stage_server : ApiServer stage := stage_serve.

Definition at_stage (w s : stage) : Prop :=
  w = s ∧ match s with Recreated todo => todo = [claim0; claim1] ∨ todo = [claim1] | _ => True end.

Lemma two_claims a b :
  m_Name (pvc_Meta a) = "data-cassandra-demo-dc1-rack1-0" → m_Name (pvc_Meta b) = "data-cassandra-demo-dc1-rack1-1" →
  data_claims (demo_sts "10Gi") [a; b] = [a; b].
Proof. intros Ha Hb. unfold data_claims. cbn [List.filter]. by rewrite Ha, Hb. Qed.
Lemma claim_sizes :
  wants_size size20 claim0 = true ∧ wants_size size20 claim1 = true ∧
  ∀ j, wants_size size20 (growing_claim j claim0) = false ∧ wants_size size20 (growing_claim j claim1) = false ∧
    has_grown size20 (growing_claim j claim0) = (if j is 0 then true else false) ∧
    has_grown size20 (growing_claim j claim1) = (if j is 0 then true else false).
Proof. split_and!; [vm_compute; reflexivity..|]. intros []; split_and!; vm_compute; reflexivity. Qed.

Lemma upsize_wanted_here : upsize_wanted upsize_cc demo_rack (demo_sts "10Gi") recreated_sts size20 [claim0; claim1].
Proof.
  split; [reflexivity|reflexivity|vm_compute; reflexivity| |done].
  exists "snapshot", ((demo_sts "10Gi") <| sts_Status := StsStatus_zero |>). split_and!; try reflexivity; try done.
Qed.
Lemma stage_cooperates :
  storage_cooperates upsize_cc demo_rack (demo_sts "10Gi") recreated_sts size20 [claim0; claim1] 1 1 at_stage.
Proof.
  split.
  - intros w s H. by do 2 eexists.
  - intros w s H. by eexists.
  - intros w s [<- Hs]. destruct w as [| |todo|[|j] [|k]]; do 2 eexists; (split; [reflexivity|]); try done;
      (split; [eexists; split; [reflexivity|]|done]); by repeat split.
  - intros w [-> _]. by eexists.
  - intros w [-> _]. eexists. split; [reflexivity|]. split; [done|by left].
  - intros w s [<- Hs] H1 H2. destruct w as [| |todo|j k]; [done|done| |].
    + destruct claim_sizes as (H0 & H3 & Hj). destruct Hs as [-> | ->]; do 2 eexists; (split; [reflexivity|]); rewrite two_claims by done;
        (split; [reflexivity|]); cbn [List.filter]; rewrite ?H0, H3, ?(proj1 (Hj 1)); (split; [reflexivity|]); (split; [done|auto]).
    + destruct claim_sizes as (_ & _ & Hj). destruct (Hj j) as (H3 & H4 & H5 & H6). do 2 eexists. split; [reflexivity|].
      rewrite two_claims by (by destruct j). split; [reflexivity|]. cbn [List.filter forallb]. rewrite H3, H4, H5, H6.
      split; [done|]. split; [by destruct j|done].
  - intros w pvc todo [-> [[= -> ->]|[= -> ->]]]; (eexists; split; [reflexivity|]); [|done]. split; [done|by right].
  - intros w [-> _]. do 2 eexists. split; [reflexivity|]. split; [vm_compute; reflexivity|]. split; [vm_compute; reflexivity|]. done.
Qed.

Definition upsize_start : Env stage := mkEnv Before [] upsize_cc (cc_Status upsize_cc) None None false [] [].

(** Seven loops. *)
Lemma upsize_comes_to_an_end_witness :
  ∃ e' rs', rounds upsize_cc demo_rack 0 0 7 upsize_start e' ∧ world e' = Growing 0 0 ∧
    s_RackStatus (status e') !! "dc1-rack1" = Some rs' ∧ la_Status (rs_LastAction rs') = StatusDone.
Proof.
  destruct (upsize_comes_to_an_end upsize_cc demo_rack 0 0 (demo_sts "10Gi") recreated_sts size20 [claim0; claim1] 1 1 at_stage
    upsize_start (mkRackStatus (Name ClusterPhasePending)
              (mkLastAction StatusOngoing (Name ActionStorageUpsize) (Some 0%Z) None [])
              PodLastOperation_zero "") upsize_wanted_here stage_cooperates) as (e' & rs' & Hr & HI & Hrs & Hs & _).
  - split; [reflexivity|exact Logic.I].
  - reflexivity.
  - reflexivity.
  - reflexivity.
  - reflexivity.
  - exists e', rs'. split; [exact Hr|]. split; [exact (proj1 HI)|]. split; [exact Hrs|exact Hs].
Defined.
End instance.
