(* ===== verification/GeneratedSets.v ===== *)
(** * The generator at work

    generator.go implements the interface [StatefulSetGenerator] that the rest of
    the operator is verified against, so the theorems about the rack and the loop
    hold for it, and those that ask something of the generated statefulset are
    discharged here. *)
From S2P Require Import Prelude KubeObjects Types ClusterApi Server K8sUtil Pods FakeCluster Samples.
From S2P Require Import Generator NodeOperations StorageUpsize StatefulSets ClusterPods Status Decommission PodOperations ChangeChecks Reconcile.

(** [ensureCassandraStatefulSet] passes no owner references. *)
#[export] Instance CassKopGenerator `{Gab : GabsLib} `{Ord : MapOrder} {QL : QuantityLib} {Annot : AnnotatorLib}
  : StatefulSetGenerator := {|
  generated_sts cc st dcName dcRackName labels nodeSelector :=
    generateCassandraStatefulSet cc st dcName dcRackName labels nodeSelector [] |}.

Section seeds.
Context {QL : QuantityLib} {Ord : MapOrder} {Gab : GabsLib} {Annot : AnnotatorLib} {Laws : AnnotatorLaws Annot}.

(** The bootstrap container of a generated statefulset has the seeds of the
    status. *)
Lemma generated_has_seeds cc st dcName k labels nodeSelector refs ss :
  generateCassandraStatefulSet cc st dcName k labels nodeSelector refs = Ret (Ok ss) →
  has_seeds ss (SeedList (elems (s_SeedList st))).
Proof.
  intros (containers & base & init & boot & P)%generate_pieces.
  destruct (bootstrap_name _ _ _ (pc_boot _ _ _ _ _ _ _ _ _ _ _ _ P)) as [Hn He].
  exists boot. split_and!.
  - unfold getBootstrapContainerFromStatefulset. rewrite (pc_init _ _ _ _ _ _ _ _ _ _ _ _ P). cbn.
    rewrite (base_name _ _ (pc_base _ _ _ _ _ _ _ _ _ _ _ _ P)), (config_name _ _ _ _ (pc_config _ _ _ _ _ _ _ _ _ _ _ _ P)), Hn.
    reflexivity.
  - rewrite He. unfold bootstrapContainerEnvVar, commonBootstrapCassandraEnvVar.
    case_match; apply (bool_decide_unpack _); vm_compute; exact I.
  - rewrite He. reflexivity.
Qed.

(** A seed list makes the round trip through the statefulset: what the operator
    reads back from a generated statefulset is the seed list of the status it was
    generated from, for a list without commas in its entries. *)
Theorem seed_list_roundtrip (cc : CassandraCluster) (st : CassandraClusterStatus) (dcName k : string)
    (labels nodeSelector : gmap string string) (refs : list OwnerReference) (ss : StatefulSet) (seeds : list string)
    (Hgen : generateCassandraStatefulSet cc st dcName k labels nodeSelector refs = Ret (Ok ss))
    (Hseeds : s_SeedList st = Some seeds) (Hne : seeds ≠ []) (Hcomma : Forall (λ s, ","%char ∉ chars s) seeds) :
  getStoredSeedList ss = seeds.
Proof.
  rewrite (has_seeds_list _ _ (generated_has_seeds _ _ _ _ _ _ _ _ Hgen)), Hseeds.
  by apply (Split_Join seeds ","%char).
Qed.
End seeds.

(** ** From the resource to the API server *)
Section rack.
Context {QL : QuantityLib} {QLaws : QuantityLaws QL} {Codec : StsCodec} {Patch : PatchLib}.
Context {Ord : MapOrder} {Gab : GabsLib} {Annot : AnnotatorLib} {Laws : AnnotatorLaws Annot}.
Context {W : Type} {Srv : ApiServer W}.
Implicit Types e : Env W.

Definition rack_sts_name (cc : CassandraCluster) (n : CompleteRackName) : string :=
  cc_Name cc +:+ "-" +:+ crn_DcRackName n.

(** What [ensureCassandraStatefulSet] asks of the API server. *)
Lemma ensure_log (n : CompleteRackName) dc rack e :
  wp (ensureCassandraStatefulSet n dc rack) (λ _ e', log e' = log e ∨
    ∃ ss l, generateCassandraStatefulSet (rcc_cc e) (status e) (crn_DcName n) (crn_DcRackName n)
              (DCRackLabelsAndNodeSelectorForStatefulSet (rcc_cc e) dc rack).1
              (DCRackLabelsAndNodeSelectorForStatefulSet (rcc_cc e) dc rack).2 [] = Ret (Ok ss) ∧
      log e' = log e ++ l ∧
      sts_requests e (ss <| sts_Meta ::= λ m, AddOwnerRefToObject m (AsOwner (rcc_cc e)) |>) n l) e.
Proof.
  unfold ensureCassandraStatefulSet. apply wp_bind, wp_gets, wp_bind, wp_gets.
  destruct (DCRackLabelsAndNodeSelectorForStatefulSet _ _ _) as [labels sel].
  apply wp_bind, wp_lift. intros [ss|err] Hgen; [|apply wp_ret; by left].
  apply wp_bind. eapply wp_mono; [apply CreateOrUpdateStatefulSet_log|].
  intros [b err] e' (l & Hl & Hreq). apply wp_ret. right. exists ss, l. auto.
Qed.

(** The statefulset the generator computes for a rack, with the resource as its owner. *)
Definition generated_for e (n : CompleteRackName) (dc rack : nat) (ss : StatefulSet) : Prop :=
  ∃ ss0, generateCassandraStatefulSet (rcc_cc e) (status e) (crn_DcName n) (crn_DcRackName n)
           (DCRackLabelsAndNodeSelectorForStatefulSet (rcc_cc e) dc rack).1
           (DCRackLabelsAndNodeSelectorForStatefulSet (rcc_cc e) dc rack).2 [] = Ret (Ok ss0) ∧
    ss = ss0 <| sts_Meta ::= λ m, AddOwnerRefToObject m (AsOwner (rcc_cc e)) |>.

Lemma generated_for_facts e n dc rack ss :
  generated_for e n dc rack ss →
  m_Name (sts_Meta ss) = rack_sts_name (rcc_cc e) n ∧ m_Namespace (sts_Meta ss) = cc_Namespace (rcc_cc e) ∧
  m_OwnerReferences (sts_Meta ss) = [AsOwner (rcc_cc e)] ∧
  sts_Replicas ss = GetNodesPerRacks (rcc_cc e) (crn_DcRackName n) ∧
  has_seeds ss (SeedList (elems (s_SeedList (status e)))).
Proof.
  intros (ss0 & Hgen & ->). pose proof (generated_has_seeds _ _ _ _ _ _ _ _ Hgen) as Hhas.
  destruct (generate_pieces _ _ _ _ _ _ _ _ Hgen) as (cs & base & init & boot & P).
  destruct (pc_name _ _ _ _ _ _ _ _ _ _ _ _ P) as (Hname & Hns & _ & Hown).
  destruct (pc_replicas _ _ _ _ _ _ _ _ _ _ _ _ P) as (Hrep & _).
  split_and!; [exact Hname|exact Hns|cbn; by rewrite Hown|exact Hrep|by eapply has_seeds_ext].
Qed.

(** C11: what the operator writes for a rack is the statefulset the generator computes from
    the resource.  A statefulset that is created is the generated one, field by field, owned
    by the resource.  One that is updated is the generated one too but for what an update
    takes from the stored statefulset or limits ([frame] is the rest, with the pod template,
    its containers, images, volumes and the claims): the replicas are at most one node
    closer to the wanted number, the resource version, the status and the labels of the
    template come from the stored set (a rolling restart sets one label), the size of the
    data claim is the stored one unless a storage upsize runs, and the seeds are the stored
    ones unless the rack updates its seed list. *)
Theorem rack_written_from_resource (n : CompleteRackName) (dc rack : nat) (e e' : Env W) (r : bool * option error)
    (l : list Event)
    (Hrun : ensureCassandraStatefulSet n dc rack e = Ret (r, e')) (Hlog : log e' = log e ++ l) :
  (∀ s a, Ev _ (ApiCreateStatefulSet s) a ∈ l → generated_for e n dc rack s) ∧
  (∀ s a, Ev _ (ApiUpdateStatefulSet s) a ∈ l → ∃ ss stored rs, generated_for e n dc rack ss ∧
     Ev _ (ApiGetStatefulSet (cc_Namespace (rcc_cc e)) (rack_sts_name (rcc_cc e) n)) (Ok stored) ∈ l ∧
     s_RackStatus (status e) !! crn_DcRackName n = Some rs ∧ frame s = frame ss ∧ observed s = observed stored ∧
     sts_Replicas s = limitReplicas (sts_Replicas stored) (GetNodesPerRacks (rcc_cc e) (crn_DcRackName n)) ∧
     (∀ k, k ≠ "rolling-restart" → t_Labels (sts_Template s) !! k = t_Labels (sts_Template stored) !! k) ∧
     (IsStarted rs = false → Quantity_equal (findDataCapacity (sts_VolumeClaimTemplates s)).2
                                            (findDataCapacity (sts_VolumeClaimTemplates stored)).2 = true) ∧
     if updatesSeedList (rs_LastAction rs) then t_InitContainers (sts_Template s) = t_InitContainers (sts_Template ss)
     else ∀ v, has_seeds stored v → getStoredSeedList s = getStoredSeedList stored).
Proof.
  destruct (wp_run _ _ _ _ _ (ensure_log n dc rack e) Hrun) as [Hsame|(ss & l0 & Hgen & Hl0 & Hreq)].
  { rewrite Hlog in Hsame. rewrite <- (app_nil_r (log e)) in Hsame at 2. apply (inj _) in Hsame as ->.
    split; intros s a Hin; by apply not_elem_of_nil in Hin. }
  rewrite Hlog in Hl0. apply (inj _) in Hl0 as <-. set (s0 := ss <| sts_Meta ::= _ |>) in Hreq.
  assert (generated_for e n dc rack s0) as H0 by (by exists ss).
  pose proof (generated_for_facts _ _ _ _ _ H0) as (Hname & Hns & _ & Hrep & Hhas). split.
  - intros s a Hin. by pose proof (sts_requests_create _ _ _ _ _ _ Hreq Hin) as ->.
  - intros s a Hin. destruct (sts_requests_update _ _ _ _ _ _ Hreq Hin) as (stored & rs & Hget & Hrs & Hperm).
    destruct Hperm as (Hr & Hkeep & Hsize & Hlabels & Hnew & Hframe & Hobs). exists s0, stored, rs.
    rewrite Hname, Hns in Hget. rewrite Hrep in Hr. split_and!; try done.
    destruct (updatesSeedList (rs_LastAction rs)); [by apply Hnew|].
    intros v Hv. rewrite (has_seeds_list _ _ Hv). by eapply Hkeep.
Qed.
End rack.

(** ** Instances

    The cluster of [Reconcile.cluster_comes_up], with the statefulsets of the real
    generator. *)
Section instances.
#[local] Existing Instance SampleQuantities.
#[local] Existing Instance SampleGabs.
#[local] Existing Instance SampleAnnotator.
#[local] Existing Instance SampleAnnotator_laws.
#[local] Existing Instance demo_codec.
#[local] Existing Instance demo_config.
#[local] Existing Instance demo_diff.
#[local] Existing Instance demo_topology_diff.
#[local] Existing Instance demo_patch.

Abbreviation gen cc := (generateCassandraStatefulSet cc gen_status "dc1" "dc1-rack1" ∅ ∅ []).
Lemma seed_list_roundtrip_witness :
  ∃ ss, gen gen_cc = Ret (Ok ss) ∧ getStoredSeedList ss = ["seed-0"; "seed-1"].
Proof.
  destruct (seen_Some (λ _, tt) (gen gen_cc) tt) as (ss & Hgen & _); [vm_compute; reflexivity|].
  exists ss. split; [exact Hgen|]. apply (seed_list_roundtrip _ _ _ _ _ _ _ _ _ Hgen).
  - reflexivity.
  - discriminate.
  - apply (bool_decide_unpack _). vm_compute. exact I.
Defined.

Fixpoint real_loops (n : nat) (e : Env FakeCluster) : outcome (Env FakeCluster) :=
  match n with
  | 0 => Ret e
  | S n => '(_, e) ← Reconcile 5 "ns" "cassandra-demo" e; real_loops n (start (world e) (rcc_cc e))
  end.
Definition real_state (n : nat) : outcome (list (string * string * string) * list string * string) :=
  e ← real_loops n (start world0 two_racks); mret (summary e).

(** Five loops bring the cluster of two racks up, with the statefulsets the
    operator really generates. *)
Example generated_cluster_comes_up :
  real_state 2 =
    Ret ([("dc1-rack1", "Initializing", "Ongoing"); ("dc1-rack2", "Initializing", "Ongoing")],
         ["cassandra-demo-dc1-rack1"], "Initializing") ∧
  real_state 4 =
    Ret ([("dc1-rack1", "Running", "Done"); ("dc1-rack2", "Running", "Done")],
         ["cassandra-demo-dc1-rack1"; "cassandra-demo-dc1-rack2"], "Running") ∧
  (e ← real_loops 4 (start world0 two_racks);
   mret (((λ p, (p.1, sts_Replicas p.2, getStoredSeedList p.2)) <$> map_to_list (f_sts (world e))))) =
    Ret [("cassandra-demo-dc1-rack1", 1%Z, ["cassandra-demo-dc1-rack1-0.cassandra-demo.ns"; "cassandra-demo-dc1-rack2-0.cassandra-demo.ns"]);
         ("cassandra-demo-dc1-rack2", 1%Z, ["cassandra-demo-dc1-rack1-0.cassandra-demo.ns"; "cassandra-demo-dc1-rack2-0.cassandra-demo.ns"])].
Proof. vm_compute. auto. Qed.

(** The statefulset that was created in a log, with the answer. *)
Definition created (l : list (Event (QL:=SampleQuantities))) : option (StatefulSet * option error) :=
  find_map (λ ev, match ev with
                  | Ev _ r a => match r in Req A return A → option (StatefulSet * option error) with
                                | ApiCreateStatefulSet s => λ a, Some (s, a)
                                | _ => λ _, None
                                end a
                  end) l.
Lemma created_elem l s a : created l = Some (s, a) → Ev _ (ApiCreateStatefulSet s) a ∈ l.
Proof.
  intros H. apply find_map_Some in H as ([A r x] & Hin & Hr). destruct r; try discriminate Hr.
  injection Hr as <- <-. exact Hin.
Qed.

(** The first rack, before its statefulset exists. *)
Definition fresh_env : Env FakeCluster :=
  start world0 (CheckDefaults (InitCassandraRackList two_racks).1
    <| cc_Status ::= λ s, s <| s_SeedList := Some ["seed-0"] |> |>).

Lemma rack_written_from_resource_witness :
  ∃ r e' l s a, ensureCassandraStatefulSet demo_rack 0 0 fresh_env = Ret (r, e') ∧ log e' = log fresh_env ++ l ∧
    Ev _ (ApiCreateStatefulSet s) a ∈ l ∧ generated_for fresh_env demo_rack 0 0 s.
Proof.
  destruct (observe_Some (λ _ e', bool_decide (is_Some (created (log e')))) (ensureCassandraStatefulSet demo_rack 0 0) fresh_env true)
    as (r & e' & Hrun & Hc); [vm_compute; reflexivity|].
  apply bool_decide_eq_true in Hc as [[s a] Hc%created_elem].
  exists r, e', (log e'), s, a. split; [exact Hrun|]. split; [reflexivity|]. split; [exact Hc|].
  destruct (rack_written_from_resource demo_rack 0 0 fresh_env e' r (log e') Hrun eq_refl) as [Hcreate _].
  exact (Hcreate s a Hc).
Defined.
End instances.
