(* ===== verification/BackupTypes.v ===== *)
(** * Backups and restores: the resources
    (src/api/v2: backrest.go, cassandrabackup_types.go, cassandrarestore_types.go)

    [CassandraBackup] asks for a backup of a data centre, once or on a schedule, and
    [CassandraRestore] for the restoration of one; both carry a [BackRestStatus] with
    what the Icarus side car of a node answered. *)
From Stdlib Require Import Floats.SpecFloat.
From S2P Require Import Prelude KubeObjects Types Server.

(** ** backrest.go *)
Record FailureCause := mkFailureCause { fc_Source : string; fc_Message : string }.
#[export] Instance FailureCause_eq_dec : EqDecision FailureCause.
Proof. solve_decision. Defined.

Record BackRestCondition := mkCondition {
  bc_Type : string; bc_LastTransitionTime : string; bc_FailureCause : list FailureCause }.
#[export] Instance eta_Condition : Eta BackRestCondition := λ x,
  mkCondition (bc_Type x) (bc_LastTransitionTime x) (bc_FailureCause x).
#[export] Instance Condition_eq_dec : EqDecision BackRestCondition.
Proof. solve_decision. Defined.

Record BackRestStatus := mkBackRestStatus {
  bs_TimeCreated : string; bs_TimeStarted : string; bs_TimeCompleted : string;
  bs_Condition : option BackRestCondition;
  bs_CoordinatorMember : string; bs_Progress : string; bs_ID : string }.
#[export] Instance eta_BackRestStatus : Eta BackRestStatus := λ x,
  mkBackRestStatus (bs_TimeCreated x) (bs_TimeStarted x) (bs_TimeCompleted x) (bs_Condition x)
    (bs_CoordinatorMember x) (bs_Progress x) (bs_ID x).
#[export] Instance BackRestStatus_eq_dec : EqDecision BackRestStatus.
Proof. solve_decision. Defined.
(** [api.BackRestStatus{}] *)
Definition BackRestStatus_zero : BackRestStatus := mkBackRestStatus "" "" "" None "" "" "".

(** [int(f)]: the integer part of a float64; what the language leaves to the
    implementation is the smallest int64. *)
Definition int_of_float (f : spec_float) : Z :=
  match f with
  | S754_zero _ => 0
  | S754_finite s m e =>
      let n := Z.shiftl (Z.pos m) e in
      let z := if s then (- n)%Z else n in
      if bool_decide (- 2 ^ 63 ≤ z < 2 ^ 63)%Z then z else (- 2 ^ 63)%Z
  | S754_infinity _ | S754_nan => (- 2 ^ 63)%Z
  end.

(** Floating point multiplication of the language. *)
Definition float_mul : spec_float → spec_float → spec_float := SFmul 53 1024.
Definition float_100 : spec_float := binary_normalize 53 1024 100 0 false.

Definition ProgressPercentage (progress : spec_float) : string :=
  Itoa (int_of_float (float_mul progress float_100)) +:+ "%".

(** ** The answers of the side car

    [icarus.BackupOperationResponse] and [icarus.RestoreOperationResponse], types of
    a generated client: the fields the operator reads, which are the same. *)
Record OperationResponse := mkResponse {
  op_Id : string; op_State : string; op_Progress : spec_float;
  op_CreationTime : string; op_StartTime : string; op_CompletionTime : string;
  op_Errors : list (string * string) (* ErrorObject: source and message *) }.

(** [mapstructure.Decode] of the error objects, its error ignored *)
Class ErrorDecoder := { decode_errors : list (string * string) → list FailureCause }.
Definition failureCause `{ErrorDecoder} (errors : list (string * string)) : list FailureCause := decode_errors errors.

(** ** cassandrabackup_types.go *)
Record CassandraBackupSpec := mkBackupSpec {
  cbs_CassandraCluster : string; cbs_Datacenter : string; cbs_StorageLocation : string;
  cbs_Schedule : string; cbs_SnapshotTag : string; cbs_Duration : string; cbs_Bandwidth : string;
  cbs_ConcurrentConnections : Z; cbs_Entities : string; cbs_Secret : string }.
#[export] Instance eta_BackupSpec : Eta CassandraBackupSpec := λ x,
  mkBackupSpec (cbs_CassandraCluster x) (cbs_Datacenter x) (cbs_StorageLocation x) (cbs_Schedule x)
    (cbs_SnapshotTag x) (cbs_Duration x) (cbs_Bandwidth x) (cbs_ConcurrentConnections x)
    (cbs_Entities x) (cbs_Secret x).
#[export] Instance BackupSpec_eq_dec : EqDecision CassandraBackupSpec.
Proof. solve_decision. Defined.

Record CassandraBackup := mkBackup {
  cb_Meta : ObjectMeta; cb_Spec : CassandraBackupSpec; cb_Status : BackRestStatus }.
#[export] Instance eta_Backup : Eta CassandraBackup := λ x, mkBackup (cb_Meta x) (cb_Spec x) (cb_Status x).
#[export] Instance Backup_eq_dec : EqDecision CassandraBackup.
Proof. solve_decision. Defined.

Definition cb_Name (cb : CassandraBackup) : string := m_Name (cb_Meta cb).
Definition cb_Namespace (cb : CassandraBackup) : string := m_Namespace (cb_Meta cb).

Definition BackupRunning : string := "RUNNING".
Definition BackupCompleted : string := "COMPLETED".
Definition BackupFailed : string := "FAILED".

Module BackupConditionType.
Definition IsRunning (b : string) : bool := b == BackupRunning.
Definition IsCompleted (b : string) : bool := b == BackupCompleted.
Definition HasFailed (b : string) : bool := b == BackupFailed.
End BackupConditionType.

Definition PreventBackupDeletion (cb : CassandraBackup) (value : bool) : CassandraBackup :=
  cb <| cb_Meta ::= λ m, m <| m_Finalizers := if value then ["kubernetes.io/unschedule-needed"] else [] |> |>.

Definition IsScheduled (cb : CassandraBackup) : bool := cbs_Schedule (cb_Spec cb) != "".
Definition Ran (cb : CassandraBackup) : bool := bs_Condition (cb_Status cb) != None.

(** [encoding/json] on a backup *)
Class BackupCodec := {
  Marshal_backup : CassandraBackup → string;
  Unmarshal_backup : string → result CassandraBackup;
}.
(** What [encoding/json] promises: the text reads back. *)
Class BackupCodecLaws (Codec : BackupCodec) := {
  Unmarshal_Marshal cb : Unmarshal_backup (Marshal_backup cb) = Ok cb;
}.

(** What is marshalled: name, name space, creation time and specification. *)
Definition lastAppliedBackup (cb : CassandraBackup) : CassandraBackup :=
  mkBackup ((named (cb_Namespace cb) (cb_Name cb)) <| m_CreationTimestamp := m_CreationTimestamp (cb_Meta cb) |>)
    (cb_Spec cb) BackRestStatus_zero.
Definition ComputeLastAppliedAnnotation `{BackupCodec} (cb : CassandraBackup) : string :=
  Marshal_backup (lastAppliedBackup cb).

(** [now] is [metav1.Now().Format(util.TimeStampLayout)]. *)
Definition ComputeBackupStatus `{ErrorDecoder} (now : string) (r : OperationResponse) (coordinatorMember : string)
  : BackRestStatus :=
  mkBackRestStatus (op_CreationTime r) (op_StartTime r) (op_CompletionTime r)
    (Some (mkCondition (op_State r) now (failureCause (op_Errors r))))
    coordinatorMember (ProgressPercentage (op_Progress r)) (op_Id r).

Definition IsS3Backup (cb : CassandraBackup) : bool := HasPrefix (cbs_StorageLocation (cb_Spec cb)) "s3://".
Definition IsAzureBackup (cb : CassandraBackup) : bool := HasPrefix (cbs_StorageLocation (cb_Spec cb)) "azure://".
Definition IsGcpBackup (cb : CassandraBackup) : bool := HasPrefix (cbs_StorageLocation (cb_Spec cb)) "gcp://".
Definition IsFileBackup (cb : CassandraBackup) : bool := HasPrefix (cbs_StorageLocation (cb_Spec cb)) "file://".

(** ** cassandrarestore_types.go *)
Definition RestoreRequired : string := "REQUIRED".
Definition RestorePending : string := "PENDING".
Definition RestoreRunning : string := "RUNNING".
Definition RestoreCompleted : string := "COMPLETED".
Definition RestoreFailed : string := "FAILED".
Definition RestoreCanceled : string := "CANCELED".

Module RestoreConditionType.
Definition IsInProgress (r : string) : bool := (r == RestorePending) || (r == RestoreRunning).
Definition IsInError (r : string) : bool := (r == RestoreFailed) || (r == RestoreCanceled).
Definition IsRequired (r : string) : bool := r == RestoreRequired.
Definition IsPending (r : string) : bool := r == RestorePending.
Definition IsRestoreRunning (r : string) : bool := r == RestoreRunning.
Definition IsRestoreCompleted (r : string) : bool := r == RestoreCompleted.
End RestoreConditionType.

Record CassandraRestoreSpec := mkRestoreSpec {
  crs_CassandraCluster : string; crs_Datacenter : string; crs_CassandraBackup : string;
  crs_ConcurrentConnection : option Z; crs_CassandraDirectory : string; crs_NoDeleteTruncates : bool;
  crs_SchemaVersion : string; crs_ExactSchemaVersion : bool; crs_Entities : string;
  crs_Rename : gmap string string; crs_Secret : string }.
#[export] Instance eta_RestoreSpec : Eta CassandraRestoreSpec := λ x,
  mkRestoreSpec (crs_CassandraCluster x) (crs_Datacenter x) (crs_CassandraBackup x) (crs_ConcurrentConnection x)
    (crs_CassandraDirectory x) (crs_NoDeleteTruncates x) (crs_SchemaVersion x) (crs_ExactSchemaVersion x)
    (crs_Entities x) (crs_Rename x) (crs_Secret x).

#[export] Instance RestoreSpec_eq_dec : EqDecision CassandraRestoreSpec.
Proof. solve_decision. Defined.

Record CassandraRestore := mkRestore {
  cr_Meta : ObjectMeta; cr_Spec : CassandraRestoreSpec; cr_Status : BackRestStatus }.
#[export] Instance eta_Restore : Eta CassandraRestore := λ x, mkRestore (cr_Meta x) (cr_Spec x) (cr_Status x).
#[export] Instance Restore_eq_dec : EqDecision CassandraRestore.
Proof. solve_decision. Defined.

Definition GetRestoreCondition (st : BackRestStatus) (conditionType : string) : option BackRestCondition :=
  match bs_Condition st with
  | Some c => if bc_Type c == conditionType then Some c else None
  | None => None
  end.

Definition ComputeRestorationStatus `{ErrorDecoder} (now : string) (r : OperationResponse) : BackRestStatus :=
  mkBackRestStatus (op_CreationTime r) (op_StartTime r) (op_CompletionTime r)
    (Some (mkCondition (op_State r) now (failureCause (op_Errors r))))
    "" (ProgressPercentage (op_Progress r)) (op_Id r).

(** ** Progress

    The product with 100 is rounded and then cut: 0.57, the float64 nearest to it,
    shows as 56%. *)
Definition float_percent (n : Z) : spec_float :=
  SFdiv 53 1024 (binary_normalize 53 1024 n 0 false) float_100.
Example progress_57 : ProgressPercentage (float_percent 57) = "56%".
Proof. vm_compute. reflexivity. Qed.

(** The numbers of percent that are shown as the one below. *)
Example progress_short :
  List.filter (λ n, negb (bool_decide (ProgressPercentage (float_percent n) = Itoa n +:+ "%")))
    (Z.of_nat <$> seq 0 101) = [29; 57; 58]%Z.
Proof. vm_compute. reflexivity. Qed.

Definition percent_shown (n : nat) : Z := int_of_float (float_mul (float_percent (Z.of_nat n)) float_100).

(** The progress of an operation is shown to the percent or one below, and as
    100% exactly at the end, for every whole number of percent: multiplying the
    floating point fraction by 100 and cutting loses at most one. *)
Theorem progress_within_one (n : nat) (Hn : n ≤ 100) :
  ∃ m, ProgressPercentage (float_percent (Z.of_nat n)) = Itoa m +:+ "%" ∧
    (Z.of_nat n - 1 ≤ m ≤ Z.of_nat n)%Z ∧ (m = 100 ↔ n = 100%nat)%Z.
Proof.
  exists (percent_shown n). split; [done|].
  assert (Forall (λ n : nat, (Z.of_nat n - 1 ≤ percent_shown n ≤ Z.of_nat n)%Z ∧
    bool_decide (percent_shown n = 100%Z) = bool_decide (n = 100)) (seq 0 101)) as Hall.
  { apply (bool_decide_unpack _). vm_compute. exact I. }
  rewrite Forall_forall in Hall. destruct (Hall n) as [Hm Hb]; [apply elem_of_seq; lia|]. split; [exact Hm|].
  rewrite <- (bool_decide_eq_true (percent_shown n = 100%Z)), <- (bool_decide_eq_true (n = 100)), Hb. done.
Qed.

Lemma progress_within_one_witness :
  ∃ m, ProgressPercentage (float_percent 57) = Itoa m +:+ "%" ∧ (56 ≤ m ≤ 57)%Z.
Proof.
  destruct (progress_within_one 57 ltac:(lia)) as (m & Hm & Hb & _). exists m. split; [exact Hm|lia].
Defined.
