(* ===== verification/Sidecar.v ===== *)
(** * The backup side car and the world of the backup controllers
    (src/pkg/backrest, src/pkg/cassandrabackup, src/controllers/common,
    src/pkg/errorfactory)

    Requests of the backup and restore controllers go to the API server, to the
    event recorder and to the Icarus side car next to a Cassandra node.  As in
    [Server], every request is answered by an arbitrary world and logged.  The
    clients of the API server fill the object they are given with the answer, so
    backups live in a heap and the controller, its goroutines and the closures of
    the scheduler share them by address. *)
From S2P Require Import Prelude KubeObjects Types ClusterApi Server K8sUtil Pods BackupTypes.

(** ** Requests to the side car: [icarus.BackupOperationRequest] and
    [icarus.RestoreOperationRequest] *)
Record DataRate := mkDataRate { dr_Value : Z; dr_Unit : string }.

Record BackupOperationRequest := mkBackupRequest {
  bor_Type : string; bor_StorageLocation : string; bor_SnapshotTag : string; bor_Duration : string;
  bor_Bandwidth : option DataRate; bor_ConcurrentConnections : Z; bor_Entities : string;
  bor_K8sSecretName : string; bor_Dc : string; bor_GlobalRequest : bool; bor_K8sNamespace : string }.

Record RestoreOperationRequest := mkRestoreRequest {
  ror_Type : string; ror_Dc : string; ror_StorageLocation : string; ror_SnapshotTag : string;
  ror_NoDeleteTruncates : bool; ror_ExactSchemaVersion : bool; ror_RestorationPhase : string;
  ror_GlobalRequest : bool; ror_ImportType : string; ror_ImportSourceDir : string;
  ror_Entities : string; ror_Rename : gmap string string; ror_K8sSecretName : string;
  ror_CassandraDirectory : string; ror_SchemaVersion : string; ror_RestorationStrategyType : string;
  ror_ResolveHostIdFromTopology : bool; ror_ConcurrentConnections : Z }.
#[export] Instance eta_RestoreRequest : Eta RestoreOperationRequest := λ x,
  mkRestoreRequest (ror_Type x) (ror_Dc x) (ror_StorageLocation x) (ror_SnapshotTag x) (ror_NoDeleteTruncates x)
    (ror_ExactSchemaVersion x) (ror_RestorationPhase x) (ror_GlobalRequest x) (ror_ImportType x)
    (ror_ImportSourceDir x) (ror_Entities x) (ror_Rename x) (ror_K8sSecretName x) (ror_CassandraDirectory x)
    (ror_SchemaVersion x) (ror_RestorationStrategyType x) (ror_ResolveHostIdFromTopology x)
    (ror_ConcurrentConnections x).

Inductive OperationRequest :=
| BackupOperation (r : BackupOperationRequest)
| RestoreOperation (r : RestoreOperationRequest).

(** [mapstructure.Decode] of the body of an answer: the response it leaves behind,
    nil for a body without one, and its error. *)
Class IcarusLib := {
  Body : Type;
  decode_response : Body → option OperationResponse * option error;
}.

(** ** Cron jobs: [github.com/robfig/cron]

    A job is a closure over a backup, by address, and its cluster. *)
Class CronLib {QL : QuantityLib} := {
  Cron : Type;
  (** [cron.New()] *)
  cron_New : Cron;
  cron_AddFunc : Cron → string → nat * CassandraCluster → result Z * Cron;
  cron_Remove : Cron → Z → Cron;
  (** [c.Entries()], by their ID *)
  cron_Entries : Cron → gmap Z (nat * CassandraCluster);
  (** [cron.ParseStandard] *)
  ParseStandard : string → option error;
}.

(** What [robfig/cron] promises: a new client has no job, a job gets an ID that is not in use, [Remove] takes that job away, and a
    schedule is refused exactly when [ParseStandard] refuses it. *)
Class CronLaws {QL : QuantityLib} (CronL : CronLib) := {
  New_entries : cron_Entries cron_New = ∅;
  AddFunc_Ok cron schedule job id cron' :
    cron_AddFunc cron schedule job = (Ok id, cron') →
    cron_Entries cron !! id = None ∧ cron_Entries cron' = <[id := job]> (cron_Entries cron);
  AddFunc_Err cron schedule job err cron' :
    cron_AddFunc cron schedule job = (Err err, cron') → cron_Entries cron' = cron_Entries cron;
  AddFunc_parse cron schedule job :
    ParseStandard schedule = None → ∃ id cron', cron_AddFunc cron schedule job = (Ok id, cron');
  Remove_entries cron id : cron_Entries (cron_Remove cron id) = delete id (cron_Entries cron);
}.

Record entryType := mkEntry { ent_ID : Z; ent_Schedule : string }.

Section world.
Context {QL : QuantityLib} {Icarus : IcarusLib} {CronL : CronLib}.

Inductive BReq : Type → Type :=
(* metav1.Now().Format(util.TimeStampLayout), random.Intn *)
| BNow : BReq string
| BRandIntn (n : Z) : BReq Z
(* API server *)
| BListPods (ns : string) (selector : gmap string string) : BReq (result (list Pod))
| BGetBackup (ns name : string) : BReq (result CassandraBackup)
| BListBackups : BReq (result (list CassandraBackup))
| BUpdateBackup (cb : CassandraBackup) : BReq (result CassandraBackup)
| BPatchBackup (old new : CassandraBackup) : BReq (result CassandraBackup)
| BGetSecret (ns name : string) : BReq (result (gmap string string))
| BGetCC (ns name : string) : BReq (result CassandraCluster)
| BGetRestore (ns name : string) : BReq (result CassandraRestore)
| BPatchRestore (old new : CassandraRestore) : BReq (result CassandraRestore)
(* events of the recorder: kind and reason *)
| BRecord (kind reason : string) : BReq unit
(* the side car behind a base path *)
| BPost (base : string) (body : OperationRequest) : BReq (result Body)
| BOperation (base id : string) : BReq (result Body).

Class BackupServer (W : Type) := bserve : ∀ A : Type, BReq A → W → A * W.
#[global] Arguments bserve {W _ A} _ _.

Inductive BEvent := BEv (A : Type) (r : BReq A) (answer : A).

(** The side car client: its configuration is the base path of its requests. *)
Record Config := mkConfig { cfg_UseSSL : bool; cfg_Port : Z; cfg_Host : string; cfg_Timeout : Z }.
Record BackrestClient := mkBackrestClient {
  bk_podClient : option string; bk_CoordinatorMember : string }.

(** [go backup(backrestClient, backupClient, ...)] *)
Inductive BackupTask := RunBackup (client : option BackrestClient) (backup : nat).

Record BEnv (W : Type) := mkBEnv {
  b_world : W; b_log : list BEvent;
  b_heap : list CassandraBackup;
  b_entries : gmap string entryType;      (* Scheduler.entries *)
  b_cron : Cron;                          (* Scheduler.cronClient *)
  b_tasks : list BackupTask }.
End world.
Arguments mkBEnv {_ _ _ _} _ _ _ _ _ _.
Arguments b_world {_ _ _ _} _.
Arguments b_log {_ _ _ _} _.
Arguments b_heap {_ _ _ _} _.
Arguments b_entries {_ _ _ _} _.
Arguments b_cron {_ _ _ _} _.
Arguments b_tasks {_ _ _ _} _.
#[export] Instance eta_BEnv `{QuantityLib} `{IcarusLib} `{CronLib} W : Eta (BEnv W) := λ x,
  mkBEnv (b_world x) (b_log x) (b_heap x) (b_entries x) (b_cron x) (b_tasks x).

Abbreviation BM W := (GoM (BEnv W)) (only parsing).

(** ** controllers/common, pkg/errorfactory *)

(** [reconcile.Result]: seconds until the next run, and the error. *)
Record ReconcileResult := mkReconcileResult { rr_RequeueAfter : Z; rr_Error : option error }.
Definition Reconciled : ReconcileResult := mkReconcileResult 0 None.
Definition RequeueWithError (e : error) : ReconcileResult := mkReconcileResult 0 (Some e).

(** The errors the restore controller tells apart; [errors.Cause] of the first four
    is the error itself, and a wrapped one is some other. *)
Inductive RestoreError :=
| ResourceNotReady
| CassandraBackupSidecarNotReady
| CassandraBackupOperationRunning
| CassandraBackupOperationFailure (msg : string)
| PlainError (e : error).

Section client.
Context {QL : QuantityLib} {Icarus : IcarusLib} {CronL : CronLib} {Dec : ErrorDecoder}.
Context {W : Type} {Srv : BackupServer W}.

Definition bcall {A} (r : BReq A) : BM W A := λ e,
  let '(a, w) := bserve r (b_world e) in
  Ret (a, e <| b_world := w |> <| b_log ::= λ l, l ++ [BEv _ r a] |>).

(** ** pkg/cassandrabackup *)
Definition DefaultCassandraSidecarPort : Z := 4567.
Definition DefaultCassandraBackupSecure : bool := false.
Definition ErrNoCassandraBackupClientAvailable : error := OtherError "Cannot create a cassandra backup client".

(** The pod is dereferenced: nil panics. *)
Definition ClusterConfig (pod : option Pod) : outcome Config :=
  pod ← deref pod;
  mret (mkConfig DefaultCassandraBackupSecure DefaultCassandraSidecarPort (PodHostname pod) 60).

(** The base path of the requests. *)
Definition cassandraBackupSidecarConfig (c : Config) : string :=
  let protocol := if cfg_UseSSL c then "https" else "http" in
  protocol +:+ "://" +:+ cfg_Host c +:+ ":" +:+ Itoa (cfg_Port c).

(** [ClientFromCluster]: [New] then [Build], which does not fail. *)
Definition ClientFromCluster (pod : option Pod) : outcome (option string) :=
  config ← ClusterConfig pod; mret (Some (cassandraBackupSidecarConfig config)).

Definition NewCassandraBackupConnection : option Pod → outcome (option string) := ClientFromCluster.

Definition performOperation (r : result Body) : option OperationResponse * option error :=
  match r with Err e => (None, Some e) | Ok body => decode_response body end.

Definition PerformOperation (podClient : option string) (req : OperationRequest)
  : BM W (option OperationResponse * option error) :=
  match podClient with
  | None => mret (None, Some ErrNoCassandraBackupClientAvailable)
  | Some base => r ← bcall (BPost base req); mret (performOperation r)
  end.
Definition PerformBackupOperation (podClient : option string) (req : BackupOperationRequest) :=
  PerformOperation podClient (BackupOperation req).
Definition PerformRestoreOperation (podClient : option string) (req : RestoreOperationRequest) :=
  PerformOperation podClient (RestoreOperation req).

Definition OperationByID (podClient : option string) (operationId : string)
  : BM W (option OperationResponse * option error) :=
  if operationId == "" then mret (None, Some (OtherError "must get a non empty id"))
  else match podClient with
       | None => mret (None, Some ErrNoCassandraBackupClientAvailable)
       | Some base => r ← bcall (BOperation base operationId); mret (performOperation r)
       end.
Definition BackupOperationByID := OperationByID.
Definition RestoreOperationByID := OperationByID.

(** ** pkg/backrest *)
Definition NewClient (pod : option Pod) : outcome BackrestClient :=
  csClient ← NewCassandraBackupConnection pod;
  p ← deref pod;
  mret (mkBackrestClient csClient (pod_Name p)).

(** [\s] of the regular expression, and what [strings.TrimSpace] cuts (ASCII). *)
Definition is_re_space (c : ascii) : bool := existsb (N.eqb (code c)) [9; 10; 12; 13; 32]%N.
Definition is_trim_space (c : ascii) : bool := is_re_space c || (code c =? 11)%N.
Definition is_separator (c : ascii) : bool := is_re_space c || (code c =? 44)%N.

Fixpoint trim_left (l : list ascii) : list ascii :=
  match l with c :: l' => if is_trim_space c then trim_left l' else l | [] => [] end.
Definition TrimSpace (s : string) : string :=
  of_chars (reverse (trim_left (reverse (trim_left (chars s))))).

(** [regexSpaceOrComma.Split(s, -1)]: the pieces between maximal runs of separators;
    [in_sep] says that the last character was one. *)
Fixpoint split_separators (in_sep : bool) (l : list ascii) : list (list ascii) :=
  match l with
  | [] => [[]]
  | c :: l =>
      if is_separator c then (if in_sep then split_separators true l else [] :: split_separators true l)
      else match split_separators false l with
           | w :: ws => (c :: w) :: ws
           | [] => [[c]]
           end
  end.
Definition regexSplit (s : string) : list string := of_chars <$> split_separators false (chars s).

Definition filterEmptyStrings (input : list string) : list string := List.filter (λ x, x != "") input.

Definition formatEntities (entities : string) : string :=
  Join (filterEmptyStrings (regexSplit (TrimSpace entities))) ",".

(** [(?i)^(\d+)([kmg]?)$] on the text without spaces and in upper case *)
Definition remove_spaces (s : string) : string := of_chars (List.filter (λ c, negb (code c =? 32)%N) (chars s)).
Definition is_unit (c : ascii) : bool := existsb (N.eqb (code c)) [75; 77; 71]%N.
Definition bandwidth_match (s : string) : option (list ascii * string) :=
  let digits l := bool_decide (l ≠ []) && forallb is_digit l in
  match reverse (chars s) with
  | c :: l =>
      if is_unit c then (if digits (reverse l) then Some (reverse l, of_chars [c]) else None)
      else if digits (chars s) then Some (chars s, "") else None
  | [] => None
  end.

(** The value is cut to 32 bits; an error of [Atoi] is ignored. *)
Definition dataRateFromBandwidth (value : string) : option DataRate * option error :=
  let bandwidth := ToUpper (remove_spaces value) in
  if bandwidth == "" then (None, None)
  else match bandwidth_match bandwidth with
       | None => (None, Some (OtherError "Format not supported"))
       | Some (digits, unit) => (Some (mkDataRate (wrap32 (Atoi_digits digits)) (unit +:+ "BPS")), None)
       end.

Definition backupRequest (cb : CassandraBackup) : BackupOperationRequest :=
  let s := cb_Spec cb in
  mkBackupRequest "backup" (cbs_StorageLocation s) (cbs_SnapshotTag s) (cbs_Duration s)
    (dataRateFromBandwidth (remove_spaces (cbs_Bandwidth s))).1 (cbs_ConcurrentConnections s)
    (formatEntities (cbs_Entities s)) (cbs_Secret s) (cbs_Datacenter s) true (cb_Namespace cb).

(** A nil client or a missing response is dereferenced. *)
Definition PerformBackup (c : option BackrestClient) (cb : CassandraBackup) : BM W (string * option error) :=
  c ← lift (deref c);
  '(response, err) ← PerformBackupOperation (bk_podClient c) (backupRequest cb);
  match err with
  | Some e => mret ("", Some e)
  | None => op ← lift (deref response); mret (op_Id op, None)
  end.

Definition restoreRequest (restore : CassandraRestore) (backup : CassandraBackup) : RestoreOperationRequest :=
  let rs := cr_Spec restore in
  let bs := cb_Spec backup in
  let req := mkRestoreRequest "restore" (crs_Datacenter rs) (cbs_StorageLocation bs) (cbs_SnapshotTag bs)
    (crs_NoDeleteTruncates rs) (crs_ExactSchemaVersion rs) "INIT" true "import"
    "/var/lib/cassandra/downloadedsstables" (crs_Entities rs) (crs_Rename rs) (crs_Secret rs)
    (crs_CassandraDirectory rs) (crs_SchemaVersion rs) "HARDLINKS" true 0 in
  let req := match crs_ConcurrentConnection rs with
             | Some n => req <| ror_ConcurrentConnections := n |> | None => req end in
  let req := if crs_Entities rs == "" then req <| ror_Entities := cbs_Entities bs |> else req in
  let req := req <| ror_Entities ::= formatEntities |> in
  if crs_Secret rs == "" then req <| ror_K8sSecretName := cbs_Secret bs |> else req.

Definition PerformRestore (c : BackrestClient) (restore : CassandraRestore) (backup : CassandraBackup)
  : BM W (result BackRestStatus) :=
  '(response, err) ← PerformRestoreOperation (bk_podClient c) (restoreRequest restore backup);
  match err with
  | Some e => mret (Err e)
  | None =>
      op ← lift (deref response);
      now ← bcall BNow;
      mret (Ok (ComputeRestorationStatus now op))
  end.

Definition RestoreStatusByID (c : BackrestClient) (id : string) : BM W (result BackRestStatus) :=
  '(response, err) ← RestoreOperationByID (bk_podClient c) id;
  match err with
  | Some e => mret (Err e)
  | None => op ← lift (deref response); now ← bcall BNow; mret (Ok (ComputeRestorationStatus now op))
  end.

Definition BackupStatusByID (c : BackrestClient) (id : string) : BM W (BackRestStatus * option error) :=
  '(response, err) ← BackupOperationByID (bk_podClient c) id;
  match err with
  | Some e => mret (BackRestStatus_zero, Some e)
  | None =>
      op ← lift (deref response); now ← bcall BNow;
      mret (ComputeBackupStatus now op (bk_CoordinatorMember c), None)
  end.

(** ** pkg/k8s/util.go *)
Definition LookupCassandraCluster (ns name : string) : BM W (result CassandraCluster) := bcall (BGetCC ns name).
Definition LookupCassandraBackup (ns name : string) : BM W (result CassandraBackup) := bcall (BGetBackup ns name).
Definition listPods (ns : string) (selector : gmap string string) : BM W (result (list Pod)) :=
  bcall (BListPods ns selector).
End client.

(** ** What a program adds to the log *)
Section events.
Context {QL : QuantityLib} {Icarus : IcarusLib} {CronL : CronLib}.
Context {W : Type} {Srv : BackupServer W}.

(** The environment after request [r] was answered with [a]. *)
Definition answered {A} (r : BReq A) (a : A) (w : W) (e : BEnv W) : BEnv W :=
  e <| b_world := w |> <| b_log ::= λ l, l ++ [BEv _ r a] |>.

Lemma wp_bcall {A} (r : BReq A) Q (e : BEnv W) :
  (∀ a w, Q a (answered r a w e)) → wp (bcall r) Q e.
Proof. intros HQ. unfold wp, bcall. destruct (bserve r (b_world e)). apply HQ. Qed.

(** The events between [e] and [e']. *)
Definition extends (e e' : BEnv W) (l : list BEvent) : Prop := b_log e' = b_log e ++ l.
Definition bsince (e e' : BEnv W) (ev : BEvent) : Prop := ∃ l, extends e e' l ∧ ev ∈ l.
(** All of them satisfy [P]. *)
Definition blogs (P : BEvent → Prop) (e e' : BEnv W) : Prop := ∃ l, extends e e' l ∧ Forall P l.
Definition grows : BEnv W → BEnv W → Prop := blogs (λ _, True).

#[global] Instance blogs_preorder P : PreOrder (blogs P).
Proof.
  split.
  - intros e. exists []. unfold extends. by rewrite app_nil_r.
  - intros e1 e2 e3 (l1 & E1 & H1) (l2 & E2 & H2). exists (l1 ++ l2). unfold extends in *.
    rewrite E2, E1, (assoc_L (++)). split; [done|]. by apply Forall_app.
Qed.

Lemma blogs_mono (P P' : BEvent → Prop) e e' : (∀ ev, P ev → P' ev) → blogs P e e' → blogs P' e e'.
Proof. intros HP (l & E & Hl). exists l. split; [exact E|]. by eapply Forall_impl. Qed.
Lemma blogs_answered {A} (P : BEvent → Prop) (r : BReq A) a w (e : BEnv W) :
  P (BEv _ r a) → blogs P e (answered r a w e).
Proof. intros HP. exists [BEv _ r a]. split; [done|]. by repeat constructor. Qed.
Lemma blogs_same P (e e' : BEnv W) : b_log e' = b_log e → blogs P e e'.
Proof. intros E. exists []. unfold extends. by rewrite E, app_nil_r. Qed.

Lemma bsince_answered {A} (r : BReq A) a w (e : BEnv W) : bsince e (answered r a w e) (BEv _ r a).
Proof. exists [BEv _ r a]. split; [done|]. by left. Qed.
Lemma bsince_l P (e e1 e' : BEnv W) ev : blogs P e e1 → bsince e1 e' ev → bsince e e' ev.
Proof.
  intros (l & E & _) (l' & E' & Hin). exists (l ++ l'). unfold extends in *. rewrite E', E, (assoc_L (++)).
  split; [done|]. apply elem_of_app. by right.
Qed.
Lemma bsince_r P (e e1 e' : BEnv W) ev : blogs P e1 e' → bsince e e1 ev → bsince e e' ev.
Proof.
  intros (l & E & _) (l' & E' & Hin). exists (l' ++ l). unfold extends in *. rewrite E, E', (assoc_L (++)).
  split; [done|]. apply elem_of_app. by left.
Qed.

Lemma keeps_bcall {A} (R : BEnv W → BEnv W → Prop) (r : BReq A) :
  (∀ e a w, R e (answered r a w e)) → keeps R (bcall r).
Proof. intros HR e. apply wp_bcall. auto. Qed.
End events.

(** ** The list of entities

    The reference: every separator splits, and the empty pieces go. *)
Section entities.
Fixpoint split_pred (p : ascii → bool) (l : list ascii) : list (list ascii) :=
  match l with
  | [] => [[]]
  | c :: l => if p c then [] :: split_pred p l
              else match split_pred p l with w :: ws => (c :: w) :: ws | [] => [[c]] end
  end.
Definition nonempty (ws : list (list ascii)) : list (list ascii) := List.filter (λ w, bool_decide (w ≠ [])) ws.
Definition entity_words (s : string) : list string := of_chars <$> nonempty (split_pred is_separator (chars s)).

Lemma split_pred_ne p l : split_pred p l ≠ [].
Proof. destruct l; simpl; [done|]. case_match; [done|]. by case_match. Qed.

Lemma split_separators_cons b l : split_separators b l ≠ [].
Proof. revert b. induction l as [|c l IH]; intros b; simpl; [done|]. repeat case_match; done || by eapply IH. Qed.

(** Runs of separators give empty pieces only. *)
Lemma split_separators_words l :
  nonempty (split_separators false l) = nonempty (split_pred is_separator l) ∧
  nonempty (split_separators true l) = nonempty (split_pred is_separator l) ∧
  (head (split_separators false l) = head (split_pred is_separator l)) ∧
  nonempty (tail (split_separators false l)) = nonempty (tail (split_pred is_separator l)).
Proof.
  induction l as [|c l (IH1 & IH2 & IH3 & IH4)]; [done|]. simpl. destruct (is_separator c) eqn:Hc.
  - repeat split; unfold nonempty in *; simpl; auto.
  - destruct (split_separators false l) as [|w ws] eqn:E1; [by destruct (split_separators_cons false l)|].
    destruct (split_pred is_separator l) as [|w' ws'] eqn:E2; [by destruct (split_pred_ne is_separator l)|].
    simpl in IH3, IH4. simplify_eq. unfold nonempty in *. simpl. rewrite IH4. done.
Qed.

Lemma split_pred_snoc p l c : p c = true → split_pred p (l ++ [c]) = split_pred p l ++ [[]].
Proof.
  intros Hc. induction l as [|x l IH]; simpl; [by rewrite Hc|]. rewrite IH. destruct (p x); [done|].
  destruct (split_pred p l) eqn:E; [by destruct (split_pred_ne p l)|]. done.
Qed.

Lemma nonempty_app a b : nonempty (a ++ b) = nonempty a ++ nonempty b.
Proof. apply List.filter_app. Qed.

Definition no_vtab (l : list ascii) : Prop := Forall (λ c, (code c =? 11)%N = false) l.

(** Cutting separators at either end loses no word. *)
Lemma trim_left_words l : no_vtab l →
  nonempty (split_pred is_separator (trim_left l)) = nonempty (split_pred is_separator l) ∧ no_vtab (trim_left l).
Proof.
  induction 1 as [|c l Hc Hl IH]; [split; [done|constructor]|]. simpl. unfold is_trim_space. rewrite Hc, orb_false_r.
  destruct (is_re_space c) eqn:E; [|split; [done|by constructor]].
  unfold is_separator at 2. by rewrite E.
Qed.
Lemma trim_right_words l : no_vtab l →
  nonempty (split_pred is_separator (reverse (trim_left (reverse l)))) = nonempty (split_pred is_separator l).
Proof.
  intros Hl. rewrite <- (reverse_involutive l) at 2. apply Forall_reverse in Hl. revert Hl.
  generalize (reverse l) as r. induction 1 as [|c r Hc Hr IH]; [done|]. simpl.
  unfold is_trim_space. rewrite Hc, orb_false_r. destruct (is_re_space c) eqn:E; [|done].
  rewrite reverse_cons, split_pred_snoc by (unfold is_separator; by rewrite E).
  by rewrite nonempty_app, app_nil_r.
Qed.

Lemma filter_words ws : filterEmptyStrings (of_chars <$> ws) = of_chars <$> nonempty ws.
Proof.
  unfold filterEmptyStrings, nonempty. induction ws as [|w ws IH]; [done|].
  destruct w as [|c w]; [exact IH|]. rewrite fmap_cons. cbn [List.filter].
  rewrite (bool_decide_true (c :: w ≠ [])), fmap_cons by done. cbn. by rewrite IH.
Qed.

Lemma formatEntities_words s : no_vtab (chars s) → formatEntities s = Join (entity_words s) ",".
Proof.
  intros Hs. unfold formatEntities, regexSplit, TrimSpace, entity_words. rewrite filter_words, chars_of_chars.
  destruct (trim_left_words _ Hs) as [Hl Hv]. destruct (split_separators_words (reverse (trim_left (reverse (trim_left (chars s)))))) as [-> _].
  by rewrite trim_right_words, Hl.
Qed.

(** A word has a character and no separator. *)
Definition word (w : string) : Prop := w ≠ "" ∧ Forall (λ c, is_separator c = false) (chars w).

Lemma split_pred_words l : Forall (Forall (λ c, is_separator c = false)) (split_pred is_separator l).
Proof.
  induction l as [|c l IH]; simpl; [by repeat constructor|]. destruct (is_separator c) eqn:E; [by constructor|].
  destruct (split_pred is_separator l); [by repeat constructor|]. inversion IH; subst. by repeat constructor.
Qed.

Lemma entity_words_word s : Forall word (entity_words s).
Proof.
  unfold entity_words, nonempty. pose proof (split_pred_words (chars s)) as H.
  induction H as [|w ws Hw _ IH]; simpl; [constructor|]. case_bool_decide; [|exact IH]. simpl. constructor; [|exact IH].
  split; [|by rewrite chars_of_chars]. intros E. apply (f_equal chars) in E. rewrite chars_of_chars in E. done.
Qed.

Lemma split_pred_word w : Forall (λ c, is_separator c = false) w → split_pred is_separator w = [w].
Proof. induction 1 as [|c w Hc _ IH]; simpl; [done|]. by rewrite Hc, IH. Qed.
Lemma split_pred_sep w c r :
  Forall (λ c, is_separator c = false) w → is_separator c = true →
  split_pred is_separator (w ++ c :: r) = w :: split_pred is_separator r.
Proof. intros Hw Hc. induction Hw as [|x w Hx _ IH]; simpl; [by rewrite Hc|]. by rewrite Hx, IH. Qed.

Lemma entity_words_Join ws : Forall word ws → entity_words (Join ws ",") = ws.
Proof.
  induction 1 as [|w ws [Hne Hw] Hws IH]; [done|]. destruct ws as [|w' ws].
  - cbn. unfold entity_words. rewrite split_pred_word by done. unfold nonempty. cbn.
    case_bool_decide as E; cbn; [by rewrite of_chars_chars|]. exfalso. apply Hne, chars_inj. exact E.
  - change (Join (w :: w' :: ws) ",") with (w +:+ String "," (Join (w' :: ws) ",")).
    unfold entity_words in *. rewrite chars_app. change (chars (String "," (Join (w' :: ws) ",")))
      with (","%char :: chars (Join (w' :: ws) ",")). rewrite split_pred_sep by done. unfold nonempty in *. cbn [List.filter].
    case_bool_decide as E; [rewrite fmap_cons, IH, of_chars_chars; done|].
    exfalso. apply Hne, chars_inj. exact E.
Qed.

Lemma words_no_vtab s : no_vtab (chars s) → no_vtab (chars (Join (entity_words s) ",")).
Proof.
  intros Hs. assert (∀ l, no_vtab l → Forall no_vtab (split_pred is_separator l)) as Hsplit.
  { intros l. induction 1 as [|c l Hc Hl IH]; simpl; [by repeat constructor|].
    destruct (is_separator c); [constructor; [constructor|done]|].
    destruct (split_pred is_separator l); [by repeat constructor|]. inversion IH; subst. constructor; [by constructor|done]. }
  assert (Forall (λ w, no_vtab (chars w)) (entity_words s)) as Hw.
  { unfold entity_words, nonempty. specialize (Hsplit _ Hs). induction Hsplit as [|w ws Hw _ IH]; simpl; [constructor|].
    case_bool_decide; [|done]. simpl. constructor; [by rewrite chars_of_chars|done]. }
  induction Hw as [|w ws Hw Hws IH]; [constructor|]. destruct ws as [|w' ws]; [done|].
  change (Join (w :: w' :: ws) ",") with (w +:+ String "," (Join (w' :: ws) ",")). rewrite chars_app.
  apply Forall_app. split; [done|]. constructor; [done|]. exact IH.
Qed.

(** However the user separates the entities of a backup or restore, with spaces
    or commas, the side car gets the words in order with one comma between them:
    splitting the text at commas gives the words, and normalising it again changes
    nothing. *)
Theorem entities_normalised (s : string) (Hascii : no_vtab (chars s)) :
  formatEntities s = Join (entity_words s) "," ∧ Forall word (entity_words s) ∧
  (entity_words s ≠ [] → Split (formatEntities s) ","%char = entity_words s) ∧
  formatEntities (formatEntities s) = formatEntities s.
Proof.
  pose proof (entity_words_word s) as Hw. rewrite formatEntities_words by done. split_and!; [done|done| |].
  - intros Hne. apply (Split_Join (entity_words s) ","%char); [done|]. eapply Forall_impl; [exact Hw|].
    intros w [_ Hsep] Hin. rewrite Forall_forall in Hsep. by specialize (Hsep _ Hin).
  - rewrite formatEntities_words by by apply words_no_vtab. by rewrite entity_words_Join.
Qed.

Lemma entities_normalised_witness :
  formatEntities " ks1.t1, ks2  ,ks3," = "ks1.t1,ks2,ks3" ∧
  formatEntities (formatEntities " ks1.t1, ks2  ,ks3,") = formatEntities " ks1.t1, ks2  ,ks3,".
Proof.
  split; [vm_compute; reflexivity|]. apply entities_normalised. apply (bool_decide_unpack _). vm_compute. exact I.
Defined.
End entities.

(** ** Bandwidth *)
Definition unit_texts : list string := [""; "k"; "K"; "m"; "M"; "g"; "G"].

Lemma digit_not_lower c : is_digit c = true → is_lower c = false ∧ is_unit c = false ∧ (code c =? 32)%N = false.
Proof.
  unfold is_digit, is_lower, is_unit, in_range. intros [H1 H2]%andb_true_iff. apply N.leb_le in H1, H2.
  cbn. split_and!; [|rewrite !orb_false_iff; split_and!; try done|]; try (apply N.eqb_neq; lia).
  apply andb_false_iff. left. apply N.leb_gt. lia.
Qed.

Lemma digits_upper l : Forall (λ c, is_digit c = true) l → to_upper <$> List.filter (λ c, negb (code c =? 32)%N) l = l.
Proof.
  induction 1 as [|c l Hc _ IH]; [done|]. destruct (digit_not_lower _ Hc) as (H1 & _ & H2). cbn. rewrite H2. cbn.
  unfold to_upper at 1. by rewrite H1, IH.
Qed.

(** Digits with at most one letter of a unit match. *)
Lemma bandwidth_match_digits d u :
  d ≠ [] → Forall (λ c, is_digit c = true) d → (u = [] ∨ ∃ c, u = [c] ∧ is_unit c = true) →
  bandwidth_match (of_chars (d ++ u)) = Some (d, of_chars u).
Proof.
  intros Hne Hd Hu. assert (bool_decide (d ≠ []) && forallb is_digit d = true) as Hdig.
  { rewrite bool_decide_true by done. apply forallb_forall. intros x Hx. rewrite Forall_forall in Hd.
    by apply Hd, list_elem_of_In. }
  unfold bandwidth_match. rewrite chars_of_chars, reverse_app. destruct Hu as [->|(c & -> & Hc)].
  - rewrite app_nil_r. change (reverse (@nil ascii)) with (@nil ascii). cbn [app].
    destruct (reverse d) as [|c l] eqn:E; [by apply (f_equal reverse) in E; rewrite reverse_involutive in E|].
    assert (c ∈ d) as Hin by (apply elem_of_reverse; rewrite E; left).
    rewrite Forall_forall in Hd. destruct (digit_not_lower _ (Hd _ Hin)) as (_ & -> & _). by rewrite Hdig.
  - change (reverse [c]) with [c]. cbn [app]. by rewrite Hc, reverse_involutive, Hdig.
Qed.

Lemma unit_upper u : u ∈ unit_texts →
  ToUpper (remove_spaces u) = ToUpper u ∧ (chars (ToUpper u) = [] ∨ ∃ c, chars (ToUpper u) = [c] ∧ is_unit c = true).
Proof.
  intros Hu. assert (Forall (λ u, ToUpper (remove_spaces u) = ToUpper u ∧
    (chars (ToUpper u) = [] ∨ Exists (λ c, chars (ToUpper u) = [c] ∧ is_unit c = true) (chars (ToUpper u)))) unit_texts) as Hall
    by (apply (bool_decide_unpack _); vm_compute; exact I).
  rewrite Forall_forall in Hall. destruct (Hall _ Hu) as [H1 [H2|(c & _ & H2)%list.Exists_exists]]; eauto.
Qed.

(** A bandwidth of a whole number below 2^31 and an optional unit is read as
    that number and that unit, in either case of the letter; larger numbers wrap
    around at 32 bits, as the theorem shows for those that [Atoi] can read. *)
Theorem bandwidth_read (n : Z) (unit : string) (Hn : (0 ≤ n < 2 ^ 63)%Z) (Hunit : unit ∈ unit_texts) :
  dataRateFromBandwidth (Itoa n +:+ unit) = (Some (mkDataRate (wrap32 n) (ToUpper unit +:+ "BPS")), None) ∧
  ((n < 2 ^ 31)%Z → wrap32 n = n).
Proof.
  destruct (chars_Itoa n) as [Hd Hv]; [lia|]. destruct (unit_upper _ Hunit) as [Hup Hcase].
  assert (chars (Itoa n) ≠ []) as Hne by (intros E; rewrite E in Hv; destruct n; [discriminate E|done|lia]).
  split; [|intros; apply wrap32_id; unfold int32_range; lia].
  assert (ToUpper (remove_spaces (Itoa n +:+ unit)) = of_chars (chars (Itoa n) ++ chars (ToUpper unit))) as E.
  { rewrite <- Hup. unfold ToUpper, remove_spaces.
    by rewrite !chars_of_chars, chars_app, List.filter_app, fmap_app, digits_upper. }
  unfold dataRateFromBandwidth. rewrite E, bool_decide_false.
  - rewrite bandwidth_match_digits by done. rewrite of_chars_chars. unfold Atoi_digits, max_int64.
    rewrite Hv, Z.min_r by lia. done.
  - intros E'. apply (f_equal chars) in E'. rewrite chars_of_chars in E'. by apply app_eq_nil in E' as [E' _].
Qed.

Lemma bandwidth_read_witness :
  dataRateFromBandwidth "10m" = (Some (mkDataRate 10 "MBPS"), None).
Proof.
  destruct (bandwidth_read 10 "m" ltac:(lia)) as [H1 H2]; [right; right; right; left|].
  rewrite H2 in H1 by lia. exact H1.
Defined.

(** Three billion bytes per second become a negative rate. *)
Example bandwidth_wraps :
  dataRateFromBandwidth "3000000000" = (Some (mkDataRate (-1294967296) "BPS"), None).
Proof. vm_compute. reflexivity. Qed.
