(* ===== verification/FakeSidecar.v ===== *)
(** * A concrete world for backups

    An API server with one cluster, its pods, backups, restores and a secret; side
    cars that accept every operation and answer its states from a script; a cron
    client that numbers its jobs; a text form of backups that reads back.  The
    theorems about arbitrary worlds are exercised on it. *)
From Stdlib Require Import Floats.SpecFloat.
From S2P Require Import Prelude KubeObjects Types ClusterApi Server K8sUtil Pods FakeCluster Samples BackupTypes Sidecar.

(** Positive numbers as text. *)
Fixpoint bits (p : positive) : string :=
  match p with xH => "" | xO p => String "0" (bits p) | xI p => String "1" (bits p) end.
Fixpoint of_bits (s : string) : positive :=
  match s with EmptyString => xH | String c s => if bool_decide (c = "0"%char) then xO (of_bits s) else xI (of_bits s) end.
Lemma of_bits_bits p : of_bits (bits p) = p.
Proof. induction p as [p IH|p IH|]; cbn; [by rewrite IH..|done]. Qed.

#[local] Existing Instance SampleQuantities.

Section codec.
Ltac by_fields f g := refine (inj_countable' f g _); by intros [].
#[global] Instance failure_countable : Countable FailureCause.
Proof. by_fields (λ x, (fc_Source x, fc_Message x)) (λ '(a, b), mkFailureCause a b). Defined.
#[global] Instance condition_countable : Countable BackRestCondition.
Proof.
  by_fields (λ x, (bc_Type x, bc_LastTransitionTime x, bc_FailureCause x)) (λ '(a, b, c), mkCondition a b c).
Defined.
#[global] Instance backrest_countable : Countable BackRestStatus.
Proof.
  by_fields (λ x, (bs_TimeCreated x, bs_TimeStarted x, bs_TimeCompleted x, bs_Condition x,
    bs_CoordinatorMember x, bs_Progress x, bs_ID x)) (λ '(a, b, c, d, e, f, g), mkBackRestStatus a b c d e f g).
Defined.
#[global] Instance backup_spec_countable : Countable CassandraBackupSpec.
Proof.
  by_fields (λ x, (cbs_CassandraCluster x, cbs_Datacenter x, cbs_StorageLocation x, cbs_Schedule x,
    cbs_SnapshotTag x, cbs_Duration x, cbs_Bandwidth x, cbs_ConcurrentConnections x, cbs_Entities x, cbs_Secret x))
    (λ '(a, b, c, d, e, f, g, h, i, j), mkBackupSpec a b c d e f g h i j).
Defined.
#[global] Instance backup_countable : Countable CassandraBackup.
Proof. by_fields (λ x, (cb_Meta x, cb_Spec x, cb_Status x)) (λ '(a, b, c), mkBackup a b c). Defined.

#[global] Instance SampleBackupCodec : BackupCodec := {|
  Marshal_backup cb := bits (encode cb);
  Unmarshal_backup t := match decode (of_bits t) with Some cb => Ok cb | None => Err (OtherError "cannot unmarshal") end |}.
#[global] Instance SampleBackupCodec_laws : BackupCodecLaws SampleBackupCodec.
Proof. split. intros cb. cbn. by rewrite of_bits_bits, decode_encode. Qed.
End codec.

(** Answers decode to a response, or do not. *)
#[global] Instance SampleIcarus : IcarusLib := {|
  Body := option OperationResponse;
  decode_response b := match b with Some r => (Some r, None) | None => (None, Some (OtherError "cannot decode")) end |}.
#[global] Instance SampleDecoder : ErrorDecoder := {| decode_errors := fmap (λ '(a, b), mkFailureCause a b) |}.

(** A schedule has five fields. *)
Definition parse_schedule (s : string) : option error :=
  if bool_decide (length (Split s " "%char) = 5) then None else Some (OtherError "expected exactly 5 fields").
#[global] Instance SampleCron : CronLib := {|
  Cron := gmap Z (nat * CassandraCluster);
  cron_New := ∅;
  cron_AddFunc cron s job :=
    match parse_schedule s with
    | Some e => (Err e, cron)
    | None => let id : Z := fresh (dom cron : gset Z) in (Ok id, <[id := job]> cron)
    end;
  cron_Remove cron id := delete id cron;
  cron_Entries cron := cron;
  ParseStandard := parse_schedule |}.

#[global] Instance SampleCron_laws : CronLaws SampleCron.
Proof.
  split; cbn; [done|..].
  - intros cron s job id cron'. destruct (parse_schedule s); [done|]. intros [= <- <-]. split; [|done].
    apply not_elem_of_dom, is_fresh.
  - intros cron s job err cron'. destruct (parse_schedule s); [|done]. by intros [= _ <-].
  - intros cron s job ->. eauto.
  - done.
Qed.

Record FakeWorld := mkFakeWorld {
  w_backups : gmap string CassandraBackup;
  w_restores : gmap string CassandraRestore;
  w_cc : option CassandraCluster;
  w_pods : list Pod;
  w_secret : option (gmap string string);
  w_reachable : bool;              (* the side cars answer *)
  w_states : list string           (* the states of the operation, in order *) }.
#[global] Instance eta_FakeWorld : Eta FakeWorld := λ x,
  mkFakeWorld (w_backups x) (w_restores x) (w_cc x) (w_pods x) (w_secret x) (w_reachable x) (w_states x).

Definition response (state : string) : OperationResponse :=
  mkResponse "op-1" state (S754_zero false) "created" "" "" [].
Definition unreachable : result Body := Err (OtherError "connection refused").

Definition fake_bserve (A : Type) (r : BReq A) (w : FakeWorld) : A * FakeWorld :=
  match r in BReq A return A * FakeWorld with
  | BNow => ("now", w)
  | BRandIntn _ => (0%Z, w)
  | BListPods _ selector => (Ok (List.filter (λ p, selected selector (pod_Meta p)) (w_pods w)), w)
  | BGetBackup _ n => (found (w_backups w !! n), w)
  | BListBackups => (Ok (map_to_list (w_backups w)).*2, w)
  | BUpdateBackup cb => (Ok cb, w <| w_backups ::= <[cb_Name cb := cb]> |>)
  | BPatchBackup _ cb => (Ok cb, w <| w_backups ::= <[cb_Name cb := cb]> |>)
  | BGetSecret _ _ => (found (w_secret w), w)
  | BGetCC _ _ => (found (w_cc w), w)
  | BGetRestore _ n => (found (w_restores w !! n), w)
  | BPatchRestore _ cr => (Ok cr, w <| w_restores ::= <[m_Name (cr_Meta cr) := cr]> |>)
  | BRecord _ _ => (tt, w)
  | BPost _ _ => (if w_reachable w then Ok (Some (response "PENDING")) else unreachable, w)
  | BOperation _ _ =>
      if w_reachable w
      then (Ok (Some (response (hd "COMPLETED" (w_states w)))), w <| w_states ::= tail |>)
      else (unreachable, w)
  end.
#[global] Instance FakeBackupServer : BackupServer FakeWorld := fake_bserve.

Definition holding (heap : list CassandraBackup) (w : FakeWorld) : BEnv FakeWorld :=
  mkBEnv w [] heap ∅ (∅ : gmap Z (nat * CassandraCluster)) [].
Definition bstart : FakeWorld → BEnv FakeWorld := holding [].

(** A cluster, a pod of its data centre, and a backup of it. *)
Definition backup_cc : CassandraCluster := demo_one.
Definition backup_pod : Pod :=
  (mkPod ((named "ns" "cassandra-demo-dc1-rack1-0") <| m_Labels := LabelsForCassandraDC backup_cc "dc1" |>)
     "cassandra-demo-dc1-rack1-0" "cassandra-demo" "Running" "" None []).
Definition nightly : CassandraBackup :=
  mkBackup (named "ns" "nightly")
    (mkBackupSpec "cassandra-demo" "dc1" "s3://bucket" "0 1 * * *" "snap" "1h30m" "10M" 4 "ks1,ks2" "secret")
    BackRestStatus_zero.
Definition once : CassandraBackup :=
  nightly <| cb_Meta := named "ns" "once" |> <| cb_Spec ::= λ s, s <| cbs_Schedule := "" |> |>.
Definition backup_world (cbs : list CassandraBackup) : FakeWorld :=
  mkFakeWorld (list_to_map ((λ cb, (cb_Name cb, cb)) <$> cbs)) ∅ (Some backup_cc) [backup_pod]
    (Some {[ "awsregion" := "eu" ]}) true ["RUNNING"].
