(* ===== verification/Backup.v ===== *)
(** * The backup controller (src/controllers/cassandrabackup)

    A [CassandraBackup] without a schedule is run once by a goroutine that posts the
    operation to the side car of a random pod of the data centre and follows its
    state; one with a schedule becomes a cron job that does the same every time.
    The job is a closure over the object the reconcile loop read, kept by its
    address in the heap. *)
From S2P Require Import Prelude KubeObjects Types ClusterApi Server K8sUtil Pods FakeCluster Samples BackupTypes Sidecar FakeSidecar.

Definition annotationLastApplied : string := "cassandrabackups.db.orange.com/last-applied-configuration".

(** ** time.ParseDuration, as far as its error goes

    A sign, then numbers with a unit; the sum of nanoseconds fits an int64.  The
    fraction of a number is taken exactly. *)
Definition duration_units : list (string * Z) :=
  [("ns", 1); ("us", 10 ^ 3); ("µs", 10 ^ 3); ("μs", 10 ^ 3); ("ms", 10 ^ 6); ("s", 10 ^ 9); ("m", 60 * 10 ^ 9); ("h", 3600 * 10 ^ 9)]%Z.
Fixpoint span (p : ascii → bool) (l : list ascii) : list ascii * list ascii :=
  match l with
  | c :: l' => if p c then let '(a, b) := span p l' in (c :: a, b) else ([], l)
  | [] => ([], [])
  end.
Definition is_dot (c : ascii) : bool := (code c =? 46)%N.
(** The magnitude of the rest of a duration, [fuel] numbers at most. *)
Fixpoint parse_numbers (fuel : nat) (l : list ascii) (total : Z) : option Z :=
  match fuel, l with
  | _, [] => Some total
  | 0, _ => None
  | S fuel, _ =>
      let '(int, l) := span is_digit l in
      let '(dot, l) := match l with c :: l' => if is_dot c then (true, l') else (false, l) | [] => (false, []) end in
      let '(frac, l) := if dot then span is_digit l else ([], l) in
      if bool_decide (int = []) && bool_decide (frac = []) then None
      else
        let '(unit, l) := span (λ c, negb (is_dot c) && negb (is_digit c)) l in
        match find_map (λ '(name, z), if name == of_chars unit then Some z else None) duration_units with
        | None => None
        | Some u =>
            let v := (digits_value int * u + digits_value frac * u / 10 ^ Z.of_nat (length frac))%Z in
            if bool_decide (2 ^ 63 < total + v)%Z then None else parse_numbers fuel l (total + v)%Z
        end
  end.
Definition ParseDuration (s : string) : bool :=
  let '(neg, l) := match chars s with
                   | c :: l => if (code c =? 45)%N then (true, l) else if (code c =? 43)%N then (false, l) else (false, c :: l)
                   | [] => (false, []) end in
  if bool_decide (l = ["0"%char]) then true
  else if bool_decide (l = []) then false
  else match parse_numbers (length l) l 0 with
       | Some d => neg || bool_decide (d < 2 ^ 63)%Z
       | None => false
       end.

Section backup.
Context {QL : QuantityLib} {Icarus : IcarusLib} {CronL : CronLib} {Dec : ErrorDecoder} {Codec : BackupCodec}.
Context {W : Type} {Srv : BackupServer W}.

(** ** Objects in the heap *)
Definition alloc (cb : CassandraBackup) : BM W nat :=
  addr ← gets (λ e : BEnv W, length (b_heap e));
  _ ← modify (λ e : BEnv W, e <| b_heap ::= λ h, h ++ [cb] |>);
  mret addr.
Definition bget (addr : nat) : BM W CassandraBackup :=
  h ← gets (b_heap (W:=W)); lift (deref (h !! addr)).
Definition bset (addr : nat) (f : CassandraBackup → CassandraBackup) : BM W unit :=
  _ ← bget addr; modify (λ e : BEnv W, e <| b_heap ::= alter f addr |>).

(** [r.Client.Update]: the answer of the API server is stored into the object. *)
Definition updateBackup (addr : nat) : BM W (option error) :=
  cb ← bget addr;
  r ← bcall (BUpdateBackup cb);
  match r with
  | Ok cb' => _ ← bset addr (λ _, cb'); mret None
  | Err e => mret (Some e)
  end.

(** ** backup.go *)
Definition updateStatus (addr : nat) (st : BackRestStatus) : BM W bool :=
  old ← bget addr;
  _ ← bset addr (λ cb, cb <| cb_Status := st |>);
  cb ← bget addr;
  r ← bcall (BPatchBackup old cb);
  match r with
  | Ok cb' => _ ← bset addr (λ _, cb'); mret true
  | Err _ => mret false
  end.

(** How the loop over the ticker ends: left, blocked on the stopped ticker, or still
    running after the given number of ticks. *)
Inductive Polling := Broke | Blocked | Ticking.

(** The status and the object share the condition: after a patch the condition is
    the one of the answer, if it has one. *)
Fixpoint pollBackup (ticks : nat) (c : BackrestClient) (addr : nat) (operationID : string) : BM W Polling :=
  match ticks with
  | 0 => mret Ticking
  | S ticks =>
      '(st, err) ← BackupStatusByID c operationID;
      match err with
      | Some _ => mret Broke
      | None =>
          updated ← updateStatus addr st;
          if negb updated then pollBackup ticks c addr operationID
          else
            cb ← bget addr;
            condition ← lift (deref match bs_Condition (cb_Status cb) with Some c => Some c | None => bs_Condition st end);
            if bc_Type condition == BackupFailed then
              _ ← bcall (BRecord "Warning" "BackupFailed"); mret Blocked
            else if bc_Type condition == BackupCompleted then
              _ ← bcall (BRecord "Normal" "BackupCompleted"); mret Blocked
            else pollBackup ticks c addr operationID
      end
  end.

(** The goroutine, for a number of ticks. *)
Definition backup (ticks : nat) (client : option BackrestClient) (addr : nat) : BM W (option Polling) :=
  cb ← bget addr;
  '(operationID, err) ← PerformBackup client cb;
  match err with
  | Some _ => _ ← bcall (BRecord "Warning" "BackupNotInitiated"); mret None
  | None =>
      _ ← bcall (BRecord "Normal" "BackupInitiated");
      c ← lift (deref client);
      p ← pollBackup ticks c addr operationID; mret (Some p)
  end.

(** ** scheduler.go *)
(** No entry, and a cron client that was started without a job *)
Definition NewScheduler : gmap string entryType * Cron := (∅, cron_New).

Definition Contains (backupName : string) : BM W bool :=
  entries ← gets (b_entries (W:=W)); mret (bool_decide (is_Some (entries !! backupName))).

Definition Remove (backupName : string) : BM W unit :=
  entries ← gets (b_entries (W:=W));
  match entries !! backupName with
  | Some entry =>
      modify (λ e : BEnv W, e <| b_cron ::= λ c, cron_Remove c (ent_ID entry) |> <| b_entries ::= delete backupName |>)
  | None => mret tt
  end.

Definition AddOrUpdate (cb : CassandraBackup) (task : nat * CassandraCluster) : BM W (bool * option error) :=
  let backupName := cb_Name cb in
  let schedule := cbs_Schedule (cb_Spec cb) in
  entries ← gets (b_entries (W:=W));
  if match entries !! backupName with Some entry => ent_Schedule entry == schedule | None => false end
  then mret (true, None)
  else
    _ ← Remove backupName;
    cron ← gets (b_cron (W:=W));
    let '(r, cron) := cron_AddFunc cron schedule task in
    _ ← modify (λ e : BEnv W, e <| b_cron := cron |>);
    match r with
    | Ok entryID =>
        _ ← modify (λ e : BEnv W, e <| b_entries ::= <[backupName := mkEntry entryID schedule]> |>);
        _ ← bcall (BRecord "Normal" "BackupTaskscheduled");
        mret (false, None)
    | Err e => mret (false, Some e)
    end.

(** ** cassandrabackup_controller.go *)
Definition sameSnapshot (existing instance : CassandraBackup) : bool :=
  negb (IsScheduled existing) && Ran existing &&
  (cbs_SnapshotTag (cb_Spec existing) == cbs_SnapshotTag (cb_Spec instance)) &&
  (cbs_StorageLocation (cb_Spec existing) == cbs_StorageLocation (cb_Spec instance)) &&
  (cbs_CassandraCluster (cb_Spec existing) == cbs_CassandraCluster (cb_Spec instance)) &&
  (cbs_Datacenter (cb_Spec existing) == cbs_Datacenter (cb_Spec instance)).

Definition existingNotScheduledSnapshot (instance : CassandraBackup) : BM W (result bool) :=
  r ← bcall BListBackups;
  match r with
  | Err e => mret (Err e)
  | Ok items => mret (Ok (existsb (λ existing, sameSnapshot existing instance) items))
  end.

(** A missing key of the secret reads as empty. *)
Definition validateBackupSecret (secret : gmap string string) (cb : CassandraBackup) : option error :=
  let unset key := bool_decide (default "" (secret !! key) = "") in
  if IsGcpBackup cb && unset "gcp" then Some (OtherError "gcp key for secret is not set")
  else if IsAzureBackup cb && unset "azurestorageaccount" then Some (OtherError "azurestorageaccount key for secret is not set")
  else if IsAzureBackup cb && unset "azurestoragekey" then Some (OtherError "azurestoragekey key for secret is not set")
  else if IsS3Backup cb && negb (unset "awssecretaccesskey") && negb (unset "awsaccesskeyid") && unset "awsregion"
  then Some (OtherError "there is no awsregion property")
  else if IsS3Backup cb && negb (unset "awsendpoint") && unset "awsregion"
  then Some (OtherError "awsendpoint is specified but awsregion is not set")
  else None.

(** The dynamic types an event can carry, as [reflect.TypeOf] tells them apart. *)
Inductive GoType := PointerToBackup | BackupStruct | OtherType.
#[export] Instance GoType_eq_dec : EqDecision GoType.
Proof. solve_decision. Defined.

(** [UpdateFunc] of the event filter: the type of the new object is compared with
    that of the struct, and then the object is taken to be a pointer. *)
Definition backupUpdateFunc (type : GoType) (accessor : option error) (cb : CassandraBackup) : outcome bool :=
  if bool_decide (accessor ≠ None) then Ret false
  else if type != BackupStruct then Ret false
  else if type != PointerToBackup then Panic
  else match bs_Condition (cb_Status cb) with
       | None => Ret false
       | Some c =>
           if IsScheduled cb then Ret true
           else Ret (BackupConditionType.IsRunning (bc_Type c))
       end.

(** ** reconcile.go *)
(** [ValidateScheduleFormat] of the specification (api/v2) *)
Definition ValidateScheduleFormat (s : CassandraBackupSpec) : option error := ParseStandard (cbs_Schedule s).

Definition setFinalizer (addr : nat) (value : bool) : BM W unit :=
  cb ← bget addr;
  if bool_decide (0 < length (m_Finalizers (cb_Meta cb))) != value
  then bset addr (λ cb, PreventBackupDeletion cb value) else mret tt.

Definition backupData (addr : nat) (cc : CassandraCluster) : BM W (option error) :=
  cb ← bget addr;
  r ← listPods (cb_Namespace cb) (LabelsForCassandraDC cc (cbs_Datacenter (cb_Spec cb)));
  match r with
  | Err _ => mret (Some (OtherError "unable to list pods"))
  | Ok pods =>
      _ ← updateStatus addr BackRestStatus_zero;
      if bool_decide (length pods = 0) then
        _ ← bcall (BRecord "Warning" "BackupNotInitiated"); mret None
      else
        i ← bcall (BRandIntn (Z.of_nat (length pods)));
        pod ← lift (index pods i);
        _ ← bset addr (λ cb, cb <| cb_Status := BackRestStatus_zero <| bs_CoordinatorMember := pod_Name pod |> |>);
        backrestClient ← lift (NewClient (Some pod));
        _ ← modify (λ e : BEnv W, e <| b_tasks ::= λ l, l ++ [RunBackup (Some backrestClient) addr] |>);
        mret None
  end.

(** [Some result] leaves the function, [None] goes on. *)
Definition checkSecret (cb : CassandraBackup) : BM W (option ReconcileResult) :=
  if IsFileBackup cb then mret None
  else
    r ← bcall (BGetSecret (cb_Namespace cb) (cbs_Secret (cb_Spec cb)));
    match r with
    | Err e =>
        if IsNotFound e then _ ← bcall (BRecord "Warning" "BackupFailedSecretNotFound"); mret (Some Reconciled)
        else mret (Some (RequeueWithError e))
    | Ok secret =>
        match validateBackupSecret secret cb with
        | Some e => mret (Some (RequeueWithError e))
        | None => mret None
        end
    end.

Definition checkDuration (cb : CassandraBackup) : BM W (option ReconcileResult) :=
  if (cbs_Duration (cb_Spec cb) != "") && negb (ParseDuration (cbs_Duration (cb_Spec cb))) then
    _ ← bcall (BRecord "Warning" "BackupFailedDurationParseError"); mret (Some Reconciled)
  else mret None.

(** An invalid schedule: the one of the last applied configuration comes back. *)
Definition undoSchedule (addr : nat) (instanceChanged : bool) : BM W ReconcileResult :=
  _ ← bcall (BRecord "Warning" "BackupInvalidSchedule");
  if instanceChanged then
    cb ← bget addr;
    match Unmarshal_backup (default "" (m_Annotations (cb_Meta cb) !! annotationLastApplied)) with
    | Err e => mret (RequeueWithError e)
    | Ok old =>
        _ ← bset addr (λ cb, cb <| cb_Spec ::= λ s, s <| cbs_Schedule := cbs_Schedule (cb_Spec old) |> |>);
        _ ← bset addr (λ cb, cb <| cb_Meta ::= λ m, m
              <| m_Annotations ::= <[annotationLastApplied := ComputeLastAppliedAnnotation cb]> |> |>);
        mret Reconciled
    end
  else mret Reconciled.

Definition scheduleBackup (addr : nat) (cc : CassandraCluster) (instanceChanged : bool) : BM W ReconcileResult :=
  cb ← bget addr;
  match ValidateScheduleFormat (cb_Spec cb) with
  | Some _ => undoSchedule addr instanceChanged
  | None =>
      '(skipped, err) ← AddOrUpdate cb (addr, cc);
      match err with
      | Some _ =>
          _ ← bcall (BRecord "Warning" "BackupScheduleError");
          _ ← setFinalizer addr true; mret Reconciled
      | None => if (skipped : bool) then mret Reconciled else _ ← setFinalizer addr true; mret Reconciled
      end
  end.

(** Once the checks passed: the cluster, then the schedule or the backup. *)
Definition startBackup (addr : nat) (instanceChanged : bool) : BM W ReconcileResult :=
  cb ← bget addr;
  r ← LookupCassandraCluster (cb_Namespace cb) (cbs_CassandraCluster (cb_Spec cb));
  match r with
  | Err e =>
      if IsNotFound e then _ ← bcall (BRecord "Warning" "CassandraClusterNotFound"); mret Reconciled
      else mret (RequeueWithError e)
  | Ok cc =>
      if IsScheduled cb then scheduleBackup addr cc instanceChanged
      else err ← backupData addr cc; mret (mkReconcileResult 0 err)
  end.

(** From the test of what ran already to the end, without the deferred update. *)
Definition reconcileBackup (addr : nat) (instanceChanged : bool) : BM W ReconcileResult :=
  cb ← bget addr;
  scheduled ← Contains (cb_Name cb);
  if negb (IsScheduled cb) && Ran cb then mret Reconciled
  else if IsScheduled cb && scheduled && negb instanceChanged then mret Reconciled
  else
    _ ← bset addr (λ cb, cb <| cb_Status := BackRestStatus_zero |>);
    cb ← bget addr;
    r ← existingNotScheduledSnapshot cb;
    match r with
    | Err e => mret (RequeueWithError e)
    | Ok true => _ ← bcall (BRecord "Warning" "BackupSkipped"); mret Reconciled
    | Ok false =>
        stop ← checkSecret cb;
        match stop with
        | Some result => mret result
        | None =>
            stop ← checkDuration cb;
            match stop with
            | Some result => mret result
            | None => startBackup addr instanceChanged
            end
        end
    end.

Definition Reconcile (ns name : string) : BM W ReconcileResult :=
  r ← bcall (BGetBackup ns name);
  match r with
  | Err e => if IsNotFound e then mret Reconciled else mret (RequeueWithError e)
  | Ok cb =>
      addr ← alloc cb;
      if bool_decide (m_DeletionTimestamp (cb_Meta cb) ≠ None) && IsScheduled cb then
        _ ← Remove (cb_Name cb);
        _ ← bcall (BRecord "Normal" "BackupTaskUnscheduled");
        _ ← setFinalizer addr false;
        err ← updateBackup addr;
        mret (mkReconcileResult 0 err)
      else
        let lac := ComputeLastAppliedAnnotation cb in
        if lac == default "" (m_Annotations (cb_Meta cb) !! annotationLastApplied) then reconcileBackup addr false
        else
          _ ← bset addr (λ cb, cb <| cb_Meta ::= λ m, m <| m_Annotations ::= <[annotationLastApplied := lac]> |> |>);
          result ← reconcileBackup addr true;
          _ ← updateBackup addr;
          mret result
  end.

(** The cron client runs a job. *)
Definition runJob (job : nat * CassandraCluster) : BM W (option error) := backupData job.1 job.2.
End backup.

(** ** The scheduler, abstractly

    A map from names to the schedule and the job that runs on it. *)
Abbreviation Job := (prod nat CassandraCluster) (only parsing).
Abbreviation Schedule := (gmap string (prod string Job)) (only parsing).

Section scheduler.
Context {QL : QuantityLib} {CronL : CronLib} {Laws : CronLaws CronL}.

(** What [AddOrUpdate] and [Remove] do to the fields of the scheduler. *)
Definition remove_job (name : string) (st : gmap string entryType * Cron) : gmap string entryType * Cron :=
  match st.1 !! name with
  | Some ent => (delete name st.1, cron_Remove st.2 (ent_ID ent))
  | None => st
  end.
Definition add_job (name schedule : string) (job : Job) (st : gmap string entryType * Cron)
  : gmap string entryType * Cron :=
  if match st.1 !! name with Some ent => ent_Schedule ent == schedule | None => false end then st
  else match cron_AddFunc (remove_job name st).2 schedule job with
       | (Ok id, cron) => (<[name := mkEntry id schedule]> (remove_job name st).1, cron)
       | (Err _, cron) => ((remove_job name st).1, cron)
       end.

(** The same on the abstract map, for a schedule that parses. *)
Definition plan (name schedule : string) (job : Job) (s : Schedule) : Schedule :=
  if bool_decide (fst <$> s !! name = Some schedule) then s else <[name := (schedule, job)]> s.

(** The entries and the cron jobs are in bijection, and the map is what they say. *)
Record tracks (st : gmap string entryType * Cron) (s : Schedule) : Prop := {
  tr_view name : s !! name = ent ← st.1 !! name; job ← cron_Entries st.2 !! ent_ID ent; Some (ent_Schedule ent, job);
  tr_live name ent : st.1 !! name = Some ent → is_Some (cron_Entries st.2 !! ent_ID ent);
  tr_inj n1 n2 ent1 ent2 : st.1 !! n1 = Some ent1 → st.1 !! n2 = Some ent2 → ent_ID ent1 = ent_ID ent2 → n1 = n2;
  tr_known id job : cron_Entries st.2 !! id = Some job → ∃ name ent, st.1 !! name = Some ent ∧ ent_ID ent = id;
}.

Lemma tracks_remove name st s : tracks st s → tracks (remove_job name st) (delete name s).
Proof.
  destruct st as [ents cron]. intros [Hv Hl Hi Hk]. cbn in *. unfold remove_job. cbn.
  destruct (ents !! name) as [ent|] eqn:E; cbn.
  - assert (∀ n en, n ≠ name → ents !! n = Some en → ent_ID en ≠ ent_ID ent) as Hne
      by (intros n en Hn Hen Heq; by apply Hn, (Hi n name en ent)).
    split; cbn; rewrite ?Remove_entries.
    + intros n. destruct (decide (n = name)) as [->|Hn]; [by rewrite !lookup_delete_eq|].
      rewrite !lookup_delete_ne, Hv by done. destruct (ents !! n) as [en|] eqn:En; [|done]. cbn.
      rewrite lookup_delete_ne; [done|]. apply not_eq_sym. by eapply Hne.
    + intros n en [Hn Hen]%lookup_delete_Some. rewrite lookup_delete_ne; [by eapply Hl|].
      apply not_eq_sym. by eapply Hne.
    + intros n1 n2 e1 e2 [_ H1]%lookup_delete_Some [_ H2]%lookup_delete_Some. by eapply Hi.
    + intros id job [Hid Hj]%lookup_delete_Some. destruct (Hk _ _ Hj) as (n & en & Hen & <-).
      exists n, en. split; [|done]. apply lookup_delete_Some. split; [|done]. intros ->. congruence.
  - assert (s !! name = None) as Hs by by rewrite Hv, E. rewrite delete_id by done. by split.
Qed.

Lemma tracks_add name schedule job st s :
  ParseStandard schedule = None → tracks st s → tracks (add_job name schedule job st) (plan name schedule job s).
Proof.
  intros Hp Ht. unfold add_job, plan.
  assert (match st.1 !! name with Some ent => ent_Schedule ent == schedule | None => false end =
          bool_decide (fst <$> s !! name = Some schedule)) as ->.
  { rewrite (tr_view _ _ Ht). destruct (st.1 !! name) as [ent|] eqn:E; cbn; [|done].
    destruct (tr_live _ _ Ht _ _ E) as [j ->]. cbn. apply bool_decide_ext. split; [by intros ->|by intros [= ->]]. }
  case_bool_decide; [done|]. rewrite <- insert_delete_eq.
  apply (tracks_remove name) in Ht. destruct (remove_job name st) as [ents cron] eqn:Er. cbn.
  assert (ents !! name = None) as Hn.
  { unfold remove_job in Er. destruct (st.1 !! name) eqn:E; simplify_eq/=; [by rewrite lookup_delete_eq|done]. }
  destruct (AddFunc_parse cron schedule job Hp) as (id & cron' & Ha). rewrite Ha.
  apply AddFunc_Ok in Ha as [Hfresh Hc]. destruct Ht as [Hv Hl Hi Hk]. cbn in *.
  assert (∀ n en, ents !! n = Some en → ent_ID en ≠ id) as Hne by (intros n en Hen <-; apply Hl in Hen as [??]; congruence).
  split; cbn; rewrite ?Hc; clear cron' Hc.
  - intros n. destruct (decide (n = name)) as [->|Hnn]; [by rewrite !lookup_insert_eq; cbn; rewrite lookup_insert_eq|].
    rewrite !lookup_insert_ne, Hv by done. destruct (ents !! n) as [en|] eqn:En; [|done]. cbn.
    rewrite lookup_insert_ne; [done|]. apply not_eq_sym. by eapply Hne.
  - intros n en [[<- <-]|[Hnn Hen]]%lookup_insert_Some; cbn; [rewrite lookup_insert_eq; eauto|].
    rewrite lookup_insert_ne; [by eapply Hl|]. apply not_eq_sym. by eapply Hne.
  - intros n1 n2 e1 e2 [[<- <-]|[? H1]]%lookup_insert_Some [[<- <-]|[? H2]]%lookup_insert_Some; cbn; intros Heq;
      [done|exfalso; by eapply Hne|exfalso; by eapply Hne|by eapply Hi].
  - intros i j [[<- <-]|[Hi' Hj]]%lookup_insert_Some; [by exists name, (mkEntry id schedule); rewrite lookup_insert_eq|].
    destruct (Hk _ _ Hj) as (n & en & Hen & <-). exists n, en. split; [|done]. rewrite lookup_insert_ne; [done|].
    intros <-. congruence.
Qed.
End scheduler.

Section reasoning.
Context {QL : QuantityLib} {Icarus : IcarusLib} {CronL : CronLib} {Dec : ErrorDecoder} {Codec : BackupCodec}.
Context {W : Type} {Srv : BackupServer W}.

(** The scheduler of an environment. *)
Definition scheduler (e : BEnv W) : gmap string entryType * Cron := (b_entries e, b_cron e).

(** Only the world, the log and the objects of the heap change. *)
Record bquiet (e e' : BEnv W) : Prop := {
  qu_scheduler : scheduler e' = scheduler e;
  qu_tasks : b_tasks e' = b_tasks e;
  qu_heap : length (b_heap e) ≤ length (b_heap e');
  qu_log : grows e e' }.
#[global] Instance bquiet_preorder : PreOrder bquiet.
Proof.
  split; [intros e; by split|]. intros e1 e2 e3 [H1 H2 H3 H4] [H5 H6 H7 H8].
  split; [congruence|congruence|lia|by etrans].
Qed.

(** Not even the heap does. *)
Definition silent (e e' : BEnv W) : Prop := bquiet e e' ∧ b_heap e' = b_heap e.
#[global] Instance silent_preorder : PreOrder silent.
Proof.
  split; [by intros e|]. intros e1 e2 e3 [H1 H2] [H3 H4]. split; [by etrans|congruence].
Qed.
Lemma silent_quiet e e' : silent e e' → bquiet e e'.
Proof. by intros []. Qed.

Lemma silent_answered {A} (r : BReq A) a w e : silent e (answered r a w e).
Proof. split; [|done]. split; [done|done|done|]. by apply blogs_answered. Qed.
Lemma quiet_alter f addr (e : BEnv W) : bquiet e (e <| b_heap ::= alter f addr |>).
Proof. split; [done|done|cbn; by rewrite length_alter|]. by apply blogs_same. Qed.

Lemma silent_bcall {A} (r : BReq A) : keeps silent (bcall r).
Proof. apply keeps_bcall. intros. apply silent_answered. Qed.
Lemma quiet_bcall {A} (r : BReq A) : keeps bquiet (bcall r).
Proof. apply keeps_bcall. intros. apply silent_quiet, silent_answered. Qed.
Lemma quiet_bget addr : keeps bquiet (bget addr).
Proof. unfold bget. keeps_steps. Qed.
Lemma quiet_bset addr f : keeps bquiet (bset addr f).
Proof. unfold bset. keeps_steps; [apply quiet_bget|]. apply keeps_modify. intros e. apply quiet_alter. Qed.

Lemma wp_bget addr cb Q (e : BEnv W) : b_heap e !! addr = Some cb → Q cb e → wp (bget addr) Q e.
Proof. intros Hcb HQ. unfold bget. wp_steps. rewrite Hcb in *. by simplify_eq/=. Qed.
Lemma wp_bset addr f cb Q (e : BEnv W) :
  b_heap e !! addr = Some cb → Q tt (e <| b_heap ::= alter f addr |>) → wp (bset addr f) Q e.
Proof. intros Hcb HQ. unfold bset. apply wp_bind. eapply wp_bget; [done|]. by wp_steps. Qed.
End reasoning.
#[export] Hint Resolve silent_bcall quiet_bcall quiet_bget quiet_bset : keeps.

Section controller.
Context {QL : QuantityLib} {Icarus : IcarusLib} {CronL : CronLib} {Dec : ErrorDecoder} {Codec : BackupCodec}.
Context {W : Type} {Srv : BackupServer W}.

Lemma quiet_updateBackup addr : keeps bquiet (updateBackup addr).
Proof. unfold updateBackup. keeps_steps. Qed.
Lemma quiet_updateStatus addr st : keeps bquiet (updateStatus addr st).
Proof. unfold updateStatus. keeps_steps. Qed.
Lemma quiet_setFinalizer addr v : keeps (bquiet (W:=W)) (setFinalizer addr v).
Proof. unfold setFinalizer. keeps_steps. Qed.
Lemma quiet_undoSchedule addr c : keeps bquiet (undoSchedule addr c).
Proof. unfold undoSchedule. keeps_steps. Qed.
Lemma silent_checkSecret cb : keeps silent (checkSecret cb).
Proof. unfold checkSecret. keeps_steps. Qed.
Lemma silent_checkDuration cb : keeps silent (checkDuration cb).
Proof. unfold checkDuration. keeps_steps. Qed.
Lemma silent_existing cb : keeps silent (existingNotScheduledSnapshot cb).
Proof. unfold existingNotScheduledSnapshot. keeps_steps. Qed.
Lemma quiet_BackupStatusByID c id : keeps bquiet (BackupStatusByID c id).
Proof. unfold BackupStatusByID, BackupOperationByID, OperationByID. keeps_steps. Qed.
Lemma quiet_pollBackup ticks c addr id : keeps bquiet (pollBackup ticks c addr id).
Proof.
  induction ticks; simpl; keeps_steps; auto using quiet_BackupStatusByID, quiet_updateStatus.
Qed.

(** ** The checks before a backup *)

(** The answers that let the backup of specification [cb] through. *)
Record cleared (cb : CassandraBackup) (cc : CassandraCluster) (e e' : BEnv W) : Prop := {
  pa_snapshot : ∃ items, bsince e e' (BEv _ BListBackups (Ok items)) ∧ Forall (λ x, sameSnapshot x cb = false) items;
  pa_secret : IsFileBackup cb = true ∨
    ∃ secret, bsince e e' (BEv _ (BGetSecret (cb_Namespace cb) (cbs_Secret (cb_Spec cb))) (Ok secret)) ∧
      validateBackupSecret secret cb = None;
  pa_duration : cbs_Duration (cb_Spec cb) = "" ∨ ParseDuration (cbs_Duration (cb_Spec cb)) = true;
  pa_cluster : bsince e e' (BEv _ (BGetCC (cb_Namespace cb) (cbs_CassandraCluster (cb_Spec cb))) (Ok cc)) }.

(** The answers, or the specification itself, that stop it. *)
Inductive refused (cb : CassandraBackup) (e e' : BEnv W) : Prop :=
| ref_listing err : bsince e e' (BEv _ BListBackups (Err err)) → refused cb e e'
| ref_snapshot items :
    bsince e e' (BEv _ BListBackups (Ok items)) → existsb (λ x, sameSnapshot x cb) items = true → refused cb e e'
| ref_secret err :
    IsFileBackup cb = false → bsince e e' (BEv _ (BGetSecret (cb_Namespace cb) (cbs_Secret (cb_Spec cb))) (Err err)) →
    refused cb e e'
| ref_incomplete secret err :
    IsFileBackup cb = false → bsince e e' (BEv _ (BGetSecret (cb_Namespace cb) (cbs_Secret (cb_Spec cb))) (Ok secret)) →
    validateBackupSecret secret cb = Some err → refused cb e e'
| ref_duration : cbs_Duration (cb_Spec cb) ≠ "" → ParseDuration (cbs_Duration (cb_Spec cb)) = false → refused cb e e'
| ref_cluster err :
    bsince e e' (BEv _ (BGetCC (cb_Namespace cb) (cbs_CassandraCluster (cb_Spec cb))) (Err err)) → refused cb e e'
| ref_schedule err : ParseStandard (cbs_Schedule (cb_Spec cb)) = Some err → refused cb e e'.

Lemma refused_mono cb e e' e0 e1 :
  (∀ ev, bsince e e' ev → bsince e0 e1 ev) → refused cb e e' → refused cb e0 e1.
Proof.
  intros Hs [err H|items H1 H2|err H1 H2|sec err H1 H2 H3|H1 H2|err H|err H];
    eauto using ref_listing, ref_snapshot, ref_secret, ref_incomplete, ref_duration, ref_cluster, ref_schedule.
Qed.
(** Two states of one backup: the status and the annotations may differ. *)
Definition same_backup (cb cb' : CassandraBackup) : Prop :=
  cb_Spec cb = cb_Spec cb' ∧ cb_Name cb = cb_Name cb' ∧ cb_Namespace cb = cb_Namespace cb'.
Lemma refused_same cb cb' e e' : same_backup cb cb' → refused cb e e' → refused cb' e e'.
Proof.
  destruct cb as [m s st], cb' as [m' s' st']. intros (Hs & _ & Hns) Hr. unfold cb_Namespace in *. cbn in *. subst s'.
  destruct Hr as [err H|items H1 H2|err H1 H2|sec err H1 H2 H3|H1 H2|err H|err H]; unfold cb_Namespace in *; cbn in *;
    rewrite ?Hns in *;
    [eapply ref_listing|eapply ref_snapshot|eapply ref_secret|eapply ref_incomplete|eapply ref_duration|eapply ref_cluster|
     eapply ref_schedule]; eassumption.
Qed.
Lemma refused_quiet cb e0 e1 e2 e3 : bquiet e0 e1 → refused cb e1 e2 → bquiet e2 e3 → refused cb e0 e3.
Proof. intros H1 Hr H2. eapply refused_mono; [|exact Hr]. intros ev Hev. eapply bsince_l, bsince_r; [apply H1|apply H2|done]. Qed.

Lemma wp_existing cb e :
  wp (existingNotScheduledSnapshot cb) (λ r e', silent e e' ∧ (r = Ok false →
    ∃ items, bsince e e' (BEv _ BListBackups (Ok items)) ∧ Forall (λ x, sameSnapshot x cb = false) items) ∧
    (r ≠ Ok false → refused cb e e')) e.
Proof.
  apply wp_and; [apply silent_existing|]. unfold existingNotScheduledSnapshot. apply wp_bind, wp_bcall.
  intros [items|err] w; wp_steps; [|split; [done|]; intros _; eapply ref_listing, bsince_answered].
  split; [|intros Hne; eapply ref_snapshot; [apply bsince_answered|]; by destruct (existsb _ _)].
  intros [= Hex]. exists items. split; [apply bsince_answered|]. apply Forall_forall. intros x Hx.
  apply not_true_is_false. intros Hs. apply not_true_iff_false in Hex. apply Hex, existsb_exists. exists x.
  split; [by apply list_elem_of_In|done].
Qed.
Lemma wp_checkSecret cb e :
  wp (checkSecret cb) (λ r e', silent e e' ∧ (r = None → IsFileBackup cb = true ∨
    ∃ secret, bsince e e' (BEv _ (BGetSecret (cb_Namespace cb) (cbs_Secret (cb_Spec cb))) (Ok secret)) ∧
      validateBackupSecret secret cb = None) ∧ (r ≠ None → refused cb e e')) e.
Proof.
  apply wp_and; [apply silent_checkSecret|]. unfold checkSecret.
  wp_step; [apply wp_ret; split; [by left|done]|]. apply wp_bind, wp_bcall.
  intros [secret|err] w.
  - destruct (validateBackupSecret secret cb) eqn:Hv; apply wp_ret.
    + split; [done|]. intros _. eapply ref_incomplete; [done|apply bsince_answered|done].
    + split; [|done]. intros _. right. exists secret. split; [apply bsince_answered|done].
  - assert (∀ e1, grows (answered (BGetSecret (cb_Namespace cb) (cbs_Secret (cb_Spec cb))) (Err err) w e) e1 → refused cb e e1) as Hr.
    { intros e1 Hg. eapply ref_secret; [done|]. eapply bsince_r; [exact Hg|apply bsince_answered]. }
    destruct (IsNotFound err).
    + apply wp_bind, wp_bcall. intros a w'. apply wp_ret. split; [done|]. intros _. apply Hr. by apply blogs_answered.
    + apply wp_ret. split; [done|]. intros _. by apply Hr.
Qed.
Lemma wp_checkDuration cb e :
  wp (checkDuration cb) (λ r e', silent e e' ∧ (r = None →
    cbs_Duration (cb_Spec cb) = "" ∨ ParseDuration (cbs_Duration (cb_Spec cb)) = true) ∧ (r ≠ None → refused cb e e')) e.
Proof.
  apply wp_and; [apply silent_checkDuration|]. unfold checkDuration. wp_step.
  { apply wp_bind, wp_bcall. intros. apply wp_ret. split; [done|]. intros _.
    apply andb_true_iff in E as [E1%negb_true_iff%bool_decide_eq_false E2%negb_true_iff]. by eapply ref_duration. }
  apply wp_ret. split; [|done]. intros _. apply andb_false_iff in E as [E|E]; apply negb_false_iff in E; [left|by right].
  by apply bool_decide_eq_true in E.
Qed.

(** ** What a reconcile run starts *)

(** Nothing, or one of the two kinds of run. *)
Inductive started (cb : CassandraBackup) (addr : nat) (cc : CassandraCluster) (e e' : BEnv W) : Prop :=
| started_once pods pod client :
    IsScheduled cb = false → scheduler e' = scheduler e →
    bsince e e' (BEv _ (BListPods (cb_Namespace cb) (LabelsForCassandraDC cc (cbs_Datacenter (cb_Spec cb)))) (Ok pods)) →
    pod ∈ pods → NewClient (Some pod) = Ret client →
    b_tasks e' = b_tasks e ++ [RunBackup (Some client) addr] → started cb addr cc e e'
| started_cron :
    IsScheduled cb = true → ParseStandard (cbs_Schedule (cb_Spec cb)) = None →
    scheduler e' = add_job (cb_Name cb) (cbs_Schedule (cb_Spec cb)) (addr, cc) (scheduler e) →
    b_tasks e' = b_tasks e → started cb addr cc e e'.

Lemma started_quiet cb addr cc e1 e2 e3 e4 :
  bquiet e1 e2 → started cb addr cc e2 e3 → bquiet e3 e4 → started cb addr cc e1 e4.
Proof.
  intros [Q1 Q2 _ Q3] Hs [Q4 Q5 _ Q6]. destruct Hs as [pods pod client H1 H2 H3 H4 H5 H6|H1 H2 H3 H4].
  - eapply started_once; eauto; [congruence| |congruence]. eapply bsince_l, bsince_r; eauto.
  - eapply started_cron; eauto; congruence.
Qed.

(** Only the scheduler and the log change. *)
Lemma wp_Remove name (e : BEnv W) :
  wp (Remove name) (λ _ e', scheduler e' = remove_job name (scheduler e) ∧ b_tasks e' = b_tasks e ∧
    b_heap e' = b_heap e ∧ grows e e') e.
Proof.
  unfold Remove, remove_job, scheduler. cbn. apply wp_bind, wp_gets. destruct (b_entries e !! name); [|by wp_steps].
  apply wp_modify. split_and!; [done..|]. by apply blogs_same.
Qed.

Lemma wp_AddOrUpdate cb job (e : BEnv W) :
  wp (AddOrUpdate cb job) (λ _ e', scheduler e' = add_job (cb_Name cb) (cbs_Schedule (cb_Spec cb)) job (scheduler e) ∧
    b_tasks e' = b_tasks e ∧ b_heap e' = b_heap e ∧ grows e e') e.
Proof.
  unfold AddOrUpdate, add_job. apply wp_bind, wp_gets. cbn [scheduler fst].
  destruct (match b_entries e !! cb_Name cb with Some ent => _ | None => _ end); [by wp_steps|].
  apply wp_bind. eapply wp_mono; [apply wp_Remove|]. intros _ e1 (Hs & Ht & Hh & Hg). apply wp_bind, wp_gets.
  rewrite <- Hs. cbn [scheduler fst snd]. destruct (cron_AddFunc (b_cron e1) _ job) as [[id|err] cron]; wp_steps; [|done].
  apply wp_bcall. intros [] w. wp_steps. split_and!; [done..|]. etrans; [exact Hg|].
  exists [BEv _ (BRecord "Normal" "BackupTaskscheduled") tt]. split; [done|by repeat constructor].
Qed.

Lemma quiet_unstarted (R P : Prop) (e e' : BEnv W) : bquiet e e' → R → grows e e' ∧ (bquiet e e' ∧ R ∨ P).
Proof. intros Hq HR. split; [apply Hq|by left]. Qed.
Lemma quiet_answered {A} (r : BReq A) a w (e0 e : BEnv W) : bquiet e0 e → bquiet e0 (answered r a w e).
Proof. intros Hq. etrans; [exact Hq|]. apply silent_quiet, silent_answered. Qed.

Lemma wp_scheduleBackup addr cc changed cb (e : BEnv W) :
  b_heap e !! addr = Some cb → IsScheduled cb = true →
  wp (scheduleBackup addr cc changed) (λ _ e', grows e e' ∧ (bquiet e e' ∧ refused cb e e' ∨ started cb addr cc e e')) e.
Proof.
  intros Hcb Hsch. unfold scheduleBackup, ValidateScheduleFormat. apply wp_bind. eapply wp_bget; [done|].
  destruct (ParseStandard _) eqn:Hp.
  - eapply wp_mono; [apply quiet_undoSchedule|]. cbn. intros _ e' Hq. apply quiet_unstarted; [done|]. by eapply ref_schedule.
  - apply wp_bind. eapply wp_mono; [apply wp_AddOrUpdate|]. intros [skipped err] e1 (Hs & Ht & Hh & Hg).
    assert (started cb addr cc e e1) as Hst by by eapply started_cron.
    assert (∀ e2, bquiet e1 e2 → grows e e2 ∧ (bquiet e e2 ∧ refused cb e e2 ∨ started cb addr cc e e2)) as Hend.
    { intros e2 Hq. split; [etrans; [exact Hg|apply Hq]|]. right. by eapply started_quiet. }
    assert (∀ e0, bquiet e1 e0 → wp (setFinalizer addr true ≫= λ _, mret Reconciled)
      (λ _ e', grows e e' ∧ (bquiet e e' ∧ refused cb e e' ∨ started cb addr cc e e')) e0) as Hfin.
    { intros e0 H0. apply wp_bind. eapply wp_mono; [apply quiet_setFinalizer|]. cbn. intros _ e2 H2. wp_steps.
      apply Hend. by etrans. }
    destruct err as [err|]; [apply wp_bind, wp_bcall; intros; by apply Hfin, quiet_answered|].
    destruct skipped; [wp_steps; by apply Hend|by apply Hfin].
Qed.

Lemma wp_backupData addr cc cb (e : BEnv W) :
  b_heap e !! addr = Some cb → IsScheduled cb = false →
  wp (backupData addr cc) (λ _ e', grows e e' ∧ (bquiet e e' ∧ IsScheduled cb = false ∨ started cb addr cc e e')) e.
Proof.
  intros Hcb Hsch. unfold backupData, listPods. apply wp_bind. eapply wp_bget; [done|]. apply wp_bind, wp_bcall.
  intros [pods|err] w; [|wp_steps; apply quiet_unstarted; [by apply quiet_answered|done]].
  set (e0 := answered _ _ _ _). assert (bquiet e e0) as H0 by by apply quiet_answered.
  assert (bsince e e0 (BEv _ (BListPods (cb_Namespace cb) (LabelsForCassandraDC cc (cbs_Datacenter (cb_Spec cb)))) (Ok pods))) as Hl
    by apply bsince_answered.
  clearbody e0. apply wp_bind. eapply wp_mono; [apply quiet_updateStatus|]. cbn. intros _ e1 H1.
  assert (bquiet e e1) as H01 by by etrans.
  case_bool_decide.
  - apply wp_bind, wp_bcall. intros [] w1. wp_steps. apply quiet_unstarted; [by apply quiet_answered|done].
  - apply wp_bind, wp_bcall. intros i w1. apply wp_bind, wp_lift. intros pod [_ Hpod]%index_spec. apply list_elem_of_lookup_2 in Hpod.
    apply wp_bind. eapply wp_mono; [apply quiet_bset|]. cbn. intros _ e2 H2. apply wp_bind, wp_lift. intros client Hc. wp_steps.
    assert (bquiet e1 e2) as H12 by (etrans; [|exact H2]; by apply quiet_answered).
    assert (bquiet e e2) as Hq by by etrans.
    split; [etrans; [apply Hq|by apply blogs_same]|]. right. eapply started_once; eauto; [apply Hq| |cbn; f_equal; apply Hq].
    eapply bsince_r; [|exact Hl]. etrans; [apply H1|]. etrans; [apply H12|by apply blogs_same].
Qed.

Lemma cleared_same cb cb' cc e e' : same_backup cb cb' → cleared cb cc e e' → cleared cb' cc e e'.
Proof.
  destruct cb as [m s st], cb' as [m' s' st']. intros (Hs & Hn & Hns) [H1 H2 H3 H4].
  unfold cb_Name, cb_Namespace in *. cbn in *. subst s'. split; unfold cb_Namespace; cbn; rewrite <- ?Hns; assumption.
Qed.
Lemma started_same cb cb' addr cc e e' : same_backup cb cb' → started cb addr cc e e' → started cb' addr cc e e'.
Proof.
  destruct cb as [m s st], cb' as [m' s' st']. intros (Hs & Hn & Hns) Hst.
  unfold cb_Name, cb_Namespace in *. cbn in *. subst s'. destruct Hst as [pods pod client H1 H2 H3|H1 H2 H3];
    unfold cb_Name, cb_Namespace in *; cbn in *.
  - eapply started_once; eauto. unfold cb_Namespace. cbn. by rewrite <- Hns.
  - eapply started_cron; eauto. unfold cb_Name. cbn. by rewrite <- Hn.
Qed.

(** The run of backup [cb] begins, after the checks. *)
Definition begins (cb : CassandraBackup) (addr : nat) (e e' : BEnv W) : Prop :=
  (IsScheduled cb = false → Ran cb = false) ∧ ∃ cc, cleared cb cc e e' ∧ started cb addr cc e e'.

(** The backup is not one of the scheduler, or something stops it. *)
Definition unplanned (cb : CassandraBackup) (e e' : BEnv W) : Prop := IsScheduled cb = false ∨ refused cb e e'.

Lemma wp_startBackup addr changed cb (e : BEnv W) :
  b_heap e !! addr = Some cb →
  wp (startBackup addr changed) (λ _ e', grows e e' ∧ (bquiet e e' ∧ unplanned cb e e' ∨ ∃ cc,
    bsince e e' (BEv _ (BGetCC (cb_Namespace cb) (cbs_CassandraCluster (cb_Spec cb))) (Ok cc)) ∧
    started cb addr cc e e')) e.
Proof.
  intros Hcb. unfold startBackup, LookupCassandraCluster. apply wp_bind. eapply wp_bget; [done|]. apply wp_bind, wp_bcall.
  intros [cc|err] w.
  - set (e0 := answered _ _ _ _). assert (bquiet e e0) as H0 by by apply quiet_answered.
    assert (bsince e e0 (BEv _ (BGetCC (cb_Namespace cb) (cbs_CassandraCluster (cb_Spec cb))) (Ok cc))) as Hl by apply bsince_answered.
    assert (b_heap e0 !! addr = Some cb) as Hcb0 by done. clearbody e0.
    assert (∀ e' (R : Prop), (R → unplanned cb e e') → grows e0 e' ∧ (bquiet e0 e' ∧ R ∨ started cb addr cc e0 e') →
      grows e e' ∧ (bquiet e e' ∧ unplanned cb e e' ∨ ∃ cc,
      bsince e e' (BEv _ (BGetCC (cb_Namespace cb) (cbs_CassandraCluster (cb_Spec cb))) (Ok cc)) ∧ started cb addr cc e e')) as Hend.
    { intros e' R HR [Hg [[Hq Hr]|Hs]]; (split; [etrans; [apply H0|exact Hg]|]); [left; split; [by etrans|by apply HR]|right].
      exists cc. split; [by eapply bsince_r|by eapply started_quiet]. }
    destruct (IsScheduled cb) eqn:Hsch.
    + eapply wp_mono; [by apply wp_scheduleBackup|]. cbn. intros _ e' H. eapply Hend; [|exact H].
      intros Hr. right. by eapply refused_quiet.
    + apply wp_bind. eapply wp_mono; [by apply wp_backupData|]. cbn. intros err e' H. wp_steps. eapply Hend; [|exact H]. by left.
  - assert (∀ e1, bquiet (answered (BGetCC (cb_Namespace cb) (cbs_CassandraCluster (cb_Spec cb))) (Err err) w e) e1 →
      unplanned cb e e1) as Hr.
    { intros e1 Hq. right. eapply ref_cluster, bsince_r; [apply Hq|apply bsince_answered]. }
    wp_step; [apply wp_bind, wp_bcall; intros|]; wp_steps; apply quiet_unstarted;
      try (by repeat apply quiet_answered); apply Hr; [by apply quiet_answered|done].
Qed.

(** Why a run of reconcileBackup starts nothing: the backup is not one of the scheduler, it
    is in the scheduler already and nothing changed, or something stops it. *)
Definition idle (cb : CassandraBackup) (changed : bool) (e e' : BEnv W) : Prop :=
  unplanned cb e e' ∨ changed = false ∧ is_Some (b_entries e !! cb_Name cb).

Lemma wp_reconcileBackup addr changed cb0 (e : BEnv W) :
  b_heap e !! addr = Some cb0 →
  wp (reconcileBackup addr changed)
     (λ _ e', grows e e' ∧ (bquiet e e' ∧ idle cb0 changed e e' ∨ begins cb0 addr e e')) e.
Proof.
  intros Hcb0. unfold reconcileBackup, Contains. apply wp_bind. eapply wp_bget; [done|]. apply wp_bind, wp_bind, wp_gets, wp_ret.
  destruct (negb _ && _) eqn:Hran.
  { wp_steps. apply quiet_unstarted; [done|]. left. left. by apply andb_true_iff in Hran as [?%negb_true_iff _]. }
  wp_step.
  { wp_steps. apply quiet_unstarted; [done|]. right. rewrite !andb_true_iff, negb_true_iff, bool_decide_eq_true in E.
    split; apply E. }
  clear E.
  apply wp_bind. eapply wp_bset; [done|]. set (e0 := e <| b_heap ::= _ |>).
  set (cb := cb0 <| cb_Status := BackRestStatus_zero |>).
  assert (b_heap e0 !! addr = Some cb) as Hcb by (unfold e0; cbn; by rewrite list_lookup_alter_eq, Hcb0).
  assert (bquiet e e0) as H0 by apply quiet_alter. clearbody e0. apply wp_bind. eapply wp_bget; [done|].
  assert (∀ e1 e2 e3 (P : Prop), bquiet e0 e1 → refused cb e1 e2 → bquiet e1 e2 → bquiet e2 e3 →
    grows e e3 ∧ (bquiet e e3 ∧ idle cb0 changed e e3 ∨ P)) as Hstop.
  { intros e1 e2 e3 P H01 Hr H12 H23. apply quiet_unstarted; [do 3 (etrans; [eassumption|]); done|].
    left. right. apply (refused_same cb); [done|]. eapply refused_quiet; [by etrans|exact Hr|done]. }
  apply wp_bind. eapply wp_mono; [apply wp_existing|]. cbv beta. intros [[|]|err] e1 (H1 & Hsnap & Hno).
  { apply wp_bind, wp_bcall. intros. wp_steps. eapply (Hstop e0 e1); [done|by apply Hno|apply H1|by apply quiet_answered]. }
  2:{ wp_steps. eapply (Hstop e0 e1); [done|by apply Hno|apply H1|done]. }
  clear Hno. apply wp_bind. eapply wp_mono; [apply wp_checkSecret|]. cbv beta. intros [stop|] e2 (H2 & Hsec & Hno).
  { wp_steps. eapply (Hstop e1 e2); [apply H1|by apply Hno|apply H2|done]. }
  clear Hno. apply wp_bind. eapply wp_mono; [apply wp_checkDuration|]. cbv beta. intros [stop|] e3 (H3 & Hdur & Hno).
  { wp_steps. eapply (Hstop e2 e3); [etrans; [apply H1|apply H2]|by apply Hno|apply H3|done]. }
  clear Hno Hstop.
  assert (bquiet e e3) as H03 by (etrans; [exact H0|]; etrans; [apply H1|]; etrans; [apply H2|apply H3]).
  assert (b_heap e3 !! addr = Some cb) as Hcb3 by (destruct H3 as [_ ->], H2 as [_ ->], H1 as [_ ->]; done).
  eapply wp_mono; [by apply wp_startBackup|]. cbn. intros _ e' [Hg [[Hq Hun]|(cc & Hcc & Hst)]].
  { apply quiet_unstarted; [by etrans|]. left. destruct Hun as [?|Hr]; [by left|right].
    apply (refused_same cb); [done|]. eapply refused_quiet; [exact H03|exact Hr|done]. }
  split; [etrans; [apply H03|exact Hg]|]. right. split.
  { intros Hs. rewrite Hs in Hran. exact Hran. }
  exists cc. split; [|eapply (started_same cb); [done|]; eapply started_quiet; [exact H03|exact Hst|done]].
  apply (cleared_same cb); [done|]. split.
  - destruct (Hsnap eq_refl) as (items & Hi & Hf). exists items. split; [|done].
    eapply bsince_l; [apply H0|]. eapply bsince_r; [|exact Hi]. etrans; [apply H2|]. etrans; [apply H3|exact Hg].
  - destruct (Hsec eq_refl) as [?|(secret & Hi & Hv)]; [by left|right]. exists secret. split; [|done].
    eapply bsince_l; [etrans; [apply H0|apply H1]|]. eapply bsince_r; [|exact Hi]. etrans; [apply H3|exact Hg].
  - by apply Hdur.
  - eapply bsince_l; [apply H03|exact Hcc].
Qed.

(** A scheduled backup that is being deleted. *)
Definition leaving (cb : CassandraBackup) : bool :=
  bool_decide (m_DeletionTimestamp (cb_Meta cb) ≠ None) && IsScheduled cb.

(** The specification is not the one that was applied last. *)
Definition changed (cb : CassandraBackup) : bool :=
  negb (ComputeLastAppliedAnnotation cb == default "" (m_Annotations (cb_Meta cb) !! annotationLastApplied)).

(** What one reconcile run does to the scheduler and the goroutines. *)
Inductive reconciled (ns name : string) (e e' : BEnv W) : Prop :=
| reconciled_unread err :
    bsince e e' (BEv _ (BGetBackup ns name) (Err err)) → scheduler e' = scheduler e → b_tasks e' = b_tasks e →
    reconciled ns name e e'
| reconciled_idle cb :
    bsince e e' (BEv _ (BGetBackup ns name) (Ok cb)) → leaving cb = false → idle cb (changed cb) e e' →
    scheduler e' = scheduler e → b_tasks e' = b_tasks e → reconciled ns name e e'
| reconciled_removed cb cb' :
    bsince e e' (BEv _ (BGetBackup ns name) (Ok cb)) → leaving cb = true →
    scheduler e' = remove_job (cb_Name cb) (scheduler e) → b_tasks e' = b_tasks e →
    (∃ r, bsince e e' (BEv _ (BUpdateBackup cb') r)) → m_Finalizers (cb_Meta cb') = [] → reconciled ns name e e'
| reconciled_begun cb :
    bsince e e' (BEv _ (BGetBackup ns name) (Ok cb)) → leaving cb = false →
    begins cb (length (b_heap e)) e e' → reconciled ns name e e'.

Lemma begins_quiet cb addr e0 e1 e2 e3 :
  bquiet e0 e1 → begins cb addr e1 e2 → grows e1 e2 → bquiet e2 e3 → begins cb addr e0 e3.
Proof.
  intros H01 [Hran (cc & [P1 P2 P3 P4] & Hst)] Hg H23.
  assert (∀ ev, bsince e1 e2 ev → bsince e0 e3 ev) as Hl
    by (intros; eapply bsince_l, bsince_r; [apply H01|apply H23|done]).
  split; [done|]. exists cc. split; [|by eapply started_quiet].
  split; [destruct P1 as (x & ? & ?)|destruct P2 as [?|(x & ? & ?)]|..]; eauto 6.
Qed.
Lemma begins_same cb cb' addr e e' :
  same_backup cb cb' → cb_Status cb = cb_Status cb' → begins cb addr e e' → begins cb' addr e e'.
Proof.
  intros Hsame Hst [Hran (cc & Hp & Hs)]. split.
  - unfold IsScheduled, Ran in *. destruct Hsame as [<- _]. by rewrite <- Hst.
  - exists cc. split; [by eapply cleared_same|by eapply started_same].
Qed.

Lemma wp_updateBackup addr cb (e : BEnv W) :
  b_heap e !! addr = Some cb →
  wp (updateBackup addr) (λ _ e', bquiet e e' ∧ ∃ r, bsince e e' (BEv _ (BUpdateBackup cb) r)) e.
Proof.
  intros Hcb. apply wp_and; [apply quiet_updateBackup|]. unfold updateBackup. apply wp_bind. eapply wp_bget; [done|].
  apply wp_bind, wp_bcall. intros r w. destruct r as [cb'|err].
  - apply wp_bind. eapply wp_mono; [apply quiet_bset|]. cbn. intros _ e' Hq. wp_steps. exists (Ok cb').
    eapply bsince_r; [apply Hq|apply bsince_answered].
  - wp_steps. eexists. apply bsince_answered.
Qed.

Lemma wp_unfinalize addr cb (e : BEnv W) :
  b_heap e !! addr = Some cb →
  wp (setFinalizer addr false) (λ _ e', bquiet e e' ∧ ∃ cb', b_heap e' !! addr = Some cb' ∧ m_Finalizers (cb_Meta cb') = []) e.
Proof.
  intros Hcb. apply wp_and; [apply quiet_setFinalizer|]. unfold setFinalizer. apply wp_bind. eapply wp_bget; [done|].
  wp_step; [eapply wp_bset; [done|]; eexists; cbn; by rewrite list_lookup_alter_eq, Hcb|].
  apply wp_ret. exists cb. split; [done|]. apply negb_false_iff, bool_decide_eq_true, bool_decide_eq_false in E.
  apply length_zero_iff_nil. lia.
Qed.

Lemma wp_backup_Reconcile ns name (e : BEnv W) : wp (Reconcile ns name) (λ _ e', grows e e' ∧ reconciled ns name e e') e.
Proof.
  unfold Reconcile. apply wp_bind, wp_bcall. intros [cb|err] w.
  2:{ wp_step; wp_steps; (split; [by apply blogs_answered|]); (eapply reconciled_unread; [apply bsince_answered|done..]). }
  unfold alloc. apply wp_bind, wp_bind, wp_gets, wp_bind, wp_modify, wp_ret. cbn [b_heap].
  set (addr := length _). set (e1 := upd b_heap _ _).
  assert (bquiet e e1) as H1.
  { split; [done|done|unfold e1; cbn; rewrite length_app; lia|]. exists [BEv _ (BGetBackup ns name) (Ok cb)]. split; [done|by repeat constructor]. }
  assert (bsince e e1 (BEv _ (BGetBackup ns name) (Ok cb))) as Hl by (eexists; split; [done|by left]).
  assert (b_heap e1 !! addr = Some cb) as Hcb by (unfold e1, addr; cbn; by apply list_lookup_middle).
  change addr with (length (b_heap e)) in *. clearbody e1. clear addr. fold (leaving cb).
  destruct (leaving cb) eqn:Hlv.
  - apply wp_bind. eapply wp_mono; [apply wp_Remove|]. cbv beta. intros _ e2 (Hs & Ht & Hh & Hg).
    apply wp_bind, wp_bcall. intros [] w2. apply wp_bind. eapply wp_mono; [apply (wp_unfinalize _ cb); cbn; by rewrite Hh|].
    cbv beta. intros _ e3 (H23 & cb' & Hcb' & Hfin). assert (bquiet e2 e3) as H23' by (etrans; [|exact H23]; by apply quiet_answered).
    apply wp_bind. eapply wp_mono; [by apply wp_updateBackup|]. cbv beta. intros err e4 (H34 & r & Hu). wp_steps.
    assert (grows e e4) as Hgr by (etrans; [apply H1|]; etrans; [exact Hg|]; etrans; [apply H23'|apply H34]).
    split; [done|]. apply (reconciled_removed _ _ _ _ cb cb'); [| done| | | |done].
    + eapply bsince_r; [|exact Hl]. etrans; [exact Hg|]. etrans; [apply H23'|apply H34].
    + rewrite (qu_scheduler _ _ H34), (qu_scheduler _ _ H23'), Hs. f_equal. apply H1.
    + rewrite (qu_tasks _ _ H34), (qu_tasks _ _ H23'), Ht. apply H1.
    + exists r. eapply bsince_l; [|exact Hu]. etrans; [apply H1|]. etrans; [exact Hg|apply H23'].
  - assert (∀ e2 e', bquiet e1 e2 → b_entries e2 = b_entries e →
      grows e2 e' ∧ (bquiet e2 e' ∧ idle cb (changed cb) e2 e' ∨ begins cb (length (b_heap e)) e2 e') →
      grows e e' ∧ reconciled ns name e e') as Hend.
    { intros e2 e' H12 Hent [Hg Hor]. assert (bquiet e e2) as H02 by (by etrans).
      assert (bsince e e' (BEv _ (BGetBackup ns name) (Ok cb))) as Hl' by (eapply bsince_r; [|exact Hl]; etrans; [apply H12|exact Hg]).
      split; [etrans; [apply H02|exact Hg]|]. destruct Hor as [[Hq Hidle]|Hb].
      - apply (reconciled_idle _ _ _ _ cb); [done|done| |by rewrite (qu_scheduler _ _ Hq), (qu_scheduler _ _ H02)|
          by rewrite (qu_tasks _ _ Hq), (qu_tasks _ _ H02)].
        destruct Hidle as [[Hs|Hr]|[Hc Hin]]; [left; by left|left; right; by eapply refused_quiet|right]. by rewrite <- Hent.
      - eapply reconciled_begun; [done|done|eapply begins_quiet; [|exact Hb|done|done]; done]. }
    assert (b_entries e1 = b_entries e) as Hent by (pose proof (qu_scheduler _ _ H1) as [= H _]; exact H).
    unfold changed in Hend. destruct (ComputeLastAppliedAnnotation cb == _) eqn:Hc; cbn [negb] in Hend.
    { eapply wp_mono; [by apply wp_reconcileBackup|]. cbv beta. intros _ e' H. by eapply Hend. }
    apply wp_bind. eapply wp_bset; [done|]. apply wp_bind. eapply wp_mono.
    { eapply wp_reconcileBackup. cbn. by rewrite list_lookup_alter_eq, Hcb. }
    cbv beta. intros result e3 [Hg Hor]. apply wp_bind. eapply wp_mono; [apply quiet_updateBackup|]. cbn. intros _ e4 H34. wp_steps.
    eapply Hend; [apply quiet_alter|done|]. split; [etrans; [exact Hg|apply H34]|].
    destruct Hor as [[Hq Hidle]|Hb]; [left|right].
    + split; [by etrans|]. left. destruct Hidle as [[Hs|Hr]|[? _]]; [by left|right|done].
      eapply refused_quiet; [reflexivity| |exact H34]. eapply refused_same; [|exact Hr]. done.
    + eapply begins_same; [| |eapply begins_quiet; [done|exact Hb|done|done]]; done.
Qed.

(** C15: a reconcile run of the backup controller starts nothing without its checks.
    Unless it leaves the goroutines and the scheduler alone, or takes the job of a
    deleted backup away, the run read a backup, unscheduled and not run yet or
    scheduled, for which no finished backup has the same snapshot, the secret of
    its storage is complete, the duration parses and the cluster exists; it then
    starts exactly one goroutine, with the side car of a listed pod of the data
    centre, or gives exactly this backup to the scheduler. *)
Theorem backup_started_checked ns name r (e e' : BEnv W) (Hrun : Reconcile ns name e = Ret (r, e')) :
  (scheduler e' = scheduler e ∧ b_tasks e' = b_tasks e) ∨
  ∃ cb, bsince e e' (BEv _ (BGetBackup ns name) (Ok cb)) ∧
    ((leaving cb = true ∧ scheduler e' = remove_job (cb_Name cb) (scheduler e) ∧ b_tasks e' = b_tasks e) ∨
     (leaving cb = false ∧ (IsScheduled cb = false → Ran cb = false) ∧
      ∃ cc, cleared cb cc e e' ∧ started cb (length (b_heap e)) cc e e')).
Proof.
  destruct (wp_run _ _ _ _ _ (wp_backup_Reconcile ns name e) Hrun) as [_ [er Hg Hs Ht|cb Hg Hl Hi Hs Ht|cb cb' Hg Hl Hs Ht _ _|cb Hg Hl [Hr Hb]]].
  - by left.
  - by left.
  - right. exists cb. split; [done|]. by left.
  - right. exists cb. split; [done|]. by right.
Qed.

(** ** The scheduler over a whole run *)
Section system.
Context {Laws : CronLaws CronL}.

(** The abstract steps.  Which one is taken is decided by what the run read: the job of a
    deleted backup goes, that of a checked one comes (or stays, if the entry has the same
    schedule), and the map stays only when the backup was not read, is not scheduled, is
    planned already without a change, or is refused. *)
Inductive plan_step (ns name : string) (e e' : BEnv W) (s : Schedule) : Schedule → Prop :=
| plan_unread err : bsince e e' (BEv _ (BGetBackup ns name) (Err err)) → plan_step ns name e e' s s
| plan_drop cb :
    bsince e e' (BEv _ (BGetBackup ns name) (Ok cb)) → leaving cb = true → plan_step ns name e e' s (delete (cb_Name cb) s)
| plan_idle cb :
    bsince e e' (BEv _ (BGetBackup ns name) (Ok cb)) → leaving cb = false →
    IsScheduled cb = false ∨ changed cb = false ∧ is_Some (s !! cb_Name cb) ∨ refused cb e e' → plan_step ns name e e' s s
| plan_set cb cc :
    bsince e e' (BEv _ (BGetBackup ns name) (Ok cb)) → IsScheduled cb = true → leaving cb = false → cleared cb cc e e' →
    plan_step ns name e e' s (plan (cb_Name cb) (cbs_Schedule (cb_Spec cb)) (length (b_heap e), cc) s).

Lemma reconciled_plan ns name e e' s :
  reconciled ns name e e' → tracks (scheduler e) s →
  ∃ s', plan_step ns name e e' s s' ∧ tracks (scheduler e') s'.
Proof.
  intros [er Hg Hs _|cb Hg Hl Hi Hs _|cb cb' Hg Hl Hs _ _ _|cb Hg Hl [_ (cc & Hp & Hst)]] Ht.
  - exists s. rewrite Hs. split; [by eapply plan_unread|done].
  - exists s. rewrite Hs. split; [|done]. eapply plan_idle; [done|done|].
    destruct Hi as [[?|?]|[Hc [ent Hent]]]; [by left|by right; right|right; left]. split; [done|].
    destruct (tr_live _ _ Ht (cb_Name cb) ent Hent) as [job Hjob]. rewrite (tr_view _ _ Ht). cbn. rewrite Hent. cbn.
    cbn in Hjob. rewrite Hjob. by eexists.
  - exists (delete (cb_Name cb) s). rewrite Hs. split; [by econstructor|by apply tracks_remove].
  - destruct Hst as [pods pod client Hns Hs|Hsch Hparse Hs _]; rewrite Hs.
    + exists s. split; [|done]. eapply plan_idle; [done|done|by left].
    + eexists. split; [by eapply plan_set|by apply tracks_add].
Qed.

(** C13: the entries of the scheduler and the jobs of the cron client implement a map
    from the names of backups to a schedule and a job.  What a reconcile run does to that
    map follows from the backup it read: a deleted scheduled backup loses its entry; a
    scheduled one that passed all checks gets its entry, unless the entry has this schedule
    already, then the job stays as it was; otherwise, and only if the backup could not be
    read, is not scheduled, is in the map with nothing changed, or is refused by a check,
    the map stays.  No other name is touched. *)
Theorem scheduler_refines ns name r (e e' : BEnv W) (s : Schedule)
    (Hrun : Reconcile ns name e = Ret (r, e')) (Htracks : tracks (scheduler e) s) :
  ∃ s', plan_step ns name e e' s s' ∧ tracks (scheduler e') s'.
Proof. eapply reconciled_plan; [|done]. apply (wp_run _ _ _ _ _ (wp_backup_Reconcile ns name e) Hrun). Qed.

(** The controller, its goroutines and its jobs, in any order. *)
Inductive bstep : BEnv W → BEnv W → Prop :=
| step_reconcile ns name r e e' : Reconcile ns name e = Ret (r, e') → bstep e e'
| step_goroutine client addr ticks r e e' :
    RunBackup client addr ∈ b_tasks e → backup ticks client addr e = Ret (r, e') → bstep e e'
| step_job id job r e e' :
    cron_Entries (b_cron e) !! id = Some job → runJob job e = Ret (r, e') → bstep e e'.

(** The heap only grows. *)
Definition heap_le (e e' : BEnv W) : Prop := length (b_heap e) ≤ length (b_heap e').
#[local] Instance heap_le_preorder : PreOrder heap_le.
Proof. unfold heap_le. split; [intros e; lia|intros ???; lia]. Qed.
Lemma quiet_heap_le {A} (m : GoM (BEnv W) A) : keeps bquiet m → keeps heap_le m.
Proof. intros Hm e. eapply wp_mono; [apply Hm|]. cbn. intros _ e' []. done. Qed.

Lemma quiet_backup ticks client addr : keeps bquiet (backup ticks client addr).
Proof.
  unfold backup, PerformBackup, PerformBackupOperation, PerformOperation. keeps_steps; auto using quiet_pollBackup.
Qed.
Lemma heap_le_backupData addr cc : keeps heap_le (backupData addr cc).
Proof.
  unfold backupData, listPods. keeps_steps; try by apply quiet_heap_le; auto using quiet_updateStatus with keeps.
  apply keeps_modify. intros e. unfold heap_le. done.
Qed.
Lemma heap_le_AddOrUpdate cb job : keeps heap_le (AddOrUpdate cb job).
Proof.
  intros e. eapply wp_mono; [apply wp_AddOrUpdate|]. cbn. intros _ e' (_ & _ & Hh & _). unfold heap_le. by rewrite Hh.
Qed.
Lemma heap_le_scheduleBackup addr cc changed : keeps heap_le (scheduleBackup addr cc changed).
Proof.
  unfold scheduleBackup. keeps_steps; auto using heap_le_AddOrUpdate;
    by apply quiet_heap_le; auto using quiet_undoSchedule, quiet_setFinalizer with keeps.
Qed.
Lemma heap_le_reconcileBackup addr changed : keeps heap_le (reconcileBackup addr changed).
Proof.
  unfold reconcileBackup, startBackup, LookupCassandraCluster, Contains, existingNotScheduledSnapshot, checkSecret, checkDuration.
  keeps_steps; auto using heap_le_scheduleBackup, heap_le_backupData; by apply quiet_heap_le; auto with keeps.
Qed.
Lemma heap_le_Remove name : keeps heap_le (Remove (W:=W) name).
Proof. unfold Remove. keeps_steps. apply keeps_modify. intros ?. unfold heap_le. done. Qed.

(** The bookkeeping of the scheduler, and jobs with an object to back up. *)
Record consistent (e : BEnv W) : Prop := {
  co_tracks : ∃ s, tracks (scheduler e) s;
  co_jobs id job : cron_Entries (b_cron e) !! id = Some job → is_Some (b_heap e !! job.1) }.

Lemma consistent_le e e' : consistent e → scheduler e' = scheduler e → heap_le e e' → consistent e'.
Proof.
  intros [H1 H2] Hs Hh. split; [by rewrite Hs|]. intros id job Hj. injection Hs as _ Hc. rewrite Hc in Hj.
  apply H2, lookup_lt_is_Some in Hj. apply lookup_lt_is_Some. unfold heap_le in Hh. lia.
Qed.

(** The object of a run has its own cell. *)
Lemma Reconcile_alloc ns name (e : BEnv W) :
  wp (Reconcile ns name) (λ _ e', (scheduler e' = scheduler e ∧ heap_le e e') ∨ length (b_heap e) < length (b_heap e')) e.
Proof.
  unfold Reconcile. apply wp_bind, wp_bcall. intros [cb|err] w; [|wp_step; wp_steps; left; by split; [|unfold heap_le]].
  unfold alloc. apply wp_bind, wp_bind, wp_gets, wp_bind, wp_modify, wp_ret.
  apply wp_keeps with (R := heap_le).
  - keeps_steps; auto using heap_le_reconcileBackup, heap_le_Remove;
      by apply quiet_heap_le; auto using quiet_setFinalizer, quiet_updateBackup with keeps.
  - intros _ e'. unfold heap_le. cbn. rewrite length_app. cbn. intros. right. lia.
Qed.

Definition scheduler_eq (e e' : BEnv W) : Prop := scheduler e' = scheduler e.
#[local] Instance scheduler_eq_preorder : PreOrder scheduler_eq.
Proof. unfold scheduler_eq. split; [done|]. intros ???. congruence. Qed.
Lemma scheduler_backupData addr cc : keeps scheduler_eq (backupData addr cc).
Proof.
  assert (∀ A (m : GoM (BEnv W) A), keeps bquiet m → keeps scheduler_eq m) as Hq
    by (intros A m Hm e; eapply wp_mono; [apply Hm|]; by intros _ e' []).
  unfold backupData, listPods. keeps_steps; try by apply Hq; auto using quiet_updateStatus with keeps.
  by apply keeps_modify.
Qed.

Lemma remove_job_jobs name (st : gmap string entryType * Cron) id job :
  cron_Entries (remove_job name st).2 !! id = Some job → cron_Entries st.2 !! id = Some job.
Proof. unfold remove_job. case_match; cbn; [|done]. rewrite Remove_entries. by intros [_ ?]%lookup_delete_Some. Qed.
Lemma add_job_jobs name schedule job (st : gmap string entryType * Cron) id j :
  cron_Entries (add_job name schedule job st).2 !! id = Some j → cron_Entries st.2 !! id = Some j ∨ j = job.
Proof.
  unfold add_job. case_match; [by left|]. destruct (cron_AddFunc _ schedule job) as [[i|err] cron] eqn:E; cbn.
  - apply AddFunc_Ok in E as [_ ->]. intros [[_ <-]|[_ ?%remove_job_jobs]]%lookup_insert_Some; auto.
  - apply AddFunc_Err in E as ->. intros ?%remove_job_jobs. by left.
Qed.

Lemma consistent_step e e' : bstep e e' → consistent e → consistent e'.
Proof.
  intros [ns name r e0 e1 Hrun|client addr ticks r e0 e1 _ Hrun|id job r e0 e1 _ Hrun] Hc.
  - pose proof (wp_run _ _ _ _ _ (Reconcile_alloc ns name e0) Hrun) as [[Hs Hle]|Hlt]; [by eapply consistent_le|].
    pose proof (wp_run _ _ _ _ _ (wp_backup_Reconcile ns name e0) Hrun) as [_ Hr].
    assert (∀ id job, cron_Entries (scheduler e1).2 !! id = Some job →
      cron_Entries (scheduler e0).2 !! id = Some job ∨ job.1 = length (b_heap e0)) as Hjobs.
    { intros id job. destruct Hr as [? _ -> _|? _ _ _ -> _|? ? _ _ -> _ _ _|? _ _ [_ (? & _ & [? ? ? _ ->|_ _ -> _])]]; auto.
      - intros ?%remove_job_jobs. by left.
      - intros [?| ->]%add_job_jobs; auto. }
    destruct Hc as [[s Ht] Hj]. split.
    + destruct (reconciled_plan _ _ _ _ _ Hr Ht) as (s' & _ & Ht'). by exists s'.
    + intros id job Hid. apply lookup_lt_is_Some. destruct (Hjobs _ _ Hid) as [H0| ->]; [|done].
      apply Hj, lookup_lt_is_Some in H0. lia.
  - pose proof (wp_run _ _ _ _ _ (quiet_backup ticks client addr e0) Hrun) as [Hs _ Hle _]. by eapply consistent_le.
  - pose proof (wp_run _ _ _ _ _ (heap_le_backupData job.1 job.2 e0) Hrun) as Hle.
    pose proof (wp_run _ _ _ _ _ (scheduler_backupData job.1 job.2 e0) Hrun) as Hs. by eapply consistent_le.
Qed.

(** C22: from the scheduler the operator starts with, and whatever the order of
    reconcile runs, goroutines and cron jobs, the cron client runs no job the scheduler
    does not know: every job belongs to the entry of exactly one backup, every entry has
    its job, and the object a job backs up is there. *)
Theorem scheduler_consistent (e0 e : BEnv W)
    (Hinit : scheduler e0 = NewScheduler) (Hsteps : rtc bstep e0 e) :
  (∀ id job, cron_Entries (b_cron e) !! id = Some job →
     (∃ name ent, b_entries e !! name = Some ent ∧ ent_ID ent = id ∧
        ∀ name' ent', b_entries e !! name' = Some ent' → ent_ID ent' = id → name' = name) ∧
     safe (bget job.1) e) ∧
  (∀ name ent, b_entries e !! name = Some ent → is_Some (cron_Entries (b_cron e) !! ent_ID ent)).
Proof.
  assert (consistent e0) as H0.
  { injection Hinit as He Hc. split; [|by rewrite Hc, New_entries]. exists ∅. unfold scheduler. rewrite He, Hc.
    split; cbn; [done|done|done|by rewrite New_entries]. }
  assert (consistent e) as [[s Ht] Hj].
  { clear Hinit. induction Hsteps as [|e1 e2 e3 H12 _ IH]; [done|]. by apply IH, (consistent_step e1). }
  split; [|apply (tr_live _ _ Ht)]. intros id job Hid. split.
  - destruct (tr_known _ _ Ht _ _ Hid) as (name & ent & Hn & Hent). exists name, ent. split_and!; [done|done|].
    intros name' ent' Hn' <-. by apply (tr_inj _ _ Ht name' name ent' ent).
  - destruct (Hj _ _ Hid) as [cb Hcb]. unfold safe, bget, gets, lift, mbind, GoM_bind. by rewrite Hcb.
Qed.
End system.

(** ** The goroutine of a backup *)

(** Requests made while following an operation. *)
Definition following (ev : BEvent) : Prop :=
  match ev with BEv _ (BOperation _ _) _ | BEv _ BNow _ | BEv _ (BPatchBackup _ _) _ => True | _ => False end.

(** The last patch was accepted with the state that [reason] reports. *)
Definition reports (reason : string) (l : list BEvent) : Prop :=
  ∃ l0 old new cb c, l = l0 ++ [BEv _ (BPatchBackup old new) (Ok cb)] ∧
    match bs_Condition (cb_Status cb) with Some c => Some c | None => bs_Condition (cb_Status new) end = Some c ∧
    (reason, bc_Type c) ∈ [("BackupFailed", BackupFailed); ("BackupCompleted", BackupCompleted)].

Definition polled (p : Polling) (l : list BEvent) : Prop :=
  match p with
  | Blocked => ∃ l0 kind reason, l = l0 ++ [BEv _ (BRecord kind reason) tt] ∧ Forall following l0 ∧ reports reason l0
  | Broke | Ticking => Forall following l
  end.

Lemma polled_app p l1 l2 : Forall following l1 → polled p l2 → polled p (l1 ++ l2).
Proof.
  intros H1. destruct p; cbn; [by apply Forall_app_2| |by apply Forall_app_2].
  intros (l0 & kind & reason & -> & H0 & (l & old & new & cb & c & -> & Hc)). exists (l1 ++ l ++ [BEv _ (BPatchBackup old new) (Ok cb)]), kind, reason.
  split_and!; [by rewrite !(assoc_L (++))|by apply Forall_app_2|]. exists (l1 ++ l), old, new, cb, c. by rewrite (assoc_L (++)).
Qed.

Lemma wp_updateStatus addr st old (e : BEnv W) :
  b_heap e !! addr = Some old →
  wp (updateStatus addr st) (λ ok e', ∃ r, extends e e' [BEv _ (BPatchBackup old (old <| cb_Status := st |>)) r] ∧
    is_Some (b_heap e' !! addr) ∧ (ok = true → ∃ cb, r = Ok cb ∧ b_heap e' !! addr = Some cb)) e.
Proof.
  intros Hold. unfold updateStatus. apply wp_bind. eapply wp_bget; [done|]. apply wp_bind. eapply wp_bset; [done|].
  apply wp_bind. eapply wp_bget; [cbn; by rewrite list_lookup_alter_eq, Hold|]. apply wp_bind, wp_bcall. intros r w.
  destruct r as [cb|err].
  - apply wp_bind. eapply wp_bset; [cbn; by rewrite list_lookup_alter_eq, Hold|]. wp_steps. exists (Ok cb).
    split; [done|]. cbn. rewrite !list_lookup_alter_eq, Hold. split; by eexists.
  - wp_steps. exists (Err err). split; [done|]. cbn. rewrite list_lookup_alter_eq, Hold. split; [by eexists|done].
Qed.

Definition follows (e e' : BEnv W) : Prop := b_heap e' = b_heap e ∧ blogs following e e'.
#[local] Instance follows_preorder : PreOrder follows.
Proof.
  split; [intros e; split; [done|reflexivity]|]. intros e1 e2 e3 [H1 H2] [H3 H4]. split; [congruence|by etrans].
Qed.
Lemma follows_bcall {A} (r : BReq A) : (∀ a, following (BEv _ r a)) → keeps follows (bcall r).
Proof. intros Hr. apply keeps_bcall. intros e a w. split; [done|by apply blogs_answered]. Qed.
Lemma follows_BackupStatusByID c id : keeps follows (BackupStatusByID c id).
Proof. unfold BackupStatusByID, BackupOperationByID, OperationByID. keeps_steps; by apply follows_bcall. Qed.

(** From here on nothing is posted, and the goroutine stops following at the first
    final state, which it reports once. *)
Lemma wp_pollBackup ticks c addr id (e : BEnv W) :
  is_Some (b_heap e !! addr) →
  wp (pollBackup ticks c addr id) (λ p e', ∃ l, extends e e' l ∧ polled p l) e.
Proof.
  revert e. induction ticks as [|ticks IH]; intros e Haddr.
  { apply wp_ret. exists []. split; [unfold extends; by rewrite app_nil_r|by constructor]. }
  cbn [pollBackup]. apply wp_bind. eapply wp_mono; [apply follows_BackupStatusByID|]. cbv beta.
  intros [st [err|]] e1 [Hh (l1 & E1 & F1)]; [apply wp_ret; by exists l1|]. rewrite <- Hh in Haddr. destruct Haddr as [old Hold].
  apply wp_bind. eapply wp_mono; [by apply wp_updateStatus|]. cbv beta. intros ok e2 (r & E2 & Haddr2 & Hok).
  assert (∀ p e', (∃ l, extends e2 e' l ∧ polled p l) → ∃ l, extends e e' l ∧ polled p l) as Hmore.
  { intros p e' (l & E & F). eexists. split; [unfold extends in *; by rewrite E, E2, E1, <- !(assoc_L (++))|].
    apply polled_app; [done|]. apply polled_app; [by repeat constructor|done]. }
  destruct ok; cbn [negb]; [|eapply wp_mono; [by apply IH|]; cbv beta; intros; by apply Hmore].
  destruct (Hok eq_refl) as (cb & -> & Hcb). apply wp_bind. eapply wp_bget; [done|]. apply wp_bind, wp_lift. intros cond Hcond.
  assert (∀ kind reason w, (reason, bc_Type cond) ∈ [("BackupFailed", BackupFailed); ("BackupCompleted", BackupCompleted)] →
    ∃ l, extends e (answered (BRecord kind reason) tt w e2) l ∧ polled Blocked l) as Hend.
  { intros kind reason w Hin. exists ((l1 ++ [BEv _ (BPatchBackup old (old <| cb_Status := st |>)) (Ok cb)]) ++ [BEv _ (BRecord kind reason) tt]).
    split; [unfold extends in *; cbn; by rewrite E2, E1, <- !(assoc_L (++))|]. eexists _, kind, reason.
    split_and!; [done|apply Forall_app_2; [done|by repeat constructor]|]. exists l1, old, (old <| cb_Status := st |>), cb, cond.
    split_and!; [done| |done]. cbn. destruct (bs_Condition (cb_Status cb)); [by simplify_eq/=|]. by destruct (bs_Condition st); simplify_eq/=. }
  case_bool_decide as HF; [apply wp_bind, wp_bcall; intros [] w; wp_steps; apply Hend; rewrite HF; by left|].
  case_bool_decide as HC; [apply wp_bind, wp_bcall; intros [] w; wp_steps; apply Hend; rewrite HC; by right; left|].
  eapply wp_mono; [by apply IH|]. cbv beta. intros. by apply Hmore.
Qed.

Lemma wp_backup ticks base name addr cb (e : BEnv W) :
  b_heap e !! addr = Some cb →
  wp (backup ticks (Some (mkBackrestClient (Some base) name)) addr) (λ r e',
    ∃ answer l, extends e e' (BEv _ (BPost base (BackupOperation (backupRequest cb))) answer :: l) ∧
    match r with
    | None => l = [BEv _ (BRecord "Warning" "BackupNotInitiated") tt]
    | Some p => ∃ l', l = BEv _ (BRecord "Normal" "BackupInitiated") tt :: l' ∧ polled p l'
    end) e.
Proof.
  intros Hcb. unfold backup, PerformBackup, PerformBackupOperation, PerformOperation.
  apply wp_bind. eapply wp_bget; [done|]. apply wp_bind, wp_bind, wp_lift. intros c [= <-]. cbn [bk_podClient].
  apply wp_bind, wp_bind, wp_bcall. intros answer w. apply wp_ret. destruct (performOperation answer) as [response [err|]].
  - wp_steps. apply wp_bcall. intros [] w'. wp_steps. exists answer. eexists. split; [|done].
    unfold extends. cbn. by rewrite <- (assoc_L (++)).
  - apply wp_bind, wp_lift. intros op _. wp_steps. apply wp_bcall. intros [] w'. wp_steps. simplify_eq/=.
    eapply wp_mono; [apply wp_pollBackup; cbn; by rewrite Hcb|]. cbv beta. intros p e2 (l & E & F). wp_steps.
    exists answer. eexists. split; [|by exists l]. unfold extends in *. rewrite E. cbn. by rewrite <- !(assoc_L (++)).
Qed.

(** The goroutine of a backup posts the request of the backup once, to the side
    car it was given, and nothing afterwards but questions about that operation and
    updates of the status, until the state of an accepted update is final: then it
    records, once and as the last thing, [BackupFailed] or [BackupCompleted] as the
    state says. *)
Theorem backup_goroutine_reports ticks base name addr cb r (e e' : BEnv W)
    (Hcb : b_heap e !! addr = Some cb)
    (Hrun : backup ticks (Some (mkBackrestClient (Some base) name)) addr e = Ret (r, e')) :
  ∃ answer l, extends e e' (BEv _ (BPost base (BackupOperation (backupRequest cb))) answer :: l) ∧
    match r with
    | None => l = [BEv _ (BRecord "Warning" "BackupNotInitiated") tt]
    | Some p => ∃ l', l = BEv _ (BRecord "Normal" "BackupInitiated") tt :: l' ∧ polled p l'
    end.
Proof. exact (wp_run _ _ _ _ _ (wp_backup ticks base name addr cb e Hcb) Hrun). Qed.

(** ** An invalid schedule

    The annotation that should hold the previous configuration has just been
    replaced by the present one, so that undoing changes nothing. *)

(** When a changed backup has an invalid schedule, the object that is written
    back is the one that was read, invalid schedule included, and the run ends
    without an error: the annotation it is restored from is the one the run itself
    has just computed. *)
Theorem invalid_schedule_stays {Laws : BackupCodecLaws Codec} addr cb (e : BEnv W)
    (Hcb : b_heap e !! addr = Some cb)
    (Hann : m_Annotations (cb_Meta cb) !! annotationLastApplied = Some (ComputeLastAppliedAnnotation cb)) :
  ∃ e', undoSchedule addr true e = Ret (Reconciled, e') ∧ b_heap e' !! addr = Some cb ∧ bquiet e e'.
Proof.
  assert (safe (undoSchedule addr true) e) as (r & e' & Hrun)%safe_returns.
  { unfold safe, undoSchedule, bset, bget, bcall, gets, lift, modify, mbind, GoM_bind. destruct (bserve _ _) as [u w]. cbn.
    rewrite Hcb. cbn. rewrite Hann. cbn. unfold ComputeLastAppliedAnnotation at 1. rewrite Unmarshal_Marshal. cbn.
    rewrite Hcb. cbn. by rewrite list_lookup_alter_eq, Hcb. }
  assert (wp (undoSchedule addr true) (λ r e', bquiet e e' ∧ r = Reconciled ∧ b_heap e' !! addr = Some cb) e) as Hwp;
    [|destruct (wp_run _ _ _ _ _ Hwp Hrun) as (? & -> & ?); eauto].
  apply wp_and; [apply quiet_undoSchedule|]. unfold undoSchedule. apply wp_bind, wp_bcall. intros [] w. apply wp_bind.
  eapply wp_bget; [done|]. rewrite Hann. cbn [default from_option id]. unfold ComputeLastAppliedAnnotation at 1.
  rewrite Unmarshal_Marshal. apply wp_bind. eapply wp_bset; [done|]. apply wp_bind.
  eapply wp_bset; [cbn; by rewrite list_lookup_alter_eq, Hcb|]. apply wp_ret. split; [done|]. cbn.
  rewrite !list_lookup_alter_eq, Hcb. cbn. f_equal. destruct cb as [[] [] st]. cbn in *. unfold upd; cbn. do 2 f_equal.
  by apply insert_id.
Qed.

(** The filter of update events lets none pass: the new object is a pointer. *)
Lemma backup_updates_dropped type accessor cb : backupUpdateFunc type accessor cb ≠ Ret true.
Proof. unfold backupUpdateFunc. by repeat case_match; destruct type. Qed.
End controller.

(** ** Instances *)
Section instances.
#[local] Existing Instance SampleQuantities.

Abbreviation once_env := (bstart (backup_world [once])).
Abbreviation nightly_env := (bstart (backup_world [nightly])).
Abbreviation run_nightly := (Reconcile "ns" "nightly").

Lemma backup_started_checked_witness :
  ∃ r e', Reconcile "ns" "once" once_env = Ret (r, e') ∧
    ∃ cb cc, bsince once_env e' (BEv _ (BGetBackup "ns" "once") (Ok cb)) ∧ cleared cb cc once_env e'.
Proof.
  destruct (observe_Some (λ _ e', length (b_tasks e')) (Reconcile "ns" "once") once_env 1) as (r & e' & Hrun & Ht);
    [vm_compute; reflexivity|].
  exists r, e'. split; [exact Hrun|].
  destruct (backup_started_checked "ns" "once" r _ _ Hrun) as [[_ H]|(cb & Hg & [(_ & _ & H)|(_ & _ & cc & Hp & _)])];
    [rewrite H in Ht; discriminate Ht..|].
  exists cb, cc. split; [exact Hg|exact Hp].
Defined.

Lemma scheduler_refines_witness :
  ∃ r e' s', run_nightly nightly_env = Ret (r, e') ∧ plan_step "ns" "nightly" nightly_env e' ∅ s' ∧ tracks (scheduler e') s'.
Proof.
  destruct (observe_Some (λ _ e', size (b_entries e')) run_nightly nightly_env 1) as (r & e' & Hrun & _);
    [vm_compute; reflexivity|].
  destruct (scheduler_refines "ns" "nightly" r nightly_env e' ∅ Hrun) as (s' & H1 & H2).
  - split; cbn; [intros; reflexivity|discriminate..].
  - exists r, e', s'. split; [exact Hrun|]. split; [exact H1|exact H2].
Defined.

Lemma scheduler_consistent_witness :
  ∃ e' job, rtc bstep nightly_env e' ∧ cron_Entries (b_cron e') !! 0%Z = Some job ∧ safe (bget job.1) e'.
Proof.
  destruct (observe_Some (λ _ e', fst <$> cron_Entries (b_cron e') !! 0%Z) run_nightly nightly_env (Some 0)) as (r & e' & Hrun & Hj);
    [vm_compute; reflexivity|].
  destruct (cron_Entries (b_cron e') !! 0%Z) as [job|] eqn:Hjob; [|discriminate Hj].
  assert (rtc bstep nightly_env e') as Hsteps by (eapply rtc_once, step_reconcile, Hrun).
  exists e', job. split; [exact Hsteps|]. split; [exact Hjob|].
  apply (proj1 (scheduler_consistent nightly_env e' eq_refl Hsteps) 0%Z job Hjob).
Defined.

(** The goroutine with an object in the heap: one state RUNNING, then COMPLETED. *)
Abbreviation going_env := (holding [once] (backup_world [once])).
Abbreviation going n := (backup n (Some (mkBackrestClient (Some "http://pod:4567") "pod")) 0).
Lemma backup_goroutine_reports_witness :
  ∃ r e' answer l, going 5 going_env = Ret (r, e') ∧ r = Some Blocked ∧
    extends going_env e' (BEv _ (BPost "http://pod:4567" (BackupOperation (backupRequest once))) answer :: l).
Proof.
  destruct (observe_Some (λ r _, r) (going 5) going_env (Some Blocked)) as (r & e' & Hrun & Hr); [vm_compute; reflexivity|].
  destruct (backup_goroutine_reports 5 "http://pod:4567" "pod" 0 once r going_env e' eq_refl Hrun) as (answer & l & E & _).
  exists r, e', answer, l. split; [exact Hrun|]. split; [exact Hr|exact E].
Defined.

Definition hourly : CassandraBackup := nightly <| cb_Spec ::= λ s, s <| cbs_Schedule := "@nonsense" |> |>.
Abbreviation annotated cb := (cb <| cb_Meta ::= λ m, m <| m_Annotations := {[ annotationLastApplied := ComputeLastAppliedAnnotation cb ]} |> |>).
Abbreviation undo_env := (holding [annotated hourly] (backup_world [nightly])).
Lemma invalid_schedule_stays_witness :
  ∃ e', undoSchedule 0 true undo_env = Ret (Reconciled, e') ∧ b_heap e' !! 0 = Some (annotated hourly).
Proof.
  destruct (invalid_schedule_stays 0 (annotated hourly) undo_env eq_refl) as (e' & Hrun & Hheap & _);
    [apply lookup_singleton_eq|].
  exists e'. split; [exact Hrun|exact Hheap].
Defined.

(** A backup that changes but keeps its schedule is skipped: the job goes on with
    the object of the first run. *)
Definition retagged : CassandraBackup := nightly <| cb_Spec ::= λ s, s <| cbs_SnapshotTag := "snap2" |> |>.
Definition job_tags (e : BEnv FakeWorld) : list (option string) :=
  (λ p, (λ cb, cbs_SnapshotTag (cb_Spec cb)) <$> b_heap e !! p.2.1) <$> map_to_list (cron_Entries (b_cron e)).
Example changed_backup_keeps_job :
  observe (λ _ e', job_tags e')
    (_ ← run_nightly; _ ← modify (λ e, e <| b_world ::= λ w, w <| w_backups ::= <["nightly" := retagged]> |> |>); run_nightly)
    nightly_env = Some [Some "snap"].
Proof. vm_compute. reflexivity. Qed.

(** Two backups of one name in different name spaces share an entry: the second one
    takes the place of the first. *)
Definition elsewhere : CassandraBackup :=
  nightly <| cb_Meta := named "other" "nightly" |> <| cb_Spec ::= λ s, s <| cbs_Schedule := "0 2 * * *" |> |>.
Definition job_spaces (e : BEnv FakeWorld) : list (option string) :=
  (λ p, cb_Namespace <$> b_heap e !! p.2.1) <$> map_to_list (cron_Entries (b_cron e)).
Example same_name_replaces_job :
  observe (λ _ e', job_spaces e')
    (_ ← run_nightly; _ ← modify (λ e, e <| b_world ::= λ w, w <| w_backups ::= <["nightly" := elsewhere]> |> |>);
     Reconcile "other" "nightly")
    nightly_env = Some [Some "other"].
Proof. vm_compute. reflexivity. Qed.
End instances.
