(* ===== verification/Restore.v ===== *)
(** * The restore controller (src/controllers/cassandrarestore)

    A [CassandraRestore] goes through the states of its condition: a coordinator is
    chosen (REQUIRED), the operation is posted to its side car (PENDING, RUNNING),
    and followed until it is COMPLETED, FAILED or CANCELED.  Each run of the loop
    makes at most one step. *)
From S2P Require Import Prelude KubeObjects Types ClusterApi Server K8sUtil Pods FakeCluster Samples BackupTypes Sidecar FakeSidecar.

Section restore.
Context {QL : QuantityLib} {Icarus : IcarusLib} {CronL : CronLib} {Dec : ErrorDecoder}.
Context {W : Type} {Srv : BackupServer W}.

(** ** status.go: the status is set in any case, an accepted patch replaces the object *)
Definition UpdateRestoreStatus (restore : CassandraRestore) (st : BackRestStatus)
  : BM W (CassandraRestore * option error) :=
  let new := restore <| cr_Status := st |> in
  r ← bcall (BPatchRestore restore new);
  match r with
  | Ok cr => mret (cr, None)
  | Err e => mret (new, Some e)
  end.

(** ** reconcile.go *)
Definition requiredRestore (restore : CassandraRestore) (cc : CassandraCluster) (backup : CassandraBackup)
  : BM W (option RestoreError) :=
  r ← listPods (m_Namespace (cr_Meta restore)) (LabelsForCassandraDC cc (cbs_Datacenter (cb_Spec backup)));
  match r with
  | Err _ => mret (Some ResourceNotReady)
  | Ok pods =>
      if bool_decide (0 < length pods) then
        now ← bcall BNow;
        i ← bcall (BRandIntn (Z.of_nat (length pods)));
        pod ← lift (index pods i);
        r ← UpdateRestoreStatus restore
              (BackRestStatus_zero <| bs_Condition := Some (mkCondition RestoreRequired now []) |>
                                   <| bs_CoordinatorMember := pod_Name pod |>);
        mret (PlainError <$> r.2 : option RestoreError)
      else mret (Some (PlainError (OtherError "No pods found.")))
  end.

Definition sidecarError : RestoreError := CassandraBackupSidecarNotReady.

Definition handleRequiredRestore (restore : CassandraRestore) (cc : CassandraCluster) (backup : CassandraBackup)
  : BM W (option RestoreError) :=
  r ← listPods (m_Namespace (cr_Meta restore)) (LabelsForCassandraDC cc (cbs_Datacenter (cb_Spec backup)));
  match r with
  | Err _ => mret (Some ResourceNotReady)
  | Ok pods =>
      sr ← lift (NewClient (PodByName pods (bs_CoordinatorMember (cr_Status restore))));
      r ← PerformRestore sr restore backup;
      match r with
      | Err _ => mret (Some sidecarError)
      | Ok restoreStatus =>
          r ← UpdateRestoreStatus restore
                (restoreStatus <| bs_CoordinatorMember := bs_CoordinatorMember (cr_Status restore) |>);
          mret (PlainError <$> r.2 : option RestoreError)
      end
  end.

(** The status is dereferenced before the error is looked at. *)
Definition checkRestoreOperationState (restore : CassandraRestore) (cc : CassandraCluster) (backup : CassandraBackup)
  : BM W (option RestoreError) :=
  r ← listPods (m_Namespace (cr_Meta restore)) (LabelsForCassandraDC cc (cbs_Datacenter (cb_Spec backup)));
  match r with
  | Err _ => mret (Some ResourceNotReady)
  | Ok pods =>
      let restoreId := bs_ID (cr_Status restore) in
      if restoreId == "" then mret (Some (PlainError (OtherError "no Restore operation id provided to be checked")))
      else
        sr ← lift (NewClient (PodByName pods (bs_CoordinatorMember (cr_Status restore))));
        r ← RestoreStatusByID sr restoreId;
        status ← lift (deref match r with Ok st => Some st | Err _ => None end);
        let status := status <| bs_CoordinatorMember := bs_CoordinatorMember (cr_Status restore) |> in
        match r with
        | Err _ => mret (Some CassandraBackupSidecarNotReady)
        | Ok _ =>
            r ← UpdateRestoreStatus restore status;
            match r.2 with
            | Some e => mret (Some (PlainError e))
            | None =>
                condition ← lift (deref (bs_Condition (cr_Status r.1)));
                if RestoreConditionType.IsInError (bc_Type condition) then
                  mret (Some (CassandraBackupOperationFailure
                                (match bc_FailureCause condition with c :: _ => fc_Message c | [] => "" end)))
                else if RestoreConditionType.IsRestoreCompleted (bc_Type condition) then mret None
                else mret (Some CassandraBackupOperationRunning)
            end
        end
  end.

(** The end of a phase of the loop, after its error. *)
Definition retry (seconds : Z) : ReconcileResult := mkReconcileResult seconds None.
Definition failed (e : RestoreError) : ReconcileResult :=
  RequeueWithError match e with PlainError e => e | _ => OtherError "restore" end.

Definition requireRestore (restore : CassandraRestore) cc backup : BM W ReconcileResult :=
  err ← requiredRestore restore cc backup;
  match err with
  | Some ResourceNotReady => mret (retry 15)
  | Some e => mret (failed e)
  | None => _ ← bcall (BRecord "Normal" "RestoreRequired"); mret Reconciled
  end.

Definition launchRestore (restore : CassandraRestore) cc backup : BM W ReconcileResult :=
  err ← handleRequiredRestore restore cc backup;
  match err with
  | Some CassandraBackupSidecarNotReady | Some ResourceNotReady =>
      _ ← bcall (BRecord "Warning" "PerformRestoreOperationFailed"); mret (retry 15)
  | Some e => mret (failed e)
  | None => _ ← bcall (BRecord "Normal" "RestoreInitiated"); mret Reconciled
  end.

Definition followRestore (restore : CassandraRestore) cc backup : BM W ReconcileResult :=
  err ← checkRestoreOperationState restore cc backup;
  match err with
  | Some CassandraBackupSidecarNotReady | Some ResourceNotReady => mret (retry 15)
  | Some CassandraBackupOperationRunning => mret (retry 20)
  | Some (CassandraBackupOperationFailure _) => _ ← bcall (BRecord "Normal" "RestoreFailed"); mret Reconciled
  | Some e => mret (failed e)
  | None => _ ← bcall (BRecord "Normal" "RestoreCompleted"); mret Reconciled
  end.

(** The phase of the loop the status asks for. *)
Definition restorePhase (restore : CassandraRestore) cc backup : BM W ReconcileResult :=
  if bs_CoordinatorMember (cr_Status restore) == "" then requireRestore restore cc backup
  else
    condition ← lift (deref (bs_Condition (cr_Status restore)));
    if RestoreConditionType.IsRequired (bc_Type condition) then launchRestore restore cc backup
    else if RestoreConditionType.IsInProgress (bc_Type condition) then followRestore restore cc backup
    else mret Reconciled.

Definition Reconcile (ns name : string) : BM W ReconcileResult :=
  r ← bcall (BGetRestore ns name);
  match r with
  | Err e => if IsNotFound e then mret Reconciled else mret (RequeueWithError e)
  | Ok restore =>
      r ← LookupCassandraCluster (m_Namespace (cr_Meta restore)) (crs_CassandraCluster (cr_Spec restore));
      match r with
      | Err e =>
          if IsMarkedForDeletion (cr_Meta restore) then mret Reconciled
          else _ ← bcall (BRecord "Warning" "CassandraClusterNotFound"); mret (RequeueWithError e)
      | Ok cc =>
          r ← LookupCassandraBackup (m_Namespace (cr_Meta restore)) (crs_CassandraBackup (cr_Spec restore));
          match r with
          | Err e => _ ← bcall (BRecord "Warning" "BackupNotFound"); mret (RequeueWithError e)
          | Ok backup => restorePhase restore cc backup
          end
      end
  end.

(** ** The event filters of cassandrarestore_controller.go *)
Definition restoreCreateFunc (accessor : option error) (object : option CassandraRestore) : outcome bool :=
  if bool_decide (accessor ≠ None) then Ret false
  else
    restore ← deref object;
    mret (bool_decide (GetRestoreCondition (cr_Status restore) RestoreRequired = None)).

Definition restoreUpdateFunc (accessor : option error) (object : option CassandraRestore) : outcome bool :=
  if bool_decide (accessor ≠ None) then Ret false
  else
    new ← deref object;
    if bool_decide (String.length (bs_CoordinatorMember (cr_Status new)) < 1) then Ret false
    else match bs_Condition (cr_Status new) with
         | None => Ret true
         | Some c =>
             if RestoreConditionType.IsRestoreCompleted (bc_Type c) then Ret false
             else if RestoreConditionType.IsInError (bc_Type c) then Ret false
             else Ret true
         end.
End restore.

(** ** The steps of a restore *)
Section steps.
Context {QL : QuantityLib} {Icarus : IcarusLib} {CronL : CronLib} {Dec : ErrorDecoder}.
Context {W : Type} {Srv : BackupServer W}.

(** Requests that change something: the status, or the data of the cluster. *)
Definition effect (ev : BEvent) : bool :=
  match ev with BEv _ (BPatchRestore _ _) _ | BEv _ (BPost _ _) _ => true | _ => false end.
Definition effects (e e' : BEnv W) (l : list BEvent) : Prop := ∃ l0, extends e e' l0 ∧ List.filter effect l0 = l.

Lemma effects_refl (e : BEnv W) : effects e e [].
Proof. exists []. split; [|done]. unfold extends. by rewrite app_nil_r. Qed.
Lemma effects_answered {A} (r : BReq A) a w (e0 e : BEnv W) l :
  effects e0 e l → effects e0 (answered r a w e) (l ++ List.filter effect [BEv _ r a]).
Proof.
  intros (l0 & E & <-). exists (l0 ++ [BEv _ r a]). split; [|apply List.filter_app].
  unfold extends in *. cbn. by rewrite E, (assoc_L (++)).
Qed.
Lemma effects_none {A} (r : BReq A) a w (e0 e : BEnv W) l :
  effect (BEv _ r a) = false → effects e0 e l → effects e0 (answered r a w e) l.
Proof. intros Hr He. apply (effects_answered r a w) in He. cbn [List.filter] in He. rewrite Hr in He. by rewrite app_nil_r in He. Qed.

(** The side car of a pod. *)
Definition sidecar_of (pod : Pod) : string :=
  cassandraBackupSidecarConfig (mkConfig DefaultCassandraBackupSecure DefaultCassandraSidecarPort (PodHostname pod) 60).

Definition coordinator (cr : CassandraRestore) : string := bs_CoordinatorMember (cr_Status cr).
Definition in_state (p : string → bool) (cr : CassandraRestore) : Prop :=
  coordinator cr ≠ "" ∧ ∃ c, bs_Condition (cr_Status cr) = Some c ∧ p (bc_Type c) = true.

(** The status that follows from an answer of the side car. *)
Definition moved (cr : CassandraRestore) (now : string) (op : OperationResponse) : CassandraRestore :=
  cr <| cr_Status := (ComputeRestorationStatus now op) <| bs_CoordinatorMember := coordinator cr |> |>.

(** The answer to the listing of the data centre's pods. *)
Definition listed (e e' : BEnv W) cr cc backup (r : result (list Pod)) : Prop :=
  bsince e e' (BEv _ (BListPods (m_Namespace (cr_Meta cr)) (LabelsForCassandraDC cc (cbs_Datacenter (cb_Spec backup)))) r).
(** The pod found under the coordinator's name in that listing. *)
Definition coordinated (e e' : BEnv W) cr cc backup (pod : Pod) : Prop :=
  ∃ pods, listed e e' cr cc backup (Ok pods) ∧ PodByName pods (coordinator cr) = Some pod.

(** What a run that read [cr], its cluster [cc] and its [backup] changes, and why: it
    changes nothing only for a restore that has ended or has no operation to ask
    about, or when there are no pods or none are listed. *)
Inductive restore_step (e e' : BEnv W) (cr : CassandraRestore) cc backup : list BEvent → Prop :=
| rs_ended c :
    coordinator cr ≠ "" → bs_Condition (cr_Status cr) = Some c →
    RestoreConditionType.IsRequired (bc_Type c) = false → RestoreConditionType.IsInProgress (bc_Type c) = false →
    restore_step e e' cr cc backup []
| rs_unlisted err : listed e e' cr cc backup (Err err) → restore_step e e' cr cc backup []
| rs_no_pods : coordinator cr = "" → listed e e' cr cc backup (Ok []) → restore_step e e' cr cc backup []
| rs_no_id :
    in_state RestoreConditionType.IsInProgress cr → bs_ID (cr_Status cr) = "" → restore_step e e' cr cc backup []
| rs_required pods pod now a :
    coordinator cr = "" → listed e e' cr cc backup (Ok pods) → pod ∈ pods →
    restore_step e e' cr cc backup [BEv _ (BPatchRestore cr (cr <| cr_Status :=
      (BackRestStatus_zero <| bs_Condition := Some (mkCondition RestoreRequired now []) |>
                           <| bs_CoordinatorMember := pod_Name pod |>) |>)) a]
| rs_refused pod a err :
    in_state RestoreConditionType.IsRequired cr → coordinated e e' cr cc backup pod → (performOperation a).2 = Some err →
    restore_step e e' cr cc backup [BEv _ (BPost (sidecar_of pod) (RestoreOperation (restoreRequest cr backup))) a]
| rs_posted pod a op now a' :
    in_state RestoreConditionType.IsRequired cr → coordinated e e' cr cc backup pod → performOperation a = (Some op, None) →
    restore_step e e' cr cc backup
      [BEv _ (BPost (sidecar_of pod) (RestoreOperation (restoreRequest cr backup))) a;
       BEv _ (BPatchRestore cr (moved cr now op)) a']
| rs_followed pod a op now a' :
    in_state RestoreConditionType.IsInProgress cr → bs_ID (cr_Status cr) ≠ "" → coordinated e e' cr cc backup pod →
    bsince e e' (BEv _ (BOperation (sidecar_of pod) (bs_ID (cr_Status cr))) a) → performOperation a = (Some op, None) →
    restore_step e e' cr cc backup [BEv _ (BPatchRestore cr (moved cr now op)) a'].

(** The effects of a run so far and the step they make; what follows adds to the log. *)
Definition stepped cr cc backup (e e' : BEnv W) : Prop :=
  ∃ l, effects e e' l ∧ restore_step e e' cr cc backup l.

Lemma restore_step_grows (e e1 e2 : BEnv W) cr cc backup l :
  grows e1 e2 → restore_step e e1 cr cc backup l → restore_step e e2 cr cc backup l.
Proof.
  intros Hg. assert (∀ r, listed e e1 cr cc backup r → listed e e2 cr cc backup r) as HL by (intros r; by apply bsince_r with (1 := Hg)).
  assert (∀ pod, coordinated e e1 cr cc backup pod → coordinated e e2 cr cc backup pod) as HC
    by (intros pod (pods & Hl & Hp); exists pods; auto).
  destruct 1; [by eapply rs_ended|eapply rs_unlisted|eapply rs_no_pods|by eapply rs_no_id|eapply rs_required|
    eapply rs_refused|eapply rs_posted|eapply rs_followed]; eauto using bsince_r.
Qed.
Lemma stepped_none {A} (r : BReq A) a w cr cc backup (e0 e : BEnv W) :
  effect (BEv _ r a) = false → stepped cr cc backup e0 e → stepped cr cc backup e0 (answered r a w e).
Proof.
  intros Hr (l & Hl & Hs). exists l. split; [by apply effects_none|].
  eapply restore_step_grows; [by apply blogs_answered|exact Hs].
Qed.
Lemma effects_grows (e e' : BEnv W) l : effects e e' l → grows e e'.
Proof. intros (l0 & Hl & _). exists l0. split; [done|]. by apply Forall_true. Qed.
Lemma effects_since {A} (r : BReq A) a w (e0 e : BEnv W) l :
  effects e0 e l → bsince e0 (answered r a w e) (BEv _ r a).
Proof. intros He. eapply bsince_l; [by eapply effects_grows|apply bsince_answered]. Qed.

Lemma NewClient_ByName pods name client :
  NewClient (PodByName pods name) = Ret client →
  ∃ pod, PodByName pods name = Some pod ∧ client = mkBackrestClient (Some (sidecar_of pod)) name.
Proof.
  destruct (PodByName pods name) as [pod|] eqn:E; [|done]. pose proof E as E'. unfold PodByName in E'.
  apply find_map_Some in E' as (p & Hp & Hif). case_bool_decide as Hn; [|done]. simplify_eq. intros [= <-]. eauto.
Qed.

(** The listing every phase starts with, and what holds after it. *)
Ltac listing H1 HL :=
  unfold listPods; apply wp_bind, wp_bcall; intros [pods|err] w;
  [|wp_steps; exists []; split; [by apply effects_none|eapply rs_unlisted, effects_since; eassumption]];
  set (e1 := answered _ _ _ _);
  match goal with H0 : effects ?e0 _ [] |- context [stepped ?cr ?cc ?backup] =>
    assert (effects e0 e1 []) as H1 by (by apply effects_none);
    assert (listed e0 e1 cr cc backup (Ok pods)) as HL by (by eapply effects_since)
  end; clearbody e1.

Lemma wp_requiredRestore cr cc backup (e0 e : BEnv W) :
  effects e0 e [] → coordinator cr = "" →
  wp (requiredRestore cr cc backup) (λ _ e', stepped cr cc backup e0 e') e.
Proof.
  intros H0 Hc. unfold requiredRestore. listing H1 HL.
  wp_step.
  2:{ wp_steps. exists []. split; [done|]. apply rs_no_pods; [done|]. by destruct pods. }
  apply wp_bind, wp_bcall. intros now w1.
  apply wp_bind, wp_bcall. intros i w2. apply wp_bind, wp_lift. intros pod Hpod. unfold UpdateRestoreStatus.
  apply wp_bind, wp_bind, wp_bcall. intros a w3.
  set (e2 := answered _ a _ _). assert (stepped cr cc backup e0 e2) as Hend.
  { eexists. split; [apply effects_answered; apply effects_none; [done|]; by apply effects_none|].
    eapply restore_step_grows; [|by eapply rs_required; [done|exact HL|eapply list_elem_of_lookup_2, index_spec]].
    do 2 (etrans; [|by apply blogs_answered]). by apply blogs_answered. }
  clearbody e2. by destruct a as [cr'|err]; wp_steps.
Qed.

Lemma wp_handleRequiredRestore cr cc backup (e0 e : BEnv W) :
  effects e0 e [] → in_state RestoreConditionType.IsRequired cr →
  wp (handleRequiredRestore cr cc backup) (λ _ e', stepped cr cc backup e0 e') e.
Proof.
  intros H0 Hst. unfold handleRequiredRestore. listing H1 HL.
  apply wp_bind, wp_lift. intros client (pod & Hn & ->)%NewClient_ByName.
  assert (coordinated e0 e1 cr cc backup pod) as HC by by exists pods.
  unfold PerformRestore, PerformRestoreOperation, PerformOperation. cbn [bk_podClient]. apply wp_bind, wp_bind, wp_bind, wp_bcall.
  intros a w1. apply wp_ret. apply (effects_answered (BPost (sidecar_of pod) (RestoreOperation (restoreRequest cr backup))) a w1) in H1. cbn in H1.
  destruct (performOperation a) as [op [err|]] eqn:Ep.
  { wp_steps. eexists. split; [exact H1|]. eapply restore_step_grows; [by apply blogs_answered|].
    eapply rs_refused; [done|exact HC|by rewrite Ep]. }
  apply wp_bind, wp_lift. intros o Ho. destruct op as [op|]; [|done]. simplify_eq/=.
  apply wp_bind, wp_bcall. intros now w2. apply wp_ret. unfold UpdateRestoreStatus. apply wp_bind, wp_bind, wp_bcall. intros a' w3.
  set (e2 := answered _ a' _ _). assert (stepped cr cc backup e0 e2) as Hend.
  { eexists. split; [apply effects_answered; apply effects_none; [done|exact H1]|].
    eapply restore_step_grows; [|by eapply rs_posted; [|exact HC|]].
    do 2 (etrans; [|by apply blogs_answered]). by apply blogs_answered. }
  clearbody e2. by destruct a' as [cr'|err]; wp_steps.
Qed.

Lemma wp_checkRestoreOperationState cr cc backup (e0 e : BEnv W) :
  effects e0 e [] → in_state RestoreConditionType.IsInProgress cr →
  wp (checkRestoreOperationState cr cc backup) (λ _ e', stepped cr cc backup e0 e') e.
Proof.
  intros H0 Hst. unfold checkRestoreOperationState. listing H1 HL.
  case_bool_decide as Hid; [wp_steps; exists []; split; [done|by apply rs_no_id]|].
  apply wp_bind, wp_lift. intros client (pod & Hn & ->)%NewClient_ByName.
  assert (coordinated e0 e1 cr cc backup pod) as HC by by exists pods.
  unfold RestoreStatusByID, RestoreOperationByID, OperationByID. rewrite bool_decide_false by done. cbn [bk_podClient].
  apply wp_bind, wp_bind, wp_bind, wp_bcall. intros a w1. apply wp_ret.
  pose proof (effects_since (BOperation (sidecar_of pod) (bs_ID (cr_Status cr))) a w1 _ _ _ H1) as Hop.
  destruct (performOperation a) as [op [err|]] eqn:Ep; [apply wp_ret, wp_bind, wp_lift; intros ? [=]|].
  apply wp_bind, wp_lift. intros o Ho. destruct op as [op|]; [|done]. simplify_eq/=.
  apply wp_bind, wp_bcall. intros now w2. apply wp_ret, wp_bind, wp_lift. intros st [= <-].
  unfold UpdateRestoreStatus. apply wp_bind, wp_bind, wp_bcall. intros a' w3. set (e2 := answered _ a' _ _).
  assert (stepped cr cc backup e0 e2) as Hend.
  { eexists. split; [apply effects_answered; do 2 (apply effects_none; [done|]); exact H1|].
    eapply restore_step_grows with (e1 := answered _ a w1 e1); [etrans; [|by apply blogs_answered]; by apply blogs_answered|].
    eapply rs_followed; [done|done| |exact Hop|done]. destruct HC as (pods' & HL' & Hp'). exists pods'. split; [|done].
    eapply bsince_r; [by apply (blogs_answered (λ _, True))|exact HL']. }
  clearbody e2. by destruct a' as [cr'|err]; wp_steps.
Qed.

Lemma wp_restorePhase cr cc backup (e0 e : BEnv W) :
  effects e0 e [] → wp (restorePhase cr cc backup) (λ _ e', stepped cr cc backup e0 e') e.
Proof.
  intros H0.
  assert (∀ (r : ReconcileResult) kind reason e1, stepped cr cc backup e0 e1 →
    wp (_ ← bcall (BRecord kind reason); mret r) (λ _ e', stepped cr cc backup e0 e') e1) as Hrec.
  { intros r kind reason e1 Hs. apply wp_bind, wp_bcall. intros. wp_steps. by apply stepped_none. }
  unfold restorePhase, requireRestore, launchRestore, followRestore. case_bool_decide as Hc.
  { apply wp_bind. eapply wp_mono; [by apply wp_requiredRestore|]. cbv beta. intros err e1 H1; destruct err as [[]|]; first [by apply Hrec|by apply wp_ret]. }
  apply wp_bind, wp_lift. intros c Hcond. apply wp_mono with (Q := λ _ e', stepped cr cc backup e0 e'); [|done].
  destruct (bs_Condition (cr_Status cr)) as [c'|] eqn:Econd; [|done]. simplify_eq/=. wp_step.
  { apply wp_bind. eapply wp_mono; [apply wp_handleRequiredRestore; [done|split; eauto]|]. cbv beta.
    intros err e1 H1; destruct err as [[]|]; first [by apply Hrec|by apply wp_ret]. }
  wp_step; [|wp_steps; exists []; split; [done|eapply rs_ended; [done|exact Econd|assumption|assumption]]].
  apply wp_bind. eapply wp_mono; [apply wp_checkRestoreOperationState; [done|split; eauto]|]. cbv beta.
  intros err e1 H1; destruct err as [[]|]; first [by apply Hrec|by apply wp_ret].
Qed.

Lemma restorePhase_grows cr cc backup : keeps grows (restorePhase cr cc backup).
Proof.
  unfold restorePhase, requireRestore, launchRestore, followRestore, requiredRestore, handleRequiredRestore,
    checkRestoreOperationState, UpdateRestoreStatus, PerformRestore, PerformRestoreOperation, PerformOperation,
    RestoreStatusByID, RestoreOperationByID, OperationByID, listPods.
  keeps_steps; apply keeps_bcall; intros; by apply blogs_answered.
Qed.

(** Why a run of the loop does not get as far as a step: the restore, its cluster or
    its backup was not read. *)
Inductive unread (e e' : BEnv W) (ns name : string) : Prop :=
| unread_restore err : bsince e e' (BEv _ (BGetRestore ns name) (Err err)) → unread e e' ns name
| unread_cluster cr err :
    bsince e e' (BEv _ (BGetRestore ns name) (Ok cr)) →
    bsince e e' (BEv _ (BGetCC (m_Namespace (cr_Meta cr)) (crs_CassandraCluster (cr_Spec cr))) (Err err)) → unread e e' ns name
| unread_backup cr err :
    bsince e e' (BEv _ (BGetRestore ns name) (Ok cr)) →
    bsince e e' (BEv _ (BGetBackup (m_Namespace (cr_Meta cr)) (crs_CassandraBackup (cr_Spec cr))) (Err err)) → unread e e' ns name.
(** The three resources a run works on are those it read. *)
Definition read (e e' : BEnv W) (ns name : string) cr cc backup : Prop :=
  bsince e e' (BEv _ (BGetRestore ns name) (Ok cr)) ∧
  bsince e e' (BEv _ (BGetCC (m_Namespace (cr_Meta cr)) (crs_CassandraCluster (cr_Spec cr))) (Ok cc)) ∧
  bsince e e' (BEv _ (BGetBackup (m_Namespace (cr_Meta cr)) (crs_CassandraBackup (cr_Spec cr))) (Ok backup)).

Lemma unread_grows (e e1 e2 : BEnv W) ns name : grows e1 e2 → unread e e1 ns name → unread e e2 ns name.
Proof.
  intros Hg. destruct 1; [eapply unread_restore|eapply unread_cluster|eapply unread_backup]; by eapply bsince_r.
Qed.
Lemma read_grows (e e1 e2 : BEnv W) ns name cr cc backup : grows e1 e2 → read e e1 ns name cr cc backup → read e e2 ns name cr cc backup.
Proof. intros Hg (H1 & H2 & H3). split_and!; by eapply bsince_r. Qed.

Lemma wp_restore_Reconcile ns name (e : BEnv W) :
  wp (Reconcile ns name) (λ _ e', (effects e e' [] ∧ unread e e' ns name) ∨
    ∃ cr cc backup, read e e' ns name cr cc backup ∧ stepped cr cc backup e e') e.
Proof.
  assert (∀ (r : ReconcileResult) kind reason (e1 : BEnv W), effects e e1 [] ∧ unread e e1 ns name →
    wp (_ ← bcall (BRecord kind reason); mret r) (λ _ e', effects e e' [] ∧ unread e e' ns name) e1) as Hrec.
  { intros r kind reason e1 [H1 H2]. apply wp_bind, wp_bcall. intros. wp_steps. split; [by apply effects_none|].
    eapply unread_grows; [by apply blogs_answered|exact H2]. }
  unfold Reconcile, LookupCassandraCluster, LookupCassandraBackup. apply wp_bind, wp_bcall. intros [cr|err] w.
  2:{ wp_step; wp_steps; left; (split; [apply effects_none; auto using effects_refl|eapply unread_restore, bsince_answered]). }
  set (e1 := answered _ _ _ _). assert (effects e e1 []) as H1 by (apply effects_none; auto using effects_refl).
  assert (bsince e e1 (BEv _ (BGetRestore ns name) (Ok cr))) as Hget by apply bsince_answered. clearbody e1.
  apply wp_bind, wp_bcall. intros rcc w1. set (e2 := answered _ _ _ _). assert (effects e e2 []) as H2 by by apply effects_none.
  assert (grows e1 e2) as H12 by by apply blogs_answered.
  apply (bsince_r _ _ _ _ _ H12) in Hget. epose proof (effects_since _ rcc w1 _ _ _ H1 : bsince e e2 _) as Hcc. clearbody e2. destruct rcc as [cc|err].
  2:{ wp_step; [wp_steps; left; split; [done|by eapply unread_cluster]|].
      eapply wp_mono; [apply Hrec; split; [done|by eapply unread_cluster]|by left]. }
  apply wp_bind, wp_bcall. intros rb w2. set (e3 := answered _ _ _ _). assert (effects e e3 []) as H3 by by apply effects_none.
  assert (grows e2 e3) as H23 by by apply blogs_answered.
  apply (bsince_r _ _ _ _ _ H23) in Hget, Hcc. epose proof (effects_since _ rb w2 _ _ _ H2 : bsince e e3 _) as Hb. clearbody e3. destruct rb as [backup|err].
  2:{ eapply wp_mono; [apply Hrec; split; [done|by eapply unread_backup]|by left]. }
  eapply wp_mono; [apply wp_and; [apply restorePhase_grows|by apply (wp_restorePhase cr cc backup e)]|].
  cbv beta. intros _ e' [Hg Hs]. right. exists cr, cc, backup. split; [|done]. by eapply read_grows.
Qed.

(** C14: a run of the restore controller makes at most one step of the restore it
    read, in the states the code gives it: it chooses one of the listed pods as the
    coordinator of a restore that has none; it posts the operation, once and to the
    side car of the pod listed under the coordinator's name, when the condition is
    REQUIRED, and records the answer if there is one; or it records the side car's
    answer for an operation in progress.  It changes nothing only when the restore,
    its cluster or its backup was not read, the pods were not listed or are none,
    the restore has ended, or one in progress has no operation id. *)
Theorem restore_run_steps ns name r (e e' : BEnv W) (Hrun : Reconcile ns name e = Ret (r, e')) :
  (effects e e' [] ∧ unread e e' ns name) ∨
  ∃ cr cc backup l, read e e' ns name cr cc backup ∧ effects e e' l ∧ restore_step e e' cr cc backup l.
Proof.
  destruct (wp_run _ _ _ _ _ (wp_restore_Reconcile ns name e) Hrun) as [H|(cr & cc & backup & Hr & l & Hl & Hs)];
    [by left|right; by exists cr, cc, backup, l].
Qed.

(** ** Runs one after the other *)

(** The restore an accepted patch leaves in the API server. *)
Definition accepted (l : list BEvent) : option CassandraRestore :=
  find_map (λ ev, match ev with BEv _ (BPatchRestore _ new) (Ok _) => Some new | _ => None end) l.
Definition is_post (ev : BEvent) : bool := match ev with BEv _ (BPost _ _) _ => true | _ => false end.
(** The operation was posted and its answer recorded. *)
Definition launched (l : list BEvent) : bool := existsb is_post l && bool_decide (is_Some (accepted l)).

(** The states of a restore and the number of its recorded launches, when each run
    reads what the last accepted patch left and the side car does not answer with
    the state REQUIRED, which is the operator's own. *)
Inductive runs (ns name : string) : CassandraRestore → nat → Prop :=
| runs_new cr : coordinator cr = "" → runs ns name cr 0
| runs_next cr n r e e' l :
    runs ns name cr n → Reconcile ns name e = Ret (r, e') → effects e e' l →
    (∀ cr', bsince e e' (BEv _ (BGetRestore ns name) (Ok cr')) → cr' = cr) →
    (coordinator cr ≠ "" → ∀ new, accepted l = Some new → ¬ in_state RestoreConditionType.IsRequired new) →
    runs ns name (default cr (accepted l)) (n + if launched l then 1 else 0).

Lemma effects_det (e e' : BEnv W) l l' : effects e e' l → effects e e' l' → l = l'.
Proof. intros (a & Ea & <-) (b & Eb & <-). unfold extends in *. rewrite Ea in Eb. by apply (inj _) in Eb as ->. Qed.

(** A launch needs REQUIRED; without one the coordinator stays or is chosen. *)
Lemma restore_step_launch (e e' : BEnv W) cr cc backup l :
  restore_step e e' cr cc backup l →
  (launched l = true → in_state RestoreConditionType.IsRequired cr) ∧
  (∀ new, accepted l = Some new → coordinator cr ≠ "" → coordinator new = coordinator cr).
Proof.
  intros [c| | | |pods pod now [a|] Hc|pod a err Hst Hn Ha|pod a op now [a'|] Hst Hn Ha|pod a op now [a'|] Hst];
    cbn; split; try done; intros new [= <-]; done.
Qed.

Lemma run_launch ns name cr r (e e' : BEnv W) l :
  Reconcile ns name e = Ret (r, e') → effects e e' l →
  (∀ cr', bsince e e' (BEv _ (BGetRestore ns name) (Ok cr')) → cr' = cr) →
  (launched l = true → in_state RestoreConditionType.IsRequired cr) ∧
  (∀ new, accepted l = Some new → coordinator cr ≠ "" → coordinator new = coordinator cr).
Proof.
  intros Hrun Hl Hread.
  destruct (wp_run _ _ _ _ _ (wp_restore_Reconcile ns name e) Hrun) as [[H0 _]|(cr0 & cc & backup & (Hg & _) & l0 & H0 & Hs)];
    rewrite (effects_det _ _ _ _ Hl H0); [done|].
  rewrite (Hread _ Hg) in Hs. by eapply restore_step_launch.
Qed.

Lemma runs_launched ns name cr n :
  runs ns name cr n → n ≤ 1 ∧ (n = 1 → coordinator cr ≠ "" ∧ ¬ in_state RestoreConditionType.IsRequired cr).
Proof.
  induction 1 as [cr Hc|cr n r e e' l _ [IHn IH1] Hrun Hl Hread Hside]; [by split; [lia|]|].
  destruct (run_launch _ _ _ _ _ _ _ Hrun Hl Hread) as [Hreq Hcoord]. destruct (launched l) eqn:Elaunch.
  - assert (n = 0) as -> by (destruct (decide (n = 1)) as [Hn|]; [|lia]; destruct (IH1 Hn) as [_ []]; auto).
    split; [lia|intros _]. destruct (Hreq eq_refl) as [Hne _]. unfold launched in Elaunch.
    apply andb_true_iff in Elaunch as [_ [new Hnew]%bool_decide_eq_true]. rewrite Hnew. cbn.
    split; [by rewrite (Hcoord _ Hnew Hne)|by apply Hside].
  - rewrite Nat.add_0_r. split; [done|]. intros Hn. destruct (IH1 Hn) as [Hne Hnr].
    destruct (accepted l) as [new|] eqn:Hnew; cbn; [|done]. split; [by rewrite (Hcoord _ eq_refl Hne)|by apply Hside].
Qed.

(** C16: a restore is launched at most once: over any sequence of runs that starts
    with a new restore, where each reads what the last accepted update left, the
    operation is posted and recorded at most once, and never again after that. *)
Theorem restore_launched_once ns name cr n (Hruns : runs ns name cr n) :
  n ≤ 1 ∧ (n = 1 → ∀ r e e' l, Reconcile ns name e = Ret (r, e') → effects e e' l →
    (∀ cr', bsince e e' (BEv _ (BGetRestore ns name) (Ok cr')) → cr' = cr) → existsb is_post l = false).
Proof.
  destruct (runs_launched _ _ _ _ Hruns) as [Hle H1]. split; [done|]. intros Hn r e e' l Hrun Hl Hread.
  destruct (H1 Hn) as [_ Hnr].
  destruct (wp_run _ _ _ _ _ (wp_restore_Reconcile ns name e) Hrun) as [[H0 _]|(cr0 & cc & backup & (Hg & _) & l0 & H0 & Hs)];
    rewrite (effects_det _ _ _ _ Hl H0); [done|]. rewrite (Hread _ Hg) in Hs. by destruct Hs.
Qed.
End steps.

(** ** Instances *)
Section instances.
#[local] Existing Instance SampleQuantities.

Definition restore_new : CassandraRestore :=
  mkRestore (named "ns" "restore") (mkRestoreSpec "cassandra-demo" "dc1" "once" None "" false "" false "" ∅ "") BackRestStatus_zero.
Definition with_status (coord type id : string) : CassandraRestore :=
  restore_new <| cr_Status := BackRestStatus_zero <| bs_CoordinatorMember := coord |> <| bs_ID := id |>
                                <| bs_Condition := Some (mkCondition type "" []) |> |>.
Definition restore_world (cr : CassandraRestore) : FakeWorld :=
  (backup_world [once]) <| w_restores := {[ "restore" := cr ]} |>.
Abbreviation pod0 := "cassandra-demo-dc1-rack1-0".
Abbreviation run_restore := (Reconcile "ns" "restore").

Abbreviation required_env := (bstart (restore_world (with_status pod0 RestoreRequired ""))).
Lemma restore_run_steps_witness :
  ∃ r e' cr cc backup l, run_restore required_env = Ret (r, e') ∧ length l = 2 ∧
    read required_env e' "ns" "restore" cr cc backup ∧ effects required_env e' l ∧
    restore_step required_env e' cr cc backup l.
Proof.
  destruct (observe_Some (λ _ e', length (List.filter effect (b_log e'))) run_restore required_env 2) as (r & e' & Hrun & Hlen);
    [vm_compute; reflexivity|].
  assert (∀ l, effects required_env e' l → length l = 2) as Hl.
  { intros l (l0 & Hl0 & <-). unfold extends in Hl0. cbn in Hl0. rewrite <- Hl0. exact Hlen. }
  destruct (restore_run_steps "ns" "restore" r required_env e' Hrun) as [[H0 _]|(cr & cc & backup & l & Hr & He & Hs)];
    [discriminate (Hl _ H0)|].
  exists r, e', cr, cc, backup, l. split; [exact Hrun|]. split; [exact (Hl _ He)|]. split; [exact Hr|]. split; [exact He|exact Hs].
Defined.

(** One more run, evaluated from a fresh log. *)
Definition reads (cr : CassandraRestore) (l : list BEvent) : bool :=
  forallb (λ ev, match ev with BEv _ (BGetRestore _ _) (Ok cr') => cr' == cr | _ => true end) l.
Lemma runs_run cr n new b :
  observe (λ _ e', let l := List.filter effect (b_log e') in (reads cr (b_log e'), accepted l, launched l))
    run_restore (bstart (restore_world cr)) = Some (true, Some new, b) →
  runs (W:=FakeWorld) "ns" "restore" cr n →
  (coordinator cr ≠ "" → ¬ in_state RestoreConditionType.IsRequired new) →
  runs (W:=FakeWorld) "ns" "restore" new (n + if b then 1 else 0).
Proof.
  intros (r & e' & Hrun & Hobs)%observe_Some Hruns Hside. injection Hobs as Hread Hacc <-.
  replace new with (default cr (accepted (List.filter effect (b_log e')))) by by rewrite Hacc.
  eapply runs_next; [exact Hruns|exact Hrun| | |rewrite Hacc; intros Hc ? [= <-]; by apply Hside].
  - exists (b_log e'). split; [done|]. done.
  - intros cr' (l & Hl & Hin). unfold extends in Hl. cbn in Hl. rewrite Hl in Hread. unfold reads in Hread.
    rewrite forallb_forall in Hread. apply list_elem_of_In in Hin. by apply Hread, bool_decide_eq_true in Hin.
Qed.

Abbreviation chosen := (restore_new <| cr_Status := BackRestStatus_zero <| bs_Condition := Some (mkCondition RestoreRequired "now" []) |>
                                         <| bs_CoordinatorMember := pod0 |> |>).
Lemma restore_launched_once_witness :
  runs (W:=FakeWorld) "ns" "restore" (moved chosen "now" (response "PENDING")) 1 ∧ 1 ≤ 1.
Proof.
  assert (runs (W:=FakeWorld) "ns" "restore" (moved chosen "now" (response "PENDING")) 1) as Hruns.
  { apply (runs_run chosen 0 _ true); [vm_compute; reflexivity| |intros _ [_ (c & [= <-] & Hc)]; discriminate Hc].
    apply (runs_run restore_new 0 _ false); [vm_compute; reflexivity|apply runs_new; reflexivity|].
    intros Hc. destruct Hc. reflexivity. }
  split; [exact Hruns|]. apply (restore_launched_once "ns" "restore" _ 1 Hruns).
Defined.

(** Four runs of a restore: chosen, posted, running, completed. *)
Fixpoint restore_loops (n : nat) (e : BEnv FakeWorld) : outcome (BEnv FakeWorld) :=
  match n with 0 => Ret e | S n => '(_, e) ← run_restore e; restore_loops n e end.
Definition restore_state (n : nat) (cr : CassandraRestore) : outcome (option (string * string * string)) :=
  e ← restore_loops n (bstart (restore_world cr));
  mret ((λ cr, (coordinator cr, default "" (bc_Type <$> bs_Condition (cr_Status cr)), bs_ID (cr_Status cr)))
         <$> w_restores (b_world e) !! "restore").
Example restore_completes :
  restore_state 1 restore_new = Ret (Some (pod0, "REQUIRED", "")) ∧
  restore_state 2 restore_new = Ret (Some (pod0, "PENDING", "op-1")) ∧
  restore_state 3 restore_new = Ret (Some (pod0, "RUNNING", "op-1")) ∧
  restore_state 4 restore_new = Ret (Some (pod0, "COMPLETED", "op-1")) ∧
  restore_state 5 restore_new = restore_state 4 restore_new.
Proof. vm_compute. auto. Qed.

(** The coordinator is gone: no client for a nil pod. *)
Example coordinator_gone_panics :
  observe (λ _ _, tt) run_restore (bstart (restore_world (with_status "cassandra-demo-dc1-rack1-7" "REQUIRED" ""))) = None.
Proof. vm_compute. reflexivity. Qed.

(** The side car does not answer the question about a running operation: the missing
    status is written to before the error is looked at. *)
Example unanswered_status_panics :
  observe (λ _ _, tt) run_restore
    (bstart ((restore_world (with_status pod0 "RUNNING" "op-1")) <| w_reachable := false |>)) = None.
Proof. vm_compute. reflexivity. Qed.

(** After a restart, the creation event of a restore whose coordinator was chosen
    but which was not posted yet is filtered out. *)
Example required_restore_filtered : restoreCreateFunc None (Some (with_status pod0 "REQUIRED" "")) = Ret false.
Proof. reflexivity. Qed.
End instances.
