(* ===== verification/Liveness.v ===== *)
(** * Backups and restores come to an end

    The other theorems about the two controllers hold whatever the API server and the
    side cars answer.  Here they cooperate: requests are accepted, the coordinator stays,
    and the operation ends after some number of questions.  Then a restore that was
    created is driven to its end: every run returns and leaves the next one due, by a
    delay it asks for or by an update whose event passes the filter of the controller. *)
From S2P Require Import Prelude KubeObjects Types ClusterApi Server K8sUtil Pods BackupTypes Sidecar Backup Restore FakeCluster Samples FakeSidecar.

(** Requests that are answered in a known way *)
Section requests.
Context {QL : QuantityLib} {Icarus : IcarusLib} {CronL : CronLib} {W : Type} {Srv : BackupServer W}.
Implicit Types e : BEnv W.

Lemma total_bcall {A} (r : BReq A) a w' Q e :
  bserve r (b_world e) = (a, w') → Q a (answered r a w' e) → total (bcall r) Q e.
Proof. intros Hs HQ. exists a, (answered r a w' e). split; [|done]. unfold bcall. by rewrite Hs. Qed.

Lemma grows_answered {A} (r : BReq A) a w e : grows e (answered r a w e).
Proof. by apply blogs_answered. Qed.
Lemma grows_snoc {A} (r : BReq A) a w e e1 : grows e e1 → grows e (answered r a w e1).
Proof. intros H. etrans; [exact H|apply grows_answered]. Qed.
End requests.
Ltac grow := repeat apply grows_snoc; first [assumption|reflexivity].

(** ** The restore controller *)
Section restore.
Context {QL : QuantityLib} {Icarus : IcarusLib} {CronL : CronLib} {Dec : ErrorDecoder}.
Context {W : Type} {Srv : BackupServer W}.

Definition finished (type : string) : bool :=
  RestoreConditionType.IsRestoreCompleted type || RestoreConditionType.IsInError type.

(** A world that cooperates on the restore [name]: [I w cr k] says that the API server
    stores [cr] and that the side car will answer [k] more questions with a state in
    progress before it answers with a final one. *)
Record cooperates (ns name : string) (cc : CassandraCluster) (backup : CassandraBackup) (pods : list Pod)
    (I : W → CassandraRestore → nat → Prop) : Prop := {
  co_pods_ne : pods ≠ [];
  co_pods_named : Forall (λ p, pod_Name p ≠ "") pods;
  co_get w cr k : I w cr k → ∃ w', bserve (BGetRestore ns name) w = (Ok cr, w') ∧ I w' cr k;
  co_cc w cr k : I w cr k → ∃ w',
    bserve (BGetCC (m_Namespace (cr_Meta cr)) (crs_CassandraCluster (cr_Spec cr))) w = (Ok cc, w') ∧ I w' cr k;
  co_backup w cr k : I w cr k → ∃ w',
    bserve (BGetBackup (m_Namespace (cr_Meta cr)) (crs_CassandraBackup (cr_Spec cr))) w = (Ok backup, w') ∧ I w' cr k;
  co_pods w cr k : I w cr k → ∃ w',
    bserve (BListPods (m_Namespace (cr_Meta cr)) (LabelsForCassandraDC cc (cbs_Datacenter (cb_Spec backup)))) w = (Ok pods, w') ∧ I w' cr k;
  co_now w cr k : I w cr k → ∃ now w', bserve BNow w = (now, w') ∧ I w' cr k;
  co_rand w cr k n : I w cr k → (0 < n)%Z → ∃ i w', bserve (BRandIntn n) w = (i, w') ∧ (0 ≤ i < n)%Z ∧ I w' cr k;
  co_record w cr k kind reason : I w cr k → ∃ w', bserve (BRecord kind reason) w = (tt, w') ∧ I w' cr k;
  co_patch w cr k st : I w cr k → bs_CoordinatorMember st ∈ pod_Name <$> pods →
    ∃ w', bserve (BPatchRestore cr (cr <| cr_Status := st |>)) w = (Ok (cr <| cr_Status := st |>), w') ∧
      I w' (cr <| cr_Status := st |>) k;
  co_post w cr k base req : I w cr k → ∃ body op w', bserve (BPost base req) w = (Ok body, w') ∧
    decode_response body = (Some op, None) ∧ op_Id op ≠ "" ∧ RestoreConditionType.IsInProgress (op_State op) = true ∧ I w' cr k;
  co_operation w cr k base id : I w cr k → ∃ body op w', bserve (BOperation base id) w = (Ok body, w') ∧
    decode_response body = (Some op, None) ∧ op_Id op ≠ "" ∧
    match k with
    | 0 => finished (op_State op) = true ∧ I w' cr 0
    | S k => RestoreConditionType.IsInProgress (op_State op) = true ∧ I w' cr k
    end;
}.

(** The next run is due: the loop asked for it, or the event of an accepted update
    passes the filter. *)
Definition next_due (r : ReconcileResult) (e e' : BEnv W) : Prop :=
  (0 < rr_RequeueAfter r)%Z ∨
  ∃ old new, bsince e e' (BEv _ (BPatchRestore old new) (Ok new)) ∧ restoreUpdateFunc None (Some new) = Ret true.

(** [n] runs, each due after the one before *)
Inductive driven (ns name : string) : nat → BEnv W → BEnv W → Prop :=
| driven_last r e e' : Reconcile ns name e = Ret (r, e') → driven ns name 1 e e'
| driven_more n r e e1 e' :
    Reconcile ns name e = Ret (r, e1) → next_due r e e1 → driven ns name n e1 e' → driven ns name (S n) e e'.

Section run.
Context {ns name : string} {cc : CassandraCluster} {backup : CassandraBackup} {pods : list Pod}.
Context {I : W → CassandraRestore → nat → Prop}.
Hypothesis Hco : cooperates ns name cc backup pods I.
Implicit Types (e : BEnv W) (cr : CassandraRestore) (k : nat).

(** Stages of a restore *)
Definition is_new cr : Prop := coordinator cr = "".
Definition is_chosen cr : Prop := coordinator cr ∈ pod_Name <$> pods ∧
  ∃ c, bs_Condition (cr_Status cr) = Some c ∧ bc_Type c = RestoreRequired.
Definition is_followed cr : Prop := coordinator cr ∈ pod_Name <$> pods ∧ bs_ID (cr_Status cr) ≠ "" ∧
  ∃ c, bs_Condition (cr_Status cr) = Some c ∧ RestoreConditionType.IsInProgress (bc_Type c) = true.
Definition is_over cr : Prop := ∃ c, bs_Condition (cr_Status cr) = Some c ∧ finished (bc_Type c) = true.

Lemma in_progress_others t : RestoreConditionType.IsInProgress t = true →
  RestoreConditionType.IsRequired t = false ∧ RestoreConditionType.IsInError t = false ∧
  RestoreConditionType.IsRestoreCompleted t = false.
Proof. intros [->%bool_decide_eq_true | ->%bool_decide_eq_true]%orb_true_iff; done. Qed.

(** One request that cooperates. *)
Tactic Notation "co_call" constr(law) "as" ident(w) ident(H) :=
  apply total_bind; let Hs := fresh "Hserve" in destruct law as (w & Hs & H); eapply total_bcall; [exact Hs|cbv beta iota].

Lemma total_Reconcile cr k Q e :
  I (b_world e) cr k →
  (∀ e1, I (b_world e1) cr k → grows e e1 → total (restorePhase cr cc backup) Q e1) →
  total (Reconcile ns name) Q e.
Proof.
  intros HI HQ. unfold Reconcile, LookupCassandraCluster, LookupCassandraBackup.
  co_call (co_get _ _ _ _ _ _ Hco _ _ _ HI) as w1 H1. co_call (co_cc _ _ _ _ _ _ Hco _ _ _ H1) as w2 H2.
  co_call (co_backup _ _ _ _ _ _ Hco _ _ _ H2) as w3 H3.
  apply HQ; [done|]. grow.
Qed.

(** What a run that patched the status to [st] leaves *)
Definition patched cr k (st : BackRestStatus) (e e' : BEnv W) : Prop :=
  I (b_world e') (cr <| cr_Status := st |>) k ∧
  bsince e e' (BEv _ (BPatchRestore cr (cr <| cr_Status := st |>)) (Ok (cr <| cr_Status := st |>))).

Lemma patched_l cr k st e e1 e' : grows e e1 → patched cr k st e1 e' → patched cr k st e e'.
Proof. intros Hg [HI Hs]. split; [done|]. by eapply bsince_l. Qed.

Lemma total_UpdateRestoreStatus cr k st e :
  I (b_world e) cr k → bs_CoordinatorMember st ∈ pod_Name <$> pods →
  total (UpdateRestoreStatus cr st) (λ r e', r = (cr <| cr_Status := st |>, None) ∧ patched cr k st e e') e.
Proof.
  intros HI Hst. unfold UpdateRestoreStatus. co_call (co_patch _ _ _ _ _ _ Hco _ _ _ st HI Hst) as w1 H1.
  apply total_ret. split; [done|]. split; [done|]. apply bsince_answered.
Qed.

Lemma total_BRecord cr k st kind reason (r : ReconcileResult) e0 e :
  patched cr k st e0 e →
  total (_ ← bcall (BRecord kind reason); mret r) (λ r' e', r' = r ∧ patched cr k st e0 e') e.
Proof.
  intros [HI Hs]. co_call (co_record _ _ _ _ _ _ Hco _ _ _ kind reason HI) as w1 H1. apply total_ret. split; [done|]. split; [done|].
  eapply bsince_r; [apply grows_answered|done].
Qed.

(** The coordinator is in the list of the pods. *)
Lemma total_NewClient nm : nm ∈ pod_Name <$> pods → ∃ base, NewClient (PodByName pods nm) = Ret (mkBackrestClient (Some base) nm).
Proof.
  intros (p & -> & Hp)%list_elem_of_fmap. unfold PodByName.
  destruct (find_map _ pods) as [q|] eqn:E.
  - apply find_map_Some in E as (q' & _ & Hq). case_bool_decide as Hn; [|done]. simplify_eq. rewrite <- Hn.
    eexists. reflexivity.
  - apply (proj1 (find_map_None _ _)) with (x := p) in E; [|done]. by rewrite bool_decide_true in E.
Qed.

Lemma coordinator_set cr : coordinator cr ∈ pod_Name <$> pods → coordinator cr ≠ "".
Proof.
  intros (p & -> & Hp)%list_elem_of_fmap. pose proof (co_pods_named _ _ _ _ _ _ Hco) as Hn. rewrite Forall_forall in Hn. by apply Hn.
Qed.

(** *** The three stages *)
Lemma run_new cr k e : I (b_world e) cr k → is_new cr →
  total (Reconcile ns name) (λ r e', ∃ st, patched cr k st e e' ∧ is_chosen (cr <| cr_Status := st |>)) e.
Proof.
  intros HI Hnew. eapply total_Reconcile; [done|]. intros e1 HI1 Hg. unfold restorePhase.
  rewrite bool_decide_true by done. unfold requireRestore. apply total_bind. unfold requiredRestore, listPods.
  co_call (co_pods _ _ _ _ _ _ Hco _ _ _ HI1) as w1 H1. rewrite bool_decide_true by (destruct pods eqn:E; [by destruct (co_pods_ne _ _ _ _ _ _ Hco)|cbn; lia]).
  apply total_bind. destruct (co_now _ _ _ _ _ _ Hco _ _ _ H1) as (now & w2 & Hs2 & HI2). eapply total_bcall; [exact Hs2|].
  apply total_bind. destruct (co_rand _ _ _ _ _ _ Hco w2 cr k (Z.of_nat (length pods))) as (i & w3 & Hs3 & Hi & HI3); [done| |].
  { destruct pods eqn:E; [by destruct (co_pods_ne _ _ _ _ _ _ Hco)|cbn; lia]. }
  eapply total_bcall; [exact Hs3|]. destruct (lookup_lt_is_Some_2 pods (Z.to_nat i)) as [pod Hpod]; [lia|].
  apply total_bind. eapply total_lift; [apply index_spec; split; [lia|exact Hpod]|].
  assert (Hin : pod_Name pod ∈ pod_Name <$> pods) by (apply list_elem_of_fmap_2; by eapply list_elem_of_lookup_2).
  apply total_bind. eapply total_mono; [apply (total_UpdateRestoreStatus cr k); [done|exact Hin]|]. cbv beta.
  intros r e2 [-> Hp]. apply total_ret. eapply total_mono; [apply (total_BRecord _ _ _ _ _ _ _ _ Hp)|]. cbv beta.
  intros _ e3 [_ Hp3]. eexists. split.
  - eapply patched_l; [|exact Hp3]. grow.
  - split; [exact Hin|]. eexists. split; [reflexivity|done].
Qed.

Lemma run_chosen cr k e : I (b_world e) cr k → is_chosen cr →
  total (Reconcile ns name) (λ r e', ∃ st, patched cr k st e e' ∧ is_followed (cr <| cr_Status := st |>)) e.
Proof.
  intros HI (Hin & c & Hc & Hreq). eapply total_Reconcile; [done|]. intros e1 HI1 Hg. unfold restorePhase.
  rewrite bool_decide_false by by apply coordinator_set.
  apply total_bind. eapply total_lift; [by rewrite Hc|]. unfold RestoreConditionType.IsRequired. rewrite bool_decide_true by done.
  unfold launchRestore. apply total_bind. unfold handleRequiredRestore, listPods.
  co_call (co_pods _ _ _ _ _ _ Hco _ _ _ HI1) as w1 H1. destruct (total_NewClient _ Hin) as [base Hclient].
  apply total_bind. eapply total_lift; [exact Hclient|]. apply total_bind.
  unfold PerformRestore, PerformRestoreOperation, PerformOperation. cbn [bk_podClient].
  apply total_bind, total_bind.
  destruct (co_post _ _ _ _ _ _ Hco _ _ _ base (RestoreOperation (restoreRequest cr backup)) H1) as (body & op & w2 & Hs & Hd & Hid & Hst & H2).
  eapply total_bcall; [exact Hs|]. apply total_ret. cbn [performOperation]. rewrite Hd. cbv beta iota.
  apply total_bind. eapply total_lift; [done|]. apply total_bind.
  destruct (co_now _ _ _ _ _ _ Hco _ _ _ H2) as (now & w3 & Hs3 & H3). eapply total_bcall; [exact Hs3|]. apply total_ret.
  apply total_bind. eapply total_mono; [apply (total_UpdateRestoreStatus cr k); [done|exact Hin]|]. cbv beta.
  intros r e2 [-> Hp]. apply total_ret. eapply total_mono; [apply (total_BRecord _ _ _ _ _ _ _ _ Hp)|]. cbv beta.
  intros _ e3 [_ Hp3]. eexists. split; [eapply patched_l; [|exact Hp3]; grow|].
  split; [exact Hin|]. split; [exact Hid|]. eexists. split; [reflexivity|exact Hst].
Qed.

(** The next stage of a restore whose operation was asked about *)
Definition asked k cr : Prop := match k with 0 => is_over cr | S _ => is_followed cr end.

Lemma run_followed cr k e : I (b_world e) cr k → is_followed cr →
  total (Reconcile ns name) (λ r e', ∃ st, patched cr (pred k) st e e' ∧ asked k (cr <| cr_Status := st |>) ∧
    (k = 0 ∨ rr_RequeueAfter r = 20%Z)) e.
Proof.
  intros HI (Hin & Hid & c & Hc & Hprog). eapply total_Reconcile; [done|]. intros e1 HI1 Hg. unfold restorePhase.
  rewrite bool_decide_false by by apply coordinator_set.
  apply total_bind. eapply total_lift; [by rewrite Hc|].
  assert (RestoreConditionType.IsRequired (bc_Type c) = false) as ->.
  { by apply in_progress_others. }
  rewrite Hprog. unfold followRestore. apply total_bind. unfold checkRestoreOperationState, listPods.
  co_call (co_pods _ _ _ _ _ _ Hco _ _ _ HI1) as w1 H1. rewrite bool_decide_false by done.
  destruct (total_NewClient _ Hin) as [base Hclient]. apply total_bind. eapply total_lift; [exact Hclient|].
  apply total_bind. unfold RestoreStatusByID, RestoreOperationByID, OperationByID. cbn [bk_podClient].
  rewrite bool_decide_false by done. apply total_bind, total_bind.
  destruct (co_operation _ _ _ _ _ _ Hco _ _ _ base (bs_ID (cr_Status cr)) H1) as (body & op & w2 & Hs & Hd & Hid' & Hk).
  eapply total_bcall; [exact Hs|]. apply total_ret. cbn [performOperation]. rewrite Hd. cbv beta iota.
  assert (I w2 cr (pred k)) as H2 by (destruct k; apply Hk).
  apply total_bind. eapply total_lift; [done|]. apply total_bind.
  destruct (co_now _ _ _ _ _ _ Hco _ _ _ H2) as (now & w3 & Hs3 & H3). eapply total_bcall; [exact Hs3|]. apply total_ret.
  apply total_bind. eapply total_lift; [done|]. cbv beta iota zeta.
  apply total_bind. eapply total_mono; [apply (total_UpdateRestoreStatus cr (pred k)); [done|exact Hin]|]. cbv beta.
  intros r e2 [-> Hp]. cbn [snd fst]. apply total_bind. eapply total_lift; [reflexivity|].
  match type of Hp with patched _ _ ?st' _ _ => set (st := st') in * end.
  assert (Hp' : patched cr (pred k) st e e2) by (eapply patched_l; [|exact Hp]; grow).
  destruct k as [|k].
  - destruct Hk as [Hfin _]. assert (is_over (cr <| cr_Status := st |>)) as Hover by (eexists; split; [reflexivity|exact Hfin]).
    cbn. apply orb_true_iff in Hfin. destruct (RestoreConditionType.IsInError (op_State op)) eqn:He.
    + apply total_ret. cbn. eapply total_mono; [apply (total_BRecord _ _ _ _ _ _ _ _ Hp')|]. cbv beta. intros r e3 [_ Hp3]. exists st. auto.
    + destruct Hfin as [Hfin|]; [|done]. rewrite Hfin. apply total_ret. cbn.
      eapply total_mono; [apply (total_BRecord _ _ _ _ _ _ _ _ Hp')|]. cbv beta. intros r e3 [_ Hp3]. exists st. auto.
  - destruct Hk as [Hst _]. cbn.
    assert (RestoreConditionType.IsInError (op_State op) = false ∧ RestoreConditionType.IsRestoreCompleted (op_State op) = false) as [-> ->].
    { by apply in_progress_others. }
    apply total_ret. cbn. apply total_ret. exists st. split; [exact Hp'|]. split; [|by right].
    split; [exact Hin|]. split; [exact Hid'|]. eexists. split; [reflexivity|exact Hst].
Qed.

(** *** All the runs *)
Lemma passes_filter cr c : coordinator cr ∈ pod_Name <$> pods → bs_Condition (cr_Status cr) = Some c →
  finished (bc_Type c) = false → restoreUpdateFunc None (Some cr) = Ret true.
Proof.
  intros Hin Hc [Hf1 Hf2]%orb_false_iff. apply coordinator_set in Hin. unfold restoreUpdateFunc, coordinator in *. cbn. rewrite Hc.
  destruct (bs_CoordinatorMember (cr_Status cr)); [done|]. cbn. by rewrite Hf1, Hf2.
Qed.

Lemma due_chosen r cr k st e e' : patched cr k st e e' → is_chosen (cr <| cr_Status := st |>) → next_due r e e'.
Proof.
  intros [_ Hs] (Hin & c & Hc & Ht). right. do 2 eexists. split; [exact Hs|].
  eapply passes_filter; [exact Hin|exact Hc|by rewrite Ht].
Qed.
Lemma due_followed r cr k st e e' : patched cr k st e e' → is_followed (cr <| cr_Status := st |>) → next_due r e e'.
Proof.
  intros [_ Hs] (Hin & _ & c & Hc & (_ & Ht1 & Ht2)%in_progress_others). right. do 2 eexists. split; [exact Hs|].
  eapply passes_filter; [exact Hin|exact Hc|]. unfold finished. by rewrite Ht1, Ht2.
Qed.

Lemma followed_ends cr k e : I (b_world e) cr k → is_followed cr →
  ∃ e' st, driven ns name (S k) e e' ∧ I (b_world e') (cr <| cr_Status := st |>) 0 ∧ is_over (cr <| cr_Status := st |>).
Proof.
  revert cr e. induction k as [|k IH]; intros cr e HI Hf;
    destruct (run_followed _ _ _ HI Hf) as (r & e1 & Hrun & st & Hp & Ha & Hr); cbn in *.
  - exists e1, st. split; [by eapply driven_last|]. by destruct Hp.
  - destruct (IH _ _ (proj1 Hp) Ha) as (e' & st' & Hd & HI' & Ho). exists e', st'. split; [|by destruct cr].
    eapply driven_more; [exact Hrun| |exact Hd]. left. destruct Hr as [?|Hr]; [done|]. rewrite Hr. lia.
Qed.
End run.

(** C17: when the API server and the side cars cooperate, a restore that was created
    comes to its end: whatever number [k] of questions the operation takes, [k + 3] runs
    of the controller are enough.  Each of them returns, without panic, and leaves the
    next one due; after the last the API server stores the restore with a final
    condition (completed, failed or cancelled) and its specification as it was. *)
Theorem restore_comes_to_an_end (ns name : string) (cc : CassandraCluster) (backup : CassandraBackup) (pods : list Pod)
    (I : W → CassandraRestore → nat → Prop) (cr : CassandraRestore) (k : nat) (e : BEnv W)
    (Hco : cooperates ns name cc backup pods I) (HI : I (b_world e) cr k) (Hnew : coordinator cr = "") :
  ∃ e' st, driven ns name (k + 3) e e' ∧ I (b_world e') (cr <| cr_Status := st |>) 0 ∧
    ∃ c, bs_Condition st = Some c ∧ finished (bc_Type c) = true.
Proof.
  destruct (run_new Hco _ _ _ HI Hnew) as (r1 & e1 & Hrun1 & st1 & Hp1 & Hc1).
  destruct (run_chosen Hco _ _ _ (proj1 Hp1) Hc1) as (r2 & e2 & Hrun2 & st2 & Hp2 & Hf2).
  destruct (followed_ends Hco _ _ _ (proj1 Hp2) Hf2) as (e' & st & Hd & HI' & Ho).
  exists e', st. split; [|split; [by destruct cr|by destruct cr]].
  replace (k + 3) with (S (S (S k))) by lia.
  eapply driven_more; [exact Hrun1|by eapply due_chosen|]. eapply driven_more; [exact Hrun2|by eapply due_followed|exact Hd].
Qed.
End restore.

(** ** The goroutine of a backup *)
Section backup.
Context {QL : QuantityLib} {Icarus : IcarusLib} {CronL : CronLib} {Dec : ErrorDecoder} {Codec : BackupCodec}.
Context {W : Type} {Srv : BackupServer W}.

Definition backup_over (type : string) : Prop := type = BackupFailed ∨ type = BackupCompleted.

(** [J w k]: the side car will answer [k] more questions with a state that is not
    final. *)
Record cooperates_backup (J : W → nat → Prop) : Prop := {
  cb_now w k : J w k → ∃ now w', bserve BNow w = (now, w') ∧ J w' k;
  cb_record w k kind reason : J w k → ∃ w', bserve (BRecord kind reason) w = (tt, w') ∧ J w' k;
  cb_patch w k old new : J w k → ∃ w', bserve (BPatchBackup old new) w = (Ok new, w') ∧ J w' k;
  cb_post w k base req : J w k → ∃ body op w', bserve (BPost base req) w = (Ok body, w') ∧
    decode_response body = (Some op, None) ∧ op_Id op ≠ "" ∧ J w' k;
  cb_operation w k base id : J w k → ∃ body op w', bserve (BOperation base id) w = (Ok body, w') ∧
    decode_response body = (Some op, None) ∧
    match k with
    | 0 => backup_over (op_State op) ∧ J w' 0
    | S k => ¬ backup_over (op_State op) ∧ J w' k
    end;
}.

Section run.
Context {J : W → nat → Prop}.
Hypothesis Hco : cooperates_backup J.
Implicit Types (e : BEnv W) (cb : CassandraBackup).

Lemma total_bget addr cb Q e : b_heap e !! addr = Some cb → Q cb e → total (bget addr) Q e.
Proof. intros Hcb HQ. exists cb, e. split; [|done]. unfold bget, gets, lift, mbind, GoM_bind. by rewrite Hcb. Qed.
Lemma total_bset addr f cb Q e :
  b_heap e !! addr = Some cb → Q tt (e <| b_heap ::= alter f addr |>) → total (bset addr f) Q e.
Proof. intros Hcb HQ. unfold bset. apply total_bind. eapply total_bget; [done|]. by eexists _, _. Qed.

(** What one tick asks and stores, given the object before and the answer. *)
Definition told nm now (op : OperationResponse) (cb : CassandraBackup) : CassandraBackup :=
  cb <| cb_Status := ComputeBackupStatus now op nm |>.
Definition tick base nm id cb body now (op : OperationResponse) : list BEvent :=
  [BEv _ (BOperation base id) (Ok body); BEv _ BNow now; BEv _ (BPatchBackup cb (told nm now op cb)) (Ok (told nm now op cb))].
(** The event a final state is reported with. *)
Inductive verdict : string → string → string → Prop :=
| verdict_failed : verdict BackupFailed "Warning" "BackupFailed"
| verdict_completed : verdict BackupCompleted "Normal" "BackupCompleted".

(** The whole trace of an operation that is followed through [k] states that are not
    final: from the object [cb] to the object [new]. *)
Inductive followed base nm id : nat → CassandraBackup → list BEvent → CassandraBackup → Prop :=
| followed_end cb body op now kind reason :
    decode_response body = (Some op, None) → verdict (op_State op) kind reason →
    followed base nm id 0 cb (tick base nm id cb body now op ++ [BEv _ (BRecord kind reason) tt]) (told nm now op cb)
| followed_more k cb body op now l new :
    decode_response body = (Some op, None) → ¬ backup_over (op_State op) →
    followed base nm id k (told nm now op cb) l new →
    followed base nm id (S k) cb (tick base nm id cb body now op ++ l) new.

Lemma total_updateStatus addr st cb k e :
  b_heap e !! addr = Some cb → J (b_world e) k →
  total (updateStatus addr st) (λ ok e', ok = true ∧ b_heap e' !! addr = Some (cb <| cb_Status := st |>) ∧
    extends e e' [BEv _ (BPatchBackup cb (cb <| cb_Status := st |>)) (Ok (cb <| cb_Status := st |>))] ∧ J (b_world e') k) e.
Proof.
  intros Hcb HJ. unfold updateStatus. apply total_bind. eapply total_bget; [exact Hcb|]. apply total_bind.
  eapply total_bset; [exact Hcb|]. apply total_bind. eapply total_bget; [cbn; by rewrite list_lookup_alter_eq, Hcb|].
  apply total_bind. destruct (cb_patch _ Hco _ _ cb (cb <| cb_Status := st |>) HJ) as (w & Hs & HJ'). eapply total_bcall; [exact Hs|].
  cbv beta iota. apply total_bind. eapply total_bset; [cbn; by rewrite list_lookup_alter_eq, Hcb|]. apply total_ret.
  split; [done|]. split; [cbn; by rewrite !list_lookup_alter_eq, Hcb|]. by split.
Qed.

(** One question about the operation *)
Definition state_at (k : nat) (type : string) : Prop := match k with 0 => backup_over type | S _ => ¬ backup_over type end.
Lemma total_BackupStatusByID base nm id k e :
  id ≠ "" → J (b_world e) k →
  total (BackupStatusByID (mkBackrestClient (Some base) nm) id) (λ r e', ∃ body op now,
    r = (ComputeBackupStatus now op nm, None) ∧ decode_response body = (Some op, None) ∧ state_at k (op_State op) ∧
    b_heap e' = b_heap e ∧ extends e e' [BEv _ (BOperation base id) (Ok body); BEv _ BNow now] ∧ J (b_world e') (pred k)) e.
Proof.
  intros Hid HJ. unfold BackupStatusByID, BackupOperationByID, OperationByID. cbn [bk_podClient bk_CoordinatorMember].
  rewrite bool_decide_false by done. apply total_bind, total_bind.
  destruct (cb_operation _ Hco _ _ base id HJ) as (body & op & w1 & Hs & Hd & Hk). eapply total_bcall; [exact Hs|].
  apply total_ret. cbn [performOperation]. rewrite Hd. cbv beta iota. apply total_bind. eapply total_lift; [done|].
  assert (J w1 (pred k) ∧ state_at k (op_State op)) as [HJ1 Hst] by (destruct k; split; apply Hk).
  apply total_bind. destruct (cb_now _ Hco _ _ HJ1) as (now & w2 & Hs2 & HJ2). eapply total_bcall; [exact Hs2|]. apply total_ret.
  exists body, op, now. split_and!; try done. unfold extends. cbn. by rewrite <- (assoc_L (++)).
Qed.

Lemma extends_trans e e1 e2 l1 l2 : extends e e1 l1 → extends e1 e2 l2 → extends e e2 (l1 ++ l2).
Proof. unfold extends. intros E1 E2. by rewrite E2, E1, (assoc_L (++)). Qed.

(** One tick: the state is asked for and stored, and decides how the loop goes on. *)
Lemma poll_tick n base nm addr id cb k Q e :
  id ≠ "" → b_heap e !! addr = Some cb → J (b_world e) k →
  (∀ body op now e1, decode_response body = (Some op, None) → state_at k (op_State op) →
     b_heap e1 !! addr = Some (told nm now op cb) → extends e e1 (tick base nm id cb body now op) → J (b_world e1) (pred k) →
     total (if op_State op == BackupFailed then _ ← bcall (BRecord "Warning" "BackupFailed"); mret Blocked
            else if op_State op == BackupCompleted then _ ← bcall (BRecord "Normal" "BackupCompleted"); mret Blocked
            else pollBackup n (mkBackrestClient (Some base) nm) addr id) Q e1) →
  total (pollBackup (S n) (mkBackrestClient (Some base) nm) addr id) Q e.
Proof.
  intros Hid Hcb HJ Hnext. cbn [pollBackup]. apply total_bind. eapply total_mono; [by apply total_BackupStatusByID|].
  cbv beta. intros r e1 (body & op & now & -> & Hd & Hst & Hh & Hg & HJ1). cbv beta iota. apply total_bind.
  eapply total_mono; [apply (total_updateStatus addr _ cb); [by rewrite Hh|exact HJ1]|]. cbv beta.
  intros ok e2 (-> & Hcb2 & Hg2 & HJ2). cbn [negb]. apply total_bind. eapply total_bget; [exact Hcb2|]. cbn [cb_Status].
  apply total_bind. eapply total_lift; [reflexivity|]. cbn [bc_Type].
  eapply Hnext; [exact Hd|done|exact Hcb2|exact (extends_trans _ _ _ _ _ Hg Hg2)|done].
Qed.

Lemma poll_ends base nm addr id cb k e :
  id ≠ "" → b_heap e !! addr = Some cb → J (b_world e) k →
  total (pollBackup (S k) (mkBackrestClient (Some base) nm) addr id) (λ p e', p = Blocked ∧
    ∃ l new, extends e e' l ∧ followed base nm id k cb l new ∧ b_heap e' !! addr = Some new) e.
Proof.
  intros Hid. revert cb e. induction k as [|k IH]; intros cb e Hcb HJ; (eapply poll_tick; [done..|]);
    intros body op now e1 Hd Hst Hcb1 Hg HJ1.
  - assert (∀ kind reason, verdict (op_State op) kind reason →
      total (_ ← bcall (BRecord kind reason); mret Blocked) (λ p e', p = Blocked ∧
        ∃ l new, extends e e' l ∧ followed base nm id 0 cb l new ∧ b_heap e' !! addr = Some new) e1) as Hend.
    { intros kind reason Hv. apply total_bind. destruct (cb_record _ Hco _ _ kind reason HJ1) as (w & Hs & _).
      eapply total_bcall; [exact Hs|]. apply total_ret. split; [done|]. do 2 eexists.
      split; [eapply extends_trans; [exact Hg|reflexivity]|]. split; [by apply followed_end|exact Hcb1]. }
    case_bool_decide as HF; [apply Hend; rewrite HF; constructor|]. case_bool_decide as HC; [apply Hend; rewrite HC; constructor|].
    by destruct Hst.
  - case_bool_decide as HF; [destruct Hst; by left|]. case_bool_decide as HC; [destruct Hst; by right|].
    eapply total_mono; [by eapply IH|]. cbv beta. intros p e' [-> (l & new & Hl & Hf & Hh)]. split; [done|]. do 2 eexists.
    split; [by eapply extends_trans|]. split; [by apply followed_more|done].
Qed.
End run.

(** C18: when the side car and the API server cooperate, the goroutine of a backup
    posts the operation to the side car and follows it to its end, whatever number
    [k] of questions that takes.  Its whole trace: the request of the backup is posted,
    once and first; each of [k + 1] ticks asks the side car for the operation with the
    id it gave and stores the answer in the status of the backup; the first answer
    with a final state is the last asked for, it stays in the object, and
    [BackupCompleted] or [BackupFailed], as that state says, is recorded last.  (The
    goroutine does not return: it waits on the ticker it stopped.) *)
Theorem backup_comes_to_an_end (J : W → nat → Prop) (k : nat) (base nm : string) (addr : nat) (cb : CassandraBackup) (e : BEnv W)
    (Hco : cooperates_backup J) (HJ : J (b_world e) k) (Hcb : b_heap e !! addr = Some cb) :
  ∃ e' body op l new, backup (S k) (Some (mkBackrestClient (Some base) nm)) addr e = Ret (Some Blocked, e') ∧
    extends e e' (BEv _ (BPost base (BackupOperation (backupRequest cb))) (Ok body) ::
                  BEv _ (BRecord "Normal" "BackupInitiated") tt :: l) ∧
    decode_response body = (Some op, None) ∧ followed base nm (op_Id op) k cb l new ∧ b_heap e' !! addr = Some new.
Proof.
  unfold backup.
  destruct (cb_post _ Hco _ _ base (BackupOperation (backupRequest cb)) HJ) as (body & op & w1 & Hs & Hd & Hid & HJ1).
  destruct (cb_record _ Hco _ _ "Normal" "BackupInitiated" HJ1) as (w2 & Hs2 & HJ2).
  match goal with |- ∃ e' _ _ _ _, ?m e = _ ∧ _ =>
    assert (total m (λ r e', r = Some Blocked ∧ ∃ l new,
      extends e e' (BEv _ (BPost base (BackupOperation (backupRequest cb))) (Ok body) ::
                    BEv _ (BRecord "Normal" "BackupInitiated") tt :: l) ∧
      followed base nm (op_Id op) k cb l new ∧ b_heap e' !! addr = Some new) e)
      as (r & e' & Hrun & -> & l & new & H); [|exists e', body, op, l, new; split; [exact Hrun|by destruct_and! H]]
  end.
  apply total_bind. eapply total_bget; [exact Hcb|]. apply total_bind.
  unfold PerformBackup, PerformBackupOperation, PerformOperation. apply total_bind. eapply total_lift; [done|]. cbn [bk_podClient].
  apply total_bind, total_bind. eapply total_bcall; [exact Hs|]. apply total_ret. cbn [performOperation]. rewrite Hd. cbv beta iota.
  apply total_bind. eapply total_lift; [done|]. apply total_ret. cbv beta iota. apply total_bind. eapply total_bcall; [exact Hs2|].
  apply total_bind. eapply total_lift; [done|]. apply total_bind.
  eapply total_mono; [eapply (poll_ends Hco); [exact Hid|exact Hcb|exact HJ2]|]. cbv beta. intros p e' [-> (l & new & Hl & Hf)].
  apply total_ret. split; [done|]. exists l, new. split; [|exact Hf]. unfold extends in *. rewrite Hl. cbn. by rewrite <- !(assoc_L (++)).
Qed.
End backup.

(** ** An instance: one state in progress, then the end *)
Section instance.
#[local] Existing Instance SampleQuantities.

Definition fake_stores (w : FakeWorld) (cr : CassandraRestore) (k : nat) : Prop :=
  w_restores w !! "restore" = Some cr ∧ cr_Meta cr = named "ns" "restore" ∧ crs_CassandraBackup (cr_Spec cr) = "once" ∧
  w_cc w = Some backup_cc ∧ w_backups w !! "once" = Some once ∧ w_pods w = [backup_pod] ∧ w_reachable w = true ∧
  w_states w = replicate k "RUNNING".

Lemma fake_cooperates : cooperates (W:=FakeWorld) "ns" "restore" backup_cc once [backup_pod] fake_stores.
Proof.
  split; [done|by apply Forall_singleton|..].
  - intros w cr k H. exists w. destruct H as (H1 & H). split; [cbn; by rewrite H1|by split].
  - intros w cr k H. pose proof H as (_ & _ & _ & H4 & _). exists w. split; [cbn; by rewrite H4|exact H].
  - intros w cr k H. pose proof H as (_ & _ & H3 & _ & H5 & _). exists w. split; [cbn; by rewrite H3, H5|exact H].
  - intros w cr k H. pose proof H as (_ & _ & _ & _ & _ & H6 & _). exists w. split; [|exact H].
    unfold bserve, FakeBackupServer, fake_bserve. by rewrite H6.
  - intros w cr k H. by exists "now", w.
  - intros w cr k n H Hn. exists 0%Z, w. split; [done|]. split; [lia|exact H].
  - intros w cr k kind reason H. by exists w.
  - intros w cr k st (H1 & H2 & H3 & H4 & H5 & H6 & H7 & H8) _. eexists. split; [reflexivity|]. split_and!; try done.
    cbn. rewrite H2. apply lookup_insert_eq.
  - intros w cr k base req H. exists (Some (response "PENDING")), (response "PENDING"), w.
    pose proof H as (_ & _ & _ & _ & _ & _ & H7 & _). split; [cbn; by rewrite H7|by split_and!].
  - intros w cr k base id (H1 & H2 & H3 & H4 & H5 & H6 & H7 & H8). destruct k; do 3 eexists;
      (split; [cbn; rewrite H7, H8; reflexivity|]); repeat (split; [done|]); cbn; by rewrite H8.
Qed.

Abbreviation going_on := (holding [once] (backup_world [once])).
Lemma fake_cooperates_backup :
  cooperates_backup (W:=FakeWorld) (λ w k, w_reachable w = true ∧ w_states w = replicate k "RUNNING").
Proof.
  split; intros w k.
  - intros H. by exists "now", w.
  - intros kind reason H. by exists w.
  - intros old new H. eexists. split; [reflexivity|exact H].
  - intros base req [H1 H2]. exists (Some (response "PENDING")), (response "PENDING"), w. split; [cbn; by rewrite H1|done].
  - intros base id [H1 H2]. destruct k; do 3 eexists; (split; [cbn; rewrite H1, H2; reflexivity|]);
      (split; [done|]); (split; [|split; [done|cbn; by rewrite H2]]); [by right|by intros [[=]|[=]]].
Qed.

Lemma backup_comes_to_an_end_witness :
  ∃ e' body op l new, backup 2 (Some (mkBackrestClient (Some "http://pod:4567") "pod")) 0 going_on = Ret (Some Blocked, e') ∧
    extends going_on e' (BEv _ (BPost "http://pod:4567" (BackupOperation (backupRequest once))) (Ok body) ::
                         BEv _ (BRecord "Normal" "BackupInitiated") tt :: l) ∧
    decode_response body = (Some op, None) ∧ followed "http://pod:4567" "pod" (op_Id op) 1 once l new ∧ b_heap e' !! 0 = Some new.
Proof.
  apply (backup_comes_to_an_end (λ w k, w_reachable w = true ∧ w_states w = replicate k "RUNNING") 1
    "http://pod:4567" "pod" 0 once going_on fake_cooperates_backup); [split; reflexivity|reflexivity].
Defined.

Abbreviation restore_start := (bstart (restore_world restore_new)).
(** Four runs. *)
Lemma restore_comes_to_an_end_witness :
  ∃ e' st, driven (W:=FakeWorld) "ns" "restore" 4 restore_start e' ∧
    w_restores (b_world e') !! "restore" = Some (restore_new <| cr_Status := st |>) ∧
    ∃ c, bs_Condition st = Some c ∧ finished (bc_Type c) = true.
Proof.
  destruct (restore_comes_to_an_end "ns" "restore" backup_cc once [backup_pod] fake_stores restore_new 1 restore_start)
    as (e' & st & Hd & HI & Hc).
  - apply fake_cooperates.
  - repeat split.
  - reflexivity.
  - exists e', st. split; [exact Hd|]. split; [exact (proj1 HI)|exact Hc].
Defined.
End instance.
