(* ===== verification/MultiCasskop.v ===== *)
(** * The multi-cluster operator (src/multi-casskop)

    A [MultiCasskop] holds a base [CassandraCluster] and an override per Kubernetes
    cluster.  The loop goes through the clients of these clusters, the local one
    first: it brings the resource of one cluster up to date, and waits for it to be
    running before it touches the next. *)
From S2P Require Import Prelude KubeObjects Types ClusterApi Server FakeCluster.

(** ** api/v2 *)
Section types.
Context {QL : QuantityLib}.
Record MultiCasskopSpec := mkMultiSpec {
  DeleteCassandraCluster : option bool;
  Base : CassandraCluster;
  Override : gmap string CassandraCluster }.
Record MultiCasskop := mkMulti { cmc_Meta : ObjectMeta; cmc_Spec : MultiCasskopSpec }.
#[global] Instance eta_Multi : Eta MultiCasskop := λ x, mkMulti (cmc_Meta x) (cmc_Spec x).

(** ** Third-party code

    [mergo.Merge] with override, its error ignored: what it leaves in the base; and
    [apiequality.Semantic.DeepEqual] on specifications and seed lists. *)
Class MultiLib := {
  Merge : CassandraCluster → CassandraCluster → CassandraCluster;
  spec_equal : CassandraClusterSpec → CassandraClusterSpec → bool;
  seeds_equal : option (list string) → option (list string) → bool;
  (** [cluster.GetDelegatingClient] and the registration of the two APIs *)
  GetDelegatingClient : string → option error;
  AddCassandraClusterToScheme : string → option error;
  AddMultiCasskopToScheme : string → option error;
}.

(** ** clients.go, clusters.go: a client is known by the name of its cluster *)
Record Client := mkClient { client_Name : string }.
Record Clients := mkClients { Local : Client; Remotes : list Client }.
Definition FlatClients (c : Clients) : list Client := [Local c] ++ Remotes c.

Record Clusters := mkClusters { cl_Local : string; cl_Remotes : list string }.

(** ** Requests *)
Inductive MReq : Type → Type :=
| MGet (ns name : string) : MReq (result MultiCasskop)
| MUpdate (cmc : MultiCasskop) : MReq (result MultiCasskop)
| MGetCC (client ns name : string) : MReq (result CassandraCluster)
| MCreateCC (client : string) (cc : CassandraCluster) : MReq (option error)
| MUpdateCC (client : string) (cc : CassandraCluster) : MReq (option error)
| MDeleteCC (client : string) (cc : CassandraCluster) : MReq (option error).
Inductive MEvent := MEv (A : Type) (r : MReq A) (answer : A).
Class MultiServer (W : Type) := mserve : ∀ A : Type, MReq A → W → A * W.
Record MEnv (W : Type) := mkMEnv { x_world : W; x_log : list MEvent; x_cmc : MultiCasskop }.
End types.
#[global] Arguments mserve {QL W _ A} _ _.
#[global] Arguments mkMEnv {QL W} _ _ _.
#[global] Arguments x_world {QL W} _.
#[global] Arguments x_log {QL W} _.
#[global] Arguments x_cmc {QL W} _.
#[export] Instance eta_MEnv `{QuantityLib} W : Eta (MEnv W) := λ x, mkMEnv (x_world x) (x_log x) (x_cmc x).

Abbreviation MM W := (GoM (MEnv W)) (only parsing).

(** [reconcile.Result] *)
Inductive MultiResult := Forget | Requeue | RequeueAfter (seconds : Z).

Section controller.
Context {QL : QuantityLib} {Lib : MultiLib} {W : Type} {Srv : MultiServer W}.

Definition mcall {A} (r : MReq A) : MM W A := λ e,
  let '(a, w) := mserve r (x_world e) in
  Ret (a, e <| x_world := w |> <| x_log ::= λ l, l ++ [MEv _ r a] |>).

(** ** clusters.go *)
Definition SetUpClient (cluster : string) : result Client :=
  match GetDelegatingClient cluster with
  | Some e => Err e
  | None =>
      match AddCassandraClusterToScheme cluster with
      | Some e => Err e
      | None => match AddMultiCasskopToScheme cluster with Some e => Err e | None => Ok (mkClient cluster) end
      end
  end.
Fixpoint setUpRemotes (clusters : list string) (remotes : list Client) : result (list Client) :=
  match clusters with
  | [] => Ok remotes
  | c :: clusters => match SetUpClient c with Err e => Err e | Ok client => setUpRemotes clusters (remotes ++ [client]) end
  end.
Definition SetUpClients (clusters : Clusters) : result Clients :=
  match SetUpClient (cl_Local clusters) with
  | Err e => Err e
  | Ok local =>
      match setUpRemotes (cl_Remotes clusters) [] with
      | Err e => Err e
      | Ok remotes => Ok (mkClients local remotes)
      end
  end.

(** ** cmc_utils.go *)
Definition ReadyCassandraCluster (cc : CassandraCluster) : bool :=
  (s_Phase (cc_Status cc) == Name ClusterPhaseRunning) &&
  (s_LastClusterActionStatus (cc_Status cc) == StatusDone).

Definition UnsetRollingRestart (storedCC : CassandraCluster) : CassandraCluster :=
  storedCC <| cc_Spec ::= λ s, s <| spec_Topology ::= λ dcs,
    (λ dc, dc <| dc_Rack ::= λ racks, (λ r, r <| RollingRestart := false |>) <$> racks |>) <$> dcs |> |>.

(** An update that is answered with AlreadyExists counts as done. *)
Definition CreateCassandraCluster (client : Client) (cc : CassandraCluster) : MM W (option error) :=
  err ← mcall (MCreateCC (client_Name client) cc);
  match err with Some e => mret (if IsAlreadyExists e then None else Some e) | None => mret None end.
Definition UpdateCassandraCluster (client : Client) (cc : CassandraCluster) : MM W (option error) :=
  err ← mcall (MUpdateCC (client_Name client) cc);
  match err with Some e => mret (if IsAlreadyExists e then None else Some e) | None => mret None end.

(** Fields the user left empty are taken from the stored resource. *)
Definition inheritFields (cc storedCC : CassandraCluster) : CassandraCluster :=
  let stored := cc_Spec storedCC in
  cc <| cc_Spec ::= λ s, s
    <| RunAsUser ::= λ u, if (u == 0%Z) && (u != RunAsUser stored) then RunAsUser stored else u |>
    <| FSGroup ::= λ g, if (g == 0%Z) && (g != FSGroup stored) then FSGroup stored else g |>
    <| ServerType ::= λ t, if (t == "") && (t != ServerType stored) then ServerType stored else t |> |>.

(** The two comparisons: the resource to store and whether it differs.  The
    specification is copied before [AutoUpdateSeedList] of the desired one is
    cleared, so that the stored one keeps what the user asked for. *)
Definition compareClusters (cc storedCC : CassandraCluster) : CassandraCluster * bool :=
  let '(storedCC, needUpdate) :=
    if spec_equal (cc_Spec storedCC) (cc_Spec cc) then (storedCC, false)
    else (storedCC <| cc_Spec := cc_Spec cc |>, true) in
  let cc := cc <| cc_Spec ::= λ s, s <| AutoUpdateSeedList := false |> |> in
  let seeds := s_SeedList (cc_Status cc) in
  if bool_decide (seeds ≠ None) && negb (seeds_equal (s_SeedList (cc_Status storedCC)) seeds)
  then (storedCC <| cc_Status ::= λ st, st <| s_SeedList := seeds |> |>, true)
  else (storedCC, needUpdate).

(** Whether something was written, the stored resource (as far as it is used), and
    the error. *)
Definition CreateOrUpdateCassandraCluster (client : Client) (cc : CassandraCluster)
  : MM W (bool * CassandraCluster * option error) :=
  r ← mcall (MGetCC (client_Name client) (cc_Namespace cc) (cc_Name cc));
  match r with
  | Err e =>
      if IsNotFound e then err ← CreateCassandraCluster client cc; mret (true, cc, err)
      else mret (false, cc, Some e)
  | Ok storedCC =>
      let storedCC := UnsetRollingRestart storedCC in
      let '(storedCC, needUpdate) := compareClusters (inheritFields cc storedCC) storedCC in
      if needUpdate : bool then err ← UpdateCassandraCluster client storedCC; mret (true, storedCC, err)
      else mret (false, storedCC, None)
  end.

(** ** multi-casskop_controller.go *)
Definition modify_cmc (f : MultiCasskop → MultiCasskop) : MM W unit := modify (λ e, e <| x_cmc ::= f |>).

Definition preventMultiDeletion (value : bool) (cmc : MultiCasskop) : MultiCasskop :=
  cmc <| cmc_Meta ::= λ m, m <| m_Finalizers := if value then ["kubernetes.io/multi-casskop"] else [] |> |>.

(** The pointer to the flag is dereferenced. *)
Definition updateDeletetrategy : MM W bool :=
  cmc ← gets x_cmc;
  delete ← lift (deref (DeleteCassandraCluster (cmc_Spec cmc)));
  if delete && bool_decide (length (m_Finalizers (cmc_Meta cmc)) = 0) then
    _ ← modify_cmc (preventMultiDeletion true); mret true
  else mret false.

(** The range over the overrides stops at the client's own. *)
Definition computeCassandraClusterForContext (cmc : MultiCasskop) (client : Client) : option CassandraCluster :=
  match Override (cmc_Spec cmc) !! client_Name client with
  | Some override => Some (CheckDefaults (Merge (Base (cmc_Spec cmc)) override))
  | None => None
  end.

Definition deleteCassandraCluster (client : Client) (cc : CassandraCluster) : MM W (option error) :=
  mcall (MDeleteCC (client_Name client) cc).

(** The body of the loop over the clients. *)
Definition reconcileClient (client : Client) : MM W (option (MultiResult * option error)) :=
  cmc ← gets x_cmc;
  match computeCassandraClusterForContext cmc client with
  | None => mret None
  | Some cc =>
      if bool_decide (m_DeletionTimestamp (cmc_Meta cmc) ≠ None) then _ ← deleteCassandraCluster client cc; mret None
      else
        '(update, storedCC, err) ← CreateOrUpdateCassandraCluster client cc;
        match err with
        | Some e => mret (Some (RequeueAfter 5, Some e))
        | None =>
            if (update : bool) then mret (Some (RequeueAfter 30, None))
            else if negb (ReadyCassandraCluster storedCC) then mret (Some (RequeueAfter 30, None))
            else mret None
        end
  end.

Definition updateMulti : MM W (option error) :=
  cmc ← gets x_cmc;
  r ← mcall (MUpdate cmc);
  match r with Ok cmc => _ ← modify_cmc (λ _, cmc); mret None | Err e => mret (Some e) end.

Definition Reconcile (clients : Clients) (namespace reqNamespace reqName : string) : MM W (MultiResult * option error) :=
  if reqNamespace != namespace then mret (Forget, None)
  else
    r ← mcall (MGet reqNamespace reqName);
    match r with
    | Err e => if IsNotFound e then mret (Forget, None) else mret (Requeue, Some e)
    | Ok cmc =>
        _ ← modify_cmc (λ _, cmc);
        changed ← updateDeletetrategy;
        if changed : bool then err ← updateMulti; mret (Requeue, err)
        else
          stop ← range_return (FlatClients clients) reconcileClient;
          match stop with
          | Some result => mret result
          | None =>
              cmc ← gets x_cmc;
              if bool_decide (m_DeletionTimestamp (cmc_Meta cmc) ≠ None) then
                _ ← modify_cmc (preventMultiDeletion false);
                err ← updateMulti; mret (Forget, err)
              else mret (RequeueAfter 30, None)
          end
    end.
End controller.

(** ** What a run writes *)
Section theorems.
Context {QL : QuantityLib} {Lib : MultiLib} {W : Type} {Srv : MultiServer W}.

Definition is_write (ev : MEvent) : bool :=
  match ev with MEv _ (MGet _ _) _ | MEv _ (MGetCC _ _ _) _ => false | _ => true end.
Definition writes (e e' : MEnv W) (ws : list MEvent) : Prop :=
  ∃ l, x_log e' = x_log e ++ l ∧ List.filter is_write l = ws.
Definition msince (e e' : MEnv W) (ev : MEvent) : Prop := ∃ l, x_log e' = x_log e ++ l ∧ ev ∈ l.

(** The environment after a request. *)
Definition manswered {A} (r : MReq A) (a : A) (w : W) (e : MEnv W) : MEnv W :=
  e <| x_world := w |> <| x_log ::= λ l, l ++ [MEv _ r a] |>.
Lemma wp_mcall {A} (r : MReq A) Q (e : MEnv W) : (∀ a w, Q a (manswered r a w e)) → wp (mcall r) Q e.
Proof. intros HQ. unfold wp, mcall. destruct (mserve r (x_world e)). apply HQ. Qed.

Lemma writes_refl (e : MEnv W) : writes e e [].
Proof. exists []. by rewrite app_nil_r. Qed.
Lemma writes_trans (e1 e2 e3 : MEnv W) : writes e1 e2 [] → writes e2 e3 [] → writes e1 e3 [].
Proof. intros (l1 & E1 & H1) (l2 & E2 & H2). exists (l1 ++ l2). by rewrite E2, E1, (assoc_L (++)), List.filter_app, H1, H2. Qed.
Lemma writes_answered {A} (r : MReq A) a w (e0 e : MEnv W) ws :
  writes e0 e ws → writes e0 (manswered r a w e) (ws ++ List.filter is_write [MEv _ r a]).
Proof.
  intros (l & E & <-). exists (l ++ [MEv _ r a]). cbn [manswered]. split; [|apply List.filter_app].
  unfold manswered. cbn. by rewrite E, (assoc_L (++)).
Qed.
Lemma writes_read {A} (r : MReq A) a w (e0 e : MEnv W) ws :
  is_write (MEv _ r a) = false → writes e0 e ws → writes e0 (manswered r a w e) ws.
Proof. intros Hr He. apply (writes_answered r a w) in He. cbn [List.filter] in He. rewrite Hr in He. by rewrite app_nil_r in He. Qed.
Lemma writes_same (e0 e e' : MEnv W) ws : x_log e' = x_log e → writes e0 e ws → writes e0 e' ws.
Proof. intros E (l & El & Hl). exists l. by rewrite E. Qed.
Lemma msince_answered {A} (r : MReq A) a w (e0 e : MEnv W) ws :
  writes e0 e ws → msince e0 (manswered r a w e) (MEv _ r a).
Proof. intros (l & E & _). exists (l ++ [MEv _ r a]). cbn. rewrite E, (assoc_L (++)). split; [done|]. apply elem_of_app. right. by left. Qed.
Lemma msince_app (e0 e e' : MEnv W) l ev : x_log e' = x_log e ++ l → msince e0 e ev → msince e0 e' ev.
Proof. intros E (l0 & E0 & Hin). exists (l0 ++ l). rewrite E, E0, (assoc_L (++)). split; [done|]. apply elem_of_app. by left. Qed.

(** The stored resource is the desired one, and it runs. *)
Definition settled (cc stored : CassandraCluster) : Prop :=
  let s := UnsetRollingRestart stored in
  spec_equal (cc_Spec s) (cc_Spec (inheritFields cc s)) = true ∧
  (s_SeedList (cc_Status cc) = None ∨ seeds_equal (s_SeedList (cc_Status stored)) (s_SeedList (cc_Status cc)) = true) ∧
  ReadyCassandraCluster stored = true.
(** The answer to the reading of the client's resource *)
Definition got (e0 e : MEnv W) (client : Client) (cc : CassandraCluster) (r : result CassandraCluster) : Prop :=
  msince e0 e (MEv _ (MGetCC (client_Name client) (cc_Namespace cc) (cc_Name cc)) r).
Definition settled_at (cmc : MultiCasskop) (e0 e : MEnv W) (client : Client) : Prop :=
  ∀ cc, computeCassandraClusterForContext cmc client = Some cc → ∃ stored, got e0 e client cc (Ok stored) ∧ settled cc stored.

(** The write of one client: a resource that was not found is created as desired, one
    that was read and differs is replaced. *)
Inductive write_of (e0 e : MEnv W) (client : Client) (cc : CassandraCluster) : MEvent → Prop :=
| write_create err a :
    got e0 e client cc (Err err) → IsNotFound err = true → write_of e0 e client cc (MEv _ (MCreateCC (client_Name client) cc) a)
| write_update stored new a :
    let s := UnsetRollingRestart stored in
    got e0 e client cc (Ok stored) → compareClusters (inheritFields cc s) s = (new, true) →
    write_of e0 e client cc (MEv _ (MUpdateCC (client_Name client) new) a).
(** What keeps a run at a client without a write: its resource cannot be read, or is
    the desired one and does not run yet. *)
Inductive waits_for (e0 e : MEnv W) (client : Client) (cc : CassandraCluster) : Prop :=
| waits_read err : got e0 e client cc (Err err) → IsNotFound err = false → waits_for e0 e client cc
| waits_ready stored :
    got e0 e client cc (Ok stored) → ReadyCassandraCluster stored = false → waits_for e0 e client cc.

Lemma compareClusters_same cc stored new :
  compareClusters cc stored = (new, false) →
  new = stored ∧ spec_equal (cc_Spec stored) (cc_Spec cc) = true ∧
  (s_SeedList (cc_Status cc) = None ∨ seeds_equal (s_SeedList (cc_Status stored)) (s_SeedList (cc_Status cc)) = true).
Proof.
  unfold compareClusters. destruct (spec_equal _ _); cbn.
  - destruct (_ && _) eqn:E; [done|]. intros [= <-]. split_and!; [done|done|].
    apply andb_false_iff in E as [E|E]; [left|right; by apply negb_false_iff in E].
    apply bool_decide_eq_false in E. by apply dec_stable in E.
  - by destruct (_ && _).
Qed.

Lemma wp_CreateOrUpdate client cc (e0 e : MEnv W) :
  writes e0 e [] →
  wp (CreateOrUpdateCassandraCluster client cc) (λ '(update, storedCC, err) e',
    x_cmc e' = x_cmc e ∧ (∃ l, x_log e' = x_log e ++ l) ∧
    ((update = true ∧ ∃ ev, writes e0 e' [ev] ∧ write_of e0 e' client cc ev) ∨
     (update = false ∧ writes e0 e' [] ∧
      if decide (err = None)
      then ∃ stored, got e0 e' client cc (Ok stored) ∧ ReadyCassandraCluster stored = ReadyCassandraCluster storedCC ∧
        (ReadyCassandraCluster storedCC = true → settled cc stored)
      else waits_for e0 e' client cc))) e.
Proof.
  intros He. unfold CreateOrUpdateCassandraCluster. apply wp_bind, wp_mcall. intros [stored|err] w.
  - set (s := UnsetRollingRestart stored).
    set (e1 := manswered _ _ _ _). assert (writes e0 e1 []) as H1 by by apply writes_read.
    assert (got e0 e1 client cc (Ok stored)) as Hm by by eapply msince_answered.
    assert (x_cmc e1 = x_cmc e ∧ ∃ l, x_log e1 = x_log e ++ l) as [Hc [l Hl]] by (split; [done|by eexists]). clearbody e1.
    destruct (compareClusters (inheritFields cc s) s) as [new [|]] eqn:Ecmp.
    + unfold UpdateCassandraCluster. apply wp_bind, wp_bind, wp_mcall. intros a w2.
      assert (writes e0 (manswered (MUpdateCC (client_Name client) new) a w2 e1) [MEv _ (MUpdateCC (client_Name client) new) a]) as Hw
        by exact (writes_answered (MUpdateCC (client_Name client) new) a w2 e0 e1 [] H1).
      destruct a as [a|]; wp_steps; (split; [done|]; split; [eexists; cbn; by rewrite Hl, <- (assoc_L (++))|];
        left; split; [done|]; eexists; split; [exact Hw|eapply write_update; [by eapply msince_app|done]]).
    + apply compareClusters_same in Ecmp as (-> & Hspec & Hseeds). wp_steps. split; [done|]. split; [by eexists|].
      right. split_and!; [done|done|]. exists stored. split; [done|]. split; [done|]. intros Hready. by split.
  - pose proof (msince_answered (MGetCC (client_Name client) (cc_Namespace cc) (cc_Name cc)) (Err err) w e0 e _ He) as Hm.
    wp_step; unfold CreateCassandraCluster.
    + apply wp_bind, wp_bind, wp_mcall. intros a w2.
      set (e1 := manswered (MCreateCC _ _) _ _ _). assert (writes e0 e1 [MEv _ (MCreateCC (client_Name client) cc) a]) as Hw
        by (apply (writes_answered (MCreateCC (client_Name client) cc) a w2 e0 _ []); by apply writes_read).
      destruct a as [a|]; wp_steps; (split; [done|]; split; [eexists; cbn; by rewrite <- (assoc_L (++))|];
        left; split; [done|]; eexists; split; [exact Hw|eapply write_create; [by eapply msince_app|done]]).
    + wp_steps. split; [done|]. split; [by eexists|]. right. split_and!; [done|by apply writes_read|]. cbn. by eapply waits_read.
Qed.

(** The run stopped at [client], after it wrote its resource or with a reason to wait,
    and found those before it settled. *)
Definition stopped_at (cmc : MultiCasskop) (all : list Client) (e0 e : MEnv W) (ws : list MEvent) : Prop :=
  ∃ before client after, all = before ++ client :: after ∧ Forall (settled_at cmc e0 e) before ∧ writes e0 e ws ∧
    ∃ cc, computeCassandraClusterForContext cmc client = Some cc ∧
      ((ws = [] ∧ waits_for e0 e client cc) ∨ ∃ ev, ws = [ev] ∧ write_of e0 e client cc ev).

(** The loop went through [all], or stopped. *)
Definition visited {R} (cmc : MultiCasskop) (all : list Client) (e0 : MEnv W) (r : option R) (e : MEnv W) : Prop :=
  x_cmc e = cmc ∧
  match r with
  | None => writes e0 e [] ∧ Forall (settled_at cmc e0 e) all
  | Some _ => ∃ ws, stopped_at cmc all e0 e ws
  end.

Lemma settled_at_app cmc (e0 e e' : MEnv W) l clients :
  x_log e' = x_log e ++ l → Forall (settled_at cmc e0 e) clients → Forall (settled_at cmc e0 e') clients.
Proof.
  intros Hl Hall. eapply Forall_impl; [exact Hall|]. intros c Hc cc' Hcc'. destruct (Hc cc' Hcc') as (st & Hm & Hs). exists st.
  split; [by eapply msince_app|done].
Qed.

(** The loop, when nothing is deleted: [pre] are the clients it went past. *)
Lemma wp_clients cmc l pre (e0 e : MEnv W) :
  x_cmc e = cmc → m_DeletionTimestamp (cmc_Meta cmc) = None → writes e0 e [] → Forall (settled_at cmc e0 e) pre →
  wp (range_return l reconcileClient) (visited cmc (pre ++ l) e0) e.
Proof.
  revert pre e. induction l as [|client l IH]; intros pre e Hcmc Hdel Hw Hpre.
  { apply wp_ret. split; [done|]. by rewrite app_nil_r. }
  assert (∀ e', x_cmc e' = cmc → writes e0 e' [] → Forall (settled_at cmc e0 e') (pre ++ [client]) →
    wp (range_return l reconcileClient) (visited cmc (pre ++ client :: l) e0) e') as Hnext.
  { intros e' Hc' Hw' Hs'. specialize (IH (pre ++ [client]) e' Hc' Hdel Hw' Hs'). by rewrite <- (assoc_L (++)) in IH. }
  cbn [range_return]. apply wp_bind. unfold reconcileClient. apply wp_bind, wp_gets. rewrite Hcmc.
  destruct (computeCassandraClusterForContext cmc client) as [cc|] eqn:Ecc.
  2:{ apply wp_ret, Hnext; [done|done|]. apply Forall_app_2; [done|]. repeat constructor. intros cc. by rewrite Ecc. }
  rewrite bool_decide_false by (by rewrite Hdel; intros []). apply wp_bind. eapply wp_mono; [by apply wp_CreateOrUpdate|]. cbv beta.
  intros [[update storedCC] err] e1 (Hc1 & [l1 Hl1] & Hres). eapply settled_at_app in Hpre; [|exact Hl1].
  assert (∀ res : MultiResult * option error, ((∃ ev, writes e0 e1 [ev] ∧ write_of e0 e1 client cc ev) ∨
    (writes e0 e1 [] ∧ waits_for e0 e1 client cc)) → visited cmc (pre ++ client :: l) e0 (Some res) e1) as Hstop.
  { intros res H. split; [congruence|]. destruct H as [(ev & Hev & Hwr)|[Hev Hwait]]; eexists _, pre, client, l;
      (split_and!; [done|done|exact Hev|]); exists cc; (split; [done|]); [right; eauto|by left]. }
  destruct Hres as [(-> & Hwr)|(-> & Hw1 & Hst)]; [destruct err as [err|]; apply wp_ret, Hstop; by left|].
  destruct err as [err|]; cbn in Hst; [apply wp_ret, Hstop; by right|].
  destruct Hst as (stored & Hm & Hr & Hsettled).
  destruct (ReadyCassandraCluster storedCC) eqn:Er; [|apply wp_ret, Hstop; right; split; [done|by eapply waits_ready]].
  apply wp_ret, Hnext; [congruence|done|]. apply Forall_app_2; [done|]. repeat constructor. intros cc' Hcc'.
  rewrite Ecc in Hcc'. simplify_eq. eauto.
Qed.

(** When the resource is deleted: the requests, and the finalizers at the end. *)
Definition deletion (ev : MEvent) : option (string * CassandraCluster) :=
  match ev with MEv _ (MDeleteCC client cc) _ => Some (client, cc) | _ => None end.
Definition to_delete (cmc : MultiCasskop) (client : Client) : option (string * CassandraCluster) :=
  pair (client_Name client) <$> computeCassandraClusterForContext cmc client.

Lemma wp_deletions cmc l (e0 e : MEnv W) ws :
  x_cmc e = cmc → m_DeletionTimestamp (cmc_Meta cmc) ≠ None → writes e0 e ws →
  wp (range_return l reconcileClient) (λ r e', r = None ∧ x_cmc e' = cmc ∧
    ∃ ws', writes e0 e' (ws ++ ws') ∧ deletion <$> ws' = Some <$> omap (to_delete cmc) l) e.
Proof.
  revert e ws. induction l as [|client l IH]; intros e ws Hcmc Hdel Hw.
  { apply wp_ret. split_and!; [done|done|]. exists []. by rewrite app_nil_r. }
  cbn [range_return]. apply wp_bind. unfold reconcileClient at 1. apply wp_bind, wp_gets. rewrite Hcmc.
  cbn [omap list_omap]. unfold to_delete at 1.
  destruct (computeCassandraClusterForContext cmc client) as [cc|]; cbn.
  - rewrite bool_decide_true by done. apply wp_bind. unfold deleteCassandraCluster. apply wp_mcall. intros a w. apply wp_ret.
    eapply wp_mono; [apply (IH _ (ws ++ [MEv _ (MDeleteCC (client_Name client) cc) a])); [done|done|]|].
    { exact (writes_answered (MDeleteCC (client_Name client) cc) a w e0 e ws Hw). }
    cbv beta. intros r e' (-> & Hc & ws' & Hw' & Hd). split_and!; [done|done|].
    exists (MEv _ (MDeleteCC (client_Name client) cc) a :: ws'). rewrite <- (assoc_L (++)) in Hw'. split; [done|]. cbn. by rewrite Hd.
  - apply wp_ret. by apply IH.
Qed.

Lemma wp_updateMulti (e0 e : MEnv W) ws :
  writes e0 e ws → wp updateMulti (λ _ e', ∃ a, writes e0 e' (ws ++ [MEv _ (MUpdate (x_cmc e)) a]) ∧ ∃ l, x_log e' = x_log e ++ l) e.
Proof.
  intros Hw. unfold updateMulti. apply wp_bind, wp_gets, wp_bind, wp_mcall. intros a w.
  apply (writes_answered (MUpdate (x_cmc e)) a w) in Hw. cbn in Hw. destruct a as [cmc|err].
  - apply wp_bind, wp_modify, wp_ret. exists (Ok cmc). split; [by eapply writes_same; [|exact Hw]|by eexists].
  - apply wp_ret. exists (Err err). split; [done|by eexists].
Qed.

(** The finalizer that should keep the resource is missing. *)
Definition unguarded (cmc : MultiCasskop) : Prop :=
  DeleteCassandraCluster (cmc_Spec cmc) = Some true ∧ m_Finalizers (cmc_Meta cmc) = [].

(** What a run writes, after it read [cmc]. *)
Inductive multi_writes (clients : Clients) (cmc : MultiCasskop) (e e' : MEnv W) : Prop :=
| writes_finalizer a :
    unguarded cmc → writes e e' [MEv _ (MUpdate (preventMultiDeletion true cmc)) a] → multi_writes clients cmc e e'
| writes_nothing :
    ¬ unguarded cmc → m_DeletionTimestamp (cmc_Meta cmc) = None →
    writes e e' [] → Forall (settled_at cmc e e') (FlatClients clients) → multi_writes clients cmc e e'
| writes_client ws :
    ¬ unguarded cmc → m_DeletionTimestamp (cmc_Meta cmc) = None →
    stopped_at cmc (FlatClients clients) e e' ws → multi_writes clients cmc e e'
| writes_deletion ws a :
    ¬ unguarded cmc → m_DeletionTimestamp (cmc_Meta cmc) ≠ None →
    writes e e' (ws ++ [MEv _ (MUpdate (preventMultiDeletion false cmc)) a]) →
    deletion <$> ws = Some <$> omap (to_delete cmc) (FlatClients clients) → multi_writes clients cmc e e'.

Definition mgrows (e e' : MEnv W) : Prop := ∃ l, x_log e' = x_log e ++ l.
#[local] Instance mgrows_preorder : PreOrder mgrows.
Proof.
  split; [intros e; exists []; by rewrite app_nil_r|]. intros e1 e2 e3 [l1 E1] [l2 E2]. exists (l1 ++ l2).
  by rewrite E2, E1, (assoc_L (++)).
Qed.
Lemma mgrows_mcall {A} (r : MReq A) : keeps mgrows (mcall r).
Proof. intros e. apply wp_mcall. intros a w. by eexists. Qed.
Lemma mgrows_modify_cmc f : keeps mgrows (modify_cmc (W:=W) f).
Proof. apply keeps_modify. intros e. exists []. by rewrite app_nil_r. Qed.
#[local] Hint Resolve mgrows_mcall mgrows_modify_cmc : keeps.
Lemma mgrows_reconcileClient client : keeps mgrows (reconcileClient client).
Proof.
  unfold reconcileClient, CreateOrUpdateCassandraCluster, CreateCassandraCluster, UpdateCassandraCluster, deleteCassandraCluster.
  keeps_steps.
Qed.

Lemma wp_Multi clients ns reqNs name (e : MEnv W) :
  wp (Reconcile clients ns reqNs name) (λ _ e',
    (writes e e' [] ∧ (reqNs ≠ ns ∨ ∃ err, msince e e' (MEv _ (MGet reqNs name) (Err err)))) ∨
    ∃ cmc, msince e e' (MEv _ (MGet reqNs name) (Ok cmc)) ∧ multi_writes clients cmc e e') e.
Proof.
  unfold Reconcile. case_bool_decide as Hns; [|apply wp_ret; left; split; [apply writes_refl|by left]].
  cbn [negb]. apply wp_bind, wp_mcall. intros [cmc|err] w.
  2:{ pose proof (msince_answered (MGet reqNs name) (Err err) w e e _ (writes_refl e)).
      wp_step; apply wp_ret; left; (split; [apply writes_read; auto using writes_refl|right; eauto]). }
  apply wp_bind, wp_modify. set (e1 := upd x_cmc _ _).
  assert (writes e e1 []) as H1 by (apply (writes_same _ (manswered (MGet reqNs name) (Ok cmc) w e)); [done|]; apply writes_read; auto using writes_refl).
  assert (msince e e1 (MEv _ (MGet reqNs name) (Ok cmc))) as Hget by (eexists; split; [done|by left]).
  assert (x_cmc e1 = cmc) as Hc1 by done. clearbody e1.
  eapply wp_mono with (Q := λ _ e', mgrows e1 e' ∧ multi_writes clients cmc e e').
  2:{ intros _ e' [[l Hl] ?]. right. exists cmc. split; [by eapply msince_app|done]. }
  apply wp_and.
  { apply (wp_keeps mgrows); [|done]. unfold updateDeletetrategy, updateMulti. keeps_steps; auto using mgrows_reconcileClient with keeps. }
  unfold updateDeletetrategy.
  apply wp_bind, wp_bind, wp_gets, wp_bind, wp_lift. rewrite Hc1. intros del Hd.
  destruct (DeleteCassandraCluster (cmc_Spec cmc)) as [del'|] eqn:Edel; [|done]. injection Hd as <-. subst cmc.
  destruct (_ && _) eqn:Ef.
  - apply andb_true_iff in Ef as [-> Hf%bool_decide_eq_true]. apply wp_bind, wp_modify, wp_ret, wp_bind.
    eapply wp_mono; [apply (wp_updateMulti e _ []); by eapply writes_same; [|exact H1]|]. cbv beta. intros r e2 (a & Hw & _). apply wp_ret.
    eapply writes_finalizer; [split; [done|by apply length_zero_iff_nil]|exact Hw].
  - assert (¬ unguarded (x_cmc e1)) as Hg.
    { intros [Hd Hf]. rewrite Edel in Hd. injection Hd as ->. by rewrite Hf in Ef. }
    apply wp_ret, wp_bind. destruct (decide (m_DeletionTimestamp (cmc_Meta (x_cmc e1)) = None)) as [Hdel|Hdel].
    + eapply wp_mono; [by apply (wp_clients (x_cmc e1) _ [] e)|]. cbv beta. intros [res|] e2 [Hc2 Hv].
      * destruct Hv as [ws Hs]. apply wp_ret. by eapply writes_client.
      * apply wp_bind, wp_gets. rewrite Hc2, bool_decide_false by (by rewrite Hdel; intros []). apply wp_ret.
        destruct Hv. by apply writes_nothing.
    + eapply wp_mono; [by apply (wp_deletions (x_cmc e1) _ e _ [])|]. cbv beta. intros r e2 (-> & Hc2 & ws & Hw & Hd).
      apply wp_bind, wp_gets. rewrite Hc2, bool_decide_true by done. apply wp_bind, wp_modify, wp_bind.
      eapply wp_mono; [apply (wp_updateMulti e _ ws); by eapply writes_same; [|exact Hw]|]. cbv beta. intros r e3 (a & Hw3 & _).
      apply wp_ret. eapply writes_deletion; [done|done| |done]. by rewrite <- Hc2.
Qed.

(** C19: the multi-cluster operator changes one cluster at a time.  A run that reads
    the resource [cmc] either writes only its missing finalizer; or, when [cmc] is being
    deleted, asks every cluster with an override to delete its resource, in order, and
    then takes the finalizer away; or, when it is not, looks at the clusters in order,
    finds that each of some first ones stores the desired resource and runs, and then
    creates the resource of the next one if it was not found, updates it from the one
    it read if that differs, or waits because it cannot be read or does not run; or
    finds all of them settled and writes nothing.  Without having read [cmc], which is
    when the request is for another namespace or the reading fails, it writes nothing. *)
Theorem multi_run_writes clients ns reqNs name r (e e' : MEnv W)
    (Hrun : Reconcile clients ns reqNs name e = Ret (r, e')) :
  (writes e e' [] ∧ (reqNs ≠ ns ∨ ∃ err, msince e e' (MEv _ (MGet reqNs name) (Err err)))) ∨
  ∃ cmc, msince e e' (MEv _ (MGet reqNs name) (Ok cmc)) ∧ multi_writes clients cmc e e'.
Proof. exact (wp_run _ _ _ _ _ (wp_Multi clients ns reqNs name e) Hrun). Qed.

(** The flag that should leave the seeds to this operator is cleared in the wrong
    copy: an updated resource keeps what the user asked for. *)
Lemma seed_flag_kept cc stored new :
  spec_equal (cc_Spec stored) (cc_Spec cc) = false → compareClusters cc stored = (new, true) →
  AutoUpdateSeedList (cc_Spec new) = AutoUpdateSeedList (cc_Spec cc).
Proof. unfold compareClusters. intros ->. cbn. by destruct (_ && _); intros [= <-]. Qed.

(** The clients are those of the clusters, in order. *)
Lemma SetUpClients_names clusters clients :
  SetUpClients clusters = Ok clients → client_Name <$> FlatClients clients = cl_Local clusters :: cl_Remotes clusters.
Proof.
  assert (∀ c client, SetUpClient c = Ok client → client_Name client = c) as Hone
    by (unfold SetUpClient; intros c client; repeat case_match; by intros; simplify_eq).
  assert (∀ l acc rem, setUpRemotes l acc = Ok rem → client_Name <$> rem = (client_Name <$> acc) ++ l) as Hrem.
  { induction l as [|c l IH]; intros acc rem; cbn; [intros [= <-]; by rewrite app_nil_r|].
    destruct (SetUpClient c) as [client|] eqn:E; [|done]. intros ->%IH. by rewrite fmap_app, <- (assoc_L (++)), <- (Hone _ _ E). }
  unfold SetUpClients. destruct (SetUpClient _) as [local|] eqn:E; [|done]. destruct (setUpRemotes _ _) as [rem|] eqn:Er; [|done].
  intros [= <-]. cbn. by rewrite (Hone _ _ E), (Hrem _ _ _ Er).
Qed.
End theorems.

(** ** Instances *)
Section instances.
#[local] Existing Instance SampleQuantities.

Definition merged (base override : CassandraCluster) : CassandraCluster :=
  base <| cc_Spec ::= λ s, s <| spec_Topology := spec_Topology (cc_Spec override) |> |>.
#[local] Instance SampleMulti : MultiLib := {|
  Merge := merged;
  spec_equal a b := a == b;
  seeds_equal a b := elems a == elems b;
  GetDelegatingClient _ := None;
  AddCassandraClusterToScheme _ := None;
  AddMultiCasskopToScheme _ := None |}.

(** The resources of each cluster; a new one runs at once. *)
Record MultiWorld := mkMultiWorld { mw_cmc : MultiCasskop; mw_ccs : gmap string CassandraCluster }.
Definition running (cc : CassandraCluster) : CassandraCluster :=
  cc <| cc_Status ::= λ s, s <| s_Phase := "Running" |> <| s_LastClusterActionStatus := "Done" |> |>.
Definition multi_serve (A : Type) (r : MReq A) (w : MultiWorld) : A * MultiWorld :=
  match r in MReq A return A * MultiWorld with
  | MGet _ _ => (Ok (mw_cmc w), w)
  | MUpdate cmc => (Ok cmc, mkMultiWorld cmc (mw_ccs w))
  | MGetCC client _ _ => (found (mw_ccs w !! client), w)
  | MCreateCC client cc => (None, mkMultiWorld (mw_cmc w) (<[client := running cc]> (mw_ccs w)))
  | MUpdateCC client cc => (None, mkMultiWorld (mw_cmc w) (<[client := running cc]> (mw_ccs w)))
  | MDeleteCC client _ => (None, mkMultiWorld (mw_cmc w) (delete client (mw_ccs w)))
  end.
#[local] Instance SampleMultiServer : MultiServer MultiWorld := multi_serve.

Definition two_sites : MultiCasskop :=
  mkMulti (named "ns" "multi")
    (mkMultiSpec (Some true) ((simple_cluster 1 []) <| cc_Spec ::= λ s, s <| AutoUpdateSeedList := true |> |>)
       {[ "k1" := simple_cluster 1 [simple_dc "dc1" ["rack1"]]; "k2" := simple_cluster 1 [simple_dc "dc2" ["rack1"]] ]}).
Definition sites : Clients := mkClients (mkClient "k1") [mkClient "k2"].
Definition mstart (cmc : MultiCasskop) (ccs : gmap string CassandraCluster) : MEnv MultiWorld :=
  mkMEnv (mkMultiWorld cmc ccs) [] cmc.
Abbreviation run_multi := (Reconcile sites "ns" "ns" "multi").

Lemma multi_run_writes_witness :
  ∃ r e' cmc, run_multi (mstart two_sites ∅) = Ret (r, e') ∧ multi_writes sites cmc (mstart two_sites ∅) e'.
Proof.
  destruct (observe_Some (λ _ e', length (List.filter is_write (x_log e'))) run_multi (mstart two_sites ∅) 1) as (r & e' & Hrun & Hl);
    [vm_compute; reflexivity|].
  destruct (multi_run_writes sites "ns" "ns" "multi" r _ e' Hrun) as [[(l & El & Hw) _]|(cmc & _ & Hw)];
    [|exists r, e', cmc; split; [exact Hrun|exact Hw]].
  cbn in El. rewrite El, Hw in Hl. discriminate Hl.
Defined.

(** The finalizer, the first site, the second site, and then nothing more. *)
Fixpoint multi_loops (n : nat) (e : MEnv MultiWorld) : outcome (MEnv MultiWorld) :=
  match n with 0 => Ret e | S n => '(_, e) ← run_multi e; multi_loops n e end.
Definition multi_state (n : nat) : outcome (list string * list (string * bool) * nat) :=
  e ← multi_loops n (mstart two_sites ∅);
  mret (m_Finalizers (cmc_Meta (mw_cmc (x_world e))),
        (λ p, (p.1, AutoUpdateSeedList (cc_Spec p.2))) <$> map_to_list (mw_ccs (x_world e)),
        length (List.filter is_write (x_log e))).
Example sites_one_by_one :
  multi_state 1 = Ret (["kubernetes.io/multi-casskop"], [], 1) ∧
  multi_state 2 = Ret (["kubernetes.io/multi-casskop"], [("k1", true)], 2) ∧
  multi_state 3 = Ret (["kubernetes.io/multi-casskop"], [("k1", true); ("k2", true)], 3) ∧
  multi_state 5 = multi_state 3.
Proof. vm_compute. auto. Qed.

(** A resource that does not say whether to delete the clusters stops the operator. *)
Example unset_strategy_panics :
  observe (λ _ _, tt) run_multi
    (mstart (mkMulti (named "ns" "multi") (mkMultiSpec None (simple_cluster 1 []) ∅)) ∅) = None.
Proof. vm_compute. reflexivity. Qed.
End instances.
