(* ===== verification/MultiConverges.v ===== *)
(** * The multi-cluster operator reaches its goal

    [MultiCasskop.multi_run_writes] says what a run may write, whatever the API servers
    answer.  Here the MultiCasskop is [attainable] and the clusters cooperate: they keep the specification they are sent, and
    run after a number of readings.  Then every cluster gets the resource that base and
    override ask for, in a number of runs that is computed from what is left to do, and
    from then on nothing is written.  A desired resource that asks for a rolling restart
    is the exception: the operator writes it again in every run. *)
From S2P Require Import Prelude KubeObjects Types ClusterApi Server FakeCluster MultiCasskop.

(** The flags of the rolling restarts, by data centre and rack *)
Definition restarts `{QuantityLib} (s : CassandraClusterSpec) : list (list bool) :=
  (λ dc, RollingRestart <$> dc_Rack dc) <$> spec_Topology s.

(** [apiequality.Semantic.DeepEqual] is reflexive and tells booleans apart. *)
Class MultiLaws `{MultiLib} := {
  spec_equal_refl s : spec_equal s s = true;
  spec_equal_restarts a b : spec_equal a b = true → restarts a = restarts b;
}.

Section up_to_date.
Context {QL : QuantityLib} {Lib : MultiLib}.

(** The comparison of specifications that [CreateOrUpdateCassandraCluster] makes *)
Definition up_to_date (cc stored : CassandraCluster) : bool :=
  let s := UnsetRollingRestart stored in spec_equal (cc_Spec s) (cc_Spec (inheritFields cc s)).

(** A resource that can be reached: no rolling restart, and no seeds in its status *)
Definition plain (cc : CassandraCluster) : Prop :=
  Forall (Forall (λ b, b = false)) (restarts (cc_Spec cc)) ∧ s_SeedList (cc_Status cc) = None.

Lemma unset_racks (racks : list Rack) :
  Forall (λ b, b = false) (RollingRestart <$> racks) → (λ r, r <| RollingRestart := false |>) <$> racks = racks.
Proof.
  induction racks as [|r racks IH]; [done|]. cbn. intros [Hr H]%Forall_cons. rewrite IH by done. f_equal.
  destruct r. cbn in Hr. by rewrite <- Hr.
Qed.

Lemma unset_spec (s : CassandraClusterSpec) (cc : CassandraCluster) :
  cc_Spec cc = s → Forall (Forall (λ b, b = false)) (restarts s) → cc_Spec (UnsetRollingRestart cc) = s.
Proof.
  intros <- Hr. unfold UnsetRollingRestart. destruct cc as [m [] st]. unfold restarts in Hr. cbn in *. unfold upd. cbn. f_equal.
  match goal with |- _ <$> ?l = ?l => induction l as [|dc dcs IH] end; [done|].
  apply Forall_cons in Hr as [H1 H2]. cbn. rewrite IH by done. f_equal. destruct dc. cbn in *. unfold upd. cbn.
  f_equal. by apply unset_racks.
Qed.

Lemma restarts_inherit cc stored : restarts (cc_Spec (inheritFields cc stored)) = restarts (cc_Spec cc).
Proof. done. Qed.

(** A field: the zero value is replaced by the stored one. *)
Lemma inherit_field `{EqDecision A} (z u v : A) :
  (if (u == z) && (u != v) then v else u) = if u == z then v else u.
Proof. case_bool_decide; cbn; [|done]. case_bool_decide; cbn; congruence. Qed.

(** Fields that were inherited once are inherited again. *)
Lemma inherit_again cc stored stored' :
  cc_Spec stored' = cc_Spec (inheritFields cc stored) → cc_Spec (inheritFields cc stored') = cc_Spec stored'.
Proof.
  intros H. rewrite H. unfold inheritFields at 1. rewrite H. destruct cc as [m [] st], stored as [m' [] st']. cbn. unfold upd. cbn.
  rewrite !inherit_field. f_equal; by case_bool_decide.
Qed.

Lemma inherit_self cc : cc_Spec (inheritFields cc cc) = cc_Spec cc.
Proof.
  destruct cc as [m [] st]. unfold inheritFields. cbn. unfold upd. cbn.
  f_equal; case_bool_decide; cbn; try done; by rewrite bool_decide_true.
Qed.

Lemma unset_up_to_date cc stored :
  cc_Spec (UnsetRollingRestart stored) = cc_Spec stored →
  up_to_date cc stored = spec_equal (cc_Spec stored) (cc_Spec (inheritFields cc stored)).
Proof. intros H. unfold up_to_date, inheritFields. cbv zeta. by rewrite !H. Qed.

Lemma up_to_date_spec cc stored stored' : cc_Spec stored' = cc_Spec stored → up_to_date cc stored' = up_to_date cc stored.
Proof. intros H. unfold up_to_date, inheritFields, UnsetRollingRestart. cbn [cc_Spec]. cbv zeta. unfold upd at 1 3. cbn. by rewrite H. Qed.

Section laws.
Context {Laws : MultiLaws}.

(** What was written is up to date. *)
Lemma written_up_to_date cc stored stored' :
  plain cc → cc_Spec stored' = cc_Spec (inheritFields cc stored) → up_to_date cc stored' = true.
Proof.
  intros [Hr _] H. rewrite unset_up_to_date; [rewrite (inherit_again cc stored stored' H); apply spec_equal_refl|].
  apply unset_spec; [done|]. by rewrite H, restarts_inherit.
Qed.
Lemma created_up_to_date cc stored : plain cc → cc_Spec stored = cc_Spec cc → up_to_date cc stored = true.
Proof. intros Hp H. apply (written_up_to_date cc cc); [done|]. by rewrite inherit_self. Qed.

(** A rolling restart is never up to date. *)
Lemma restart_never_up_to_date cc stored :
  ¬ Forall (Forall (λ b, b = false)) (restarts (cc_Spec cc)) → up_to_date cc stored = false.
Proof.
  intros Hr. apply not_true_is_false. intros H%spec_equal_restarts. apply Hr. rewrite restarts_inherit in H. rewrite <- H.
  unfold restarts, UnsetRollingRestart. cbn. rewrite !Forall_fmap. apply Forall_forall. intros dc _. cbn.
  rewrite !Forall_fmap. by apply Forall_forall.
Qed.
End laws.

Lemma compareClusters_plain cc stored :
  s_SeedList (cc_Status cc) = None →
  compareClusters cc stored =
    if spec_equal (cc_Spec stored) (cc_Spec cc) then (stored, false) else (stored <| cc_Spec := cc_Spec cc |>, true).
Proof. intros H. unfold compareClusters. destruct (spec_equal _ _); cbn; rewrite H; by rewrite bool_decide_false by (by intros []). Qed.
End up_to_date.

(** ** Runs *)
Section converge.
Context {QL : QuantityLib} {Lib : MultiLib} {Laws : MultiLaws} {W : Type} {Srv : MultiServer W}.
Context (clients : Clients) (ns name : string) (cmc : MultiCasskop) (K : nat).

(** What each cluster stores, and how many more readings will find it not running *)
Abbreviation sites := (gmap string (CassandraCluster * nat)).
Context (I : W → sites → Prop).

(** What the MultiCasskop itself must be: not being deleted; with a deletion strategy,
    and the finalizer if the strategy is to delete (a run that finds it missing only
    writes it); and no desired resource asks for a rolling restart or carries seeds. *)
Record attainable : Prop := {
  at_live : m_DeletionTimestamp (cmc_Meta cmc) = None;
  at_strategy : DeleteCassandraCluster (cmc_Spec cmc) ≠ None;
  at_guarded : ¬ unguarded cmc;
  at_plain client cc : computeCassandraClusterForContext cmc client = Some cc → plain cc;
}.

(** The clusters cooperate: a resource that is sent is stored, runs after at most [K]
    readings, and keeps its specification. *)
Record sites_cooperate : Prop := {
  sc_multi w σ : I w σ → ∃ w', mserve (MGet ns name) w = (Ok cmc, w') ∧ I w' σ;
  sc_get w σ client cc : I w σ → computeCassandraClusterForContext cmc client = Some cc →
    let get := mserve (MGetCC (client_Name client) (cc_Namespace cc) (cc_Name cc)) w in
    match σ !! client_Name client with
    | None => ∃ w', get = (Err NotFound, w') ∧ I w' σ
    | Some (stored, 0) => ∃ w', get = (Ok stored, w') ∧ I w' σ ∧ ReadyCassandraCluster stored = true
    | Some (stored, S n) => ∃ w' stored', get = (Ok stored, w') ∧ ReadyCassandraCluster stored = false ∧
        cc_Spec stored' = cc_Spec stored ∧ I w' (<[client_Name client := (stored', n)]> σ)
    end;
  sc_create w σ client cc : I w σ → computeCassandraClusterForContext cmc client = Some cc → σ !! client_Name client = None →
    ∃ w' stored n, mserve (MCreateCC (client_Name client) cc) w = (None, w') ∧
      cc_Spec stored = cc_Spec cc ∧ n ≤ K ∧ I w' (<[client_Name client := (stored, n)]> σ);
  sc_update w σ client cc : I w σ → is_Some (σ !! client_Name client) →
    ∃ w' stored n, mserve (MUpdateCC (client_Name client) cc) w = (None, w') ∧
      cc_Spec stored = cc_Spec cc ∧ n ≤ K ∧ I w' (<[client_Name client := (stored, n)]> σ);
}.

(** What is left to do: the readings until a cluster runs, and one write before them
    where the resource is missing or differs *)
Definition due (σ : sites) (client : Client) : nat :=
  match computeCassandraClusterForContext cmc client with
  | None => 0
  | Some cc => match σ !! client_Name client with
               | None => S K
               | Some (stored, n) => if up_to_date cc stored then n else S K
               end
  end.
Definition debt (σ : sites) : nat := sum_list (due σ <$> FlatClients clients).

(** [n] runs, each of which asks for the next one *)
Inductive multi_runs : nat → MEnv W → MEnv W → Prop :=
| multi_runs_0 e : multi_runs 0 e e
| multi_runs_S n e e1 e' :
    Reconcile clients ns ns name e = Ret ((RequeueAfter 30, None), e1) → multi_runs n e1 e' → multi_runs (S n) e e'.

Section proofs.
Hypothesis Hgoal : attainable.
Hypothesis Hco : sites_cooperate.
Implicit Types (e : MEnv W) (σ : sites) (client : Client).

Lemma total_mcall {A} (r : MReq A) a w' Q e :
  mserve r (x_world e) = (a, w') → Q a (manswered r a w' e) → total (mcall r) Q e.
Proof. intros Hs HQ. exists a, (manswered r a w' e). split; [|done]. unfold mcall. by rewrite Hs. Qed.

Lemma due_other σ client x c : client_Name c ≠ client_Name client → due (<[client_Name client := x]> σ) c = due σ c.
Proof. intros Hne. unfold due. by rewrite lookup_insert_ne. Qed.
Lemma client_eq (c c' : Client) : client_Name c = client_Name c' → c = c'.
Proof. destruct c, c'. by intros [= ->]. Qed.

(** A new entry with a smaller debt *)
Definition less (σ σ' : sites) (client : Client) : Prop := (∀ c, due σ' c ≤ due σ c) ∧ due σ' client < due σ client.
Lemma less_insert σ client cc stored n :
  computeCassandraClusterForContext cmc client = Some cc → up_to_date cc stored = true → n < due σ client →
  less σ (<[client_Name client := (stored, n)]> σ) client.
Proof.
  intros Hcc Hup Hn.
  assert (due (<[client_Name client := (stored, n)]> σ) client = n) as Hd
    by (unfold due; by rewrite Hcc, lookup_insert_eq, Hup).
  split; [|lia]. intros c. destruct (decide (client_Name c = client_Name client)) as [->%client_eq|Hne]; [lia|]. by rewrite due_other.
Qed.

(** The visit of one client *)
Definition visit (e : MEnv W) (σ : sites) (client : Client) (r : option (MultiResult * option error)) (e' : MEnv W) : Prop :=
  x_cmc e' = cmc ∧ ∃ σ', I (x_world e') σ' ∧
  match r with
  | Some res => res = (RequeueAfter 30, None) ∧ less σ σ' client
  | None => σ' = σ ∧ due σ client = 0 ∧ writes e e' []
  end.

Lemma visit_update cc client stored σ σ1 e e1 :
  computeCassandraClusterForContext cmc client = Some cc → up_to_date cc stored = false →
  x_cmc e1 = cmc → I (x_world e1) σ1 → is_Some (σ1 !! client_Name client) →
  (∀ c, due σ1 c = due σ c) → due σ client = S K →
  total (UpdateCassandraCluster client ((UnsetRollingRestart stored) <| cc_Spec := cc_Spec (inheritFields cc (UnsetRollingRestart stored)) |>))
    (λ err e', err = None ∧ visit e σ client (Some (RequeueAfter 30, None)) e') e1.
Proof.
  intros Hcc Hup Hc1 HI1 Hin Hsame Hdue. unfold UpdateCassandraCluster. apply total_bind.
  destruct (sc_update Hco _ _ client ((UnsetRollingRestart stored) <| cc_Spec := cc_Spec (inheritFields cc (UnsetRollingRestart stored)) |>) HI1 Hin)
    as (w' & stored' & n & Hs & Hspec & Hn & HI').
  eapply total_mcall; [exact Hs|]. apply total_ret. split; [done|]. split; [exact Hc1|]. eexists. split; [exact HI'|]. split; [done|].
  destruct (less_insert σ1 client cc stored' n) as [H1 H2]; [done| |rewrite Hsame; lia|].
  { eapply written_up_to_date; [by eapply at_plain|exact Hspec]. }
  split; [intros c; rewrite <- Hsame; apply H1|by rewrite <- Hsame].
Qed.

Lemma visit_client client σ e :
  x_cmc e = cmc → I (x_world e) σ → total (reconcileClient client) (visit e σ client) e.
Proof.
  intros Hc HI. unfold reconcileClient. apply total_bind. eapply total_gets. rewrite Hc.
  destruct (computeCassandraClusterForContext cmc client) as [cc|] eqn:Hcc.
  2:{ apply total_ret. split; [done|]. exists σ. split; [done|]. split; [done|]. unfold due. rewrite Hcc. split; [done|apply writes_refl]. }
  rewrite bool_decide_false by (by rewrite (at_live Hgoal); intros []).
  pose proof (at_plain Hgoal _ _ Hcc) as Hplain. pose proof (sc_get Hco _ _ _ _ HI Hcc) as Hget. cbv zeta in Hget.
  assert (due σ client = match σ !! client_Name client with
    | None => S K | Some (stored, n) => if up_to_date cc stored then n else S K end) as Hdue by (unfold due; by rewrite Hcc).
  unfold CreateOrUpdateCassandraCluster. apply total_bind, total_bind.
  destruct (σ !! client_Name client) as [[stored n]|] eqn:Hσ.
  - assert (∃ w' σ1, mserve (MGetCC (client_Name client) (cc_Namespace cc) (cc_Name cc)) (x_world e) = (Ok stored, w') ∧ I w' σ1 ∧
      is_Some (σ1 !! client_Name client) ∧ (up_to_date cc stored = false → ∀ c, due σ1 c = due σ c) ∧
      if ReadyCassandraCluster stored then n = 0 ∧ σ1 = σ
      else up_to_date cc stored = true → less σ σ1 client) as (w' & σ1 & Hs & HI1 & Hin & Hsame & Hready).
    { destruct n as [|n].
      - destruct Hget as (w' & Hs & HI' & ->). exists w', σ. rewrite Hσ. done.
      - destruct Hget as (w' & stored' & Hs & -> & Hspec & HI'). eexists w', _. split; [exact Hs|]. split; [exact HI'|].
        split; [by rewrite lookup_insert_eq|]. pose proof (up_to_date_spec cc _ _ Hspec) as Hup'. split.
        + intros Hup c. destruct (decide (client_Name c = client_Name client)) as [->%client_eq|Hne]; [|by apply due_other].
          unfold due. by rewrite Hcc, lookup_insert_eq, Hσ, Hup', Hup.
        + intros Hup. eapply less_insert; [exact Hcc|congruence|]. rewrite Hdue, Hup. lia. }
    eapply total_mcall; [exact Hs|]. cbv zeta beta iota. rewrite compareClusters_plain by apply Hplain.
    change (spec_equal _ _) with (up_to_date cc stored). destruct (up_to_date cc stored) eqn:Hup; cbv beta iota.
    + apply total_ret. cbn. change (ReadyCassandraCluster (UnsetRollingRestart stored)) with (ReadyCassandraCluster stored).
      destruct (ReadyCassandraCluster stored).
      * destruct Hready as [-> ->]. apply total_ret. split; [done|]. exists σ. split; [exact HI1|]. split; [done|]. split; [done|].
        by apply writes_read, writes_refl.
      * apply total_ret. split; [done|]. exists σ1. split; [exact HI1|]. auto.
    + apply total_bind. eapply total_mono; [apply (visit_update cc client stored σ σ1 e); auto|]. cbv beta. intros err e2 [-> Hv]. apply total_ret. by apply total_ret.
  - destruct Hget as (w' & Hs & HI1). eapply total_mcall; [exact Hs|]. cbv iota beta. change (IsNotFound NotFound) with true. cbv iota.
    unfold CreateCassandraCluster. apply total_bind, total_bind.
    destruct (sc_create Hco _ _ client cc HI1 Hcc Hσ) as (w2 & stored & n & Hs2 & Hspec & Hn & HI2).
    eapply total_mcall; [exact Hs2|]. apply total_ret, total_ret. cbn. apply total_ret. split; [exact Hc|]. eexists. split; [exact HI2|].
    split; [done|]. eapply less_insert; [exact Hcc|by apply created_up_to_date|lia].
Qed.

(** The loop over the clients *)
Lemma visit_clients l σ e0 e :
  x_cmc e = cmc → I (x_world e) σ → writes e0 e [] →
  total (range_return l reconcileClient) (λ r e', x_cmc e' = cmc ∧ ∃ σ', I (x_world e') σ' ∧
    match r with
    | Some res => res = (RequeueAfter 30, None) ∧ ∃ client, client ∈ l ∧ less σ σ' client
    | None => σ' = σ ∧ Forall (λ c, due σ c = 0) l ∧ writes e0 e' []
    end) e.
Proof.
  revert e. induction l as [|client l IH]; intros e Hc HI Hw; cbn [range_return].
  { apply total_ret. split; [done|]. exists σ. by split_and!. }
  apply total_bind. eapply total_mono; [by apply visit_client|]. cbv beta. intros [res|] e1 (Hc1 & σ1 & HI1 & Hr).
  - destruct Hr as [-> Hless]. apply total_ret. split; [done|]. exists σ1. split; [done|]. split; [done|].
    exists client. split; [by left|done].
  - destruct Hr as (-> & Hdue & Hw1). eapply total_mono; [apply IH; [done|done|by eapply writes_trans]|]. cbv beta.
    intros r e2 (Hc2 & σ2 & HI2 & Hr). split; [done|]. exists σ2. split; [done|]. destruct r.
    + destruct Hr as (-> & c & Hin & Hless). split; [done|]. exists c. split; [by right|done].
    + destruct Hr as (-> & Hall & Hw2). by split_and!; [|constructor|].
Qed.

Lemma less_debt σ σ' client : client ∈ FlatClients clients → less σ σ' client → debt σ' < debt σ.
Proof.
  unfold debt. generalize (FlatClients clients). intros l Hin [Hle Hlt].
  assert (∀ l, sum_list (due σ' <$> l) ≤ sum_list (due σ <$> l)) as Hall.
  { induction l0 as [|c l0 IH]; cbn; [done|]. specialize (Hle c). lia. }
  induction l as [|c l IH]; [by apply elem_of_nil in Hin|]. cbn. apply elem_of_cons in Hin as [->|Hin].
  - specialize (Hall l). lia.
  - specialize (Hle c). specialize (IH Hin). lia.
Qed.

Lemma debt_0 σ : debt σ = 0 ↔ Forall (λ c, due σ c = 0) (FlatClients clients).
Proof.
  unfold debt. induction (FlatClients clients) as [|c l IH]; cbn; [by split|]. rewrite Forall_cons, <- IH. lia.
Qed.

(** One run *)
Lemma multi_run σ e :
  I (x_world e) σ →
  total (Reconcile clients ns ns name) (λ r e', r = (RequeueAfter 30, None) ∧ ∃ σ', I (x_world e') σ' ∧
    (debt σ' < debt σ ∨ σ' = σ ∧ debt σ = 0 ∧ writes e e' [])) e.
Proof.
  intros HI. unfold Reconcile. rewrite bool_decide_true by done. cbn [negb].
  destruct (sc_multi Hco _ _ HI) as (w1 & Hs & HI1). apply total_bind. eapply total_mcall; [exact Hs|].
  apply total_bind, total_modify, total_bind. pose proof (at_guarded Hgoal) as Hfin. pose proof (at_strategy Hgoal) as Hd0.
  destruct (DeleteCassandraCluster (cmc_Spec cmc)) as [d|] eqn:Hd; [|done].
  unfold updateDeletetrategy. apply total_bind, total_gets, total_bind. eapply total_lift; [cbn; by rewrite Hd|].
  assert (d && (length (m_Finalizers (cmc_Meta cmc)) == 0) = false) as Hkeep.
  { destruct d; [|done]. cbn. apply bool_decide_false. intros ?%length_zero_iff_nil. by apply Hfin; split. }
  match goal with |- context [?b && ?c] => change (b && c) with (d && (length (m_Finalizers (cmc_Meta cmc)) == 0)) end. rewrite Hkeep.
  apply total_ret. apply total_bind. eapply total_mono.
  { apply (visit_clients _ σ e); [done|exact HI1|]. apply (writes_same _ (manswered (MGet ns name) (Ok cmc) w1 e)); [done|]. by apply writes_read, writes_refl. }
  cbv beta. intros [res|] e2 (Hc2 & σ2 & HI2 & Hr).
  - destruct Hr as (-> & c & Hin & Hless). apply total_ret. split; [done|]. exists σ2. split; [done|]. left. by eapply less_debt.
  - destruct Hr as (-> & Hall & Hw). apply total_bind, total_gets. rewrite Hc2, bool_decide_false by (by rewrite (at_live Hgoal); intros []).
    apply total_ret. split; [done|]. exists σ. split; [done|]. right. by rewrite debt_0.
Qed.

Lemma multi_stays m σ e : I (x_world e) σ → debt σ = 0 → ∃ e', multi_runs m e e' ∧ writes e e' [] ∧ I (x_world e') σ.
Proof.
  revert e. induction m as [|m IH]; intros e HI Hd; [exists e; split_and!; [constructor|apply writes_refl|done]|].
  destruct (multi_run σ e HI) as (r & e1 & Hrun & -> & σ1 & HI1 & [?|(-> & _ & Hw)]); [lia|].
  destruct (IH e1 HI1 Hd) as (e2 & Hruns & Hw2 & HI2). exists e2. split; [by econstructor|]. split; [by eapply writes_trans|done].
Qed.

Lemma paid_settled σ e : I (x_world e) σ → debt σ = 0 →
  ∀ client cc, client ∈ FlatClients clients → computeCassandraClusterForContext cmc client = Some cc →
  ∃ stored, σ !! client_Name client = Some (stored, 0) ∧ settled cc stored.
Proof.
  intros HI Hd client cc Hin Hcc. apply debt_0 in Hd. rewrite Forall_forall in Hd. specialize (Hd client Hin).
  unfold due in Hd. rewrite Hcc in Hd. pose proof (sc_get Hco _ _ _ _ HI Hcc) as Hget. cbv zeta in Hget.
  destruct (σ !! client_Name client) as [[stored n]|]; [|done]. destruct (up_to_date cc stored) eqn:Hup; [|done]. subst n.
  exists stored. split; [done|]. destruct Hget as (_ & _ & _ & Hr). split; [exact Hup|]. split; [|exact Hr].
  left. by apply (at_plain Hgoal _ _ Hcc).
Qed.

Lemma multi_pays σ e : I (x_world e) σ →
  ∃ n e' σ', n ≤ debt σ ∧ multi_runs n e e' ∧ I (x_world e') σ' ∧ debt σ' = 0.
Proof.
  remember (debt σ) as d eqn:Hd. revert σ e Hd. induction d as [d IH] using lt_wf_ind; intros σ e -> HI.
  destruct (multi_run σ e HI) as (r & e1 & Hrun & -> & σ1 & HI1 & [Hlt|(_ & H0 & _)]).
  - destruct (IH _ Hlt σ1 e1 eq_refl HI1) as (n & e' & σ' & Hn & Hruns & HI' & H0). exists (S n), e', σ'.
    split; [lia|]. split; [by econstructor|done].
  - exists 0, e, σ. split_and!; [lia|constructor|done|done].
Qed.
End proofs.

(** C20: for a MultiCasskop that is not being deleted, has its deletion strategy and the
    finalizer that goes with it, and whose desired resources ask for no rolling restart
    and carry no seeds, and when the clusters cooperate, the operator reaches its goal:
    after at most as many runs as there are writes and readings left to do, each of which
    returns without error and asks for the next, every cluster with an override stores
    the desired resource and runs.  From then on any number of runs writes nothing and
    leaves all clusters as they are.  (With a rolling restart it does not:
    [rolling_restart_blocks].) *)
Theorem multi_converges (σ : sites) (e : MEnv W) (Hgoal : attainable)
    (Hco : sites_cooperate) (HI : I (x_world e) σ) :
  ∃ n e' σ', n ≤ debt σ ∧ multi_runs n e e' ∧ I (x_world e') σ' ∧
    (∀ client cc, client ∈ FlatClients clients → computeCassandraClusterForContext cmc client = Some cc →
       ∃ stored, σ' !! client_Name client = Some (stored, 0) ∧ settled cc stored) ∧
    ∀ m, ∃ e'', multi_runs m e' e'' ∧ writes e' e'' [] ∧ I (x_world e'') σ'.
Proof.
  destruct (multi_pays Hgoal Hco σ e HI) as (n & e' & σ' & Hn & Hruns & HI' & H0). exists n, e', σ'.
  split_and!; [done|done|done|by eapply paid_settled|]. intros m. by apply multi_stays.
Qed.
End converge.

(** ** Rolling restarts *)
Section restart.
Context {QL : QuantityLib} {Lib : MultiLib} {Laws : MultiLaws} {W : Type} {Srv : MultiServer W}.

(** A cluster whose desired resource asks for a rolling restart never is settled:
    [UnsetRollingRestart] clears the flag of the stored resource before the comparison.
    So a run that gets to this cluster writes its resource again, with the flag set, and
    no run gets past it to the clusters behind. *)
Theorem rolling_restart_blocks (cmc : MultiCasskop) (client : Client) (cc : CassandraCluster) (pre post : list Client)
    (e e' : MEnv W) (ws : list MEvent)
    (Hcc : computeCassandraClusterForContext cmc client = Some cc)
    (Hrestart : ¬ Forall (Forall (λ b, b = false)) (restarts (cc_Spec cc)))
    (Hstop : stopped_at cmc (pre ++ client :: post) e e' ws) :
  (∀ stored, ¬ settled cc stored) ∧ ¬ settled_at cmc e e' client ∧
  ∃ before stop after, pre ++ client :: post = before ++ stop :: after ∧ length before ≤ length pre ∧
    ∃ cc', computeCassandraClusterForContext cmc stop = Some cc' ∧
      ((ws = [] ∧ waits_for e e' stop cc') ∨ ∃ ev, ws = [ev] ∧ write_of e e' stop cc' ev).
Proof.
  assert (∀ stored, ¬ settled cc stored) as Hnever.
  { intros stored [Hup _]. change (up_to_date cc stored = true) in Hup. by rewrite restart_never_up_to_date in Hup. }
  assert (¬ settled_at cmc e e' client) as Hnot.
  { intros H. destruct (H cc Hcc) as (stored & _ & Hs). by apply (Hnever stored). }
  split; [done|]. split; [done|]. destruct Hstop as (before & stop & after & Heq & Hbefore & _ & Hws).
  exists before, stop, after. split; [done|]. split; [|exact Hws]. apply Nat.nlt_ge. intros Hlt. apply Hnot. rewrite Forall_forall in Hbefore.
  apply Hbefore. apply list_elem_of_lookup_2 with (length pre). assert ((pre ++ client :: post) !! length pre = Some client) as Hl
    by (rewrite lookup_app_r, Nat.sub_diag by done; done).
  rewrite Heq, lookup_app_l in Hl by done. exact Hl.
Qed.
End restart.

(** ** An instance: two clusters that run at once *)
Section instances.
#[local] Existing Instance SampleQuantities.
#[local] Existing Instance SampleMulti.
#[local] Existing Instance SampleMultiServer.

#[local] Instance SampleMultiLaws : MultiLaws.
Proof.
  split; cbn; [intros s; by apply bool_decide_eq_true|]. intros a b H. apply bool_decide_eq_true in H. by subst.
Qed.

Definition kept_sites : MultiCasskop := preventMultiDeletion true two_sites.
Definition stores (w : MultiWorld) (σ : gmap string (CassandraCluster * nat)) : Prop :=
  mw_cmc w = kept_sites ∧ mw_ccs w = fst <$> σ ∧ map_Forall (λ _ x, x.2 = 0 ∧ ReadyCassandraCluster x.1 = true) σ.

Lemma kept_desired client cc :
  computeCassandraClusterForContext kept_sites client = Some cc → plain cc.
Proof.
  unfold computeCassandraClusterForContext. change (Override (cmc_Spec kept_sites)) with (Override (cmc_Spec two_sites)).
  destruct (Override (cmc_Spec two_sites) !! client_Name client) as [o|] eqn:Ho; [|done]. intros [= <-].
  cbn [Override cmc_Spec two_sites] in Ho. apply lookup_insert_Some in Ho as [[_ <-]|[_ [_ <-]%lookup_singleton_Some]];
    (split; [|reflexivity]); vm_compute; by repeat constructor.
Qed.

Lemma stores_insert w σ c cc :
  stores w σ → stores (mkMultiWorld (mw_cmc w) (<[c := running cc]> (mw_ccs w))) (<[c := (running cc, 0)]> σ).
Proof.
  intros (H1 & H2 & H3). split_and!; [done|by cbn; rewrite H2, fmap_insert|]. by apply map_Forall_insert_2.
Qed.

Lemma kept_attainable : attainable kept_sites.
Proof. split; [done|done|by intros [_ ?]|apply kept_desired]. Qed.
Lemma sample_cooperates : sites_cooperate "ns" "multi" kept_sites 0 stores.
Proof.
  split.
  - intros w σ H. exists w. split; [|done]. cbn. destruct H as [-> _]. done.
  - intros w σ client cc H Hcc. pose proof H as (_ & H2 & H3). cbn. rewrite H2, lookup_fmap.
    destruct (σ !! client_Name client) as [[stored n]|] eqn:Hσ; [|by exists w].
    destruct (H3 _ _ Hσ) as [Hn Hr]. cbn in Hn, Hr. subst n. by exists w.
  - intros w σ client cc H Hcc Hσ. do 3 eexists. split; [reflexivity|]. split; [|split; [done|by apply stores_insert]]. done.
  - intros w σ client cc H Hσ. do 3 eexists. split; [reflexivity|]. split; [|split; [done|by apply stores_insert]]. done.
Qed.

(** Two runs are enough from nothing. *)
Lemma multi_converges_witness :
  ∃ n e' σ', n ≤ 2 ∧ multi_runs sites "ns" "multi" n (mstart kept_sites ∅) e' ∧ stores (x_world e') σ' ∧
    (∃ stored, σ' !! "k1" = Some (stored, 0)) ∧ (∃ stored, σ' !! "k2" = Some (stored, 0)).
Proof.
  destruct (multi_converges sites "ns" "multi" kept_sites 0 stores ∅ (mstart kept_sites ∅)) as (n & e' & σ' & Hn & Hruns & HI & Hset & _).
  - apply kept_attainable.
  - apply sample_cooperates.
  - by split_and!.
  - exists n, e', σ'. split; [exact Hn|]. split; [exact Hruns|]. split; [exact HI|]. split.
    + destruct (Hset (mkClient "k1") (CheckDefaults (merged (Base (cmc_Spec two_sites)) (simple_cluster 1 [simple_dc "dc1" ["rack1"]]))))
        as (stored & Hs & _); [by left|reflexivity|by exists stored].
    + destruct (Hset (mkClient "k2") (CheckDefaults (merged (Base (cmc_Spec two_sites)) (simple_cluster 1 [simple_dc "dc2" ["rack1"]]))))
        as (stored & Hs & _); [by right; left|reflexivity|by exists stored].
Defined.

(** With a rolling restart in the first cluster every run writes, and the second one is
    never created. *)
Definition restarting_site : CassandraCluster :=
  (simple_cluster 1 [simple_dc "dc1" ["rack1"]]) <| cc_Spec ::= λ s, s <| spec_Topology ::= λ dcs,
    (λ dc, dc <| dc_Rack ::= λ racks, (λ r, r <| RollingRestart := true |>) <$> racks |>) <$> dcs |> |>.
Definition restarting_sites : MultiCasskop :=
  mkMulti (cmc_Meta kept_sites) (mkMultiSpec (Some true) (simple_cluster 1 [])
    {[ "k1" := restarting_site; "k2" := simple_cluster 1 [simple_dc "dc2" ["rack1"]] ]}).
Example restart_loops :
  (e ← multi_loops 6 (mstart restarting_sites ∅);
   mret (length (List.filter is_write (x_log e)), (map_to_list (mw_ccs (x_world e))).*1)) = Ret (6, ["k1"]).
Proof. vm_compute. reflexivity. Qed.
End instances.
