(* ===== verification/Startup.v ===== *)
(** * Start-up of the operators
    (src/main.go, src/multi-casskop/main.go, NewController of
    src/multi-casskop/controllers/multi-casskop_controller.go)

    A start-up is a finite program over the calls into the libraries (leader election,
    manager, controllers, clients of the other clusters): each call is answered by nil
    or an error, the process ends with an exit code, and [behaves] collects the calls,
    the answers and the code of every way it can go.  The environment and the parsed
    command line are arguments, as the code reads them once. *)
From S2P Require Import Prelude KubeObjects Types ClusterApi Server FakeCluster MultiCasskop.

(** ** Calls and settings *)
Inductive Level := PanicLevel | FatalLevel | ErrorLevel | WarnLevel | InfoLevel | DebugLevel | TraceLevel.
#[export] Instance Level_eq_dec : EqDecision Level.
Proof. solve_decision. Defined.
(** [zapcore.Level]: the levels the operator uses, and those a flag can ask for *)
Inductive ZapLevel := ZapDebug | ZapInfo | ZapWarn | ZapError | ZapPanic | ZapVerbosity (n : positive).
Inductive Formatter := ZtFormatter | JSONFormatter.

(** [ctrl.Options]: the name space of the cache and the two addresses *)
Record ManagerOptions := mkOptions { mo_Namespace : string; mo_MetricsAddr : string; mo_ProbeAddr : string }.

(** [ctrl.NewControllerManagedBy(mgr).For(...).Owns(...).Complete(r)] *)
Record Registration := mkRegistration {
  reg_For : string; reg_Owns : list string; reg_Filter : bool; reg_Recorder : option string }.

Inductive Call :=
| AddToScheme (api : string)
| Become (lock : string)
| GetConfig
| NewManager (opts : ManagerOptions)
| Complete (r : Registration)
| AddHealthzCheck (name : string)
| AddReadyzCheck (name : string)
| NamedConfig (cluster : string)
| Watch (kind cluster namespace : string)
| ListenAndServe (addr : string)
| Start.

Inductive Setting :=
| SetLevel (l : Level)
| SetReportCaller
| SetFormatter (f : Formatter)
| SetLogger (l : ZapLevel) (development : bool)
| PrintVersion (name : string) (level : option Level) (resync : option Z)
| LogError (what : string).

(** ** Programs *)
Inductive prog (A : Type) :=
| Done (a : A)
| Exit (code : Z)
| Do (c : Call) (k : option error → prog A)
| Tell (s : Setting) (p : prog A)
| Go (c : Call) (p : prog A).
Arguments Done {A} _.
Arguments Exit {A} _.
Arguments Do {A} _ _.
Arguments Tell {A} _ _.
Arguments Go {A} _ _.

#[export] Instance prog_ret : MRet prog := λ A, Done.
#[export] Instance prog_bind : MBind prog := λ A B f, fix bind p :=
  match p with
  | Done a => f a
  | Exit code => Exit code
  | Do c k => Do c (λ e, bind (k e))
  | Tell s p => Tell s (bind p)
  | Go c p => Go c (bind p)
  end.

Definition call (c : Call) : prog (option error) := Do c Done.
Definition tell (s : Setting) : prog unit := Tell s (Done tt).
Definition spawn (c : Call) : prog unit := Go c (Done tt).
Definition exit {A} (code : Z) : prog A := Exit code.
Definition when (b : bool) (p : prog unit) : prog unit := if b then p else mret tt.
(** A call whose error ends the process *)
Definition must_code (fc : Z) (c : Call) : prog unit :=
  err ← call c; match err with Some _ => exit fc | None => mret tt end.
(** [if err := ...; err != nil { os.Exit(1) }] *)
Abbreviation must := (must_code 1).
(** [utilruntime.Must]: a panic ends the process with 2. *)
Abbreviation must_or_panic := (must_code 2).

(** What was called and answered, and the exit code.  A server started with [go] that
    fails ends the process (log.Fatalf) while the program is in another call. *)
Inductive behaves : option Call → prog unit → list (Call * option error) → Z → Prop :=
| behaves_done s : behaves s (Done tt) [] 0
| behaves_exit s code : behaves s (Exit code) [] code
| behaves_do s c k err tr code : behaves s (k err) tr code → behaves s (Do c k) ((c, err) :: tr) code
| behaves_tell s x p tr code : behaves s p tr code → behaves s (Tell x p) tr code
| behaves_go s c p tr code : behaves (Some c) p tr code → behaves s (Go c p) tr code
| behaves_server c c' k err : behaves (Some c) (Do c' k) [(c, Some err)] 1.

Abbreviation env := (gmap string string) (only parsing).

(** ** Environment *)
(** [getLogLevel], the same in the two programs.  A letter outside ASCII whose upper case
    is in it makes no difference: it could only give the name of the default. *)
Definition getLogLevel (e : env) : Level :=
  match e !! "LOG_LEVEL" with
  | None => InfoLevel
  | Some logLevel =>
      let u := ToUpper logLevel in
      if u == "DEBUG" then DebugLevel
      else if u == "INFO" then InfoLevel
      else if u == "ERROR" then ErrorLevel
      else if u == "WARN" then WarnLevel
      else InfoLevel
  end.

Definition zapLogLevel (level : Level) : ZapLevel :=
  match level with
  | DebugLevel => ZapDebug
  | WarnLevel => ZapWarn
  | ErrorLevel => ZapError
  | _ => ZapInfo
  end.

(** [strconv.Atoi]: an optional sign and digits, in the range of int64 *)
Definition Atoi (s : string) : option Z :=
  let '(neg, ds) := match chars s with
                    | c :: l => if (code c =? 45)%N then (true, l) else if (code c =? 43)%N then (false, l) else (false, c :: l)
                    | [] => (false, [])
                    end in
  if match ds with [] => true | _ => false end || negb (forallb is_digit ds) then None
  else let z := if neg then (- digits_value ds)%Z else digits_value ds in
       if bool_decide (- 2 ^ 63 ≤ z < 2 ^ 63)%Z then Some z else None.

Definition getResyncPeriod (e : env) : Z :=
  match e !! "RESYNC_PERIOD" with
  | None => DefaultResyncPeriod
  | Some resync => default DefaultResyncPeriod (Atoi resync)
  end.

Definition getWatchNamespace (e : env) : result string :=
  match e !! "WATCH_NAMESPACE" with
  | None => Err (OtherError "WATCH_NAMESPACE must be set")
  | Some ns => Ok ns
  end.
(** Both programs go on with the empty string, all name spaces. *)
Definition watchNamespace (e : env) : string := match getWatchNamespace e with Ok ns => ns | Err _ => "" end.

(** ** src/main.go *)
(** The flags of the command line: help, an error, or the two addresses, the level of
    the logger and its development mode as far as they are given (BindFlags of zap adds
    the latter two; its flags for the look of a line are left out) *)
Record FlagValues := mkFlags {
  fl_MetricsAddr : option string; fl_ProbeAddr : option string; fl_ZapLevel : option ZapLevel; fl_ZapDevel : option bool }.
Inductive Flags := FlagHelp | FlagError | FlagSet (v : FlagValues).

Definition init : prog unit :=
  _ ← must_or_panic (AddToScheme "client-go");
  must_or_panic (AddToScheme "db.orange.com/v2").

Definition printVersion (e : env) : prog unit :=
  tell (PrintVersion "casskop" (Some (getLogLevel e)) (Some (getResyncPeriod e))).

(** [SetupWithManager] of the three controllers: the resource, what it owns, whether
    events are filtered, and the name events are recorded under *)
Definition backupRegistration : Registration :=
  mkRegistration "CassandraBackup" ["Pod"] true (Some "cassandrabackup-controller").
Definition clusterRegistration : Registration := mkRegistration "CassandraCluster" [] false None.
Definition restoreRegistration : Registration :=
  mkRegistration "CassandraRestore" [] true (Some "cassandrabackup-controller").

(** The formatter of logrus, and [opts.Development]: the flag, or true when debugging *)
Definition setLogging (e : env) (devel : bool) : prog bool :=
  let logLevel := getLogLevel e in
  _ ← when (logLevel == DebugLevel) (_ ← tell SetReportCaller; tell (SetFormatter ZtFormatter));
  _ ← when (e !! "LOG_TYPE" == Some "json") (tell (SetFormatter JSONFormatter));
  mret ((logLevel == DebugLevel) || devel).

Definition main (e : env) (flags : Flags) : prog unit :=
  let logLevel := getLogLevel e in
  _ ← tell (SetLevel logLevel);
  v ← match flags with FlagHelp => exit 0 | FlagError => exit 2 | FlagSet v => mret v end;
  let metricsAddr := default ":8080" (fl_MetricsAddr v) in
  let probeAddr := default ":8081" (fl_ProbeAddr v) in
  development ← setLogging e (default false (fl_ZapDevel v));
  _ ← printVersion e;
  let namespace := watchNamespace e in
  _ ← match getWatchNamespace e with Err _ => tell (LogError "unable to get WatchNamespace") | Ok _ => mret tt end;
  _ ← tell (SetLogger (default (zapLogLevel logLevel) (fl_ZapLevel v)) development);
  _ ← must (Become "casskop-lock");
  _ ← must GetConfig;
  _ ← must (NewManager (mkOptions namespace metricsAddr probeAddr));
  _ ← must (Complete backupRegistration);
  _ ← must (Complete clusterRegistration);
  _ ← must (Complete restoreRegistration);
  _ ← must (AddHealthzCheck "healthz");
  _ ← must (AddReadyzCheck "readyz");
  must Start.

(** The whole process: the packages are initialised first. *)
Definition casskop (e : env) (flags : Flags) : prog unit := _ ← init; main e flags.

(** ** src/multi-casskop *)
Section multi.
Context {QL : QuantityLib} {Lib : MultiLib}.

(** [NewController]: a client for every cluster, then the watches; [local] tells
    whether the local cluster is set, which is only asked after its client was made. *)
Fixpoint watchClusters (clusters : list string) (namespace : string) : prog (option error) :=
  match clusters with
  | [] => mret None
  | c :: clusters =>
      err ← call (Watch "CassandraCluster" c namespace);
      match err with
      | Some _ => mret (Some (OtherError "setting up MultiCasskop watch in Cluster"))
      | None => watchClusters clusters namespace
      end
  end.

Definition NewController (clusters : Clusters) (local : bool) (namespace : string) : prog (result Clients) :=
  match SetUpClients clusters with
  | Err e => mret (Err e)
  | Ok clients =>
      if negb local then mret (Err (OtherError "No local cluster defined can't watch MultiCassKop customs resources"))
      else
        err ← call (Watch "MultiCasskop" (cl_Local clusters) namespace);
        match err with
        | Some _ => mret (Err (OtherError "setting up MultiCasskop watch in Cluster"))
        | None =>
            err ← watchClusters (cl_Remotes clusters ++ [cl_Local clusters]) namespace;
            match err with Some e => mret (Err e) | None => mret (Ok clients) end
        end
  end.

(** The flags: -l and -r *)
Inductive MultiFlags := MultiHelp | MultiError | MultiSet (local : string) (remotes : list string).

Fixpoint configureRemotes (remotes : list string) : prog unit :=
  match remotes with
  | [] => mret tt
  | remote :: remotes => _ ← must (NamedConfig remote); configureRemotes remotes
  end.

Definition multi_main (e : env) (flags : MultiFlags) : prog unit :=
  _ ← when (e !! "LOG_TYPE" == Some "json") (tell (SetFormatter JSONFormatter));
  _ ← tell (SetLevel (getLogLevel e));
  _ ← tell (PrintVersion "multi-casskop" None None);
  '(local, remotes) ← match flags with
                      | MultiHelp => exit 0
                      | MultiError => exit 1
                      | MultiSet l r => mret (l, r)
                      end;
  let namespace := watchNamespace e in
  _ ← match getWatchNamespace e with Err _ => tell (LogError "unable to get WatchNamespace") | Ok _ => mret tt end;
  _ ← must GetConfig;
  _ ← configureRemotes remotes;
  co ← NewController (mkClusters local remotes) true namespace;
  match co with
  | Err _ => exit 1
  | Ok _ => _ ← spawn (ListenAndServe ":8081"); must Start
  end.
End multi.

(** ** Steps in order

    [runs_then steps fin tr code]: the steps are done one after the other until one is
    answered with an error, which ends the process with the code of that step; when all
    were answered by nil, the rest of the run is as [fin] says. *)
Definition trace : Type := list (Call * option error).
Definition all_ok (steps : list (Call * Z)) : trace := (λ s, (s.1, None)) <$> steps.
Definition runs_then (steps : list (Call * Z)) (fin : trace → Z → Prop) (tr : trace) (code : Z) : Prop :=
  (∃ rest, tr = all_ok steps ++ rest ∧ fin rest code) ∨
  ∃ k c err, steps !! k = Some (c, code) ∧ tr = all_ok (take k steps) ++ [(c, Some err)].
Definition ends_with (code0 : Z) (tr : trace) (code : Z) : Prop := tr = [] ∧ code = code0.

Lemma runs_then_nil fin tr code : runs_then [] fin tr code ↔ fin tr code.
Proof.
  split; [|left; eauto]. intros [(rest & -> & H)|(k & c & err & Hk & _)]; [done|]. by rewrite lookup_nil in Hk.
Qed.

Lemma runs_then_cons c fc steps fin tr code :
  runs_then ((c, fc) :: steps) fin tr code ↔
  (∃ err, tr = [(c, Some err)] ∧ code = fc) ∨ (∃ tr', tr = (c, None) :: tr' ∧ runs_then steps fin tr' code).
Proof.
  split.
  - intros [(rest & -> & H)|([|k] & c' & err & Hk & ->)].
    + right. eexists. split; [done|]. left. eauto.
    + left. cbn in Hk. simplify_eq. eauto.
    + right. cbn in Hk. eexists. split; [done|]. right. eauto 10.
  - intros [(err & -> & ->)|(tr' & -> & [(rest & -> & H)|(k & c' & err & Hk & ->)])].
    + right. by exists 0, c, err.
    + left. eauto.
    + right. by exists (S k), c', err.
Qed.

(** ** Behaviour of sequences *)
Section behaviour.
Implicit Types (tr : trace) (code : Z) (fin : trace → Z → Prop).

Lemma behaves_bind_assoc {A B} (m : prog A) (g : A → prog B) (f : B → prog unit) s tr code :
  behaves s ((m ≫= g) ≫= f) tr code ↔ behaves s (m ≫= λ x, g x ≫= f) tr code.
Proof.
  revert s tr. induction m as [a|c|c k IH|x m IH|c m IH]; intros s tr; cbn; [done|done|..];
    split; inversion 1; subst; constructor; by apply IH.
Qed.

(** A program that only changes settings *)
Fixpoint silent {A} (p : prog A) (a : A) : Prop :=
  match p with Done a' => a' = a | Tell _ p => silent p a | _ => False end.

Lemma behaves_silent {A} (p : prog A) a (f : A → prog unit) tr code :
  silent p a → behaves None (p ≫= f) tr code ↔ behaves None (f a) tr code.
Proof.
  induction p as [a'| | |x p IH|]; cbn; [by intros ->|done|done| |done].
  intros Hp. rewrite <- IH by done. split; [by inversion 1|by constructor].
Qed.

Lemma behaves_exits s fc tr code : behaves s (Exit fc) tr code ↔ ends_with fc tr code.
Proof. split; [by inversion 1|]. intros [-> ->]. constructor. Qed.
Lemma behaves_returns s tr code : behaves s (Done tt) tr code ↔ ends_with 0 tr code.
Proof. split; [by inversion 1|]. intros [-> ->]. constructor. Qed.

(** [follows p steps fin]: the program is the steps in order and then what [fin] says. *)
Definition follows (p : prog unit) (steps : list (Call * Z)) fin : Prop :=
  ∀ tr code, behaves None p tr code ↔ runs_then steps fin tr code.

Lemma follows_end p fin : (∀ tr code, behaves None p tr code ↔ fin tr code) → follows p [] fin.
Proof. intros H tr code. by rewrite runs_then_nil. Qed.

Lemma follows_call fc c (f : option error → prog unit) steps fin :
  (∀ err, f (Some err) = Exit fc) → follows (f None) steps fin → follows (call c ≫= f) ((c, fc) :: steps) fin.
Proof.
  intros Hf Hn tr code. rewrite runs_then_cons. split.
  - inversion 1 as [| |? ? ? err ? ? Hb| | |]; subst. destruct err as [err|]; cbn in *.
    + rewrite Hf, behaves_exits in Hb. destruct Hb as [-> ->]. eauto.
    + right. eexists. split; [done|]. by apply Hn.
  - intros [(err & -> & ->)|(tr' & -> & Hp)]; apply behaves_do; cbn; [rewrite Hf; apply behaves_exit|by apply Hn].
Qed.

Lemma follows_assoc {A B} (m : prog A) (g : A → prog B) f steps fin :
  follows (m ≫= λ x, g x ≫= f) steps fin → follows ((m ≫= g) ≫= f) steps fin.
Proof. intros H tr code. by rewrite behaves_bind_assoc. Qed.

Lemma follows_must fc c p steps fin : follows p steps fin → follows (must_code fc c ≫= λ _, p) ((c, fc) :: steps) fin.
Proof. intros Hp. by apply follows_assoc, follows_call. Qed.

Lemma follows_last fc c : follows (must_code fc c) [(c, fc)] (ends_with 0).
Proof. apply follows_call; [done|]. apply follows_end, behaves_returns. Qed.

Lemma follows_silent {A} (p : prog A) a f steps fin : silent p a → follows (f a) steps fin → follows (p ≫= f) steps fin.
Proof. intros Hs Hf tr code. by rewrite behaves_silent. Qed.
End behaviour.

(** ** The order of the start-up *)
Definition casskop_steps (e : env) (v : FlagValues) : list (Call * Z) := [
  (AddToScheme "client-go", 2%Z); (AddToScheme "db.orange.com/v2", 2%Z);
  (Become "casskop-lock", 1%Z); (GetConfig, 1%Z);
  (NewManager (mkOptions (watchNamespace e) (default ":8080" (fl_MetricsAddr v)) (default ":8081" (fl_ProbeAddr v))), 1%Z);
  (Complete backupRegistration, 1%Z); (Complete clusterRegistration, 1%Z); (Complete restoreRegistration, 1%Z);
  (AddHealthzCheck "healthz", 1%Z); (AddReadyzCheck "readyz", 1%Z); (Start, 1%Z)].

Lemma setLogging_silent e devel : silent (setLogging e devel) ((getLogLevel e == DebugLevel) || devel).
Proof. unfold setLogging, when. by repeat case_bool_decide. Qed.

Lemma casskop_follows (e : env) v : follows (casskop e (FlagSet v)) (casskop_steps e v) (ends_with 0).
Proof.
  unfold casskop, init. apply follows_assoc, follows_must, follows_must.
  unfold main. eapply follows_silent; [done|]. eapply follows_silent; [done|]. cbn beta iota zeta.
  eapply follows_silent; [apply setLogging_silent|]. eapply follows_silent; [done|].
  eapply (follows_silent _ tt); [by destruct (getWatchNamespace e)|]. eapply follows_silent; [done|].
  do 8 apply follows_must. apply follows_last.
Qed.

(** [casskop] starts in this order: the schemes, the lock of the leader, the
    manager for the watched name space, the three controllers, the two checks, and then
    the manager.  The calls made are a prefix of that list; each was answered by nil but
    the last one, whose error ends the process with that step's code; code 0 comes only
    with every step done.  Any such run is possible.  In particular nothing reconciles
    before the lock is held, and the manager never runs with a controller missing. *)
Theorem casskop_starts_in_order (e : env) v tr code :
  behaves None (casskop e (FlagSet v)) tr code ↔ runs_then (casskop_steps e v) (ends_with 0) tr code.
Proof. apply casskop_follows. Qed.

(** RESYNC_PERIOD is read and printed, and nothing else depends on it. *)
Theorem resync_period_ignored (e : env) x v tr code :
  behaves None (casskop (<["RESYNC_PERIOD" := x]> e) (FlagSet v)) tr code ↔
  behaves None (casskop e (FlagSet v)) tr code.
Proof.
  etrans; [apply casskop_follows|symmetry; etrans; [apply casskop_follows|]]. unfold casskop_steps, watchNamespace, getWatchNamespace.
  by rewrite lookup_insert_ne.
Qed.

(** The events of restores are recorded under the name of the backup controller. *)
Example restore_recorder : reg_Recorder restoreRegistration = reg_Recorder backupRegistration.
Proof. reflexivity. Qed.

(** The environment: unset and unknown levels give the default, the case does not matter. *)
Example log_levels :
  getLogLevel ∅ = InfoLevel ∧ getLogLevel {[ "LOG_LEVEL" := "Debug" ]} = DebugLevel ∧
  getLogLevel {[ "LOG_LEVEL" := "verbose" ]} = InfoLevel.
Proof. split_and!; reflexivity. Qed.
Example resync_periods :
  getResyncPeriod ∅ = 10%Z ∧ getResyncPeriod {[ "RESYNC_PERIOD" := "-30" ]} = (-30)%Z ∧
  getResyncPeriod {[ "RESYNC_PERIOD" := "30s" ]} = 10%Z ∧ getResyncPeriod {[ "RESYNC_PERIOD" := "9223372036854775808" ]} = 10%Z.
Proof. split_and!; vm_compute; reflexivity. Qed.

(** ** The order of the start-up of multi-casskop *)
Section multi.
Context {QL : QuantityLib} {Lib : MultiLib}.

Definition config_steps (remotes : list string) : list (Call * Z) :=
  (GetConfig, 1%Z) :: ((λ r, (NamedConfig r, 1%Z)) <$> remotes).
Definition watch_steps (namespace local : string) (remotes : list string) : list (Call * Z) :=
  (Watch "MultiCasskop" local namespace, 1%Z) ::
  ((λ c, (Watch "CassandraCluster" c namespace, 1%Z)) <$> remotes ++ [local]).
(** The manager runs beside the server of the checks, and either ends the process. *)
Definition serves (tr : trace) (code : Z) : Prop :=
  (tr = [(Start, None)] ∧ code = 0%Z) ∨ (∃ err, tr = [(Start, Some err)] ∧ code = 1%Z) ∨
  (∃ err, tr = [(ListenAndServe ":8081", Some err)] ∧ code = 1%Z).

Lemma follows_app p steps1 steps2 fin : follows p (steps1 ++ steps2) fin ↔ follows p steps1 (runs_then steps2 fin).
Proof.
  unfold follows. assert (H : ∀ tr code, runs_then (steps1 ++ steps2) fin tr code ↔ runs_then steps1 (runs_then steps2 fin) tr code).
  { induction steps1 as [|[c fc] steps1 IH]; intros tr code; cbn [app].
    - by rewrite runs_then_nil.
    - rewrite !runs_then_cons. by setoid_rewrite IH. }
  by setoid_rewrite H.
Qed.

Lemma follows_remotes remotes p steps fin :
  follows p steps fin →
  follows (configureRemotes remotes ≫= λ _, p) (((λ r, (NamedConfig r, 1%Z)) <$> remotes) ++ steps) fin.
Proof. intros Hp. induction remotes as [|r rs IH]; cbn [configureRemotes]; [done|]. by apply follows_assoc, follows_must. Qed.

Lemma follows_watch ns fc clusters f steps fin :
  (∀ err, f (Some err) = Exit fc) → follows (f None) steps fin →
  follows (watchClusters clusters ns ≫= f) (((λ c, (Watch "CassandraCluster" c ns, fc)) <$> clusters) ++ steps) fin.
Proof.
  intros Hf Hn. induction clusters as [|c cs IH]; cbn [watchClusters]; [done|].
  apply follows_assoc, follows_call; [intros err; apply Hf|apply IH].
Qed.

Lemma serves_spec tr code :
  behaves None (spawn (ListenAndServe ":8081") ≫= λ _, must Start) tr code ↔ serves tr code.
Proof.
  split.
  - inversion 1 as [| | | |? ? ? ? ? Hb|]; subst. inversion Hb as [| |? ? ? err ? ? Hb'| | |? ? ? err]; subst.
    + destruct err as [err|]; [apply behaves_exits in Hb' as [-> ->]|apply behaves_returns in Hb' as [-> ->]];
        unfold serves; eauto 10.
    + unfold serves. eauto 10.
  - intros [[-> ->]|[(err & -> & ->)|(err & -> & ->)]]; constructor; repeat constructor.
Qed.

(** [multi-casskop] starts in this order: its own configuration, that of each
    remote cluster, a client for every cluster, the watch of MultiCasskop in the local
    cluster, that of CassandraCluster in the remote clusters and then in the local one;
    only then the checks are served and the manager runs.  A step that fails ends the
    process with 1, and so does a client that cannot be made; code 0 comes only with
    the manager's normal end. *)
Theorem multi_starts_in_order (e : env) local remotes tr code :
  behaves None (multi_main e (MultiSet local remotes)) tr code ↔
  runs_then (config_steps remotes)
    (match SetUpClients (mkClusters local remotes) with
     | Ok _ => runs_then (watch_steps (watchNamespace e) local remotes) serves
     | Err _ => ends_with 1
     end) tr code.
Proof.
  revert tr code. change (follows (multi_main e (MultiSet local remotes)) (config_steps remotes)
    (match SetUpClients (mkClusters local remotes) with
     | Ok _ => runs_then (watch_steps (watchNamespace e) local remotes) serves
     | Err _ => ends_with 1 end)).
  unfold multi_main, config_steps. eapply (follows_silent _ tt); [unfold when; by case_bool_decide|].
  do 3 (eapply follows_silent; [done|]). cbn beta iota zeta.
  eapply (follows_silent _ tt); [by destruct (getWatchNamespace e)|]. apply follows_must.
  rewrite <- (app_nil_r (_ <$> _)). apply follows_remotes. unfold NewController.
  destruct (SetUpClients _) as [clients|err]; [|by apply follows_end, behaves_exits].
  apply follows_app. cbn [app negb]. apply follows_assoc, follows_call; [done|].
  apply follows_assoc. rewrite <- (app_nil_r (_ <$> _)). apply follows_watch; [done|]. apply follows_end, serves_spec.
Qed.
End multi.
